
(** * phant: the dump-event NDJSON decoder ([internal/dump])

    A shallow embedding of [DecodeNDJSONLine], [validateRequiredKeys] and
    [validateEvent], together with executable models of the Go library
    functions they call ([strings.TrimSpace], [encoding/json], [time.Parse],
    [time.Time.Format]).

    Go strings and byte slices are sequences of bytes: they are modelled as
    [string], whose characters ([ascii]) are exactly the 256 byte values.
    Go's [int] is the 64-bit one; it is modelled as [Z] with the range
    written out where the library checks it. *)

From Stdlib Require Import ZArith NArith Lia List Bool Ascii String.
From Stdlib Require Import DecimalString DecimalZ.
From stdpp Require Import base option list strings gmap.

Import ListNotations.

Local Open Scope string_scope.
Local Open Scope list_scope.

(** * Definitions *)

(** ** Bytes *)

Definition byte (c : ascii) : N := N_of_ascii c.

Definition chr (n : N) : ascii := ascii_of_N n.

Definition isDigit (c : ascii) : bool :=
  ((48 <=? byte c) && (byte c <=? 57))%N.

Definition isDigit19 (c : ascii) : bool :=
  ((49 <=? byte c) && (byte c <=? 57))%N.

Definition isHex (c : ascii) : bool :=
  isDigit c
  || ((97 <=? byte c) && (byte c <=? 102))%N
  || ((65 <=? byte c) && (byte c <=? 70))%N.

(** [isSpace] of encoding/json's scanner: space, tab, CR, LF. *)
Definition isSpace (c : ascii) : bool :=
  ((byte c =? 32) || (byte c =? 9) || (byte c =? 13) || (byte c =? 10))%N.

Definition str1 (c : ascii) : string := String c "".

(** ** encoding/json: the scanner

    The scanner is written as a recursive-descent recogniser.  Each function
    takes the text that starts at the construct and gives back the bytes it
    consumed (the raw text of the construct) and the text that follows. *)

Fixpoint skipSpace (s : string) : string * string :=
  match s with
  | String c r =>
      if isSpace c then let '(w, r') := skipSpace r in (String c w, r')
      else ("", s)
  | "" => ("", "")
  end.

Fixpoint spanDigits (s : string) : string * string :=
  match s with
  | String c r =>
      if isDigit c then let '(d, r') := spanDigits r in (String c d, r')
      else ("", s)
  | "" => ("", "")
  end.

(** The states of the scanner inside a string literal: [stateInString],
    [stateInStringEsc] and, after [\u], the number of hexadecimal digits
    still to come. *)
Inductive strState : Type :=
| InString
| InStringEsc
| InStringEscU (more : nat).

Definition isSimpleEscape (e : ascii) : bool :=
  ((byte e =? 98) || (byte e =? 102) || (byte e =? 110) || (byte e =? 114)
   || (byte e =? 116) || (byte e =? 92) || (byte e =? 47) || (byte e =? 34))%N.

(** The body of a string literal, after the opening quote: the content
    between the quotes (still escaped) and the text after the closing
    quote. *)
Fixpoint scanStringBody (st : strState) (s : string)
  : option (string * string) :=
  match s with
  | "" => None
  | String c r =>
      match st with
      | InString =>
          if (byte c =? 34)%N then Some ("", r)
          else if (byte c =? 92)%N then
            match scanStringBody InStringEsc r with
            | Some (b, r') => Some (String c b, r')
            | None => None
            end
          else if (byte c <? 32)%N then None
          else
            match scanStringBody InString r with
            | Some (b, r') => Some (String c b, r')
            | None => None
            end
      | InStringEsc =>
          if isSimpleEscape c then
            match scanStringBody InString r with
            | Some (b, r') => Some (String c b, r')
            | None => None
            end
          else if (byte c =? 117)%N then
            match scanStringBody (InStringEscU 3) r with
            | Some (b, r') => Some (String c b, r')
            | None => None
            end
          else None
      | InStringEscU k =>
          if isHex c then
            match scanStringBody
                    (match k with O => InString | S k' => InStringEscU k' end) r
            with
            | Some (b, r') => Some (String c b, r')
            | None => None
            end
          else None
      end
  end.

(** Optional fraction and exponent of a number. *)
Definition scanFrac (s : string) : option (string * string) :=
  match s with
  | String c r =>
      if (byte c =? 46)%N then
        match spanDigits r with
        | ("", _) => None
        | (d, r') => Some (String c d, r')
        end
      else Some ("", s)
  | "" => Some ("", "")
  end.

Definition scanExp (s : string) : option (string * string) :=
  match s with
  | String c r =>
      if ((byte c =? 101) || (byte c =? 69))%N then
        let '(sg, r1) :=
          match r with
          | String g r' =>
              if ((byte g =? 43) || (byte g =? 45))%N then (str1 g, r')
              else ("", r)
          | "" => ("", r)
          end in
        match spanDigits r1 with
        | ("", _) => None
        | (d, r') => Some (String c (sg +:+ d), r')
        end
      else Some ("", s)
  | "" => Some ("", "")
  end.

Definition scanInt (s : string) : option (string * string) :=
  match s with
  | String c r =>
      if (byte c =? 48)%N then Some (str1 c, r)
      else if isDigit19 c then
        let '(d, r') := spanDigits r in Some (String c d, r')
      else None
  | "" => None
  end.

Definition scanNumber (s : string) : option (string * string) :=
  let '(sg, s1) :=
    match s with
    | String c r => if (byte c =? 45)%N then (str1 c, r) else ("", s)
    | "" => ("", s)
    end in
  match scanInt s1 with
  | Some (i, s2) =>
      match scanFrac s2 with
      | Some (f, s3) =>
          match scanExp s3 with
          | Some (e, s4) => Some (sg +:+ i +:+ f +:+ e, s4)
          | None => None
          end
      | None => None
      end
  | None => None
  end.

(** [stripPrefix p s]: the text after [p] when [s] starts with [p]. *)
Fixpoint stripPrefix (p s : string) : option string :=
  match p, s with
  | "", _ => Some s
  | String a p', String b s' =>
      if Ascii.eqb a b then stripPrefix p' s' else None
  | _, "" => None
  end.

(** What a value is at its top level.  Arrays and objects list the raw
    text of their elements and members, as the decoder needs them (a
    [json.RawMessage] holds exactly that text); member keys are the key
    literal's content, still escaped. *)
Inductive shape : Type :=
| VNull
| VBool (b : bool)
| VNumber
| VString (content : string)
| VArray (elems : list string)
| VObject (members : list (string * string)).

Definition maxNestingDepth : N := 10000.

(** [scanValue fuel depth s]: [s] starts at the first byte of a value
    nested in [depth] arrays and objects.  The result is the value's
    shape, its raw text and the text after it. *)
Fixpoint scanValue (fuel : nat) (depth : N) (s : string)
  : option (shape * string * string) :=
  match fuel with
  | O => None
  | S fuel =>
      match s with
      | "" => None
      | String c r =>
          if (byte c =? 123)%N then
            if (depth + 1 <=? maxNestingDepth)%N then
              let '(w0, r0) := skipSpace r in
              match r0 with
              | String c0 r1 =>
                  if (byte c0 =? 125)%N then
                    Some (VObject [], String c (w0 +:+ str1 c0), r1)
                  else
                    match scanMembers fuel (depth + 1) r0 with
                    | Some (ms, raw, r2) =>
                        Some (VObject ms, String c (w0 +:+ raw), r2)
                    | None => None
                    end
              | "" => None
              end
            else None
          else if (byte c =? 91)%N then
            if (depth + 1 <=? maxNestingDepth)%N then
              let '(w0, r0) := skipSpace r in
              match r0 with
              | String c0 r1 =>
                  if (byte c0 =? 93)%N then
                    Some (VArray [], String c (w0 +:+ str1 c0), r1)
                  else
                    match scanElems fuel (depth + 1) r0 with
                    | Some (es, raw, r2) =>
                        Some (VArray es, String c (w0 +:+ raw), r2)
                    | None => None
                    end
              | "" => None
              end
            else None
          else if (byte c =? 34)%N then
            match scanStringBody InString r with
            | Some (b, r1) =>
                Some (VString b, String c (b +:+ str1 c), r1)
            | None => None
            end
          else if (byte c =? 116)%N then
            match stripPrefix "true" s with
            | Some r1 => Some (VBool true, "true", r1)
            | None => None
            end
          else if (byte c =? 102)%N then
            match stripPrefix "false" s with
            | Some r1 => Some (VBool false, "false", r1)
            | None => None
            end
          else if (byte c =? 110)%N then
            match stripPrefix "null" s with
            | Some r1 => Some (VNull, "null", r1)
            | None => None
            end
          else
            match scanNumber s with
            | Some (n, r1) => Some (VNumber, n, r1)
            | None => None
            end
      end
  end

(** Elements of a non-empty array, from the first byte of an element up
    to and including the closing bracket. *)
with scanElems (fuel : nat) (depth : N) (s : string)
  : option (list string * string * string) :=
  match fuel with
  | O => None
  | S fuel =>
      match scanValue fuel depth s with
      | Some (_, v, r) =>
          let '(w1, r1) := skipSpace r in
          match r1 with
          | String c r2 =>
              if (byte c =? 93)%N then
                Some ([v], v +:+ w1 +:+ str1 c, r2)
              else if (byte c =? 44)%N then
                let '(w2, r3) := skipSpace r2 in
                match scanElems fuel depth r3 with
                | Some (es, raw, r4) =>
                    Some (v :: es, v +:+ w1 +:+ String c (w2 +:+ raw), r4)
                | None => None
                end
              else None
          | "" => None
          end
      | None => None
      end
  end

(** Members of a non-empty object, from the opening quote of the first
    key up to and including the closing brace. *)
with scanMembers (fuel : nat) (depth : N) (s : string)
  : option (list (string * string) * string * string) :=
  match fuel with
  | O => None
  | S fuel =>
      match s with
      | String q r =>
          if (byte q =? 34)%N then
            match scanStringBody InString r with
            | Some (k, r0) =>
                let '(w0, r1) := skipSpace r0 in
                match r1 with
                | String c1 r2 =>
                    if (byte c1 =? 58)%N then
                      let '(w1, r3) := skipSpace r2 in
                      match scanValue fuel depth r3 with
                      | Some (_, v, r4) =>
                          let '(w2, r5) := skipSpace r4 in
                          let pre :=
                            String q (k +:+ String q (w0 +:+ String c1 (w1 +:+ v +:+ w2))) in
                          match r5 with
                          | String c r6 =>
                              if (byte c =? 125)%N then
                                Some ([(k, v)], pre +:+ str1 c, r6)
                              else if (byte c =? 44)%N then
                                let '(w3, r7) := skipSpace r6 in
                                match scanMembers fuel depth r7 with
                                | Some (ms, raw, r8) =>
                                    Some ((k, v) :: ms,
                                          pre +:+ String c (w3 +:+ raw), r8)
                                | None => None
                                end
                              else None
                          | "" => None
                          end
                      | None => None
                      end
                    else None
                | "" => None
                end
            | None => None
            end
          else None
      | "" => None
      end
  end.

(** [checkValid]/[json.Valid]: one value, with white space around it. *)
Definition parseDocument (data : string) : option (shape * string) :=
  let '(_, s) := skipSpace data in
  match scanValue (S (String.length s)) 0 s with
  | Some (sh, raw, r) =>
      match skipSpace r with
      | (_, "") => Some (sh, raw)
      | _ => None
      end
  | None => None
  end.

Definition json_Valid (data : string) : bool :=
  match parseDocument data with Some _ => true | None => false end.

(** Test texts are written with ['] where JSON has its double quote. *)
Fixpoint jsonText (s : string) : string :=
  match s with
  | "" => ""
  | String c r =>
      String (if (byte c =? 39)%N then chr 34 else c) (jsonText r)
  end.

(** ** unicode/utf8 and unicode/utf16

    Runes are numbers.  The bit operations of the library ([<<], [|],
    masks) act on disjoint bit fields; they are written here with the
    equivalent multiplications, quotients and remainders. *)

Definition RuneError : N := 65533.

Definition MaxRune : N := 1114111.

Definition isCont (c : ascii) : bool :=
  ((128 <=? byte c) && (byte c <=? 191))%N.

Definition inRange (lo hi : N) (c : ascii) : bool :=
  ((lo <=? byte c) && (byte c <=? hi))%N.

(** [utf8.DecodeRune] on a non-empty text: the rune and its width; an
    invalid or truncated encoding gives [(RuneError, 1)]. *)
Definition utf8_DecodeRune (s : string) : N * nat :=
  match s with
  | "" => (RuneError, 0%nat)
  | String c0 r0 =>
      let b0 := byte c0 in
      if (b0 <? 128)%N then (b0, 1%nat)
      else if inRange 194 223 c0 then
        match r0 with
        | String c1 _ =>
            if isCont c1 then (((b0 - 192) * 64 + (byte c1 - 128))%N, 2%nat)
            else (RuneError, 1%nat)
        | _ => (RuneError, 1%nat)
        end
      else if inRange 224 239 c0 then
        match r0 with
        | String c1 (String c2 _) =>
            let lo := if (b0 =? 224)%N then 160%N else 128%N in
            let hi := if (b0 =? 237)%N then 159%N else 191%N in
            if inRange lo hi c1 && isCont c2 then
              (((b0 - 224) * 4096 + (byte c1 - 128) * 64
                + (byte c2 - 128))%N, 3%nat)
            else (RuneError, 1%nat)
        | _ => (RuneError, 1%nat)
        end
      else if inRange 240 244 c0 then
        match r0 with
        | String c1 (String c2 (String c3 _)) =>
            let lo := if (b0 =? 240)%N then 144%N else 128%N in
            let hi := if (b0 =? 244)%N then 143%N else 191%N in
            if inRange lo hi c1 && isCont c2 && isCont c3 then
              (((b0 - 240) * 262144 + (byte c1 - 128) * 4096
                + (byte c2 - 128) * 64 + (byte c3 - 128))%N, 4%nat)
            else (RuneError, 1%nat)
        | _ => (RuneError, 1%nat)
        end
      else (RuneError, 1%nat)
  end.

Definition isSurrogate (r : N) : bool :=
  ((55296 <=? r) && (r <? 57344))%N.

(** [utf8.EncodeRune] (through [utf8.AppendRune]). *)
Definition utf8_EncodeRune (r : N) : string :=
  let r := if (MaxRune <? r)%N || isSurrogate r then RuneError else r in
  if (r <? 128)%N then str1 (chr r)
  else if (r <? 2048)%N then
    String (chr (192 + r / 64)) (str1 (chr (128 + r mod 64)))
  else if (r <? 65536)%N then
    String (chr (224 + r / 4096))
      (String (chr (128 + (r / 64) mod 64)) (str1 (chr (128 + r mod 64))))
  else
    String (chr (240 + r / 262144))
      (String (chr (128 + (r / 4096) mod 64))
         (String (chr (128 + (r / 64) mod 64))
            (str1 (chr (128 + r mod 64))))).

(** [utf16.DecodeRune]. *)
Definition utf16_DecodeRune (r1 r2 : N) : N :=
  if ((55296 <=? r1) && (r1 <? 56320) && (56320 <=? r2) && (r2 <? 57344))%N
  then ((r1 - 55296) * 1024 + (r2 - 56320) + 65536)%N
  else RuneError.

(** ** encoding/json: string literals *)

Definition hexVal (c : ascii) : option N :=
  let b := byte c in
  if isDigit c then Some (b - 48)%N
  else if ((97 <=? b) && (b <=? 102))%N then Some (b - 87)%N
  else if ((65 <=? b) && (b <=? 70))%N then Some (b - 55)%N
  else None.

(** [getu4] on the four characters after a backslash and a [u]. *)
Definition getu4 (h1 h2 h3 h4 : ascii) : option N :=
  match hexVal h1, hexVal h2, hexVal h3, hexVal h4 with
  | Some a, Some b, Some c, Some d =>
      Some (((a * 16 + b) * 16 + c) * 16 + d)%N
  | _, _, _, _ => None
  end.

(** [getu4] on a text that must start with a whole [\uXXXX] escape. *)
Definition getu4At (s : string) : option N :=
  match s with
  | String b (String u (String h1 (String h2 (String h3 (String h4 _))))) =>
      if ((byte b =? 92) && (byte u =? 117))%N then getu4 h1 h2 h3 h4
      else None
  | _ => None
  end.

(** [unquote] on the content of a literal (the quotes already removed). *)
Fixpoint unquote (s : string) : option string :=
  match s with
  | "" => Some ""
  | String c r =>
      let b := byte c in
      if (b =? 92)%N then
        match r with
        | "" => None
        | String e r1 =>
            let be := byte e in
            if ((be =? 34) || (be =? 92) || (be =? 47) || (be =? 39))%N then
              option_map (String e) (unquote r1)
            else if (be =? 98)%N then option_map (String (chr 8)) (unquote r1)
            else if (be =? 102)%N then option_map (String (chr 12)) (unquote r1)
            else if (be =? 110)%N then option_map (String (chr 10)) (unquote r1)
            else if (be =? 114)%N then option_map (String (chr 13)) (unquote r1)
            else if (be =? 116)%N then option_map (String (chr 9)) (unquote r1)
            else if (be =? 117)%N then
              match r1 with
              | String h1 (String h2 (String h3 (String h4 r2))) =>
                  match getu4 h1 h2 h3 h4 with
                  | None => None
                  | Some rr =>
                      if isSurrogate rr then
                        let rr1 :=
                          match getu4At r2 with Some x => x | None => 0%N end in
                        let dec := utf16_DecodeRune rr rr1 in
                        if (dec =? RuneError)%N then
                          option_map (String.append (utf8_EncodeRune RuneError))
                            (unquote r2)
                        else
                          match r2 with
                          | String _ (String _ (String _ (String _
                              (String _ (String _ r3))))) =>
                              option_map (String.append (utf8_EncodeRune dec))
                                (unquote r3)
                          | _ => None
                          end
                      else
                        option_map (String.append (utf8_EncodeRune rr))
                          (unquote r2)
                  end
              | _ => None
              end
            else None
        end
      else if ((b =? 34) || (b <? 32))%N then None
      else if (b <? 128)%N then option_map (String c) (unquote r)
      else
        let '(rr, size) := utf8_DecodeRune s in
        let rest :=
          match size, r with
          | 2%nat, String _ r2 => unquote r2
          | 3%nat, String _ (String _ r3) => unquote r3
          | 4%nat, String _ (String _ (String _ r4)) => unquote r4
          | _, _ => unquote r
          end in
        option_map (String.append (utf8_EncodeRune rr)) rest
  end.

(** ** strconv *)

Definition minInt64 : Z := (- 9223372036854775808)%Z.

Definition maxInt64 : Z := 9223372036854775807%Z.

Definition inInt64 (z : Z) : bool :=
  ((minInt64 <=? z) && (z <=? maxInt64))%Z.

(** [strconv.ParseInt s 10 64]: an optional sign, then decimal digits;
    [None] is a syntax or a range error. *)
Definition strconv_ParseInt (s : string) : option Z :=
  let body :=
    match s with
    | String c r => if (byte c =? 43)%N then r else s
    | "" => s
    end in
  match NilZero.int_of_string body with
  | Some d =>
      match s with
      | String c (String c' _) =>
          if ((byte c =? 43) && (byte c' =? 45))%N then None
          else let z := Z.of_int d in if inInt64 z then Some z else None
      | _ => let z := Z.of_int d in if inInt64 z then Some z else None
      end
  | None => None
  end.

(** [strconv.FormatInt z 10]. *)
Definition strconv_FormatInt (z : Z) : string :=
  NilZero.string_of_int (Z.to_int z).

(** ** internal/dump/types.go

    A nil pointer, nil slice or nil [json.RawMessage] is [None]. *)

Definition SchemaVersion_const : Z := 1%Z.

Record HTTPMeta : Type := mkHTTPMeta {
  HTTPMeta_Method : string;
  HTTPMeta_Scheme : string;
  HTTPMeta_Host : string;
  HTTPMeta_Path : string;
  HTTPMeta_Query : string;
  HTTPMeta_StatusCode : option Z;
  HTTPMeta_ClientIP : string;
  HTTPMeta_UserAgent : string
}.

Record CommandMeta : Type := mkCommandMeta {
  CommandMeta_Name : string;
  CommandMeta_Args : option (list string);
  CommandMeta_Cwd : string
}.

Record TraceFrame : Type := mkTraceFrame {
  TraceFrame_File : string;
  TraceFrame_Line : Z;
  TraceFrame_Func : string
}.

Record HostMeta : Type := mkHostMeta {
  HostMeta_Hostname : string;
  HostMeta_PID : Z
}.

Record Event : Type := mkEvent {
  SchemaVersion : Z;
  ID : string;
  Timestamp : string;
  SourceType : string;
  ProjectRoot : string;
  PHPSAPI : string;
  RequestID : option string;
  HTTP : option HTTPMeta;
  Command : option CommandMeta;
  IsDD : bool;
  PayloadFormat : string;
  Payload : option string;
  Trace : option (list TraceFrame);
  Host : HostMeta
}.

Definition zeroHTTPMeta : HTTPMeta := mkHTTPMeta "" "" "" "" "" None "" "".

Definition zeroCommandMeta : CommandMeta := mkCommandMeta "" None "".

Definition zeroTraceFrame : TraceFrame := mkTraceFrame "" 0 "".

Definition zeroHostMeta : HostMeta := mkHostMeta "" 0.

Definition zeroEvent : Event :=
  mkEvent 0 "" "" "" "" "" None None None false "" None None zeroHostMeta.

(** ** Errors

    [ErrUnsupportedSchemaVersion] is the package-level sentinel; a value
    made by [errors.New] or [fmt.Errorf] at a return site is
    [errors_New] with its message.  The two errors of encoding/json are
    kept without their message text. *)
Inductive error : Type :=
| ErrUnsupportedSchemaVersion
| errors_New (msg : string)
| json_SyntaxError
| json_UnmarshalTypeError.

Definition fmt_Errorf_s (prefix arg : string) : error :=
  errors_New (prefix +:+ arg).

Definition result (A : Type) : Type := (error + A)%type.

Definition bindR {A B : Type} (r : result A) (k : A -> result B) : result B :=
  match r with
  | inl e => inl e
  | inr a => k a
  end.

Notation "'do' x <- r ; k" := (bindR r (fun x => k))
  (at level 10, x name, r at level 100, k at level 200).

(** ** encoding/json: decoding *)

(** The shape of a raw value that the scanner delimited. *)
Definition shapeOf (raw : string) : option shape :=
  match scanValue (S (String.length raw)) 0 raw with
  | Some (sh, _, "") => Some sh
  | _ => None
  end.

Definition toUpper (c : ascii) : ascii :=
  if ((97 <=? byte c) && (byte c <=? 122))%N then chr (byte c - 32) else c.

Fixpoint upperName (s : string) : string :=
  match s with
  | "" => ""
  | String c r => String (toUpper c) (upperName r)
  end.

(** [foldName] on a key, when every rune of the key folds to an ASCII
    character: ASCII letters fold to upper case, U+017F to [S] and U+212A
    to [K].  No other rune shares a fold orbit with an ASCII character, so
    a key with another rune ([None]) matches no field of these structs,
    whose names are ASCII. *)
Fixpoint foldASCII (s : string) : option string :=
  match s with
  | "" => Some ""
  | String c r =>
      if (byte c <? 128)%N then option_map (String (toUpper c)) (foldASCII r)
      else
        match utf8_DecodeRune s, r with
        | (383%N, 2%nat), String _ r2 =>
            option_map (String "S"%char) (foldASCII r2)
        | (8490%N, 3%nat), String _ (String _ r3) =>
            option_map (String "K"%char) (foldASCII r3)
        | _, _ => None
        end
  end.

Fixpoint indexWhere (p : string -> bool) (names : list string) : option nat :=
  match names with
  | [] => None
  | n :: ns =>
      if p n then Some 0%nat else option_map S (indexWhere p ns)
  end.

(** The field a key selects: the one with exactly that name, otherwise
    the first one with the same folded name. *)
Definition findField (names : list string) (key : string) : option nat :=
  match indexWhere (String.eqb key) names with
  | Some i => Some i
  | None =>
      match foldASCII key with
      | Some k => indexWhere (fun n => String.eqb (upperName n) k) names
      | None => None
      end
  end.

Definition decodeString (raw : string) (cur : string) : result string :=
  match shapeOf raw with
  | Some (VString c) =>
      match unquote c with
      | Some s => inr s
      | None => inl json_SyntaxError
      end
  | Some VNull => inr cur
  | Some _ => inl json_UnmarshalTypeError
  | None => inl json_SyntaxError
  end.

Definition decodeInt (raw : string) (cur : Z) : result Z :=
  match shapeOf raw with
  | Some VNumber =>
      match strconv_ParseInt raw with
      | Some z => inr z
      | None => inl json_UnmarshalTypeError
      end
  | Some VNull => inr cur
  | Some _ => inl json_UnmarshalTypeError
  | None => inl json_SyntaxError
  end.

Definition decodeBool (raw : string) (cur : bool) : result bool :=
  match shapeOf raw with
  | Some (VBool b) => inr b
  | Some VNull => inr cur
  | Some _ => inl json_UnmarshalTypeError
  | None => inl json_SyntaxError
  end.

(** Pointer targets: [null] sets the pointer to nil, any other value is
    decoded into the pointee (a fresh zero value when the pointer was
    nil). *)
Definition decodePtr {A : Type} (zero : A)
    (dec : string -> A -> result A) (raw : string) (cur : option A)
  : result (option A) :=
  match shapeOf raw with
  | Some VNull => inr None
  | _ => do a <- dec raw (match cur with Some a => a | None => zero end);
         inr (Some a)
  end.

(** The elements of an array, each decoded into the cell of the backing
    array at its index; a cell that the backing array does not have yet
    is a zero value. *)
Fixpoint decodeElems {A : Type} (zero : A)
    (dec : string -> A -> result A) (es : list string) (cells : list A)
  : result (list A) :=
  match es with
  | [] => inr []
  | e :: es' =>
      do a <- dec e (hd zero cells);
      do l <- decodeElems zero dec es' (tl cells); inr (a :: l)
  end.

(** Slices.  The target is the slice up to its length ([None] when it is
    nil) with the cells that its backing array holds beyond the length:
    what an earlier, longer value of the same slice has left there.
    [null] gives the nil slice and the empty array a new, empty slice.
    Any other array is decoded element by element into the cells it
    reaches, those beyond the length too, none of them cleared first
    ([array] sets the length with [SetLen] and decodes into
    [v.Index(i)]); in the end the length is the number of elements. *)
Definition decodeSlice {A : Type} (zero : A)
    (dec : string -> A -> result A) (raw : string)
    (cur : option (list A) * list A) : result (option (list A) * list A) :=
  match shapeOf raw with
  | Some VNull => inr (None, [])
  | Some (VArray []) => inr (Some [], [])
  | Some (VArray es) =>
      let cells := match fst cur with Some l => l | None => [] end ++ snd cur in
      do l <- decodeElems zero dec es cells;
      inr (Some l, drop (List.length es) cells)
  | Some _ => inl json_UnmarshalTypeError
  | None => inl json_SyntaxError
  end.

(** The members of an object, in order, each stored into the field its
    key selects. *)
Fixpoint decodeMembers {T : Type}
    (setField : string -> string -> T -> result T)
    (ms : list (string * string)) (cur : T) : result T :=
  match ms with
  | [] => inr cur
  | (k, v) :: ms' =>
      match unquote k with
      | Some key =>
          do cur' <- setField key v cur; decodeMembers setField ms' cur'
      | None => inl json_SyntaxError
      end
  end.

(** Struct targets: [null] leaves the struct as it is. *)
Definition decodeStruct {T : Type}
    (setField : string -> string -> T -> result T)
    (raw : string) (cur : T) : result T :=
  match shapeOf raw with
  | Some (VObject ms) => decodeMembers setField ms cur
  | Some VNull => inr cur
  | Some _ => inl json_UnmarshalTypeError
  | None => inl json_SyntaxError
  end.

Definition HTTPMeta_names : list string :=
  ["method"; "scheme"; "host"; "path"; "query"; "statusCode"; "clientIp";
   "userAgent"].

Definition setHTTPMetaField (key raw : string) (h : HTTPMeta)
  : result HTTPMeta :=
  let '(mkHTTPMeta me sc ho pa qu st ci ua) := h in
  match findField HTTPMeta_names key with
  | Some 0%nat => do x <- decodeString raw me; inr (mkHTTPMeta x sc ho pa qu st ci ua)
  | Some 1%nat => do x <- decodeString raw sc; inr (mkHTTPMeta me x ho pa qu st ci ua)
  | Some 2%nat => do x <- decodeString raw ho; inr (mkHTTPMeta me sc x pa qu st ci ua)
  | Some 3%nat => do x <- decodeString raw pa; inr (mkHTTPMeta me sc ho x qu st ci ua)
  | Some 4%nat => do x <- decodeString raw qu; inr (mkHTTPMeta me sc ho pa x st ci ua)
  | Some 5%nat => do x <- decodePtr 0%Z decodeInt raw st;
                  inr (mkHTTPMeta me sc ho pa qu x ci ua)
  | Some 6%nat => do x <- decodeString raw ci; inr (mkHTTPMeta me sc ho pa qu st x ua)
  | Some 7%nat => do x <- decodeString raw ua; inr (mkHTTPMeta me sc ho pa qu st ci x)
  | _ => inr h
  end.

Definition CommandMeta_names : list string := ["name"; "args"; "cwd"].

(** A [CommandMeta] in memory: the struct, and the cells that the
    backing array of [Args] holds beyond its length. *)
Definition CommandMetaMem : Type := CommandMeta * list string.

Definition setCommandMetaField (key raw : string) (c : CommandMetaMem)
  : result CommandMetaMem :=
  let '(mkCommandMeta na ar cw, rest) := c in
  match findField CommandMeta_names key with
  | Some 0%nat => do x <- decodeString raw na; inr (mkCommandMeta x ar cw, rest)
  | Some 1%nat => do x <- decodeSlice "" decodeString raw (ar, rest);
                  inr (mkCommandMeta na (fst x) cw, snd x)
  | Some 2%nat => do x <- decodeString raw cw; inr (mkCommandMeta na ar x, rest)
  | _ => inr c
  end.

Definition TraceFrame_names : list string := ["file"; "line"; "func"].

Definition setTraceFrameField (key raw : string) (f : TraceFrame)
  : result TraceFrame :=
  let '(mkTraceFrame fi li fu) := f in
  match findField TraceFrame_names key with
  | Some 0%nat => do x <- decodeString raw fi; inr (mkTraceFrame x li fu)
  | Some 1%nat => do x <- decodeInt raw li; inr (mkTraceFrame fi x fu)
  | Some 2%nat => do x <- decodeString raw fu; inr (mkTraceFrame fi li x)
  | _ => inr f
  end.

Definition HostMeta_names : list string := ["hostname"; "pid"].

Definition setHostMetaField (key raw : string) (h : HostMeta)
  : result HostMeta :=
  let '(mkHostMeta hn pid) := h in
  match findField HostMeta_names key with
  | Some 0%nat => do x <- decodeString raw hn; inr (mkHostMeta x pid)
  | Some 1%nat => do x <- decodeInt raw pid; inr (mkHostMeta hn x)
  | _ => inr h
  end.

Definition Event_names : list string :=
  ["schemaVersion"; "id"; "timestamp"; "sourceType"; "projectRoot";
   "phpSapi"; "requestId"; "http"; "command"; "isDd"; "payloadFormat";
   "payload"; "trace"; "host"].

(** An [Event] in memory: the struct, the cells that the backing array
    of [Trace] holds beyond its length, and the same for the [Args] of
    the [CommandMeta] that [Command] points to (none when it is nil). *)
Definition EventMem : Type := Event * list TraceFrame * list string.

Definition eventOf (m : EventMem) : Event := fst (fst m).

Definition zeroEventMem : EventMem := (zeroEvent, [], []).

Definition setEventField (key raw : string) (m : EventMem) : result EventMem :=
  let '(mkEvent sv id ts st pr sa rq ht cm dd pf pl tr ho, trs, ars) := m in
  match findField Event_names key with
  | Some 0%nat => do x <- decodeInt raw sv;
      inr (mkEvent x id ts st pr sa rq ht cm dd pf pl tr ho, trs, ars)
  | Some 1%nat => do x <- decodeString raw id;
      inr (mkEvent sv x ts st pr sa rq ht cm dd pf pl tr ho, trs, ars)
  | Some 2%nat => do x <- decodeString raw ts;
      inr (mkEvent sv id x st pr sa rq ht cm dd pf pl tr ho, trs, ars)
  | Some 3%nat => do x <- decodeString raw st;
      inr (mkEvent sv id ts x pr sa rq ht cm dd pf pl tr ho, trs, ars)
  | Some 4%nat => do x <- decodeString raw pr;
      inr (mkEvent sv id ts st x sa rq ht cm dd pf pl tr ho, trs, ars)
  | Some 5%nat => do x <- decodeString raw sa;
      inr (mkEvent sv id ts st pr x rq ht cm dd pf pl tr ho, trs, ars)
  | Some 6%nat => do x <- decodePtr "" decodeString raw rq;
      inr (mkEvent sv id ts st pr sa x ht cm dd pf pl tr ho, trs, ars)
  | Some 7%nat =>
      do x <- decodePtr zeroHTTPMeta (decodeStruct setHTTPMetaField) raw ht;
      inr (mkEvent sv id ts st pr sa rq x cm dd pf pl tr ho, trs, ars)
  | Some 8%nat =>
      do x <- decodePtr (zeroCommandMeta, []) (decodeStruct setCommandMetaField)
                raw (option_map (fun c => (c, ars)) cm);
      inr (mkEvent sv id ts st pr sa rq ht (option_map fst x) dd pf pl tr ho,
           trs, match x with Some c => snd c | None => [] end)
  | Some 9%nat => do x <- decodeBool raw dd;
      inr (mkEvent sv id ts st pr sa rq ht cm x pf pl tr ho, trs, ars)
  | Some 10%nat => do x <- decodeString raw pf;
      inr (mkEvent sv id ts st pr sa rq ht cm dd x pl tr ho, trs, ars)
  | Some 11%nat =>
      inr (mkEvent sv id ts st pr sa rq ht cm dd pf (Some raw) tr ho, trs, ars)
  | Some 12%nat =>
      do x <- decodeSlice zeroTraceFrame (decodeStruct setTraceFrameField) raw
                (tr, trs);
      inr (mkEvent sv id ts st pr sa rq ht cm dd pf pl (fst x) ho, snd x, ars)
  | Some 13%nat => do x <- decodeStruct setHostMetaField raw ho;
      inr (mkEvent sv id ts st pr sa rq ht cm dd pf pl tr x, trs, ars)
  | _ => inr m
  end.

(** [json.Unmarshal] at the target types the package uses.  Each one
    first checks the whole input ([checkValid]). *)

Definition json_Unmarshal_Event (data : string) : result Event :=
  match parseDocument data with
  | Some (_, raw) =>
      do m <- decodeStruct setEventField raw zeroEventMem; inr (eventOf m)
  | None => inl json_SyntaxError
  end.

Definition json_Unmarshal_string (data : string) : result string :=
  match parseDocument data with
  | Some (_, raw) => decodeString raw ""
  | None => inl json_SyntaxError
  end.

Definition json_Unmarshal_bool (data : string) : result bool :=
  match parseDocument data with
  | Some (_, raw) => decodeBool raw false
  | None => inl json_SyntaxError
  end.

(** Into [[]json.RawMessage]: every element is kept as its raw text. *)
Definition json_Unmarshal_RawMessages (data : string)
  : result (option (list string)) :=
  match parseDocument data with
  | Some (VArray es, _) => inr (Some es)
  | Some (VNull, _) => inr None
  | Some _ => inl json_UnmarshalTypeError
  | None => inl json_SyntaxError
  end.

Fixpoint insertMembers (ms : list (string * string)) (m : gmap string string)
  : result (gmap string string) :=
  match ms with
  | [] => inr m
  | (k, v) :: ms' =>
      match unquote k with
      | Some key => insertMembers ms' (<[key := v]> m)
      | None => inl json_SyntaxError
      end
  end.

(** Into [map[string]json.RawMessage]; the nil map that [null] leaves
    behaves as the empty one under lookup. *)
Definition json_Unmarshal_RawMap (data : string)
  : result (gmap string string) :=
  match parseDocument data with
  | Some (VObject ms, _) => insertMembers ms ∅
  | Some (VNull, _) => inr ∅
  | Some _ => inl json_UnmarshalTypeError
  | None => inl json_SyntaxError
  end.

(** ** time: [Parse] with the layout [RFC3339Nano], [UTC] and [Format]

    [RFC3339Nano] is ["2006-01-02T15:04:05.999999999Z07:00"].  A [Time] is
    an instant: seconds since 1970-01-01T00:00:00Z and nanoseconds within
    the second.  The calendar is the proleptic Gregorian one. *)

Notation "'opt' ' p <- r ; k" :=
  (match r with Some p => k | None => None end)
  (at level 10, p pattern, r at level 100, k at level 200).

Record Time : Type := mkTime { unixSec : Z; nanosec : Z }.

Local Open Scope Z_scope.

Definition isLeap (y : Z) : bool :=
  (y mod 4 =? 0) && (negb (y mod 100 =? 0) || (y mod 400 =? 0)).

Definition daysIn (m y : Z) : Z :=
  if m =? 2 then (if isLeap y then 29 else 28)
  else if (m =? 4) || (m =? 6) || (m =? 9) || (m =? 11) then 30
  else 31.

(** Days from 1970-01-01 to the civil date, and back. *)
Definition daysFromCivil (y m d : Z) : Z :=
  let y' := if m <=? 2 then y - 1 else y in
  let era := y' / 400 in
  let yoe := y' - era * 400 in
  let doy := (153 * (if 2 <? m then m - 3 else m + 9) + 2) / 5 + d - 1 in
  let doe := yoe * 365 + yoe / 4 - yoe / 100 + doy in
  era * 146097 + doe - 719468.

Definition civilFromDays (days : Z) : Z * Z * Z :=
  let z := days + 719468 in
  let era := z / 146097 in
  let doe := z - era * 146097 in
  let yoe := (doe - doe / 1460 + doe / 36524 - doe / 146096) / 365 in
  let doy := doe - (365 * yoe + yoe / 4 - yoe / 100) in
  let mp := (5 * doy + 2) / 153 in
  let d := doy - (153 * mp + 2) / 5 + 1 in
  let m := if mp <? 10 then mp + 3 else mp - 9 in
  let y := yoe + era * 400 in
  (if m <=? 2 then y + 1 else y, m, d).

Definition digitVal (c : ascii) : Z := Z.of_N (byte c - 48).

(** [getnum]: one or two digits; exactly two when [fixed]. *)
Definition getnum (s : string) (fixed : bool) : option (Z * string) :=
  match s with
  | String c0 r0 =>
      if isDigit c0 then
        match r0 with
        | String c1 r1 =>
            if isDigit c1 then Some (digitVal c0 * 10 + digitVal c1, r1)
            else if fixed then None else Some (digitVal c0, r0)
        | "" => if fixed then None else Some (digitVal c0, r0)
        end
      else None
  | "" => None
  end.

Definition skipByte (b : N) (s : string) : option string :=
  match s with
  | String c r => if (byte c =? b)%N then Some r else None
  | "" => None
  end.

Definition commaOrPeriod (c : ascii) : bool :=
  ((byte c =? 46) || (byte c =? 44))%N.

Fixpoint digitsVal (acc : Z) (s : string) : Z :=
  match s with
  | "" => acc
  | String c r => digitsVal (acc * 10 + digitVal c) r
  end.

Fixpoint takeStr (n : nat) (s : string) : string :=
  match n, s with
  | S n', String c r => String c (takeStr n' r)
  | _, _ => ""
  end.

Fixpoint scale10 (n : nat) (z : Z) : Z :=
  match n with
  | O => z
  | S n' => scale10 n' (z * 10)
  end.

(** The year: four digits. *)
Definition parseYear (s : string) : option (Z * string) :=
  match s with
  | String a (String b (String c (String d r))) =>
      if isDigit a && isDigit b && isDigit c && isDigit d then
        Some (digitsVal 0 (String a (String b (String c (str1 d)))), r)
      else None
  | _ => None
  end.

(** The fraction of the layout's [.999999999]: absent unless a period or
    comma and a digit follow; any number of digits is taken, the first
    nine count. *)
Definition parseFrac (s : string) : Z * string :=
  match s with
  | String p (String d0 r) =>
      if commaOrPeriod p && isDigit d0 then
        let '(ds, r') := spanDigits (String d0 r) in
        let ds9 := takeStr 9 ds in
        (scale10 (9 - String.length ds9) (digitsVal 0 ds9), r')
      else (0, s)
  | _ => (0, s)
  end.

(** The zone of the layout's [Z07:00]: [Z], or a sign, two digits, a
    colon and two digits; the offset in seconds. *)
Definition parseZone (s : string) : option (Z * string) :=
  match s with
  | String z r =>
      if (byte z =? 90)%N then Some (0, r)
      else
        match s with
        | String sg (String h1 (String h2 (String co (String m1 (String m2 r'))))) =>
            if (byte co =? 58)%N then
              opt '(hr, _) <- getnum (String h1 (str1 h2)) true;
              opt '(mm, _) <- getnum (String m1 (str1 m2)) true;
              if (24 <? hr) || (60 <? mm) then None
              else if (byte sg =? 43)%N then Some ((hr * 60 + mm) * 60, r')
              else if (byte sg =? 45)%N then Some (- ((hr * 60 + mm) * 60), r')
              else None
            else None
        | _ => None
        end
  | "" => None
  end.

Definition time_Parse_RFC3339Nano (value : string) : option Time :=
  opt '(year, v) <- parseYear value;
  opt 'v <- skipByte 45 v;
  opt '(month, v) <- getnum v true;
  if (month <=? 0) || (12 <? month) then None else
  opt 'v <- skipByte 45 v;
  opt '(day, v) <- getnum v true;
  opt 'v <- skipByte 84 v;
  opt '(hour, v) <- getnum v false;
  if 24 <=? hour then None else
  opt 'v <- skipByte 58 v;
  opt '(min, v) <- getnum v true;
  if 60 <=? min then None else
  opt 'v <- skipByte 58 v;
  opt '(sec, v) <- getnum v true;
  if 60 <=? sec then None else
  let '(nsec, v) := parseFrac v in
  opt '(offset, v) <- parseZone v;
  match v with
  | "" =>
      if (day <? 1) || (daysIn month year <? day) then None
      else
        Some (mkTime (daysFromCivil year month day * 86400
                      + hour * 3600 + min * 60 + sec - offset) nsec)
  | _ => None
  end.

(** [appendInt]: decimal, zero-padded to [width] digits. *)
Fixpoint zeros (n : nat) : string :=
  match n with
  | O => ""
  | S n' => String "0" (zeros n')
  end.

Definition zeroPad (width : nat) (s : string) : string :=
  zeros (width - String.length s) +:+ s.

Definition appendInt (z : Z) (width : nat) : string :=
  if z <? 0 then String "-" (zeroPad width (strconv_FormatInt (- z)))
  else zeroPad width (strconv_FormatInt z).

Fixpoint trimZeros (fuel : nat) (n : Z) (digits : nat) : Z * nat :=
  match fuel with
  | O => (n, digits)
  | S f => if n mod 10 =? 0 then trimZeros f (n / 10) (digits - 1)%nat
           else (n, digits)
  end.

(** The layout's [.999999999]: nothing when the nanoseconds are zero,
    otherwise the nine digits without the trailing zeros. *)
Definition formatNano (nsec : Z) : string :=
  if nsec =? 0 then ""
  else
    let '(n, digits) := trimZeros 9 nsec 9 in
    String "." (zeroPad digits (strconv_FormatInt n)).

(** [t.UTC().Format(time.RFC3339Nano)]. *)
Definition time_Format_UTC_RFC3339Nano (t : Time) : string :=
  let days := unixSec t / 86400 in
  let secs := unixSec t mod 86400 in
  let '(y, m, d) := civilFromDays days in
  appendInt y 4 +:+ "-" +:+ appendInt m 2 +:+ "-" +:+ appendInt d 2 +:+ "T"
  +:+ appendInt (secs / 3600) 2 +:+ ":" +:+ appendInt ((secs / 60) mod 60) 2
  +:+ ":" +:+ appendInt (secs mod 60) 2 +:+ formatNano (nanosec t) +:+ "Z".

Local Close Scope Z_scope.

(** ** encoding/json: encoding

    [json.Marshal] with its default of escaping for HTML. *)

Definition hexDigit (n : N) : ascii :=
  if (n <? 10)%N then chr (48 + n) else chr (87 + n).

(** The bytes below [utf8.RuneSelf] that a string literal shows as they
    are ([htmlSafeSet]). *)
Definition htmlSafe (c : ascii) : bool :=
  ((32 <=? byte c) && negb (byte c =? 34) && negb (byte c =? 92)
   && negb (byte c =? 60) && negb (byte c =? 62) && negb (byte c =? 38))%N.

Definition escapeByte (c : ascii) : string :=
  let b := byte c in
  String (chr 92)
    (if ((b =? 92) || (b =? 34))%N then str1 c
     else if (b =? 8)%N then "b"
     else if (b =? 12)%N then "f"
     else if (b =? 10)%N then "n"
     else if (b =? 13)%N then "r"
     else if (b =? 9)%N then "t"
     else String "u" (String "0" (String "0"
            (String (hexDigit (b / 16)) (str1 (hexDigit (b mod 16))))))).

(** The content of the literal that encodes a string. *)
Fixpoint quoteBody (s : string) : string :=
  match s with
  | "" => ""
  | String c r =>
      if (byte c <? 128)%N then
        if htmlSafe c then String c (quoteBody r)
        else escapeByte c +:+ quoteBody r
      else
        let '(rr, size) := utf8_DecodeRune s in
        if ((rr =? RuneError)%N && (size =? 1)%nat) then
          String (chr 92) ("ufffd" +:+ quoteBody r)
        else if ((rr =? 8232) || (rr =? 8233))%N then
          String (chr 92) ("u202" +:+ String (hexDigit (rr mod 16))
            match r with
            | String _ (String _ r3) => quoteBody r3
            | _ => quoteBody r
            end)
        else
          match size, r with
          | 2%nat, String c1 r2 => String c (String c1 (quoteBody r2))
          | 3%nat, String c1 (String c2 r3) =>
              String c (String c1 (String c2 (quoteBody r3)))
          | 4%nat, String c1 (String c2 (String c3 r4)) =>
              String c (String c1 (String c2 (String c3 (quoteBody r4))))
          | _, _ => String c (quoteBody r)
          end
  end.

Definition dquote : string := str1 (chr 34).

Definition encodeString (s : string) : string :=
  dquote +:+ quoteBody s +:+ dquote.

(** [compact] with escaping: white space outside string literals is
    dropped; [<], [>], [&], U+2028 and U+2029 are escaped.  [inStr] and
    [esc] follow the scanner through string literals. *)
Fixpoint compactBytes (inStr esc : bool) (s : string) : string :=
  match s with
  | "" => ""
  | String c r =>
      let b := byte c in
      let inStr' :=
        if inStr then (if esc then true else negb (b =? 34)%N)
        else (b =? 34)%N in
      let esc' := inStr && negb esc && (b =? 92)%N in
      if ((b =? 60) || (b =? 62) || (b =? 38))%N then
        String (chr 92) (String "u" (String "0" (String "0"
          (String (hexDigit (b / 16)) (String (hexDigit (b mod 16))
             (compactBytes inStr' esc' r))))))
      else
        match r with
        | String c1 (String c2 r3) =>
            if ((b =? 226) && (byte c1 =? 128)
                && ((byte c2 =? 168) || (byte c2 =? 169)))%N then
              String (chr 92) ("u202" +:+ String (hexDigit (byte c2 mod 16))
                (compactBytes inStr' esc' r3))
            else if negb inStr && isSpace c then compactBytes inStr' esc' r
            else String c (compactBytes inStr' esc' r)
        | _ =>
            if negb inStr && isSpace c then compactBytes inStr' esc' r
            else String c (compactBytes inStr' esc' r)
        end
  end.

Definition json_compact (src : string) : result string :=
  if json_Valid src then inr (compactBytes false false src)
  else inl json_SyntaxError.

(** An object from its members, each a name and the text of its value,
    [omitempty] ones already left out; an array from the text of its
    elements. *)
Fixpoint joinComma (l : list string) : string :=
  match l with
  | [] => ""
  | [x] => x
  | x :: l' => x +:+ "," +:+ joinComma l'
  end.

Definition encodeMember (m : string * string) : string :=
  encodeString (fst m) +:+ ":" +:+ snd m.

Definition encodeObject (members : list (string * string)) : string :=
  "{" +:+ joinComma (map encodeMember members) +:+ "}".

Definition encodeArray (elems : list string) : string :=
  "[" +:+ joinComma elems +:+ "]".

Definition omitIf (empty : bool) (m : string * string)
  : list (string * string) :=
  if empty then [] else [m].

Definition encodeStringPtr (p : option string) : string :=
  match p with Some s => encodeString s | None => "null" end.

Definition encodeBool (b : bool) : string := if b then "true" else "false".

Definition membersHTTPMeta (h : HTTPMeta) : list (string * string) :=
  [("method", encodeString (HTTPMeta_Method h));
   ("scheme", encodeString (HTTPMeta_Scheme h));
   ("host", encodeString (HTTPMeta_Host h));
   ("path", encodeString (HTTPMeta_Path h))]
  ++ omitIf (String.eqb (HTTPMeta_Query h) "")
       ("query", encodeString (HTTPMeta_Query h))
  ++ match HTTPMeta_StatusCode h with
     | Some z => [("statusCode", strconv_FormatInt z)]
     | None => []
     end
  ++ omitIf (String.eqb (HTTPMeta_ClientIP h) "")
       ("clientIp", encodeString (HTTPMeta_ClientIP h))
  ++ omitIf (String.eqb (HTTPMeta_UserAgent h) "")
       ("userAgent", encodeString (HTTPMeta_UserAgent h)).

Definition encodeHTTPMeta (h : HTTPMeta) : string :=
  encodeObject (membersHTTPMeta h).

Definition membersCommandMeta (c : CommandMeta) : list (string * string) :=
  [("name", encodeString (CommandMeta_Name c))]
  ++ match CommandMeta_Args c with
     | Some (a :: l) => [("args", encodeArray (map encodeString (a :: l)))]
     | _ => []
     end
  ++ omitIf (String.eqb (CommandMeta_Cwd c) "")
       ("cwd", encodeString (CommandMeta_Cwd c)).

Definition encodeCommandMeta (c : CommandMeta) : string :=
  encodeObject (membersCommandMeta c).

Definition membersTraceFrame (f : TraceFrame) : list (string * string) :=
  omitIf (String.eqb (TraceFrame_File f) "")
    ("file", encodeString (TraceFrame_File f))
  ++ omitIf (TraceFrame_Line f =? 0)%Z
       ("line", strconv_FormatInt (TraceFrame_Line f))
  ++ omitIf (String.eqb (TraceFrame_Func f) "")
       ("func", encodeString (TraceFrame_Func f)).

Definition encodeTraceFrame (f : TraceFrame) : string :=
  encodeObject (membersTraceFrame f).

Definition membersHostMeta (h : HostMeta) : list (string * string) :=
  [("hostname", encodeString (HostMeta_Hostname h));
   ("pid", strconv_FormatInt (HostMeta_PID h))].

Definition encodeHostMeta (h : HostMeta) : string :=
  encodeObject (membersHostMeta h).

(** A [json.RawMessage] is its own encoding, compacted; the nil one is
    [null]. *)
Definition encodeRawMessage (m : option string) : result string :=
  match m with
  | None => inr "null"
  | Some b => json_compact b
  end.

Definition encodeTrace (t : option (list TraceFrame)) : string :=
  match t with
  | Some fs => encodeArray (map encodeTraceFrame fs)
  | None => "null"
  end.

Definition membersEvent (e : Event) (payload : string)
  : list (string * string) :=
  [("schemaVersion", strconv_FormatInt (SchemaVersion e));
   ("id", encodeString (ID e));
   ("timestamp", encodeString (Timestamp e));
   ("sourceType", encodeString (SourceType e));
   ("projectRoot", encodeString (ProjectRoot e));
   ("phpSapi", encodeString (PHPSAPI e));
   ("requestId", encodeStringPtr (RequestID e))]
  ++ match HTTP e with
     | Some h => [("http", encodeHTTPMeta h)]
     | None => []
     end
  ++ match Command e with
     | Some c => [("command", encodeCommandMeta c)]
     | None => []
     end
  ++ [("isDd", encodeBool (IsDD e));
      ("payloadFormat", encodeString (PayloadFormat e));
      ("payload", payload);
      ("trace", encodeTrace (Trace e));
      ("host", encodeHostMeta (Host e))].

Definition json_Marshal_Event (e : Event) : result string :=
  do payload <- encodeRawMessage (Payload e);
  inr (encodeObject (membersEvent e payload)).

(** ** strings.TrimSpace

    All leading and trailing white space is removed, as Unicode defines
    it ([unicode.IsSpace]); bytes that are not valid UTF-8 are not white
    space. *)

Definition unicode_IsSpace (r : N) : bool :=
  ((9 <=? r) && (r <=? 13) || (r =? 32) || (r =? 133) || (r =? 160)
   || (r =? 5760) || (8192 <=? r) && (r <=? 8202) || (r =? 8232)
   || (r =? 8233) || (r =? 8239) || (r =? 8287) || (r =? 12288))%N.

Fixpoint trimLeftSpace (s : string) : string :=
  match s with
  | "" => ""
  | String _ r =>
      let '(rr, size) := utf8_DecodeRune s in
      if unicode_IsSpace rr then
        match size, r with
        | 2%nat, String _ r2 => trimLeftSpace r2
        | 3%nat, String _ (String _ r3) => trimLeftSpace r3
        | 4%nat, String _ (String _ (String _ r4)) => trimLeftSpace r4
        | _, _ => trimLeftSpace r
        end
      else s
  end.

Fixpoint revApp (s acc : string) : string :=
  match s with
  | "" => acc
  | String c r => revApp r (String c acc)
  end.

Definition revStr (s : string) : string := revApp s "".

Definition runeStart (c : ascii) : bool := negb (isCont c).

(** [utf8.DecodeLastRune], on the reversed text: the rune whose encoding
    ends the text, found from the nearest byte that can start a rune
    among the last four. *)
Definition utf8_DecodeLastRune (rs : string) : N * nat :=
  let check (w : string) (n : nat) :=
    let '(rr, size) := utf8_DecodeRune w in
    if (size =? n)%nat then (rr, size) else (RuneError, 1%nat) in
  match rs with
  | "" => (RuneError, 0%nat)
  | String c0 r0 =>
      if (byte c0 <? 128)%N then (byte c0, 1%nat)
      else
        match r0 with
        | String c1 r1 =>
            if runeStart c1 then check (String c1 (str1 c0)) 2%nat
            else
              match r1 with
              | String c2 r2 =>
                  if runeStart c2 then
                    check (String c2 (String c1 (str1 c0))) 3%nat
                  else
                    match r2 with
                    | String c3 _ =>
                        if runeStart c3 then
                          check (String c3 (String c2 (String c1 (str1 c0)))) 4%nat
                        else (RuneError, 1%nat)
                    | "" => (RuneError, 1%nat)
                    end
              | "" => (RuneError, 1%nat)
              end
        | "" => (RuneError, 1%nat)
        end
  end.

(** Trailing white space, on the reversed text. *)
Fixpoint trimLeftSpaceRev (rs : string) : string :=
  match rs with
  | "" => ""
  | String _ r =>
      let '(rr, size) := utf8_DecodeLastRune rs in
      if unicode_IsSpace rr then
        match size, r with
        | 2%nat, String _ r2 => trimLeftSpaceRev r2
        | 3%nat, String _ (String _ r3) => trimLeftSpaceRev r3
        | 4%nat, String _ (String _ (String _ r4)) => trimLeftSpaceRev r4
        | _, _ => trimLeftSpaceRev r
        end
      else rs
  end.

Definition strings_TrimSpace (s : string) : string :=
  revStr (trimLeftSpaceRev (revStr (trimLeftSpace s))).

(** ** internal/dump: the decoder *)

Definition requiredEventKeys : list string :=
  ["schemaVersion"; "id"; "timestamp"; "sourceType"; "projectRoot";
   "phpSapi"; "requestId"; "isDd"; "payloadFormat"; "payload"; "trace";
   "host"].

(** The loop over [requiredEventKeys]: the error for the first key that
    the map lacks. *)
Fixpoint firstMissingKey (raw : gmap string string) (keys : list string)
  : option error :=
  match keys with
  | [] => None
  | key :: keys' =>
      match raw !! key with
      | None => Some (fmt_Errorf_s "missing required dump event field: " key)
      | Some _ => firstMissingKey raw keys'
      end
  end.

(** Indexing a map of byte slices with a key it lacks gives the nil
    slice, which converts to the empty string. *)
Definition rawAt (raw : gmap string string) (key : string) : string :=
  match raw !! key with Some v => v | None => "" end.

Definition isErr {A : Type} (r : result A) : bool :=
  match r with inl _ => true | inr _ => false end.

Definition validateRequiredKeys (raw : gmap string string) : option error :=
  match firstMissingKey raw requiredEventKeys with
  | Some err => Some err
  | None =>
      let requestIDRaw := rawAt raw "requestId" in
      if negb (String.eqb requestIDRaw "null")
         && isErr (json_Unmarshal_string requestIDRaw)
      then Some (errors_New "requestId must be null or string")
      else
        let isDDRaw := rawAt raw "isDd" in
        if isErr (json_Unmarshal_bool isDDRaw)
        then Some (errors_New "isDd must be a boolean")
        else
          let traceRaw := rawAt raw "trace" in
          if String.eqb traceRaw "null"
          then Some (errors_New "trace must be an array")
          else if isErr (json_Unmarshal_RawMessages traceRaw)
          then Some (errors_New "trace must be an array")
          else None
  end.

Definition lenBytes (b : option string) : nat :=
  match b with Some s => String.length s | None => O end.

Definition bytesOf (b : option string) : string :=
  match b with Some s => s | None => "" end.

Definition validateEvent (event : Event) : option error :=
  if negb (SchemaVersion event =? SchemaVersion_const)%Z
  then Some ErrUnsupportedSchemaVersion
  else if String.eqb (ID event) "" || String.eqb (Timestamp event) ""
          || String.eqb (SourceType event) ""
          || String.eqb (ProjectRoot event) ""
          || String.eqb (PHPSAPI event) ""
          || String.eqb (PayloadFormat event) ""
          || (lenBytes (Payload event) =? 0)%nat
  then Some (errors_New "missing required dump event fields")
  else if String.eqb (HostMeta_Hostname (Host event)) ""
          || (HostMeta_PID (Host event) <=? 0)%Z
  then Some (errors_New "invalid host metadata")
  else
    match time_Parse_RFC3339Nano (Timestamp event) with
    | None => Some (errors_New "timestamp must be RFC3339Nano")
    | Some timestamp =>
        if negb (String.eqb (time_Format_UTC_RFC3339Nano timestamp)
                            (Timestamp event))
        then Some (errors_New "timestamp must be UTC (Z)")
        else if negb (String.eqb (SourceType event) "http"
                      || String.eqb (SourceType event) "cli"
                      || String.eqb (SourceType event) "worker"
                      || String.eqb (SourceType event) "cron")
        then Some (errors_New
                     "sourceType must be one of: http, cli, worker, cron")
        else if negb (String.eqb (PayloadFormat event) "json")
        then Some (errors_New "payloadFormat must be json for schemaVersion 1")
        else
          let sub :=
            if String.eqb (SourceType event) "http" then
              match HTTP event with
              | None =>
                  Some (errors_New
                          "http metadata is required when sourceType is http")
              | Some h =>
                  if String.eqb (HTTPMeta_Method h) ""
                     || String.eqb (HTTPMeta_Scheme h) ""
                     || String.eqb (HTTPMeta_Host h) ""
                     || String.eqb (HTTPMeta_Path h) ""
                  then Some (errors_New
                               "http metadata is missing required fields")
                  else None
              end
            else
              match Command event with
              | None =>
                  Some (errors_New
                    "command metadata is required when sourceType is cli, worker, or cron")
              | Some c =>
                  if String.eqb (CommandMeta_Name c) ""
                  then Some (errors_New
                               "command metadata is missing required field: name")
                  else None
              end in
          match sub with
          | Some err => Some err
          | None =>
              if negb (json_Valid (bytesOf (Payload event)))
              then Some (errors_New "payload must be valid JSON")
              else None
          end
    end.

Definition DecodeNDJSONLine (line : string) : option Event * option error :=
  let trimmed := strings_TrimSpace line in
  if String.eqb trimmed "" then (None, None)
  else
    match json_Unmarshal_RawMap trimmed with
    | inl err => (None, Some err)
    | inr raw =>
        match validateRequiredKeys raw with
        | Some err => (None, Some err)
        | None =>
            match json_Unmarshal_Event trimmed with
            | inl err => (None, Some err)
            | inr event =>
                match validateEvent event with
                | Some err => (None, Some err)
                | None => (Some event, None)
                end
            end
        end
    end.

(** ** Test lines (app_test.go) and variations of them *)

Definition line_http : string := jsonText
  "{'schemaVersion':1,'id':'01JNFKEC8Q4Y8S97R2M5W12Q9H','timestamp':'2026-02-28T11:20:31.331Z','sourceType':'http','projectRoot':'/home/ronald/code/example-app','phpSapi':'fpm-fcgi','requestId':'f2a1a3d2-2087-4dc4-9fc4-3f8e75ae3202','http':{'method':'GET','scheme':'https','host':'example.test','path':'/users/42'},'isDd':false,'payloadFormat':'json','payload':{'user':{'id':42}},'trace':[],'host':{'hostname':'ronald-linux','pid':48211}}".

(** A cli line with the parts that the variations change. *)
Definition line_cli_with (version timestamp command trace pid extra : string)
  : string := jsonText
  ("{'schemaVersion':" +:+ version +:+ ",'id':'1','timestamp':'" +:+ timestamp
   +:+ "','sourceType':'cli','projectRoot':'/x','phpSapi':'cli','requestId':null"
   +:+ command
   +:+ ",'isDd':false,'payloadFormat':'json','payload':{'k':'v'},'trace':"
   +:+ trace +:+ ",'host':{'hostname':'h','pid':" +:+ pid +:+ "}" +:+ extra
   +:+ "}").

Definition command_artisan : string := ",'command':{'name':'artisan'}".

Definition line_cli : string :=
  line_cli_with "1" "2026-02-28T11:20:31.331Z" command_artisan "[]" "1" "".

Definition event_cli : Event :=
  mkEvent 1 "1" "2026-02-28T11:20:31.331Z" "cli" "/x" "cli" None None
    (Some (mkCommandMeta "artisan" None "")) false "json"
    (Some (jsonText "{'k':'v'}")) (Some []) (mkHostMeta "h" 1).

(** ** Properties of the decoder *)

(** A line that has passed everything before [validateEvent]: it is not
    blank, it parsed into the raw map, the presence checks passed and it
    parsed into the typed [Event]. *)
Definition decodesTo (line : string) (event : Event) : Prop :=
  exists raw,
    String.eqb (strings_TrimSpace line) "" = false
    /\ json_Unmarshal_RawMap (strings_TrimSpace line) = inr raw
    /\ validateRequiredKeys raw = None
    /\ json_Unmarshal_Event (strings_TrimSpace line) = inr event.

Definition outcome (event : Event) : option Event * option error :=
  match validateEvent event with
  | Some err => (None, Some err)
  | None => (Some event, None)
  end.

(** The checks of [validateEvent] that come before the timestamp. *)
Definition passesEarlyChecks (event : Event) : bool :=
  (SchemaVersion event =? SchemaVersion_const)%Z
  && negb (String.eqb (ID event) "" || String.eqb (Timestamp event) ""
           || String.eqb (SourceType event) ""
           || String.eqb (ProjectRoot event) ""
           || String.eqb (PHPSAPI event) ""
           || String.eqb (PayloadFormat event) ""
           || (lenBytes (Payload event) =? 0)%nat)
  && negb (String.eqb (HostMeta_Hostname (Host event)) ""
           || (HostMeta_PID (Host event) <=? 0)%Z).

(** The timestamp is already in the form that UTC formatting gives. *)
Definition timestampCanonical (ts : string) : bool :=
  match time_Parse_RFC3339Nano ts with
  | Some t => String.eqb (time_Format_UTC_RFC3339Nano t) ts
  | None => false
  end.

Definition sourceTypeKnown (st : string) : bool :=
  String.eqb st "http" || String.eqb st "cli" || String.eqb st "worker"
  || String.eqb st "cron".

(** The checks before the one on the [http] and [command] sub-objects. *)
Definition reachesSubstructureCheck (event : Event) : bool :=
  passesEarlyChecks event && timestampCanonical (Timestamp event)
  && sourceTypeKnown (SourceType event)
  && String.eqb (PayloadFormat event) "json".

(** The check on the sub-objects, as [validateEvent] makes it. *)
Definition substructureError (event : Event) : option error :=
  if String.eqb (SourceType event) "http" then
    match HTTP event with
    | None =>
        Some (errors_New "http metadata is required when sourceType is http")
    | Some h =>
        if String.eqb (HTTPMeta_Method h) ""
           || String.eqb (HTTPMeta_Scheme h) ""
           || String.eqb (HTTPMeta_Host h) ""
           || String.eqb (HTTPMeta_Path h) ""
        then Some (errors_New "http metadata is missing required fields")
        else None
    end
  else
    match Command event with
    | None =>
        Some (errors_New
          "command metadata is required when sourceType is cli, worker, or cron")
    | Some c =>
        if String.eqb (CommandMeta_Name c) ""
        then Some (errors_New "command metadata is missing required field: name")
        else None
    end.

(** Schema version 2, and at once an empty id, an unknown source type, a
    timestamp with an offset and a host without a name. *)
Definition line_version2 : string := jsonText
  "{'schemaVersion':2,'id':'','timestamp':'2026-02-28T13:20:31+02:00','sourceType':'job','projectRoot':'/x','phpSapi':'cli','requestId':null,'isDd':false,'payloadFormat':'text','payload':{'k':'v'},'trace':[],'host':{'hostname':'','pid':0}}".

Definition event_version2 : Event :=
  mkEvent 2 "" "2026-02-28T13:20:31+02:00" "job" "/x" "cli" None None None
    false "text" (Some (jsonText "{'k':'v'}")) (Some []) (mkHostMeta "" 0).

(** The same cli line with an offset timestamp of the same instant. *)
Definition line_offset : string :=
  line_cli_with "1" "2026-02-28T13:20:31.331+02:00" command_artisan "[]" "1" "".

Definition event_offset : Event :=
  mkEvent 1 "1" "2026-02-28T13:20:31.331+02:00" "cli" "/x" "cli" None None
    (Some (mkCommandMeta "artisan" None "")) false "json"
    (Some (jsonText "{'k':'v'}")) (Some []) (mkHostMeta "h" 1).

Definition httpComplete (h : HTTPMeta) : Prop :=
  HTTPMeta_Method h <> "" /\ HTTPMeta_Scheme h <> ""
  /\ HTTPMeta_Host h <> "" /\ HTTPMeta_Path h <> "".

Definition isCommandSource (st : string) : Prop :=
  st = "cli" \/ st = "worker" \/ st = "cron".

(** The http line of the tests without its [http] member. *)
Definition line_http_without_meta : string := jsonText
  "{'schemaVersion':1,'id':'1','timestamp':'2026-02-28T11:20:31.331Z','sourceType':'http','projectRoot':'/x','phpSapi':'fpm-fcgi','requestId':'a','isDd':false,'payloadFormat':'json','payload':{'k':'v'},'trace':[],'host':{'hostname':'h','pid':1}}".

Definition event_http_without_meta : Event :=
  mkEvent 1 "1" "2026-02-28T11:20:31.331Z" "http" "/x" "fpm-fcgi" (Some "a")
    None None false "json" (Some (jsonText "{'k':'v'}")) (Some [])
    (mkHostMeta "h" 1).

(** A cli line that carries an [http] member next to its [command]. *)
Definition line_cli_and_http : string :=
  line_cli_with "1" "2026-02-28T11:20:31.331Z"
    ",'http':{'method':'GET','scheme':'https','host':'example.test','path':'/'},'command':{'name':'artisan'}"
    "[]" "1" "".

Definition event_cli_and_http : Event :=
  mkEvent 1 "1" "2026-02-28T11:20:31.331Z" "cli" "/x" "cli" None
    (Some (mkHTTPMeta "GET" "https" "example.test" "/" "" None "" ""))
    (Some (mkCommandMeta "artisan" None "")) false "json"
    (Some (jsonText "{'k':'v'}")) (Some []) (mkHostMeta "h" 1).

(** [headSat p s]: [s] starts with a byte that satisfies [p]. *)
Definition headSat (p : ascii -> bool) (s : string) : bool :=
  match s with
  | String c _ => p c
  | "" => false
  end.

Fixpoint allSat (p : ascii -> bool) (s : string) : bool :=
  match s with
  | String c r => p c && allSat p r
  | "" => true
  end.

(** *** Numbers *)

Definition isDot (c : ascii) : bool := (byte c =? 46)%N.

Definition isExp (c : ascii) : bool := ((byte c =? 101) || (byte c =? 69))%N.

(** A byte that could continue a number. *)
Definition numCont (c : ascii) : bool := isDigit c || isDot c || isExp c.

(** *** The grammar the scanner accepts

    [Value depth raw sh]: [raw] is exactly the text of one value of shape
    [sh], written [depth] levels deep. *)

Definition isStrBody (b : string) : Prop :=
  scanStringBody InString (b +:+ dquote) = Some (b, "").

Definition isNumber (n : string) : Prop := scanNumber n = Some (n, "").

Definition allSpace (w : string) : Prop := allSat isSpace w = true.

Inductive Value : N -> string -> shape -> Prop :=
| V_null d : Value d "null" VNull
| V_true d : Value d "true" (VBool true)
| V_false d : Value d "false" (VBool false)
| V_number d n : isNumber n -> Value d n VNumber
| V_string d b : isStrBody b -> Value d (dquote +:+ b +:+ dquote) (VString b)
| V_array_nil d w :
    (d + 1 <= maxNestingDepth)%N -> allSpace w ->
    Value d ("[" +:+ w +:+ "]") (VArray [])
| V_array d w raw es :
    (d + 1 <= maxNestingDepth)%N -> allSpace w -> Elems (d + 1) raw es ->
    Value d ("[" +:+ w +:+ raw) (VArray es)
| V_object_nil d w :
    (d + 1 <= maxNestingDepth)%N -> allSpace w ->
    Value d ("{" +:+ w +:+ "}") (VObject [])
| V_object d w raw ms :
    (d + 1 <= maxNestingDepth)%N -> allSpace w -> Members (d + 1) raw ms ->
    Value d ("{" +:+ w +:+ raw) (VObject ms)
with Elems : N -> string -> list string -> Prop :=
| E_last d v sh w :
    Value d v sh -> allSpace w -> Elems d (v +:+ w +:+ "]") [v]
| E_cons d v sh w1 w2 raw es :
    Value d v sh -> allSpace w1 -> allSpace w2 -> Elems d raw es ->
    Elems d (v +:+ w1 +:+ "," +:+ w2 +:+ raw) (v :: es)
with Members : N -> string -> list (string * string) -> Prop :=
| M_last d k w0 w1 v sh w2 :
    isStrBody k -> allSpace w0 -> allSpace w1 -> Value d v sh -> allSpace w2 ->
    Members d (dquote +:+ k +:+ dquote +:+ w0 +:+ ":" +:+ w1 +:+ v +:+ w2 +:+ "}")
      [(k, v)]
| M_cons d k w0 w1 v sh w2 w3 raw ms :
    isStrBody k -> allSpace w0 -> allSpace w1 -> Value d v sh -> allSpace w2 ->
    allSpace w3 -> Members d raw ms ->
    Members d (dquote +:+ k +:+ dquote +:+ w0 +:+ ":" +:+ w1 +:+ v +:+ w2 +:+ ","
               +:+ w3 +:+ raw)
      ((k, v) :: ms).

Scheme Value_mind := Minimality for Value Sort Prop
  with Elems_mind := Minimality for Elems Sort Prop
  with Members_mind := Minimality for Members Sort Prop.

Combined Scheme grammar_mutind from Value_mind, Elems_mind, Members_mind.

(** *** The scanner accepts every text of the grammar *)

Definition numHead (c : ascii) : bool := (byte c =? 45)%N || isDigit c.

Definition isValueStart (c : ascii) : bool :=
  ((byte c =? 123) || (byte c =? 91) || (byte c =? 34) || (byte c =? 116)
   || (byte c =? 102) || (byte c =? 110))%N || numHead c.

(** Every member of an object is a key literal and a value. *)
Definition memberOK (d : N) (kv : string * string) : Prop :=
  isStrBody (fst kv) /\ exists sh, Value d (snd kv) sh.

(** *** The payload of a decoded event *)

Definition payloadOK (e : Event) : Prop :=
  match Payload e with
  | Some p => json_Valid p = true
  | None => True
  end.

(** The decoders fail with the errors of encoding/json only. *)
Definition jsonErrs {A : Type} (r : result A) : Prop :=
  match r with
  | inl e => e = json_SyntaxError \/ e = json_UnmarshalTypeError
  | inr _ => True
  end.

(** The same, for a body in a state: what [isStrBody] is in [InString]. *)
Definition bodyFrom (st : strState) (b : string) : Prop :=
  scanStringBody st (b +:+ dquote) = Some (b, "").

(** What [unquote] goes on with after a rune of 128 or more. *)
Definition afterRune (size : nat) (r : string) : string :=
  match size, r with
  | 2%nat, String _ r2 => r2
  | 3%nat, String _ (String _ r3) => r3
  | 4%nat, String _ (String _ (String _ r4)) => r4
  | _, _ => r
  end.

(** *** The raw map of an object *)

(** The value that the map holds for [key] once the members are stored
    in order: the one of the last member with that key. *)
Fixpoint lastValue (ms : list (string * string)) (key : string)
    (acc : option string) : option string :=
  match ms with
  | [] => acc
  | (k, v) :: ms' =>
      lastValue ms' key
        (match unquote k with
         | Some k' => if String.eqb k' key then Some v else acc
         | None => acc
         end)
  end.

(** The object has a member whose key is [key]. *)
Fixpoint hasKey (ms : list (string * string)) (key : string) : bool :=
  match ms with
  | [] => false
  | (k, _) :: ms' =>
      match unquote k with
      | Some k' => String.eqb k' key || hasKey ms' key
      | None => hasKey ms' key
      end
  end.

(** The first required key that the object lacks. *)
Definition firstAbsentKey (ms : list (string * string)) : option string :=
  List.find (fun key => negb (hasKey ms key)) requiredEventKeys.

(** The http line of the tests without its [id] and without its
    [payload]. *)
Definition line_without_id_payload : string := jsonText
  "{'schemaVersion':1,'timestamp':'2026-02-28T11:20:31.331Z','sourceType':'http','projectRoot':'/x','phpSapi':'fpm-fcgi','requestId':'a','isDd':false,'payloadFormat':'json','trace':[],'host':{'hostname':'h','pid':1}}".

(** The cli line with a trace frame whose line is negative. *)
Definition line_negative_trace : string :=
  line_cli_with "1" "2026-02-28T11:20:31.331Z" command_artisan
    "[{'file':'a.php','line':-3}]" "1" "".

Definition event_negative_trace : Event :=
  mkEvent 1 "1" "2026-02-28T11:20:31.331Z" "cli" "/x" "cli" None None
    (Some (mkCommandMeta "artisan" None "")) false "json"
    (Some (jsonText "{'k':'v'}")) (Some [mkTraceFrame "a.php" (-3) ""])
    (mkHostMeta "h" 1).

(** *** Well-formed lines *)

(** The rules of the data model, read on the members of the JSON object
    (the value of a key is the one of the last member with that key). *)

Definition memberValue (ms : list (string * string)) (key : string)
  : option string :=
  lastValue ms key None.

Definition stringValue (raw : string) : option string :=
  match shapeOf raw with
  | Some (VString c) => unquote c
  | _ => None
  end.

(** An integer written in JSON, of any size. *)
Definition integerValue (raw : string) : option Z :=
  match shapeOf raw with
  | Some VNumber => option_map Z.of_int (NilZero.int_of_string raw)
  | _ => None
  end.

Definition objectValue (raw : string) : option (list (string * string)) :=
  match shapeOf raw with
  | Some (VObject ms) => Some ms
  | _ => None
  end.

Definition memberString (ms : list (string * string)) (key : string)
  : option string :=
  match memberValue ms key with
  | Some raw => stringValue raw
  | None => None
  end.

Definition memberNonEmpty (ms : list (string * string)) (key : string) : bool :=
  match memberString ms key with
  | Some s => negb (String.eqb s "")
  | None => false
  end.

Definition memberShape (ms : list (string * string)) (key : string)
  : option shape :=
  match memberValue ms key with
  | Some raw => shapeOf raw
  | None => None
  end.

Definition isNullOrString (sh : option shape) : bool :=
  match sh with
  | Some VNull | Some (VString _) => true
  | _ => false
  end.

Definition isBoolean (sh : option shape) : bool :=
  match sh with Some (VBool _) => true | _ => false end.

Definition isArray (sh : option shape) : bool :=
  match sh with Some (VArray _) => true | _ => false end.

(** What the Presence Validator asks of the object. *)
Definition presenceRules (ms : list (string * string)) : bool :=
  forallb (hasKey ms) requiredEventKeys
  && isNullOrString (memberShape ms "requestId")
  && isBoolean (memberShape ms "isDd")
  && isArray (memberShape ms "trace").

Definition subObjectRule (ms : list (string * string)) : bool :=
  match memberString ms "sourceType" with
  | Some st =>
      if String.eqb st "http" then
        match memberValue ms "http" with
        | Some raw =>
            match objectValue raw with
            | Some hs =>
                memberNonEmpty hs "method" && memberNonEmpty hs "scheme"
                && memberNonEmpty hs "host" && memberNonEmpty hs "path"
            | None => false
            end
        | None => false
        end
      else if String.eqb st "cli" || String.eqb st "worker"
              || String.eqb st "cron" then
        match memberValue ms "command" with
        | Some raw =>
            match objectValue raw with
            | Some cs => memberNonEmpty cs "name"
            | None => false
            end
        | None => false
        end
      else false
  | None => false
  end.

Definition hostRule (ms : list (string * string)) : bool :=
  match memberValue ms "host" with
  | Some raw =>
      match objectValue raw with
      | Some hs =>
          memberNonEmpty hs "hostname"
          && match memberValue hs "pid" with
             | Some p =>
                 match integerValue p with
                 | Some z => (0 <? z)%Z
                 | None => false
                 end
             | None => false
             end
      | None => false
      end
  | None => false
  end.

(** C1's premise: the trimmed line is one JSON object that meets every
    field rule. *)
Definition wellFormedLine (trimmed : string) : bool :=
  match parseDocument trimmed with
  | Some (VObject ms, _) =>
      presenceRules ms
      && match memberValue ms "schemaVersion" with
         | Some raw =>
             match integerValue raw with
             | Some z => (z =? SchemaVersion_const)%Z
             | None => false
             end
         | None => false
         end
      && memberNonEmpty ms "id" && memberNonEmpty ms "projectRoot"
      && memberNonEmpty ms "phpSapi"
      && match memberString ms "timestamp" with
         | Some ts => timestampCanonical ts
         | None => false
         end
      && subObjectRule ms
      && match memberString ms "payloadFormat" with
         | Some pf => String.eqb pf "json"
         | None => false
         end
      && match memberValue ms "payload" with
         | Some raw => json_Valid raw
         | None => false
         end
      && hostRule ms
  | _ => false
  end.

(** The rules that [validateEvent] checks, read on the decoded event. *)
Definition fieldRules (event : Event) : bool :=
  reachesSubstructureCheck event
  && match substructureError event with Some _ => false | None => true end.

(** The cli line with a pid of 2^63. *)
Definition line_pid_2_63 : string :=
  line_cli_with "1" "2026-02-28T11:20:31.331Z" command_artisan "[]"
    "9223372036854775808" "".

(** The cli line with a trace array that holds a number. *)
Definition line_trace_of_numbers : string :=
  line_cli_with "1" "2026-02-28T11:20:31.331Z" command_artisan "[5]" "1" "".

(** The outcome of [utf8_DecodeRune] on a byte of 128 or more: an error
    of width one, or a rune of width two, three or four whose encoding
    is the bytes read, whatever follows them. *)
Inductive decoded (c : ascii) (r : string) : N * nat -> Prop :=
| dec_error : decoded c r (RuneError, 1%nat)
| dec_2 c1 r2 rr :
    r = String c1 r2 -> isCont c1 = true ->
    utf8_EncodeRune rr = String c (str1 c1) ->
    (forall x, utf8_DecodeRune (String c (String c1 x)) = (rr, 2%nat)) ->
    (128 <= rr < 2048)%N ->
    decoded c r (rr, 2%nat)
| dec_3 c1 c2 r3 rr :
    r = String c1 (String c2 r3) ->
    (128 <=? byte c1)%N = true -> isCont c2 = true ->
    utf8_EncodeRune rr = String c (String c1 (str1 c2)) ->
    (forall x, utf8_DecodeRune (String c (String c1 (String c2 x))) = (rr, 3%nat)) ->
    (2048 <= rr < 65536)%N -> isSurrogate rr = false ->
    decoded c r (rr, 3%nat)
| dec_4 c1 c2 c3 r4 rr :
    r = String c1 (String c2 (String c3 r4)) ->
    (128 <=? byte c1)%N = true -> isCont c2 = true -> isCont c3 = true ->
    utf8_EncodeRune rr = String c (String c1 (String c2 (str1 c3))) ->
    (forall x, utf8_DecodeRune (String c (String c1 (String c2 (String c3 x))))
               = (rr, 4%nat)) ->
    (65536 <= rr <= MaxRune)%N ->
    decoded c r (rr, 4%nat).

(** [utf8.ValidString]. *)
Fixpoint utf8_ValidString (s : string) : bool :=
  match s with
  | "" => true
  | String c r =>
      if (byte c <? 128)%N then utf8_ValidString r
      else
        match snd (utf8_DecodeRune s), r with
        | 2%nat, String _ r2 => utf8_ValidString r2
        | 3%nat, String _ (String _ r3) => utf8_ValidString r3
        | 4%nat, String _ (String _ (String _ r4)) => utf8_ValidString r4
        | _, _ => false
        end
  end.

(** A decimal number without leading zero, as [Pos.to_uint] gives it. *)
Definition leadsNonZero (d : Decimal.uint) : Prop :=
  match d with
  | Decimal.Nil | Decimal.D0 _ => False
  | _ => True
  end.

(** *** The texts that [json.Marshal] writes are values *)

Definition isValue (d : N) (raw : string) : Prop := exists sh, Value d raw sh.

(** A member as the scanner reports it: the key literal's content and
    the raw value. *)
Definition quoteMember (m : string * string) : string * string :=
  (quoteBody (fst m), snd m).

(** *** Values that [json.Marshal] and the typed decode keep

    Strings must be valid UTF-8 (the encoder replaces other bytes),
    integers must be in the range of [int], and a slice that is left out
    when empty must be nil when it is empty. *)

Definition keepsInt (z : Z) : bool := inInt64 z.

Definition keepsHTTPMeta (h : HTTPMeta) : bool :=
  utf8_ValidString (HTTPMeta_Method h) && utf8_ValidString (HTTPMeta_Scheme h)
  && utf8_ValidString (HTTPMeta_Host h) && utf8_ValidString (HTTPMeta_Path h)
  && utf8_ValidString (HTTPMeta_Query h)
  && match HTTPMeta_StatusCode h with Some z => keepsInt z | None => true end
  && utf8_ValidString (HTTPMeta_ClientIP h)
  && utf8_ValidString (HTTPMeta_UserAgent h).

Definition keepsCommandMeta (c : CommandMeta) : bool :=
  utf8_ValidString (CommandMeta_Name c)
  && match CommandMeta_Args c with
     | Some [] => false
     | Some l => forallb utf8_ValidString l
     | None => true
     end
  && utf8_ValidString (CommandMeta_Cwd c).

Definition keepsTraceFrame (f : TraceFrame) : bool :=
  utf8_ValidString (TraceFrame_File f) && keepsInt (TraceFrame_Line f)
  && utf8_ValidString (TraceFrame_Func f).

Definition keepsHostMeta (h : HostMeta) : bool :=
  utf8_ValidString (HostMeta_Hostname h) && keepsInt (HostMeta_PID h).

(** *** The round trip of an event *)

(** A payload that [json.Marshal] writes as it is: one value without
    white space around it, that fits under the nesting limit as a member
    of the event, and that [compact] leaves unchanged. *)
Definition compactRaw (p : string) : bool :=
  match scanValue (S (String.length p)) 1 p with
  | Some (_, _, "") => String.eqb (compactBytes false false p) p
  | _ => false
  end.

Definition keepsOption {A : Type} (keeps : A -> bool) (o : option A) : bool :=
  match o with Some a => keeps a | None => true end.

Definition keepsEvent (e : Event) : bool :=
  keepsInt (SchemaVersion e) && utf8_ValidString (ID e)
  && utf8_ValidString (Timestamp e) && utf8_ValidString (SourceType e)
  && utf8_ValidString (ProjectRoot e) && utf8_ValidString (PHPSAPI e)
  && keepsOption utf8_ValidString (RequestID e)
  && keepsOption keepsHTTPMeta (HTTP e)
  && keepsOption keepsCommandMeta (Command e)
  && utf8_ValidString (PayloadFormat e)
  && match Payload e with Some p => compactRaw p | None => false end
  && match Trace e with
     | Some fs => forallb keepsTraceFrame fs
     | None => false
     end
  && keepsHostMeta (Host e).

(** A cli event with arguments, a request id, an escaped character in
    its id and a trace. *)
Definition event_round_trip : Event :=
  mkEvent 1 "a<b" "2026-02-28T11:20:31.331Z" "cli" "/x" "cli" (Some "r-1") None
    (Some (mkCommandMeta "artisan" (Some ["queue:work"; "--once"]) "/srv"))
    true "json" (Some "[1,2]")
    (Some [mkTraceFrame "f.php" 12 "handle"; zeroTraceFrame])
    (mkHostMeta "h" 7).

(** The same event with a payload that has a space in it. *)
Definition event_spaced_payload : Event :=
  mkEvent 1 "1" "2026-02-28T11:20:31.331Z" "cli" "/x" "cli" None None
    (Some (mkCommandMeta "artisan" None "")) false "json" (Some "[1, 2]")
    (Some []) (mkHostMeta "h" 1).

Definition event_compacted_payload : Event :=
  mkEvent 1 "1" "2026-02-28T11:20:31.331Z" "cli" "/x" "cli" None None
    (Some (mkCommandMeta "artisan" None "")) false "json" (Some "[1,2]")
    (Some []) (mkHostMeta "h" 1).

(** ** The application (app.go)

    The [App] holds the context that [startup] saves; [context.Context]
    is an interface that the methods below never look into. *)

Record App (Context : Type) : Type := mkApp { ctx : option Context }.

Arguments mkApp {Context} _.
Arguments ctx {Context} _.

Definition NewApp {Context : Type} : App Context := mkApp None.

Definition startup {Context : Type} (a : App Context) (c : Context)
  : App Context :=
  mkApp (Some c).

(** [fmt.Sprintf] with the verb [%s] on a string writes its bytes. *)
Definition Greet {Context : Type} (a : App Context) (name : string) : string :=
  "Hello " +:+ name +:+ ", It's show time!".

Definition SupportedDumpEventSchemaVersion {Context : Type} (a : App Context)
  : Z :=
  SchemaVersion_const.

Definition DecodeDumpEventNDJSONLine {Context : Type} (a : App Context)
    (line : string) : option Event * option error :=
  DecodeNDJSONLine line.

(** The messages of the errors that [validateRequiredKeys] and
    [validateEvent] build with [errors.New]. *)
Definition validationMessages : list string :=
  [ "requestId must be null or string";
    "isDd must be a boolean";
    "trace must be an array";
    "missing required dump event fields";
    "invalid host metadata";
    "timestamp must be RFC3339Nano";
    "timestamp must be UTC (Z)";
    "sourceType must be one of: http, cli, worker, cron";
    "payloadFormat must be json for schemaVersion 1";
    "http metadata is required when sourceType is http";
    "http metadata is missing required fields";
    "command metadata is required when sourceType is cli, worker, or cron";
    "command metadata is missing required field: name" ].

(** The errors that a caller of the decoder has to expect. *)
Definition expectedError (err : error) : Prop :=
  err = json_SyntaxError \/ err = json_UnmarshalTypeError
  \/ err = ErrUnsupportedSchemaVersion
  \/ (exists key, In key requiredEventKeys
        /\ err = errors_New ("missing required dump event field: " +:+ key))
  \/ (exists msg, In msg validationMessages /\ err = errors_New msg).

Definition isNullOrBoolean (sh : option shape) : bool :=
  match sh with
  | Some VNull | Some (VBool _) => true
  | _ => false
  end.

(** What [validateRequiredKeys] answers, read on the members of the
    object: [json.Unmarshal] into a [string] fails on all but a string
    (and [null], which the comparison takes out before), into a [bool]
    on all but a boolean and [null]. *)
Definition presenceError (ms : list (string * string)) : option error :=
  match firstAbsentKey ms with
  | Some key => Some (errors_New ("missing required dump event field: " +:+ key))
  | None =>
      if negb (isNullOrString (memberShape ms "requestId"))
      then Some (errors_New "requestId must be null or string")
      else if negb (isNullOrBoolean (memberShape ms "isDd"))
      then Some (errors_New "isDd must be a boolean")
      else if negb (isArray (memberShape ms "trace"))
      then Some (errors_New "trace must be an array")
      else None
  end.

(** The messages of [validateEvent]. *)
Definition eventMessages : list string :=
  [ "missing required dump event fields";
    "invalid host metadata";
    "timestamp must be RFC3339Nano";
    "timestamp must be UTC (Z)";
    "sourceType must be one of: http, cli, worker, cron";
    "payloadFormat must be json for schemaVersion 1";
    "http metadata is required when sourceType is http";
    "http metadata is missing required fields";
    "command metadata is required when sourceType is cli, worker, or cron";
    "command metadata is missing required field: name";
    "payload must be valid JSON" ].

(** A cli line with a number for [requestId], a string for [isDd], an
    object for [trace] and the schema version 2. *)
Definition line_coarse_types (requestId isDd trace : string) : string :=
  jsonText
  ("{'schemaVersion':2,'id':'1','timestamp':'2026-02-28T11:20:31.331Z',"
   +:+ "'sourceType':'cli','projectRoot':'/x','phpSapi':'cli','requestId':"
   +:+ requestId +:+ ",'command':{'name':'artisan'},'isDd':" +:+ isDd
   +:+ ",'payloadFormat':'json','payload':{'k':'v'},'trace':" +:+ trace
   +:+ ",'host':{'hostname':'h','pid':1}}").

(** On a text that the scanner has accepted, the decoders fail with a
    type error only. *)
Definition typeErr {A : Type} (r : result A) : Prop :=
  match r with
  | inl e => e = json_UnmarshalTypeError
  | inr _ => True
  end.

Definition onValues {A : Type} (dec : string -> A -> result A) : Prop :=
  forall d raw sh cur, Value d raw sh -> typeErr (dec raw cur).

Definition onMembers {T : Type} (setField : string -> string -> T -> result T)
  : Prop :=
  forall d key v sh cur, Value d v sh -> typeErr (setField key v cur).

(** The white space of ASCII: tab, line feed, vertical tab, form feed,
    carriage return and space. *)
Definition asciiSpace (c : ascii) : bool :=
  ((9 <=? byte c) && (byte c <=? 13) || (byte c =? 32))%N.

Definition CRLF : string := String (chr 13) (str1 (chr 10)).

(** A member of the top-level object that the typed decode stores: its
    key selects a field of [Event]. *)
Definition namesEventField (kv : string * string) : bool :=
  match unquote (fst kv) with
  | Some key =>
      match findField Event_names key with Some _ => true | None => false end
  | None => true
  end.

(** The cli line of the tests with members that name no field, the first
    one in front. *)
Definition line_cli_extended : string := jsonText
  ("{'meta':{'id':'7','trace':null},'schemaVersion':1,'id':'1',"
   +:+ "'timestamp':'2026-02-28T11:20:31.331Z','sourceType':'cli',"
   +:+ "'projectRoot':'/x','phpSapi':'cli','tags':[1,'a'],'requestId':null,"
   +:+ "'command':{'name':'artisan'},'isDd':false,'payloadFormat':'json',"
   +:+ "'payload':{'k':'v'},'trace':[],'host':{'hostname':'h','pid':1},"
   +:+ "'schema_version':2}").

(** ** The timestamps that the decoder accepts

    The text of a timestamp, read strictly: a year of four digits, month,
    day, hour, minute and second of two digits each with their
    separators, a valid date and time of day, then either [Z] or a period,
    one to nine digits of which the last is not [0], and [Z]. *)

Fixpoint endsNonZero (s : string) : bool :=
  match s with
  | "" => false
  | String c "" => negb (byte c =? 48)%N
  | String _ r => endsNonZero r
  end.

Definition canonicalTail (rest : string) : bool :=
  if String.eqb rest "Z" then true
  else
    match rest with
    | String p r =>
        let '(ds, r') := spanDigits r in
        (byte p =? 46)%N && (String.length ds <=? 9)%nat && endsNonZero ds
        && String.eqb r' "Z"
    | "" => false
    end.

Definition canonicalFields (ts : string)
  : option (Z * Z * Z * Z * Z * Z * string) :=
  opt '(year, v) <- parseYear ts;
  opt 'v <- skipByte 45 v;
  opt '(month, v) <- getnum v true;
  opt 'v <- skipByte 45 v;
  opt '(day, v) <- getnum v true;
  opt 'v <- skipByte 84 v;
  opt '(hour, v) <- getnum v true;
  opt 'v <- skipByte 58 v;
  opt '(min, v) <- getnum v true;
  opt 'v <- skipByte 58 v;
  opt '(sec, v) <- getnum v true;
  Some (year, month, day, hour, min, sec, v).

Definition canonicalTimestamp (ts : string) : bool :=
  match canonicalFields ts with
  | Some (year, month, day, hour, min, sec, v) =>
      (1 <=? month)%Z && (month <=? 12)%Z && (1 <=? day)%Z
      && (day <=? daysIn month year)%Z && (hour <=? 23)%Z && (min <=? 59)%Z
      && (sec <=? 59)%Z && canonicalTail v
  | None => false
  end.

(** A digit string without its trailing zeros. *)
Fixpoint stripZeros (s : string) : string :=
  match s with
  | "" => ""
  | String c r =>
      match stripZeros r with
      | "" => if (byte c =? 48)%N then "" else str1 c
      | r' => String c r'
      end
  end.

(** The nanoseconds that [parseNanoseconds] reads from the digits of a
    fraction: the first nine count. *)
Definition nanosOf (ds : string) : Z :=
  scale10 (9 - String.length (takeStr 9 ds)) (digitsVal 0%Z (takeStr 9 ds)).

(** The text [r] ends the text [s]. *)
Definition endsWith (s r : string) : Prop := exists x, s = x +:+ r.

(** The cli line of the tests with a fraction of a second that ends with
    a zero. *)
Definition line_fraction_zero : string :=
  line_cli_with "1" "2026-02-28T11:20:31.330Z" command_artisan "[]" "1" "".

Definition event_fraction_zero : Event :=
  mkEvent 1 "1" "2026-02-28T11:20:31.330Z" "cli" "/x" "cli" None None
    (Some (mkCommandMeta "artisan" None "")) false "json"
    (Some (jsonText "{'k':'v'}")) (Some []) (mkHostMeta "h" 1).

(** ** Strings of a decoded event

    The strings that the typed decode stores, all valid UTF-8. *)

Definition utf8HTTPMeta (h : HTTPMeta) : bool :=
  utf8_ValidString (HTTPMeta_Method h) && utf8_ValidString (HTTPMeta_Scheme h)
  && utf8_ValidString (HTTPMeta_Host h) && utf8_ValidString (HTTPMeta_Path h)
  && utf8_ValidString (HTTPMeta_Query h)
  && utf8_ValidString (HTTPMeta_ClientIP h)
  && utf8_ValidString (HTTPMeta_UserAgent h).

Definition utf8Strings (l : option (list string)) : bool :=
  match l with Some l => forallb utf8_ValidString l | None => true end.

Definition utf8CommandMeta (c : CommandMeta) : bool :=
  utf8_ValidString (CommandMeta_Name c) && utf8Strings (CommandMeta_Args c)
  && utf8_ValidString (CommandMeta_Cwd c).

Definition utf8TraceFrame (f : TraceFrame) : bool :=
  utf8_ValidString (TraceFrame_File f) && utf8_ValidString (TraceFrame_Func f).

Definition utf8Trace (t : option (list TraceFrame)) : bool :=
  match t with Some fs => forallb utf8TraceFrame fs | None => true end.

Definition utf8HostMeta (h : HostMeta) : bool :=
  utf8_ValidString (HostMeta_Hostname h).

Definition utf8Event (e : Event) : bool :=
  utf8_ValidString (ID e) && utf8_ValidString (Timestamp e)
  && utf8_ValidString (SourceType e) && utf8_ValidString (ProjectRoot e)
  && utf8_ValidString (PHPSAPI e)
  && keepsOption utf8_ValidString (RequestID e)
  && keepsOption utf8HTTPMeta (HTTP e)
  && keepsOption utf8CommandMeta (Command e)
  && utf8_ValidString (PayloadFormat e)
  && utf8Trace (Trace e) && utf8HostMeta (Host e).

(** The same of the memory that the typed decode writes: the cells
    beyond the length of a slice count too, a later array can bring them
    back. *)
Definition utf8CommandMetaMem (c : CommandMetaMem) : bool :=
  utf8CommandMeta (fst c) && forallb utf8_ValidString (snd c).

Definition utf8EventMem (m : EventMem) : bool :=
  utf8Event (eventOf m) && forallb utf8TraceFrame (snd (fst m))
  && forallb utf8_ValidString (snd m).

(** [P] of every cell of a slice in memory. *)
Definition cellsHold {A : Type} (P : A -> bool)
    (x : option (list A) * list A) : bool :=
  match fst x with Some l => forallb P l | None => true end
  && forallb P (snd x).

(** The cli line of the tests with bytes that are not UTF-8 and a lone
    surrogate escape in its id. *)
Definition line_invalid_utf8 : string :=
  jsonText "{'schemaVersion':1,'id':'a"
  +:+ String (chr 255) (String (chr 192) (String (chr 128)
        (jsonText "\ud800','timestamp':'2026-02-28T11:20:31.331Z','sourceType':'cli','projectRoot':'/x','phpSapi':'cli','requestId':null,'command':{'name':'artisan'},'isDd':false,'payloadFormat':'json','payload':{'k':'v'},'trace':[],'host':{'hostname':'h','pid':1}}"))).

(** One of the six strings that [validateEvent] wants non-empty is
    empty. *)
Definition someRequiredStringEmpty (e : Event) : bool :=
  String.eqb (ID e) "" || String.eqb (Timestamp e) ""
  || String.eqb (SourceType e) "" || String.eqb (ProjectRoot e) ""
  || String.eqb (PHPSAPI e) "" || String.eqb (PayloadFormat e) "".

Definition hostInvalid (e : Event) : bool :=
  String.eqb (HostMeta_Hostname (Host e)) "" || (HostMeta_PID (Host e) <=? 0)%Z.

(** A cli line with an empty project root, without a host name and with
    an offset timestamp. *)
Definition line_empty_root : string := jsonText
  ("{'schemaVersion':1,'id':'1','timestamp':'2026-02-28T13:20:31+02:00',"
   +:+ "'sourceType':'cli','projectRoot':'','phpSapi':'cli','requestId':null,"
   +:+ "'isDd':false,'payloadFormat':'json','payload':0,'trace':[],"
   +:+ "'host':{'pid':-1}}").

Definition event_empty_root : Event :=
  mkEvent 1 "1" "2026-02-28T13:20:31+02:00" "cli" "" "cli" None None None
    false "json" (Some "0") (Some []) (mkHostMeta "" (-1)).

(** The same line with its project root given: the host is looked at
    next. *)
Definition line_bad_host : string := jsonText
  ("{'schemaVersion':1,'id':'1','timestamp':'2026-02-28T13:20:31+02:00',"
   +:+ "'sourceType':'cli','projectRoot':'/x','phpSapi':'cli','requestId':null,"
   +:+ "'isDd':false,'payloadFormat':'json','payload':0,'trace':[],"
   +:+ "'host':{'pid':-1}}").

Definition event_bad_host : Event :=
  mkEvent 1 "1" "2026-02-28T13:20:31+02:00" "cli" "/x" "cli" None None None
    false "json" (Some "0") (Some []) (mkHostMeta "" (-1)).

(** A line with a source type and a payload format that are both
    unknown, and without sub-object. *)
Definition line_job_text : string := jsonText
  ("{'schemaVersion':1,'id':'1','timestamp':'2026-02-28T11:20:31Z',"
   +:+ "'sourceType':'job','projectRoot':'/x','phpSapi':'cli','requestId':null,"
   +:+ "'isDd':false,'payloadFormat':'text','payload':0,'trace':[],"
   +:+ "'host':{'hostname':'h','pid':1}}").

Definition event_job_text : Event :=
  mkEvent 1 "1" "2026-02-28T11:20:31Z" "job" "/x" "cli" None None None
    false "text" (Some "0") (Some []) (mkHostMeta "h" 1).

(** The fields of [Event] that the members of an object select, member
    by member. *)
Fixpoint givenFields (ms : list (string * string)) : list nat :=
  match ms with
  | [] => []
  | (k, _) :: ms' =>
      match unquote k with
      | Some key =>
          match findField Event_names key with
          | Some i => i :: givenFields ms'
          | None => givenFields ms'
          end
      | None => givenFields ms'
      end
  end.

Fixpoint distinctNats (l : list nat) : bool :=
  match l with
  | [] => true
  | i :: l' => negb (existsb (Nat.eqb i) l') && distinctNats l'
  end.

(** No two members of the object select the same field of [Event]. *)
Definition fieldsOnce (ms : list (string * string)) : bool :=
  distinctNats (givenFields ms).

(** The same for any struct: the fields, of those named [names], that
    the members select. *)
Fixpoint fieldsGiven (names : list string) (ms : list (string * string))
  : list nat :=
  match ms with
  | [] => []
  | (k, _) :: ms' =>
      match unquote k with
      | Some key =>
          match findField names key with
          | Some i => i :: fieldsGiven names ms'
          | None => fieldsGiven names ms'
          end
      | None => fieldsGiven names ms'
      end
  end.

(** Storing into two different fields gives the same in either order,
    whatever is done with the result. *)
Definition swaps {T : Type} (names : list string)
    (setField : string -> string -> T -> result T) : Prop :=
  forall (B : Type) key1 key2 v1 v2 c (K : T -> result B),
    (forall cur, typeErr (setField key1 v1 cur)) ->
    (forall cur, typeErr (setField key2 v2 cur)) ->
    (forall i, findField names key1 = Some i ->
               findField names key2 <> Some i) ->
    bindR (setField key1 v1 c) (fun a => bindR (setField key2 v2 a) K)
    = bindR (setField key2 v2 c) (fun a => bindR (setField key1 v1 a) K).

(** The cli line of the tests with its members in the opposite order. *)
Definition line_cli_reversed : string := jsonText
  ("{'host':{'hostname':'h','pid':1},'trace':[],'payload':{'k':'v'},"
   +:+ "'payloadFormat':'json','isDd':false,'command':{'name':'artisan'},"
   +:+ "'requestId':null,'phpSapi':'cli','projectRoot':'/x',"
   +:+ "'sourceType':'cli','timestamp':'2026-02-28T11:20:31.331Z','id':'1',"
   +:+ "'schemaVersion':1}").

(** ** The date-time of RFC 3339

    The grammar that the specification names for the timestamp, section
    5.6 of RFC 3339: [date-fullyear "-" date-month "-" date-mday "T"
    time-hour ":" time-minute ":" time-second [time-secfrac]
    time-offset], the year of four digits and every other field of two,
    the month 01 to 12, the day within the month, the hour 00 to 23, the
    minute 00 to 59, the second 00 to 60 (a leap second); [time-secfrac]
    is a period and one or more digits, [time-offset] is [Z] or a sign,
    an hour and a minute; [T] and [Z] may be written in lower case.

    With [plain], the lower-case letters and the second 60 are left
    out. *)

Definition rfc3339Offset (plain : bool) (v : string) : bool :=
  match v with
  | String z "" => ((byte z =? 90) || negb plain && (byte z =? 122))%N
  | String sg (String h1 (String h2 (String co (String m1 (String m2 ""))))) =>
      ((byte sg =? 43) || (byte sg =? 45))%N && (byte co =? 58)%N
      && match getnum (String h1 (str1 h2)) true,
               getnum (String m1 (str1 m2)) true with
         | Some (hr, _), Some (mm, _) => (hr <=? 23)%Z && (mm <=? 59)%Z
         | _, _ => false
         end
  | _ => false
  end.

Definition rfc3339Tail (plain : bool) (v : string) : bool :=
  match v with
  | String p r =>
      if (byte p =? 46)%N then
        let '(ds, r') := spanDigits r in
        (1 <=? String.length ds)%nat && rfc3339Offset plain r'
      else rfc3339Offset plain v
  | "" => false
  end.

Definition skipT (plain : bool) (s : string) : option string :=
  match s with
  | String c r =>
      if ((byte c =? 84) || negb plain && (byte c =? 116))%N then Some r
      else None
  | "" => None
  end.

Definition rfc3339Fields (plain : bool) (ts : string)
  : option (Z * Z * Z * Z * Z * Z * string) :=
  opt '(year, v) <- parseYear ts;
  opt 'v <- skipByte 45 v;
  opt '(month, v) <- getnum v true;
  opt 'v <- skipByte 45 v;
  opt '(day, v) <- getnum v true;
  opt 'v <- skipT plain v;
  opt '(hour, v) <- getnum v true;
  opt 'v <- skipByte 58 v;
  opt '(min, v) <- getnum v true;
  opt 'v <- skipByte 58 v;
  opt '(sec, v) <- getnum v true;
  Some (year, month, day, hour, min, sec, v).

Definition rfc3339Form (plain : bool) (ts : string) : bool :=
  match rfc3339Fields plain ts with
  | Some (year, month, day, hour, min, sec, v) =>
      (1 <=? month)%Z && (month <=? 12)%Z && (1 <=? day)%Z
      && (day <=? daysIn month year)%Z && (hour <=? 23)%Z && (min <=? 59)%Z
      && (sec <=? (if plain then 59 else 60))%Z && rfc3339Tail plain v
  | None => false
  end.

Definition rfc3339 (ts : string) : bool := rfc3339Form false ts.

(** The cli line of the tests with an hour of one digit, and with a leap
    second. *)
Definition line_short_hour : string :=
  line_cli_with "1" "2026-02-28T1:20:31Z" command_artisan "[]" "1" "".

Definition line_leap_second : string :=
  line_cli_with "1" "2016-12-31T23:59:60Z" command_artisan "[]" "1" "".

(** *** The trace of a line *)

(** The values of the members of an object that select field [i] of a
    struct, in order. *)
Fixpoint fieldValues (names : list string) (i : nat)
    (ms : list (string * string)) : list string :=
  match ms with
  | [] => []
  | (k, v) :: ms' =>
      match unquote k with
      | Some key =>
          match findField names key with
          | Some j =>
              if Nat.eqb j i then v :: fieldValues names i ms'
              else fieldValues names i ms'
          | None => fieldValues names i ms'
          end
      | None => fieldValues names i ms'
      end
  end.

(** The values of the members that select the field named [name]. *)
Definition valuesNamed (names : list string) (name : string)
    (ms : list (string * string)) : list string :=
  match findField names name with
  | Some i => fieldValues names i ms
  | None => []
  end.

(** The line that an element of the trace array writes: the integer of
    the last member of the object that selects [line] and holds one;
    zero when there is none. *)
Fixpoint lineOfMembers (ms : list (string * string)) (cur : Z) : Z :=
  match ms with
  | [] => cur
  | (k, v) :: ms' =>
      lineOfMembers ms'
        (match unquote k with
         | Some key =>
             match findField TraceFrame_names key with
             | Some 1%nat =>
                 match integerValue v with Some z => z | None => cur end
             | _ => cur
             end
         | None => cur
         end)
  end.

Definition lineWritten (raw : string) : Z :=
  match shapeOf raw with
  | Some (VObject ms) => lineOfMembers ms 0
  | _ => 0%Z
  end.

(** *** Values that the typed decode can store

    What [json.Unmarshal] takes for a field without an error: [null]
    anywhere, a string for a string, an integer of the 64-bit range for
    an [int], a boolean for a [bool], an array of such values for a
    slice, and for a struct an object all of whose members that select
    a field hold such a value. *)

Definition fitsString (raw : string) : bool :=
  match shapeOf raw with
  | Some (VString _) | Some VNull => true
  | _ => false
  end.

Definition fitsInt (raw : string) : bool :=
  match shapeOf raw with
  | Some VNumber =>
      match strconv_ParseInt raw with Some _ => true | None => false end
  | Some VNull => true
  | _ => false
  end.

Definition fitsBool (raw : string) : bool :=
  match shapeOf raw with
  | Some (VBool _) | Some VNull => true
  | _ => false
  end.

Definition fitsMembers (names : list string) (fits : nat -> string -> bool)
    (ms : list (string * string)) : bool :=
  forallb (fun kv =>
             match unquote (fst kv) with
             | Some key =>
                 match findField names key with
                 | Some i => fits i (snd kv)
                 | None => true
                 end
             | None => true
             end) ms.

Definition fitsStruct (names : list string) (fits : nat -> string -> bool)
    (raw : string) : bool :=
  match shapeOf raw with
  | Some (VObject ms) => fitsMembers names fits ms
  | Some VNull => true
  | _ => false
  end.

Definition fitsSlice (fitsElem : string -> bool) (raw : string) : bool :=
  match shapeOf raw with
  | Some (VArray es) => forallb fitsElem es
  | Some VNull => true
  | _ => false
  end.

Definition fitsHTTPMeta (i : nat) (raw : string) : bool :=
  match i with
  | 5%nat => fitsInt raw
  | _ => fitsString raw
  end.

Definition fitsCommandMeta (i : nat) (raw : string) : bool :=
  match i with
  | 1%nat => fitsSlice fitsString raw
  | _ => fitsString raw
  end.

Definition fitsTraceFrame (i : nat) (raw : string) : bool :=
  match i with
  | 1%nat => fitsInt raw
  | _ => fitsString raw
  end.

Definition fitsHostMeta (i : nat) (raw : string) : bool :=
  match i with
  | 1%nat => fitsInt raw
  | _ => fitsString raw
  end.

Definition fitsEvent (i : nat) (raw : string) : bool :=
  match i with
  | 0%nat => fitsInt raw
  | 7%nat => fitsStruct HTTPMeta_names fitsHTTPMeta raw
  | 8%nat => fitsStruct CommandMeta_names fitsCommandMeta raw
  | 9%nat => fitsBool raw
  | 11%nat => true
  | 12%nat => fitsSlice (fitsStruct TraceFrame_names fitsTraceFrame) raw
  | 13%nat => fitsStruct HostMeta_names fitsHostMeta raw
  | _ => fitsString raw
  end.

(** Every member of the line that selects a field, at any depth, holds
    a value that the field can store. *)
Definition typedLine (trimmed : string) : bool :=
  match parseDocument trimmed with
  | Some (VObject ms, _) => fitsMembers Event_names fitsEvent ms
  | _ => false
  end.

(** [dec] takes every value that [fits]. *)
Definition decodes {A : Type} (fits : string -> bool)
    (dec : string -> A -> result A) : Prop :=
  forall raw cur, fits raw = true -> exists x, dec raw cur = inr x.

(** One member only of the object selects the field that [name] names. *)
Definition namedOnce (names : list string) (name : string)
    (ms : list (string * string)) : bool :=
  match valuesNamed names name ms with
  | [_] => true
  | _ => false
  end.

Definition namedOnceIn (names fields : list string) (raw : string) : bool :=
  match shapeOf raw with
  | Some (VObject ms) => forallb (fun name => namedOnce names name ms) fields
  | _ => true
  end.

(** Every field on which the data model has a rule for its value is
    given by one member only (names are matched as [json.Unmarshal]
    matches them, exactly or by case folding): the seven scalar fields
    and [host] in the line, [hostname] and [pid] in the host, and for
    the source type http the [http] member with its four required
    members, for the other source types the [command] member with its
    [name]. *)
Definition ruledOnce (trimmed : string) : bool :=
  match parseDocument trimmed with
  | Some (VObject ms, _) =>
      forallb (fun name => namedOnce Event_names name ms)
        ["schemaVersion"; "id"; "timestamp"; "sourceType"; "projectRoot";
         "phpSapi"; "payloadFormat"; "host"]
      && forallb (namedOnceIn HostMeta_names ["hostname"; "pid"])
           (valuesNamed Event_names "host" ms)
      && match memberString ms "sourceType" with
         | Some st =>
             if String.eqb st "http" then
               namedOnce Event_names "http" ms
               && forallb (namedOnceIn HTTPMeta_names
                             ["method"; "scheme"; "host"; "path"])
                    (valuesNamed Event_names "http" ms)
             else
               namedOnce Event_names "command" ms
               && forallb (namedOnceIn CommandMeta_names ["name"])
                    (valuesNamed Event_names "command" ms)
         | None => false
         end
  | _ => false
  end.

(** The cli line of the tests with a second member for the id, empty and
    in capitals. *)
Definition line_id_twice : string :=
  line_cli_with "1" "2026-02-28T11:20:31.331Z" command_artisan "[]" "1"
    ",'ID':''".

(** * Lemmas *)

Example scan_ex1 :
  parseDocument (jsonText " {'a' : [1, 2.5e3 ,true], 'b':{} } ") =
  Some (VObject [("a", "[1, 2.5e3 ,true]"); ("b", "{}")],
        jsonText "{'a' : [1, 2.5e3 ,true], 'b':{} }").
Proof. vm_compute. reflexivity. Qed.

Example unquote_ex1 :
  unquote "a\né😀\ud83dx" =
  Some (String "a" (String (chr 10) (String (chr 195) (String (chr 169)
    (String (chr 240) (String (chr 159) (String (chr 152) (String (chr 128)
    (String (chr 239) (String (chr 191) (String (chr 189) "x"))))))))))).
Proof. vm_compute. reflexivity. Qed.

Example ParseInt_ex :
  map strconv_ParseInt
    ["12"; "-0"; "007"; "+5"; "1.0"; "1e2"; "9223372036854775808";
     "-9223372036854775808"; ""; "-"] =
  [Some 12%Z; Some 0%Z; Some 7%Z; Some 5%Z; None; None; None;
   Some minInt64; None; None].
Proof. vm_compute. reflexivity. Qed.

Example time_ex1 :
  map (fun s => option_map time_Format_UTC_RFC3339Nano (time_Parse_RFC3339Nano s))
    ["2026-02-28T11:20:31.331Z"; "2026-02-28T11:20:31.3310Z";
     "2026-02-28T13:20:31+02:00"; "2024-02-29T1:02:03,5Z";
     "2023-02-29T01:02:03Z"; "2026-02-28 11:20:31Z"; "0000-01-01T00:00:00+01:00";
     "2026-02-28T11:20:31.000000001Z"] =
  [Some "2026-02-28T11:20:31.331Z"; Some "2026-02-28T11:20:31.331Z";
   Some "2026-02-28T11:20:31Z"; Some "2024-02-29T01:02:03.5Z";
   None; None; Some "-0001-12-31T23:00:00Z";
   Some "2026-02-28T11:20:31.000000001Z"].
Proof. vm_compute. reflexivity. Qed.

Example decode_http_ok : exists e, DecodeNDJSONLine line_http = (Some e, None).
Proof. eexists. vm_compute. reflexivity. Qed.

Example decode_cli_ok : DecodeNDJSONLine line_cli = (Some event_cli, None).
Proof. vm_compute. reflexivity. Qed.

Lemma DecodeNDJSONLine_decodesTo line event :
  decodesTo line event -> DecodeNDJSONLine line = outcome event.
Proof.
  intros (raw & Hne & Hraw & Hkeys & Hev).
  unfold DecodeNDJSONLine, outcome.
  rewrite Hne, Hraw, Hkeys, Hev. reflexivity.
Qed.

Lemma DecodeNDJSONLine_Some line event :
  DecodeNDJSONLine line = (Some event, None) ->
  decodesTo line event /\ validateEvent event = None.
Proof.
  unfold DecodeNDJSONLine, decodesTo.
  destruct (String.eqb (strings_TrimSpace line) "") eqn:Hne; [discriminate|].
  destruct (json_Unmarshal_RawMap _) as [?|raw] eqn:Hraw; [discriminate|].
  destruct (validateRequiredKeys raw) eqn:Hkeys; [discriminate|].
  destruct (json_Unmarshal_Event _) as [?|ev] eqn:Hev; [discriminate|].
  destruct (validateEvent ev) eqn:Hval; [discriminate|].
  intros [= ->]. split; [exists raw|]; auto.
Qed.

Lemma validateEvent_early event :
  passesEarlyChecks event = true ->
  validateEvent event =
    match time_Parse_RFC3339Nano (Timestamp event) with
    | None => Some (errors_New "timestamp must be RFC3339Nano")
    | Some timestamp =>
        if negb (String.eqb (time_Format_UTC_RFC3339Nano timestamp)
                            (Timestamp event))
        then Some (errors_New "timestamp must be UTC (Z)")
        else if negb (sourceTypeKnown (SourceType event))
        then Some (errors_New
                     "sourceType must be one of: http, cli, worker, cron")
        else if negb (String.eqb (PayloadFormat event) "json")
        then Some (errors_New "payloadFormat must be json for schemaVersion 1")
        else
          match substructureError event with
          | Some err => Some err
          | None =>
              if negb (json_Valid (bytesOf (Payload event)))
              then Some (errors_New "payload must be valid JSON")
              else None
          end
    end.
Proof.
  unfold passesEarlyChecks, validateEvent. intros H.
  apply andb_prop in H as [H H3]. apply andb_prop in H as [H1 H2].
  rewrite H1. apply negb_true_iff in H2, H3. rewrite H2, H3. reflexivity.
Qed.

Lemma validateEvent_substructure event :
  reachesSubstructureCheck event = true ->
  validateEvent event =
    match substructureError event with
    | Some err => Some err
    | None =>
        if negb (json_Valid (bytesOf (Payload event)))
        then Some (errors_New "payload must be valid JSON")
        else None
    end.
Proof.
  unfold reachesSubstructureCheck, timestampCanonical. intros H.
  apply andb_prop in H as [H H4]. apply andb_prop in H as [H H3].
  apply andb_prop in H as [H1 H2].
  rewrite (validateEvent_early _ H1).
  destruct (time_Parse_RFC3339Nano (Timestamp event)); [|discriminate].
  rewrite H2, H3, H4. reflexivity.
Qed.

(** Case analysis on every test of the goal. *)
Ltac split_branches :=
  cbv iota;
  repeat (match goal with
          | |- context [match time_Parse_RFC3339Nano ?x with
                        | Some _ => _ | None => _ end] =>
              destruct (time_Parse_RFC3339Nano x)
          | |- context [if ?b then _ else _] => destruct b
          | |- context [match HTTP ?e with Some _ => _ | None => _ end] =>
              destruct (HTTP e)
          | |- context [match Command ?e with Some _ => _ | None => _ end] =>
              destruct (Command e)
          end; cbv iota).

Lemma decodesTo_nonblank line event :
  decodesTo line event -> strings_TrimSpace line <> "".
Proof.
  intros (raw & Hne & _) H. rewrite H in Hne. discriminate.
Qed.

Lemma isCommandSource_not_http st :
  isCommandSource st -> String.eqb st "http" = false.
Proof. intros [->|[->| ->]]; reflexivity. Qed.

Lemma sourceTypeKnown_cases st :
  sourceTypeKnown st = true -> st = "http" \/ isCommandSource st.
Proof.
  unfold sourceTypeKnown, isCommandSource. intros H.
  repeat (apply orb_prop in H as [H|H]);
    apply String.eqb_eq in H; auto.
Qed.

Lemma substructureError_None event :
  substructureError event = None ->
  (SourceType event = "http" ->
     exists h, HTTP event = Some h /\ httpComplete h)
  /\ (SourceType event <> "http" ->
       exists c, Command event = Some c /\ CommandMeta_Name c <> "").
Proof.
  unfold substructureError, httpComplete.
  destruct (String.eqb_spec (SourceType event) "http") as [E|E].
  - destruct (HTTP event) as [h|]; [|discriminate].
    destruct (String.eqb_spec (HTTPMeta_Method h) ""); [discriminate|].
    destruct (String.eqb_spec (HTTPMeta_Scheme h) ""); [discriminate|].
    destruct (String.eqb_spec (HTTPMeta_Host h) ""); [discriminate|].
    destruct (String.eqb_spec (HTTPMeta_Path h) ""); [discriminate|].
    intros _. split; [|contradiction]. intros _. exists h. auto.
  - destruct (Command event) as [c|]; [|discriminate].
    destruct (String.eqb_spec (CommandMeta_Name c) ""); [discriminate|].
    intros _. split; [contradiction|]. intros _. exists c. auto.
Qed.

Lemma validateEvent_None_substructure event :
  validateEvent event = None ->
  sourceTypeKnown (SourceType event) = true
  /\ substructureError event = None.
Proof.
  unfold validateEvent. fold (sourceTypeKnown (SourceType event)).
  fold (substructureError event).
  destruct (negb (SchemaVersion event =? SchemaVersion_const)%Z);
    [discriminate|].
  match goal with |- context [if ?b then _ else _] => destruct b end;
    [discriminate|].
  match goal with |- context [if ?b then _ else _] => destruct b end;
    [discriminate|].
  destruct (time_Parse_RFC3339Nano (Timestamp event)); [|discriminate].
  match goal with |- context [if ?b then _ else _] => destruct b end;
    [discriminate|].
  destruct (sourceTypeKnown (SourceType event)); [|discriminate].
  cbn [negb].
  match goal with |- context [if ?b then _ else _] => destruct b end;
    [discriminate|].
  destruct (substructureError event); [discriminate|]. auto.
Qed.

(** ** Facts about texts *)

Lemma append_cons c (a b : string) : String c a +:+ b = String c (a +:+ b).
Proof. reflexivity. Qed.

Lemma append_nil_l (s : string) : "" +:+ s = s.
Proof. reflexivity. Qed.

Lemma append_nil_r (s : string) : s +:+ "" = s.
Proof. induction s as [|c s IH]; [reflexivity|]. rewrite append_cons, IH. reflexivity. Qed.

Lemma append_assoc (a b c : string) : (a +:+ b) +:+ c = a +:+ (b +:+ c).
Proof.
  induction a as [|x a IH]; [reflexivity|].
  rewrite !append_cons, IH. reflexivity.
Qed.

Lemma length_append (a b : string) :
  String.length (a +:+ b) = (String.length a + String.length b)%nat.
Proof.
  induction a as [|x a IH]; [reflexivity|].
  rewrite append_cons. cbn [String.length]. rewrite IH. reflexivity.
Qed.

Lemma length_cons c (s : string) : String.length (String c s) = S (String.length s).
Proof. reflexivity. Qed.

Lemma length_nil : String.length "" = 0%nat.
Proof. reflexivity. Qed.

Create Rewrite HintDb strlen.

#[local] Hint Rewrite length_append length_cons length_nil : strlen.

(** Lengths of texts built by appending, compared by arithmetic. *)
Ltac len_lia :=
  unfold dquote, str1 in *; autorewrite with strlen in *; lia.

Lemma append_inv_head (a b c : string) : a +:+ b = a +:+ c -> b = c.
Proof.
  induction a as [|x a IH]; [auto|].
  rewrite !append_cons. intros [= H]. auto.
Qed.

Lemma headSat_append p (a b : string) :
  a <> "" -> headSat p (a +:+ b) = headSat p a.
Proof. destruct a; [contradiction|reflexivity]. Qed.

(** *** White space and digits *)

Lemma skipSpace_sound s w r :
  skipSpace s = (w, r) ->
  s = w +:+ r /\ allSat isSpace w = true /\ headSat isSpace r = false.
Proof.
  revert w r. induction s as [|c s IH]; intros w r; cbn [skipSpace].
  - intros [= <- <-]. auto.
  - destruct (isSpace c) eqn:Hc.
    + destruct (skipSpace s) as [w' r'] eqn:Hs. intros [= <- <-].
      destruct (IH _ _ eq_refl) as (-> & Hw & Hr).
      cbn [allSat]. rewrite Hc, Hw. auto.
    + intros [= <- <-]. cbn [headSat allSat]. auto.
Qed.

Lemma skipSpace_complete w r :
  allSat isSpace w = true -> headSat isSpace r = false ->
  skipSpace (w +:+ r) = (w, r).
Proof.
  intros Hw Hr. induction w as [|c w IH].
  - rewrite append_nil_l. destruct r as [|c r]; [reflexivity|].
    cbn [skipSpace]. cbn [headSat] in Hr. rewrite Hr. reflexivity.
  - cbn [allSat] in Hw. apply andb_prop in Hw as [Hc Hw].
    rewrite append_cons. cbn [skipSpace]. rewrite Hc, (IH Hw). reflexivity.
Qed.

Lemma spanDigits_sound s d r :
  spanDigits s = (d, r) ->
  s = d +:+ r /\ allSat isDigit d = true /\ headSat isDigit r = false.
Proof.
  revert d r. induction s as [|c s IH]; intros d r; cbn [spanDigits].
  - intros [= <- <-]. auto.
  - destruct (isDigit c) eqn:Hc.
    + destruct (spanDigits s) as [d' r'] eqn:Hs. intros [= <- <-].
      destruct (IH _ _ eq_refl) as (-> & Hd & Hr).
      cbn [allSat]. rewrite Hc, Hd. auto.
    + intros [= <- <-]. cbn [headSat allSat]. auto.
Qed.

Lemma spanDigits_complete d r :
  allSat isDigit d = true -> headSat isDigit r = false ->
  spanDigits (d +:+ r) = (d, r).
Proof.
  intros Hd Hr. induction d as [|c d IH].
  - rewrite append_nil_l. destruct r as [|c r]; [reflexivity|].
    cbn [spanDigits]. cbn [headSat] in Hr. rewrite Hr. reflexivity.
  - cbn [allSat] in Hd. apply andb_prop in Hd as [Hc Hd].
    rewrite append_cons. cbn [spanDigits]. rewrite Hc, (IH Hd). reflexivity.
Qed.

(** *** String literals *)

Lemma scanStringBody_sound st s b r :
  scanStringBody st s = Some (b, r) -> s = b +:+ dquote +:+ r.
Proof.
  revert st b r. induction s as [|c s IH]; intros st b r; cbn [scanStringBody];
    [discriminate|].
  destruct st as [| |k].
  - destruct (byte c =? 34)%N eqn:Hq.
    + intros [= <- <-]. apply N.eqb_eq in Hq.
      assert (c = chr 34) as ->.
      { unfold chr. rewrite <- Hq. unfold byte. symmetry. apply ascii_N_embedding. }
      reflexivity.
    + destruct (byte c =? 92)%N.
      * destruct (scanStringBody InStringEsc s) as [[b' r']|] eqn:E; [|discriminate].
        intros [= <- <-]. rewrite (IH _ _ _ E). reflexivity.
      * destruct (byte c <? 32)%N; [discriminate|].
        destruct (scanStringBody InString s) as [[b' r']|] eqn:E; [|discriminate].
        intros [= <- <-]. rewrite (IH _ _ _ E). reflexivity.
  - destruct (isSimpleEscape c).
    + destruct (scanStringBody InString s) as [[b' r']|] eqn:E; [|discriminate].
      intros [= <- <-]. rewrite (IH _ _ _ E). reflexivity.
    + destruct (byte c =? 117)%N; [|discriminate].
      destruct (scanStringBody (InStringEscU 3) s) as [[b' r']|] eqn:E; [|discriminate].
      intros [= <- <-]. rewrite (IH _ _ _ E). reflexivity.
  - destruct (isHex c); [|discriminate].
    destruct (scanStringBody _ s) as [[b' r']|] eqn:E; [|discriminate].
    intros [= <- <-]. rewrite (IH _ _ _ E). reflexivity.
Qed.

Lemma scanStringBody_complete st s b r :
  scanStringBody st s = Some (b, r) ->
  forall r', scanStringBody st (b +:+ dquote +:+ r') = Some (b, r').
Proof.
  revert st b r. induction s as [|c s IH]; intros st b r; cbn [scanStringBody];
    [discriminate|].
  destruct st as [| |k].
  - destruct (byte c =? 34)%N eqn:Hq.
    + intros [= <- <-] r'. reflexivity.
    + destruct (byte c =? 92)%N eqn:Hb.
      * destruct (scanStringBody InStringEsc s) as [[b' r0]|] eqn:E; [|discriminate].
        intros [= <- <-] r'. rewrite append_cons. cbn [scanStringBody].
        rewrite Hq, Hb, (IH _ _ _ E). reflexivity.
      * destruct (byte c <? 32)%N eqn:Hl; [discriminate|].
        destruct (scanStringBody InString s) as [[b' r0]|] eqn:E; [|discriminate].
        intros [= <- <-] r'. rewrite append_cons. cbn [scanStringBody].
        rewrite Hq, Hb, Hl, (IH _ _ _ E). reflexivity.
  - destruct (isSimpleEscape c) eqn:Hs.
    + destruct (scanStringBody InString s) as [[b' r0]|] eqn:E; [|discriminate].
      intros [= <- <-] r'. rewrite append_cons. cbn [scanStringBody].
      rewrite Hs, (IH _ _ _ E). reflexivity.
    + destruct (byte c =? 117)%N eqn:Hu; [|discriminate].
      destruct (scanStringBody (InStringEscU 3) s) as [[b' r0]|] eqn:E; [|discriminate].
      intros [= <- <-] r'. rewrite append_cons. cbn [scanStringBody].
      rewrite Hs, Hu, (IH _ _ _ E). reflexivity.
  - destruct (isHex c) eqn:Hh; [|discriminate].
    destruct (scanStringBody _ s) as [[b' r0]|] eqn:E; [|discriminate].
    intros [= <- <-] r'. rewrite append_cons. cbn [scanStringBody].
    rewrite Hh, (IH _ _ _ E). reflexivity.
Qed.

Lemma numCont_false r :
  headSat numCont r = false ->
  headSat isDigit r = false /\ headSat isDot r = false
  /\ headSat isExp r = false.
Proof.
  destruct r as [|c r]; [auto|]. cbn [headSat]. unfold numCont.
  intros H. apply orb_false_elim in H as [H H3].
  apply orb_false_elim in H as [H1 H2]. auto.
Qed.

Lemma headSat_append_cases p (a b : string) :
  headSat p (a +:+ b) = match a with "" => headSat p b | _ => headSat p a end.
Proof. destruct a; reflexivity. Qed.

Lemma isDot_not_digit c : isDot c = true -> isDigit c = false.
Proof.
  unfold isDot, isDigit. intros H. apply N.eqb_eq in H. rewrite H. reflexivity.
Qed.

Lemma isExp_not_digit c : isExp c = true -> isDigit c = false.
Proof.
  unfold isExp, isDigit. intros H.
  apply orb_prop in H as [H|H]; apply N.eqb_eq in H; rewrite H; reflexivity.
Qed.

Lemma isExp_not_dot c : isExp c = true -> isDot c = false.
Proof.
  unfold isExp, isDot. intros H.
  apply orb_prop in H as [H|H]; apply N.eqb_eq in H; rewrite H; reflexivity.
Qed.

Lemma scanInt_sound s i r :
  scanInt s = Some (i, r) ->
  s = i +:+ r /\ headSat isDigit i = true
  /\ forall r', headSat isDigit r' = false -> scanInt (i +:+ r') = Some (i, r').
Proof.
  destruct s as [|c s]; cbn [scanInt]; [discriminate|].
  destruct (byte c =? 48)%N eqn:H0.
  - intros [= <- <-]. split; [reflexivity|]. split.
    + cbn. unfold isDigit. apply N.eqb_eq in H0. rewrite H0. reflexivity.
    + intros r' _. unfold str1. rewrite append_cons, append_nil_l.
      cbn [scanInt]. rewrite H0. reflexivity.
  - destruct (isDigit19 c) eqn:H19; [|discriminate].
    destruct (spanDigits s) as [d r0] eqn:Hd. intros [= <- <-].
    destruct (spanDigits_sound _ _ _ Hd) as (-> & Hall & Hh).
    split; [reflexivity|]. split.
    + cbn. unfold isDigit19 in H19. unfold isDigit.
      apply andb_prop in H19 as [Ha Hb]. rewrite Hb.
      apply N.leb_le in Ha. rewrite andb_true_r. apply N.leb_le. lia.
    + intros r' Hr'. rewrite append_cons. cbn [scanInt].
      rewrite H0, H19, (spanDigits_complete _ _ Hall Hr'). reflexivity.
Qed.

Lemma scanFrac_sound s f r :
  scanFrac s = Some (f, r) ->
  s = f +:+ r
  /\ (f = "" \/ headSat isDot f = true)
  /\ forall r', headSat isDigit r' = false ->
                (f = "" -> headSat isDot r' = false) ->
                scanFrac (f +:+ r') = Some (f, r').
Proof.
  destruct s as [|c s]; cbn [scanFrac].
  - intros [= <- <-]. split; [reflexivity|]. split; [auto|].
    intros r' _ Hdot. rewrite append_nil_l.
    destruct r' as [|c' r']; [reflexivity|]. cbn [scanFrac].
    cbn [headSat] in Hdot. unfold isDot in Hdot. rewrite (Hdot eq_refl).
    reflexivity.
  - destruct (byte c =? 46)%N eqn:Hc.
    + destruct (spanDigits s) as [d r0] eqn:Hd.
      destruct (spanDigits_sound _ _ _ Hd) as (-> & Hall & Hh).
      destruct d as [|d0 d]; [discriminate|]. intros [= <- <-].
      split; [reflexivity|]. split; [right; exact Hc|].
      intros r' Hr' _. rewrite append_cons. cbn [scanFrac].
      rewrite Hc, (spanDigits_complete _ _ Hall Hr'). reflexivity.
    + intros [= <- <-]. split; [reflexivity|]. split; [auto|].
      intros r' _ Hdot. rewrite append_nil_l.
      destruct r' as [|c' r']; [reflexivity|]. cbn [scanFrac].
      cbn [headSat] in Hdot. unfold isDot in Hdot. rewrite (Hdot eq_refl).
      reflexivity.
Qed.

Lemma scanExp_sound s e r :
  scanExp s = Some (e, r) ->
  s = e +:+ r
  /\ (e = "" \/ headSat isExp e = true)
  /\ forall r', headSat isDigit r' = false ->
                (e = "" -> headSat isExp r' = false) ->
                scanExp (e +:+ r') = Some (e, r').
Proof.
  assert (Hnil : forall r', headSat isExp r' = false -> scanExp r' = Some ("", r')).
  { intros [|c' r'] H; [reflexivity|]. cbn [scanExp]. cbn [headSat] in H.
    unfold isExp in H. rewrite H. reflexivity. }
  destruct s as [|c s]; cbn [scanExp].
  - intros [= <- <-]. split; [reflexivity|]. split; [auto|].
    intros r' _ He. rewrite append_nil_l. auto.
  - destruct ((byte c =? 101) || (byte c =? 69))%N eqn:Hc.
    + destruct s as [|g s'].
      * cbn [spanDigits]. discriminate.
      * destruct ((byte g =? 43) || (byte g =? 45))%N eqn:Hg.
        -- destruct (spanDigits s') as [d r0] eqn:Hd.
           destruct (spanDigits_sound _ _ _ Hd) as (-> & Hall & Hh).
           destruct d as [|d0 d]; [discriminate|]. intros [= <- <-].
           split; [reflexivity|]. split; [right; exact Hc|].
           intros r' Hr' _. unfold str1. rewrite !append_cons, append_nil_l.
           rewrite append_cons.
           cbn [scanExp]. rewrite Hc, Hg.
           rewrite <- append_cons.
           rewrite (spanDigits_complete _ _ Hall Hr'). reflexivity.
        -- destruct (spanDigits (String g s')) as [d r0] eqn:Hd.
           destruct (spanDigits_sound _ _ _ Hd) as (Hs & Hall & Hh).
           destruct d as [|d0 d]; [discriminate|]. intros [= <- <-].
           rewrite append_cons in Hs. injection Hs as -> ->.
           split; [reflexivity|]. split; [right; exact Hc|].
           intros r' Hr' _. rewrite append_nil_l, !append_cons.
           cbn [scanExp]. rewrite Hc, Hg.
           rewrite <- append_cons.
           rewrite (spanDigits_complete _ _ Hall Hr'). reflexivity.
    + intros [= <- <-]. split; [reflexivity|]. split; [auto|].
      intros r' _ He. rewrite append_nil_l. apply Hnil. auto.
Qed.

Lemma headSat_true_nonempty p s : headSat p s = true -> s <> "".
Proof. destruct s; [discriminate|discriminate]. Qed.

Lemma headSat_imp (p q : ascii -> bool) s :
  (forall c, p c = true -> q c = false) ->
  headSat p s = true -> headSat q s = false.
Proof. intros H. destruct s as [|c s]; [auto|]. cbn. apply H. Qed.

(** A number is not empty and starts with a sign or a digit; it can be
    followed by any text that does not continue it. *)
Lemma scanNumber_sound s n r :
  scanNumber s = Some (n, r) ->
  s = n +:+ r
  /\ headSat (fun c => (byte c =? 45)%N || isDigit c) n = true
  /\ forall r', headSat numCont r' = false -> scanNumber (n +:+ r') = Some (n, r').
Proof.
  unfold scanNumber.
  set (split := match s with
                | String c r0 => if (byte c =? 45)%N then (str1 c, r0) else ("", s)
                | "" => ("", s)
                end).
  destruct split as [sg s1] eqn:Hsplit.
  destruct (scanInt s1) as [[i s2]|] eqn:Hi; [|discriminate].
  destruct (scanFrac s2) as [[f s3]|] eqn:Hf; [|discriminate].
  destruct (scanExp s3) as [[e s4]|] eqn:He; [|discriminate].
  intros [= <- <-].
  destruct (scanInt_sound _ _ _ Hi) as (-> & Hih & Hic).
  destruct (scanFrac_sound _ _ _ Hf) as (-> & Hfh & Hfc).
  destruct (scanExp_sound _ _ _ He) as (-> & Heh & Hec).
  assert (Hsg : s = sg +:+ i +:+ f +:+ e +:+ s4
                /\ (sg = "" \/ exists c, sg = str1 c /\ (byte c =? 45)%N = true)).
  { subst split. destruct s as [|c r0].
    - injection Hsplit as <- <-. auto.
    - destruct (byte c =? 45)%N eqn:Hc; injection Hsplit as <- <-.
      + split; [reflexivity|]. right. exists c. auto.
      + auto. }
  destruct Hsg as [Hs Hsg]. split; [|split].
  - rewrite Hs, !append_assoc. reflexivity.
  - destruct Hsg as [->|(c & -> & Hc)].
    + rewrite append_nil_l, headSat_append by (apply (headSat_true_nonempty _ _ Hih)).
      destruct i as [|c i]; [discriminate|]. cbn in *. rewrite Hih.
      apply orb_true_r.
    + unfold str1. rewrite append_cons. cbn [headSat]. rewrite Hc. reflexivity.
  - intros r' Hr'. destruct (numCont_false _ Hr') as (Hd & Hdot & Hexp).
    assert (Hfe : headSat isDigit (e +:+ r') = false).
    { rewrite headSat_append_cases. destruct Heh as [->|Heh]; [exact Hd|].
      destruct e; [discriminate|].
      apply (headSat_imp isExp isDigit); [apply isExp_not_digit|exact Heh]. }
    assert (Hfd : headSat isDigit (f +:+ e +:+ r') = false).
    { rewrite headSat_append_cases. destruct Hfh as [->|Hfh]; [exact Hfe|].
      destruct f; [discriminate|].
      apply (headSat_imp isDot isDigit); [apply isDot_not_digit|exact Hfh]. }
    assert (Hstep : scanInt (i +:+ f +:+ e +:+ r') = Some (i, f +:+ e +:+ r')
                    /\ scanFrac (f +:+ e +:+ r') = Some (f, e +:+ r')
                    /\ scanExp (e +:+ r') = Some (e, r')).
    { split; [apply Hic; exact Hfd|]. split.
      - apply Hfc; [exact Hfe|]. intros _. rewrite headSat_append_cases.
        destruct Heh as [->|Heh]; [exact Hdot|]. destruct e; [discriminate|].
        apply (headSat_imp isExp isDot); [apply isExp_not_dot|exact Heh].
      - apply Hec; [exact Hd|]. intros _. exact Hexp. }
    destruct Hstep as (Si & Sf & Se).
    rewrite !append_assoc.
    destruct Hsg as [->|(c & -> & Hc)].
    + rewrite append_nil_l.
      assert (Hhead : match i +:+ f +:+ e +:+ r' with
                      | String c r0 =>
                          if (byte c =? 45)%N then (str1 c, r0)
                          else ("", i +:+ f +:+ e +:+ r')
                      | "" => ("", i +:+ f +:+ e +:+ r')
                      end = ("", i +:+ f +:+ e +:+ r')).
      { destruct i as [|c i]; [discriminate|]. rewrite append_cons.
        cbn [headSat] in Hih. unfold isDigit in Hih.
        destruct (byte c =? 45)%N eqn:Hc; [|reflexivity].
        apply N.eqb_eq in Hc. rewrite Hc in Hih. discriminate. }
      rewrite Hhead, Si, Sf, Se. reflexivity.
    + unfold str1. rewrite append_cons, append_nil_l. rewrite Hc.
      fold (str1 c). rewrite Si, Sf, Se. reflexivity.
Qed.

Lemma byte_eqb_true c n : (byte c =? n)%N = true -> c = chr n.
Proof.
  intros H. apply N.eqb_eq in H. unfold chr. rewrite <- H. unfold byte.
  symmetry. apply ascii_N_embedding.
Qed.

(** Replaces a byte known by its code with the character. *)
Ltac know_byte H :=
  apply byte_eqb_true in H; vm_compute in H; subst.

(** Both sides of an equation between texts, brought to one form. *)
Ltac norm_app :=
  unfold dquote, str1;
  repeat (rewrite append_cons || rewrite append_assoc || rewrite append_nil_l).

Tactic Notation "norm_app" "in" hyp(H) :=
  unfold dquote, str1 in H;
  repeat (rewrite append_cons in H || rewrite append_assoc in H
          || rewrite append_nil_l in H).

(** Uses a derivation whose text is written differently. *)
Ltac exact_text H :=
  match goal with
  | |- ?P ?d ?raw ?x =>
      match type of H with
      | ?P ?d ?raw' ?x =>
          replace raw with raw' by (norm_app; reflexivity); exact H
      end
  end.

Lemma stripPrefix_sound p s r : stripPrefix p s = Some r -> s = p +:+ r.
Proof.
  revert s. induction p as [|a p IH]; intros s; cbn [stripPrefix].
  - intros [= ->]. reflexivity.
  - destruct s as [|b s]; [discriminate|].
    destruct (Ascii.eqb_spec a b) as [->|]; [|discriminate].
    intros H. rewrite (IH _ H). reflexivity.
Qed.

Lemma stripPrefix_complete p r : stripPrefix p (p +:+ r) = Some r.
Proof.
  induction p as [|a p IH]; [reflexivity|].
  rewrite append_cons. cbn [stripPrefix]. rewrite Ascii.eqb_refl. exact IH.
Qed.

Lemma isStrBody_of_scan st s b r :
  scanStringBody st s = Some (b, r) -> st = InString -> isStrBody b.
Proof.
  intros H ->. unfold isStrBody.
  rewrite <- (append_nil_r dquote), <- append_assoc.
  rewrite append_assoc. apply (scanStringBody_complete _ _ _ _ H).
Qed.

Lemma isStrBody_scan b r :
  isStrBody b -> scanStringBody InString (b +:+ String (chr 34) r) = Some (b, r).
Proof.
  intros H. pose proof (scanStringBody_complete _ _ _ _ H r) as Hc.
  norm_app in Hc. exact Hc.
Qed.

Lemma isNumber_of_scan s n r : scanNumber s = Some (n, r) -> isNumber n.
Proof.
  intros H. destruct (scanNumber_sound _ _ _ H) as (_ & _ & Hc).
  unfold isNumber. rewrite <- (append_nil_r n) at 1. apply Hc. reflexivity.
Qed.

Lemma scan_sound n :
  (forall d s sh raw r,
      scanValue n d s = Some (sh, raw, r) -> s = raw +:+ r /\ Value d raw sh)
  /\ (forall d s es raw r,
        scanElems n d s = Some (es, raw, r) -> s = raw +:+ r /\ Elems d raw es)
  /\ (forall d s ms raw r,
        scanMembers n d s = Some (ms, raw, r) ->
        s = raw +:+ r /\ Members d raw ms).
Proof.
  induction n as [|n (IHv & IHe & IHm)].
  { repeat split; discriminate. }
  split; [|split].
  - intros d s sh raw r. cbn [scanValue].
    destruct s as [|c s]; [discriminate|].
    destruct (byte c =? 123)%N eqn:Hobj.
    { know_byte Hobj.
      destruct (d + 1 <=? maxNestingDepth)%N eqn:Hd; [|discriminate].
      apply N.leb_le in Hd.
      destruct (skipSpace s) as [w0 r0] eqn:Hw.
      destruct (skipSpace_sound _ _ _ Hw) as (-> & Hw0 & _).
      destruct r0 as [|c0 r1]; [discriminate|].
      destruct (byte c0 =? 125)%N eqn:Hc0.
      - know_byte Hc0. intros [= <- <- <-]. split.
        + norm_app. reflexivity.
        + pose proof (V_object_nil d w0 Hd Hw0) as D. exact_text D.
      - destruct (scanMembers n (d + 1) (String c0 r1)) as [[[ms raw'] r2]|] eqn:Hm;
          [|discriminate].
        intros [= <- <- <-]. destruct (IHm _ _ _ _ _ Hm) as [E M]. split.
        + rewrite E. norm_app. reflexivity.
        + pose proof (V_object d w0 raw' ms Hd Hw0 M) as D. exact_text D. }
    destruct (byte c =? 91)%N eqn:Harr.
    { know_byte Harr.
      destruct (d + 1 <=? maxNestingDepth)%N eqn:Hd; [|discriminate].
      apply N.leb_le in Hd.
      destruct (skipSpace s) as [w0 r0] eqn:Hw.
      destruct (skipSpace_sound _ _ _ Hw) as (-> & Hw0 & _).
      destruct r0 as [|c0 r1]; [discriminate|].
      destruct (byte c0 =? 93)%N eqn:Hc0.
      - know_byte Hc0. intros [= <- <- <-]. split.
        + norm_app. reflexivity.
        + pose proof (V_array_nil d w0 Hd Hw0) as D. exact_text D.
      - destruct (scanElems n (d + 1) (String c0 r1)) as [[[es raw'] r2]|] eqn:He;
          [|discriminate].
        intros [= <- <- <-]. destruct (IHe _ _ _ _ _ He) as [E M]. split.
        + rewrite E. norm_app. reflexivity.
        + pose proof (V_array d w0 raw' es Hd Hw0 M) as D. exact_text D. }
    destruct (byte c =? 34)%N eqn:Hstr.
    { know_byte Hstr.
      destruct (scanStringBody InString s) as [[b r1]|] eqn:Hb; [|discriminate].
      intros [= <- <- <-]. split.
      - rewrite (scanStringBody_sound _ _ _ _ Hb). norm_app. reflexivity.
      - pose proof (V_string d b (isStrBody_of_scan _ _ _ _ Hb eq_refl)) as D.
        exact_text D. }
    destruct (byte c =? 116)%N.
    { destruct (stripPrefix "true" (String c s)) as [r1|] eqn:Hp; [|discriminate].
      intros [= <- <- <-]. split; [apply stripPrefix_sound; exact Hp|apply V_true]. }
    destruct (byte c =? 102)%N.
    { destruct (stripPrefix "false" (String c s)) as [r1|] eqn:Hp; [|discriminate].
      intros [= <- <- <-]. split; [apply stripPrefix_sound; exact Hp|apply V_false]. }
    destruct (byte c =? 110)%N.
    { destruct (stripPrefix "null" (String c s)) as [r1|] eqn:Hp; [|discriminate].
      intros [= <- <- <-]. split; [apply stripPrefix_sound; exact Hp|apply V_null]. }
    destruct (scanNumber (String c s)) as [[m r1]|] eqn:Hn; [|discriminate].
    intros [= <- <- <-]. split.
    + apply (scanNumber_sound _ _ _ Hn).
    + apply V_number. apply (isNumber_of_scan _ _ _ Hn).
  - intros d s es raw r. cbn [scanElems].
    destruct (scanValue n d s) as [[[sh v] r0]|] eqn:Hv; [|discriminate].
    destruct (IHv _ _ _ _ _ Hv) as [-> V].
    destruct (skipSpace r0) as [w1 r1] eqn:Hw1.
    destruct (skipSpace_sound _ _ _ Hw1) as (-> & Hs1 & _).
    destruct r1 as [|c r2]; [discriminate|].
    destruct (byte c =? 93)%N eqn:Hc.
    { know_byte Hc. intros [= <- <- <-]. split.
      - norm_app. reflexivity.
      - pose proof (E_last d v sh w1 V Hs1) as D. exact_text D. }
    destruct (byte c =? 44)%N eqn:Hc'; [|discriminate]. know_byte Hc'.
    destruct (skipSpace r2) as [w2 r3] eqn:Hw2.
    destruct (skipSpace_sound _ _ _ Hw2) as (-> & Hs2 & _).
    destruct (scanElems n d r3) as [[[es' raw'] r4]|] eqn:He; [|discriminate].
    destruct (IHe _ _ _ _ _ He) as [-> E].
    intros [= <- <- <-]. split.
    + norm_app. reflexivity.
    + pose proof (E_cons d v sh w1 w2 raw' es' V Hs1 Hs2 E) as D. exact_text D.
  - intros d s ms raw r. cbn [scanMembers].
    destruct s as [|q s]; [discriminate|].
    destruct (byte q =? 34)%N eqn:Hq; [|discriminate]. know_byte Hq.
    destruct (scanStringBody InString s) as [[k r0]|] eqn:Hk; [|discriminate].
    pose proof (scanStringBody_sound _ _ _ _ Hk) as ->.
    pose proof (isStrBody_of_scan _ _ _ _ Hk eq_refl) as Kb.
    destruct (skipSpace r0) as [w0 r1] eqn:Hw0.
    destruct (skipSpace_sound _ _ _ Hw0) as (-> & Hs0 & _).
    destruct r1 as [|c1 r2]; [discriminate|].
    destruct (byte c1 =? 58)%N eqn:Hc1; [|discriminate]. know_byte Hc1.
    destruct (skipSpace r2) as [w1 r3] eqn:Hw1.
    destruct (skipSpace_sound _ _ _ Hw1) as (-> & Hs1 & _).
    destruct (scanValue n d r3) as [[[sh v] r4]|] eqn:Hv; [|discriminate].
    destruct (IHv _ _ _ _ _ Hv) as [-> V].
    destruct (skipSpace r4) as [w2 r5] eqn:Hw2.
    destruct (skipSpace_sound _ _ _ Hw2) as (-> & Hs2 & _).
    destruct r5 as [|c r6]; [discriminate|].
    destruct (byte c =? 125)%N eqn:Hc.
    { know_byte Hc. intros [= <- <- <-]. split.
      - norm_app. reflexivity.
      - pose proof (M_last d k w0 w1 v sh w2 Kb Hs0 Hs1 V Hs2) as D.
        exact_text D. }
    destruct (byte c =? 44)%N eqn:Hc'; [|discriminate]. know_byte Hc'.
    destruct (skipSpace r6) as [w3 r7] eqn:Hw3.
    destruct (skipSpace_sound _ _ _ Hw3) as (-> & Hs3 & _).
    destruct (scanMembers n d r7) as [[[ms' raw'] r8]|] eqn:Hm; [|discriminate].
    destruct (IHm _ _ _ _ _ Hm) as [-> M].
    intros [= <- <- <-]. split.
    + norm_app. reflexivity.
    + pose proof (M_cons d k w0 w1 v sh w2 w3 raw' ms' Kb Hs0 Hs1 V Hs2 Hs3 M)
        as D.
      exact_text D.
Qed.

Lemma isNumber_head n : isNumber n -> headSat numHead n = true.
Proof. intros H. apply (scanNumber_sound _ _ _ H). Qed.

Lemma Value_head d raw sh : Value d raw sh -> headSat isValueStart raw = true.
Proof.
  destruct 1; try reflexivity.
  apply isNumber_head in H. destruct n as [|c n]; [discriminate|].
  cbn [headSat] in *. unfold isValueStart. rewrite H. apply orb_true_r.
Qed.

Lemma Elems_head d raw es : Elems d raw es -> headSat isValueStart raw = true.
Proof.
  destruct 1 as [d v sh w V _|d v sh w1 w2 raw es V _ _ _];
    apply Value_head in V;
    rewrite headSat_append by (apply (headSat_true_nonempty _ _ V)); exact V.
Qed.

Lemma Members_head d raw ms :
  Members d raw ms -> exists r, raw = String (chr 34) r.
Proof. destruct 1; eexists; norm_app; reflexivity. Qed.

Lemma numHead_tests c :
  numHead c = true ->
  (byte c =? 123)%N = false /\ (byte c =? 91)%N = false
  /\ (byte c =? 34)%N = false /\ (byte c =? 116)%N = false
  /\ (byte c =? 102)%N = false /\ (byte c =? 110)%N = false.
Proof.
  unfold numHead, isDigit. intros H.
  assert (byte c = 45 \/ 48 <= byte c <= 57)%N as Hc.
  { apply orb_prop in H as [H|H]; [left; apply N.eqb_eq; exact H|right].
    apply andb_prop in H as [H1 H2]. apply N.leb_le in H1, H2. lia. }
  repeat split; apply N.eqb_neq; lia.
Qed.

Lemma isValueStart_tests c :
  isValueStart c = true ->
  isSpace c = false /\ (byte c =? 93)%N = false /\ (byte c =? 125)%N = false.
Proof.
  unfold isValueStart, numHead, isDigit, isSpace. intros H.
  assert (byte c = 123 \/ byte c = 91 \/ byte c = 34 \/ byte c = 116
          \/ byte c = 102 \/ byte c = 110 \/ byte c = 45
          \/ 48 <= byte c <= 57)%N as Hc.
  { repeat (apply orb_prop in H as [H|H]);
      try (apply N.eqb_eq in H; tauto).
    apply andb_prop in H as [H1 H2]. apply N.leb_le in H1, H2. lia. }
  repeat split;
    repeat (apply orb_false_intro); apply N.eqb_neq; lia.
Qed.

Lemma isSpace_not_numCont c : isSpace c = true -> numCont c = false.
Proof.
  unfold isSpace, numCont, isDigit, isDot, isExp. intros H.
  assert (byte c = 32 \/ byte c = 9 \/ byte c = 13 \/ byte c = 10)%N as Hc.
  { repeat (apply orb_prop in H as [H|H]); apply N.eqb_eq in H; tauto. }
  repeat (apply orb_false_intro);
    try (apply N.eqb_neq; lia).
  apply andb_false_intro1. apply N.leb_gt. lia.
Qed.

(** After a value come white space and then a byte that is no part of a
    number. *)
Lemma follow_numCont w c x :
  allSpace w -> numCont c = false ->
  headSat numCont (w +:+ String c x) = false.
Proof.
  intros Hw Hc. destruct w as [|a w]; [exact Hc|].
  rewrite append_cons. cbn [headSat]. unfold allSpace in Hw.
  cbn [allSat] in Hw. apply andb_prop in Hw as [Ha _].
  apply isSpace_not_numCont. exact Ha.
Qed.

Lemma skipSpace_to w c x :
  allSpace w -> isSpace c = false ->
  skipSpace (w +:+ String c x) = (w, String c x).
Proof. intros Hw Hc. apply skipSpace_complete; [exact Hw|exact Hc]. Qed.

(** The tests of the scanner on a byte that is known. *)
Ltac eval_bytes :=
  repeat match goal with
         | |- context [(byte ?c =? ?k)%N] =>
             let v := eval vm_compute in (byte c =? k)%N in
             lazymatch v with
             | true => change (byte c =? k)%N with true
             | false => change (byte c =? k)%N with false
             end
         end;
  cbv iota.

Lemma scan_complete :
  (forall d raw sh, Value d raw sh ->
     forall n rest, (String.length raw < n)%nat ->
       (sh = VNumber -> headSat numCont rest = false) ->
       scanValue n d (raw +:+ rest) = Some (sh, raw, rest))
  /\ (forall d raw es, Elems d raw es ->
        forall n rest, (String.length raw < n)%nat ->
          scanElems n d (raw +:+ rest) = Some (es, raw, rest))
  /\ (forall d raw ms, Members d raw ms ->
        forall n rest, (String.length raw < n)%nat ->
          scanMembers n d (raw +:+ rest) = Some (ms, raw, rest)).
Proof.
  apply grammar_mutind.
  - (* null *) intros d [|n] rest Hn _; [len_lia|]. reflexivity.
  - intros d [|n] rest Hn _; [len_lia|]. reflexivity.
  - intros d [|n] rest Hn _; [len_lia|]. reflexivity.
  - (* number *) intros d m Hm [|n] rest Hn Hf; [len_lia|].
    pose proof (isNumber_head _ Hm) as Hh.
    destruct (scanNumber_sound _ _ _ Hm) as (_ & _ & Hc).
    specialize (Hc rest (Hf eq_refl)).
    destruct m as [|c m]; [discriminate|]. rewrite append_cons in *.
    cbn [headSat] in Hh.
    destruct (numHead_tests _ Hh) as (T1 & T2 & T3 & T4 & T5 & T6).
    cbn [scanValue]. rewrite T1, T2, T3, T4, T5, T6, Hc. reflexivity.
  - (* string *) intros d b Hb [|n] rest Hn _; [len_lia|].
    norm_app. cbn [scanValue]. eval_bytes.
    rewrite (isStrBody_scan _ _ Hb). reflexivity.
  - (* empty array *) intros d w Hd Hw [|n] rest Hn _; [len_lia|].
    norm_app. cbn [scanValue]. eval_bytes.
    apply N.leb_le in Hd. rewrite Hd.
    rewrite (skipSpace_to w "]" rest Hw eq_refl). eval_bytes.
    norm_app. reflexivity.
  - (* array *) intros d w raw es Hd Hw He IH [|n] rest Hn _; [len_lia|].
    pose proof (Elems_head _ _ _ He) as Hh.
    destruct raw as [|c raw]; [discriminate|]. cbn [headSat] in Hh.
    destruct (isValueStart_tests _ Hh) as (Hsp & H93 & _).
    norm_app. cbn [scanValue]. eval_bytes.
    apply N.leb_le in Hd. rewrite Hd.
    rewrite (skipSpace_to w c (raw +:+ rest) Hw Hsp). rewrite H93.
    rewrite <- append_cons. rewrite IH.
    + norm_app. reflexivity.
    + len_lia.
  - (* empty object *) intros d w Hd Hw [|n] rest Hn _; [len_lia|].
    norm_app. cbn [scanValue]. eval_bytes.
    apply N.leb_le in Hd. rewrite Hd.
    rewrite (skipSpace_to w "}" rest Hw eq_refl). eval_bytes.
    norm_app. reflexivity.
  - (* object *) intros d w raw ms Hd Hw Hm IH [|n] rest Hn _; [len_lia|].
    destruct (Members_head _ _ _ Hm) as (raw' & ->).
    norm_app. cbn [scanValue]. eval_bytes.
    apply N.leb_le in Hd. rewrite Hd.
    rewrite (skipSpace_to w (chr 34) (raw' +:+ rest) Hw eq_refl). eval_bytes.
    rewrite <- append_cons. rewrite IH.
    + norm_app. reflexivity.
    + len_lia.
  - (* last element *) intros d v sh w Hv IH Hw [|n] rest Hn; [len_lia|].
    norm_app. cbn [scanElems].
    rewrite IH; [|len_lia|intros _; apply follow_numCont; [exact Hw|reflexivity]].
    rewrite (skipSpace_to w "]" rest Hw eq_refl). eval_bytes.
    norm_app. reflexivity.
  - (* element and more *)
    intros d v sh w1 w2 raw es Hv IHv Hw1 Hw2 He IHe [|n] rest Hn; [len_lia|].
    pose proof (Elems_head _ _ _ He) as Hh.
    destruct raw as [|c raw]; [discriminate|]. cbn [headSat] in Hh.
    destruct (isValueStart_tests _ Hh) as (Hsp & _ & _).
    norm_app. cbn [scanElems].
    rewrite IHv; [|len_lia|intros _; apply follow_numCont; [exact Hw1|reflexivity]].
    rewrite (skipSpace_to w1 "," _ Hw1 eq_refl). eval_bytes.
    rewrite (skipSpace_to w2 c _ Hw2 Hsp).
    rewrite <- append_cons. rewrite IHe; [|len_lia].
    norm_app. reflexivity.
  - (* last member *)
    intros d k w0 w1 v sh w2 Hk Hw0 Hw1 Hv IHv Hw2 [|n] rest Hn; [len_lia|].
    pose proof (Value_head _ _ _ Hv) as Hh.
    destruct v as [|c v]; [discriminate|]. cbn [headSat] in Hh.
    destruct (isValueStart_tests _ Hh) as (Hsp & _ & _).
    norm_app. cbn [scanMembers]. eval_bytes.
    rewrite (isStrBody_scan _ _ Hk).
    rewrite (skipSpace_to w0 ":" _ Hw0 eq_refl). eval_bytes.
    rewrite (skipSpace_to w1 c _ Hw1 Hsp).
    rewrite <- append_cons.
    rewrite IHv; [|len_lia
                  |intros _; apply follow_numCont; [exact Hw2|reflexivity]].
    rewrite (skipSpace_to w2 "}" rest Hw2 eq_refl). eval_bytes.
    norm_app. reflexivity.
  - (* member and more *)
    intros d k w0 w1 v sh w2 w3 raw ms Hk Hw0 Hw1 Hv IHv Hw2 Hw3 Hm IHm
      [|n] rest Hn; [len_lia|].
    pose proof (Value_head _ _ _ Hv) as Hh.
    destruct v as [|c v]; [discriminate|]. cbn [headSat] in Hh.
    destruct (isValueStart_tests _ Hh) as (Hsp & _ & _).
    destruct (Members_head _ _ _ Hm) as (raw' & ->).
    norm_app. cbn [scanMembers]. eval_bytes.
    rewrite (isStrBody_scan _ _ Hk).
    rewrite (skipSpace_to w0 ":" _ Hw0 eq_refl). eval_bytes.
    rewrite (skipSpace_to w1 c _ Hw1 Hsp).
    rewrite <- append_cons.
    rewrite IHv; [|len_lia
                  |intros _; apply follow_numCont; [exact Hw2|reflexivity]].
    rewrite (skipSpace_to w2 "," _ Hw2 eq_refl). eval_bytes.
    rewrite (skipSpace_to w3 (chr 34) _ Hw3 eq_refl).
    rewrite <- append_cons. rewrite IHm; [|len_lia].
    norm_app. reflexivity.
Qed.

(** *** Consequences: raw values can be scanned again *)

Lemma grammar_depth_mono :
  (forall d raw sh, Value d raw sh -> forall d', (d' <= d)%N -> Value d' raw sh)
  /\ (forall d raw es, Elems d raw es ->
        forall d', (d' <= d)%N -> Elems d' raw es)
  /\ (forall d raw ms, Members d raw ms ->
        forall d', (d' <= d)%N -> Members d' raw ms).
Proof.
  apply grammar_mutind; intros.
  - apply V_null.
  - apply V_true.
  - apply V_false.
  - apply V_number; assumption.
  - apply V_string; assumption.
  - apply V_array_nil; [lia|assumption].
  - apply V_array; [lia|assumption|]. apply H2. lia.
  - apply V_object_nil; [lia|assumption].
  - apply V_object; [lia|assumption|]. apply H2. lia.
  - eapply E_last; eauto.
  - eapply E_cons; eauto.
  - eapply M_last; eauto.
  - eapply M_cons; eauto.
Qed.

Lemma Value_depth_0 d raw sh : Value d raw sh -> Value 0 raw sh.
Proof. intros H. apply (proj1 grammar_depth_mono _ _ _ H). lia. Qed.

Lemma Value_scan d raw sh :
  Value d raw sh ->
  scanValue (S (String.length raw)) d raw = Some (sh, raw, "").
Proof.
  intros H. rewrite <- (append_nil_r raw) at 2.
  apply (proj1 scan_complete _ _ _ H); [lia|reflexivity].
Qed.

Lemma Value_shapeOf d raw sh : Value d raw sh -> shapeOf raw = Some sh.
Proof.
  intros H. unfold shapeOf. rewrite (Value_scan _ _ _ (Value_depth_0 _ _ _ H)).
  reflexivity.
Qed.

Lemma shapeOf_Value raw sh : shapeOf raw = Some sh -> Value 0 raw sh.
Proof.
  unfold shapeOf.
  destruct (scanValue _ 0 raw) as [[[sh' raw'] r]|] eqn:E; [|discriminate].
  destruct r; [|discriminate]. intros [= <-].
  destruct (proj1 (scan_sound _) _ _ _ _ _ E) as [Hs V].
  rewrite append_nil_r in Hs. subst raw'. exact V.
Qed.

Lemma Value_nonspace d raw sh : Value d raw sh -> headSat isSpace raw = false.
Proof.
  intros H. apply Value_head in H. destruct raw as [|c raw]; [reflexivity|].
  apply isValueStart_tests in H. apply H.
Qed.

Lemma parseDocument_Value data sh raw :
  parseDocument data = Some (sh, raw) -> Value 0 raw sh.
Proof.
  unfold parseDocument. destruct (skipSpace data) as [w s].
  destruct (scanValue _ 0 s) as [[[sh' raw'] r]|] eqn:E; [|discriminate].
  destruct (skipSpace r) as [w' [|]]; [|discriminate]. intros [= <- <-].
  apply (proj1 (scan_sound _) _ _ _ _ _ E).
Qed.

Lemma Value_parseDocument d raw sh :
  Value d raw sh -> parseDocument raw = Some (sh, raw).
Proof.
  intros H. unfold parseDocument.
  rewrite <- (append_nil_l raw) at 1.
  rewrite (skipSpace_complete "" raw eq_refl (Value_nonspace _ _ _ H)).
  rewrite (Value_scan _ _ _ (Value_depth_0 _ _ _ H)). reflexivity.
Qed.

Lemma Value_json_Valid d raw sh : Value d raw sh -> json_Valid raw = true.
Proof.
  intros H. unfold json_Valid. rewrite (Value_parseDocument _ _ _ H).
  reflexivity.
Qed.

Lemma Members_Forall d raw ms :
  Members d raw ms -> Forall (memberOK d) ms.
Proof.
  induction 1; repeat constructor; cbn; eauto.
Qed.

Lemma Elems_Forall d raw es :
  Elems d raw es -> Forall (fun v => exists sh, Value d v sh) es.
Proof.
  induction 1; repeat constructor; eauto.
Qed.

Lemma Value_members d raw ms :
  Value d raw (VObject ms) -> Forall (memberOK (d + 1)) ms.
Proof.
  inversion 1; subst; [constructor|]. eapply Members_Forall; eauto.
Qed.

Lemma Value_elems d raw es :
  Value d raw (VArray es) ->
  Forall (fun v => exists sh, Value (d + 1) v sh) es.
Proof.
  inversion 1; subst; [constructor|]. eapply Elems_Forall; eauto.
Qed.

Lemma bindR_inr {A B} (r : result A) (k : A -> result B) b :
  bindR r k = inr b -> exists a, r = inr a /\ k a = inr b.
Proof. destruct r as [e|a]; [discriminate|]. cbn. eauto. Qed.

(** Case analysis on the field that a key selects in [Event]. *)
Ltac event_field_cases :=
  match goal with
  | |- context [findField Event_names ?key] =>
      destruct (findField Event_names key)
        as [[|[|[|[|[|[|[|[|[|[|[|[|[|[|?]]]]]]]]]]]]]]|]
  end.

Lemma setEventField_payloadOK key v e e' :
  json_Valid v = true -> payloadOK (eventOf e) ->
  setEventField key v e = inr e' -> payloadOK (eventOf e').
Proof.
  intros Hv He.
  destruct e as [[[sv id ts st pr sa rq ht cm dd pf pl tr ho] trs] ars].
  unfold setEventField. unfold payloadOK, eventOf in *.
  cbn [Payload fst] in He.
  event_field_cases;
    try (intros H; apply bindR_inr in H as (x & _ & [= <-]); exact He);
    try (intros [= <-]; exact He).
  intros [= <-]. exact Hv.
Qed.

Lemma decodeMembers_payloadOK d ms e e' :
  Forall (memberOK d) ms -> payloadOK (eventOf e) ->
  decodeMembers setEventField ms e = inr e' -> payloadOK (eventOf e').
Proof.
  intros Hms. revert e. induction Hms as [|[k v] ms [_ (sh & Hv)] _ IH];
    intros e He; cbn [decodeMembers].
  - intros [= <-]. exact He.
  - destruct (unquote k) as [key|]; [|discriminate].
    intros H. apply bindR_inr in H as (e1 & H1 & H2).
    apply (IH e1); [|exact H2].
    apply (setEventField_payloadOK key v e); [|exact He|exact H1].
    apply (Value_json_Valid _ _ _ Hv).
Qed.

Lemma json_Unmarshal_Event_payloadOK data e :
  json_Unmarshal_Event data = inr e -> payloadOK e.
Proof.
  unfold json_Unmarshal_Event, decodeStruct.
  destruct (parseDocument data) as [[sh raw]|]; [|discriminate].
  destruct (shapeOf raw) as [sh'|] eqn:Hs; [|discriminate].
  destruct sh'; try discriminate.
  - intros [= <-]. exact I.
  - apply shapeOf_Value, Value_members in Hs.
    intros H. apply bindR_inr in H as (m & Hm & [= <-]).
    apply (decodeMembers_payloadOK _ _ zeroEventMem _ Hs); [exact I|exact Hm].
Qed.

Lemma validateEvent_payload_valid e :
  payloadOK e ->
  validateEvent e <> Some (errors_New "payload must be valid JSON").
Proof.
  unfold payloadOK, validateEvent. intros Hp.
  destruct (negb (SchemaVersion e =? SchemaVersion_const)%Z); [discriminate|].
  destruct (Payload e) as [p|]; cbn [lenBytes bytesOf].
  - rewrite Hp. cbn [negb]. split_branches; discriminate.
  - cbn [Nat.eqb]. rewrite !orb_true_r. discriminate.
Qed.

Lemma validateRequiredKeys_messages raw err :
  validateRequiredKeys raw = Some err ->
  err <> errors_New "payload must be valid JSON".
Proof.
  unfold validateRequiredKeys.
  destruct (firstMissingKey raw requiredEventKeys) as [e|] eqn:Hk.
  - intros [= <-]. clear -Hk.
    induction requiredEventKeys as [|k ks IH]; [discriminate|].
    cbn [firstMissingKey] in Hk. destruct (raw !! k); [auto|].
    injection Hk as <-. discriminate.
  - split_branches; intros [= <-]; discriminate.
Qed.

Lemma jsonErrs_bind {A B} (r : result A) (k : A -> result B) :
  jsonErrs r -> (forall a, jsonErrs (k a)) -> jsonErrs (bindR r k).
Proof. destruct r; cbn; auto. Qed.

Lemma jsonErrs_inr {A} (a : A) : jsonErrs (inr a : result A).
Proof. exact I. Qed.

Ltac json_errs :=
  repeat (apply jsonErrs_bind; [|intros ?]); try apply jsonErrs_inr;
  cbn; auto.

Lemma decodeString_errs raw cur : jsonErrs (decodeString raw cur).
Proof.
  unfold decodeString. destruct (shapeOf raw) as [[]|]; cbn; auto.
  destruct (unquote content); cbn; auto.
Qed.

Lemma decodeInt_errs raw cur : jsonErrs (decodeInt raw cur).
Proof.
  unfold decodeInt. destruct (shapeOf raw) as [[]|]; cbn; auto.
  destruct (strconv_ParseInt raw); cbn; auto.
Qed.

Lemma decodeBool_errs raw cur : jsonErrs (decodeBool raw cur).
Proof. unfold decodeBool. destruct (shapeOf raw) as [[]|]; cbn; auto. Qed.

Lemma decodePtr_errs {A} (zero : A) dec raw cur :
  (forall r c, jsonErrs (dec r c)) -> jsonErrs (decodePtr zero dec raw cur).
Proof.
  intros H. unfold decodePtr.
  destruct (shapeOf raw) as [[]|]; try apply jsonErrs_inr;
    (apply jsonErrs_bind; [apply H|intros; apply jsonErrs_inr]).
Qed.

Lemma decodeElems_errs {A} (zero : A) dec es cells :
  (forall r c, jsonErrs (dec r c)) -> jsonErrs (decodeElems zero dec es cells).
Proof.
  intros H. revert cells.
  induction es as [|e es IH]; intros cells; cbn [decodeElems]; [exact I|].
  apply jsonErrs_bind; [apply H|intros a].
  apply jsonErrs_bind; [apply IH|intros; apply jsonErrs_inr].
Qed.

Lemma decodeSlice_errs {A} (zero : A) dec raw cur :
  (forall r c, jsonErrs (dec r c)) -> jsonErrs (decodeSlice zero dec raw cur).
Proof.
  intros H. unfold decodeSlice.
  destruct (shapeOf raw) as [[| | | |[|e es]|]|]; cbn [jsonErrs]; auto.
  apply jsonErrs_bind; [apply decodeElems_errs; exact H|].
  intros; apply jsonErrs_inr.
Qed.

Lemma decodeMembers_errs {T} (setField : string -> string -> T -> result T) ms cur :
  (forall k v c, jsonErrs (setField k v c)) ->
  jsonErrs (decodeMembers setField ms cur).
Proof.
  intros H. revert cur. induction ms as [|[k v] ms IH]; intros cur;
    cbn [decodeMembers]; [exact I|].
  destruct (unquote k); [|cbn; auto].
  apply jsonErrs_bind; [apply H|intros; apply IH].
Qed.

Lemma decodeStruct_errs {T} (setField : string -> string -> T -> result T) raw cur :
  (forall k v c, jsonErrs (setField k v c)) ->
  jsonErrs (decodeStruct setField raw cur).
Proof.
  intros H. unfold decodeStruct. destruct (shapeOf raw) as [[]|]; cbn; auto.
  apply decodeMembers_errs. exact H.
Qed.

Ltac field_errs :=
  repeat match goal with
         | |- jsonErrs (match ?o with Some _ => _ | None => _ end) => destruct o
         | |- jsonErrs (match ?n with O => _ | S _ => _ end) => destruct n
         end;
  try apply jsonErrs_inr;
  (apply jsonErrs_bind; [|intros; apply jsonErrs_inr]).

Lemma setHTTPMetaField_errs k v c : jsonErrs (setHTTPMetaField k v c).
Proof.
  destruct c. unfold setHTTPMetaField. field_errs;
    try apply decodeString_errs.
  apply decodePtr_errs. apply decodeInt_errs.
Qed.

Lemma setCommandMetaField_errs k v c : jsonErrs (setCommandMetaField k v c).
Proof.
  destruct c as [[na ar cw] rest]. unfold setCommandMetaField. field_errs;
    try apply decodeString_errs.
  apply decodeSlice_errs. apply decodeString_errs.
Qed.

Lemma setTraceFrameField_errs k v c : jsonErrs (setTraceFrameField k v c).
Proof.
  destruct c. unfold setTraceFrameField. field_errs;
    try apply decodeString_errs.
  apply decodeInt_errs.
Qed.

Lemma setHostMetaField_errs k v c : jsonErrs (setHostMetaField k v c).
Proof.
  destruct c. unfold setHostMetaField. field_errs;
    try apply decodeString_errs.
  apply decodeInt_errs.
Qed.

Lemma setEventField_errs k v c : jsonErrs (setEventField k v c).
Proof.
  destruct c as [[[sv id ts st pr sa rq ht cm dd pf pl tr ho] trs] ars].
  unfold setEventField. field_errs;
    try apply decodeString_errs; try apply decodeInt_errs;
    try apply decodeBool_errs.
  - apply decodePtr_errs. apply decodeString_errs.
  - apply decodePtr_errs. intros. apply decodeStruct_errs.
    apply setHTTPMetaField_errs.
  - apply decodePtr_errs. intros. apply decodeStruct_errs.
    apply setCommandMetaField_errs.
  - apply decodeSlice_errs. intros. apply decodeStruct_errs.
    apply setTraceFrameField_errs.
  - apply decodeStruct_errs. apply setHostMetaField_errs.
Qed.

Lemma json_Unmarshal_Event_errs data : jsonErrs (json_Unmarshal_Event data).
Proof.
  unfold json_Unmarshal_Event. destruct (parseDocument data) as [[sh raw]|];
    [|cbn; auto].
  apply jsonErrs_bind; [|intros; apply jsonErrs_inr].
  apply decodeStruct_errs. apply setEventField_errs.
Qed.

Lemma insertMembers_errs ms m : jsonErrs (insertMembers ms m).
Proof.
  revert m. induction ms as [|[k v] ms IH]; intros m; cbn [insertMembers];
    [exact I|].
  destruct (unquote k); [apply IH|cbn; auto].
Qed.

Lemma json_Unmarshal_RawMap_errs data : jsonErrs (json_Unmarshal_RawMap data).
Proof.
  unfold json_Unmarshal_RawMap.
  destruct (parseDocument data) as [[[] raw]|]; cbn; auto.
  apply insertMembers_errs.
Qed.

(** *** [unquote] is defined on every key and string the scanner accepts *)

Lemma scanStringBody_cons st c b s r :
  scanStringBody st (String c s) = Some (String c b, r) ->
  match st with
  | InString =>
      (byte c =? 34)%N = false
      /\ if (byte c =? 92)%N then scanStringBody InStringEsc s = Some (b, r)
         else (byte c <? 32)%N = false /\ scanStringBody InString s = Some (b, r)
  | InStringEsc =>
      if isSimpleEscape c then scanStringBody InString s = Some (b, r)
      else (byte c =? 117)%N = true
           /\ scanStringBody (InStringEscU 3) s = Some (b, r)
  | InStringEscU k =>
      isHex c = true
      /\ scanStringBody (match k with O => InString | S k' => InStringEscU k' end) s
         = Some (b, r)
  end.
Proof.
  cbn [scanStringBody]. destruct st as [| |k].
  - destruct (byte c =? 34)%N; [discriminate|].
    destruct (byte c =? 92)%N.
    + destruct (scanStringBody InStringEsc s) as [[b' r']|]; [|discriminate].
      intros [= <- <-]. auto.
    + destruct (byte c <? 32)%N; [discriminate|].
      destruct (scanStringBody InString s) as [[b' r']|]; [|discriminate].
      intros [= <- <-]. auto.
  - destruct (isSimpleEscape c).
    + destruct (scanStringBody InString s) as [[b' r']|]; [|discriminate].
      intros [= <- <-]. reflexivity.
    + destruct (byte c =? 117)%N; [|discriminate].
      destruct (scanStringBody (InStringEscU 3) s) as [[b' r']|]; [|discriminate].
      intros [= <- <-]. auto.
  - destruct (isHex c); [|discriminate].
    destruct (scanStringBody _ s) as [[b' r']|]; [|discriminate].
    intros [= <- <-]. auto.
Qed.

Lemma bodyFrom_nil st : ~ bodyFrom st "" \/ st = InString.
Proof.
  destruct st as [| |k]; [auto| |]; left; unfold bodyFrom; cbn; discriminate.
Qed.

Lemma bodyFrom_cons st c b :
  bodyFrom st (String c b) ->
  match st with
  | InString =>
      (byte c =? 34)%N = false
      /\ if (byte c =? 92)%N then bodyFrom InStringEsc b
         else (byte c <? 32)%N = false /\ bodyFrom InString b
  | InStringEsc =>
      if isSimpleEscape c then bodyFrom InString b
      else (byte c =? 117)%N = true /\ bodyFrom (InStringEscU 3) b
  | InStringEscU k =>
      isHex c = true
      /\ bodyFrom (match k with O => InString | S k' => InStringEscU k' end) b
  end.
Proof. unfold bodyFrom. rewrite append_cons. apply scanStringBody_cons. Qed.

(** A [\u] escape: four hexadecimal digits and the rest of the body. *)
Lemma bodyFrom_u4 b :
  bodyFrom (InStringEscU 3) b ->
  exists h1 h2 h3 h4 b',
    b = String h1 (String h2 (String h3 (String h4 b')))
    /\ isHex h1 = true /\ isHex h2 = true /\ isHex h3 = true
    /\ isHex h4 = true /\ bodyFrom InString b'.
Proof.
  intros H.
  destruct b as [|h1 b]; [destruct (bodyFrom_nil (InStringEscU 3)) as [N|N];
                          [contradiction|discriminate]|].
  apply bodyFrom_cons in H as [H1 H].
  destruct b as [|h2 b]; [destruct (bodyFrom_nil (InStringEscU 2)) as [N|N];
                          [contradiction|discriminate]|].
  apply bodyFrom_cons in H as [H2 H].
  destruct b as [|h3 b]; [destruct (bodyFrom_nil (InStringEscU 1)) as [N|N];
                          [contradiction|discriminate]|].
  apply bodyFrom_cons in H as [H3 H].
  destruct b as [|h4 b]; [destruct (bodyFrom_nil (InStringEscU 0)) as [N|N];
                          [contradiction|discriminate]|].
  apply bodyFrom_cons in H as [H4 H].
  exists h1, h2, h3, h4, b. auto 10.
Qed.

Lemma isHex_hexVal c : isHex c = true -> exists n, hexVal c = Some n.
Proof.
  unfold isHex, hexVal. intros H.
  destruct (isDigit c); [eauto|].
  destruct ((97 <=? byte c) && (byte c <=? 102))%N; [eauto|].
  cbn [orb] in H. rewrite H. eauto.
Qed.

Lemma getu4_hex h1 h2 h3 h4 :
  isHex h1 = true -> isHex h2 = true -> isHex h3 = true -> isHex h4 = true ->
  exists rr, getu4 h1 h2 h3 h4 = Some rr.
Proof.
  intros H1 H2 H3 H4. unfold getu4.
  destruct (isHex_hexVal _ H1) as (a & ->), (isHex_hexVal _ H2) as (b & ->),
    (isHex_hexVal _ H3) as (c & ->), (isHex_hexVal _ H4) as (d & ->).
  eauto.
Qed.

Lemma option_map_Some {A B} (f : A -> B) o :
  (exists a, o = Some a) -> exists b, option_map f o = Some b.
Proof. intros (a & ->). cbn. eauto. Qed.

(** A byte of 128 or more inside a body is followed by a body. *)
Lemma bodyFrom_high c b :
  (128 <=? byte c)%N = true -> bodyFrom InString (String c b) ->
  bodyFrom InString b.
Proof.
  intros Hc H. apply bodyFrom_cons in H as [_ H]. apply N.leb_le in Hc.
  destruct (byte c =? 92)%N eqn:E; [apply N.eqb_eq in E; lia|]. apply H.
Qed.

Lemma isCont_high c : isCont c = true -> (128 <=? byte c)%N = true.
Proof. unfold isCont. intros H. apply andb_prop in H. apply H. Qed.

Lemma inRange_high lo hi c :
  (128 <= lo)%N -> inRange lo hi c = true -> (128 <=? byte c)%N = true.
Proof.
  unfold inRange. intros Hlo H. apply andb_prop in H as [H _].
  apply N.leb_le in H. apply N.leb_le. lia.
Qed.

Lemma afterRune_body c r :
  (128 <=? byte c)%N = true -> bodyFrom InString (String c r) ->
  bodyFrom InString (afterRune (snd (utf8_DecodeRune (String c r))) r)
  /\ (String.length (afterRune (snd (utf8_DecodeRune (String c r))) r)
      <= String.length r)%nat.
Proof.
  intros Hc H. pose proof (bodyFrom_high _ _ Hc H) as Hr.
  unfold utf8_DecodeRune.
  apply N.leb_le in Hc.
  destruct (byte c <? 128)%N eqn:E; [apply N.ltb_lt in E; lia|].
  destruct (inRange 194 223 c).
  { destruct r as [|c1 r1]; [cbn; auto|].
    destruct (isCont c1) eqn:H1; [|cbn; auto].
    cbn [snd afterRune]. split; [|cbn; lia].
    apply (bodyFrom_high c1); [apply isCont_high; exact H1|exact Hr]. }
  destruct (inRange 224 239 c).
  { destruct r as [|c1 [|c2 r2]]; [cbn; auto|cbn; auto|].
    match goal with |- context [inRange ?lo ?hi c1] =>
      destruct (inRange lo hi c1) eqn:H1 end; [|cbn; auto].
    destruct (isCont c2) eqn:H2; [|cbn; auto].
    cbn [andb snd afterRune]. split; [|cbn; lia].
    apply (bodyFrom_high c2); [apply isCont_high; exact H2|].
    apply (bodyFrom_high c1); [|exact Hr].
    revert H1. destruct (byte c =? 224)%N; apply inRange_high; lia. }
  destruct (inRange 240 244 c).
  { destruct r as [|c1 [|c2 [|c3 r3]]]; [cbn; auto|cbn; auto|cbn; auto|].
    match goal with |- context [inRange ?lo ?hi c1] =>
      destruct (inRange lo hi c1) eqn:H1 end; [|cbn; auto].
    destruct (isCont c2) eqn:H2; [|cbn; auto].
    destruct (isCont c3) eqn:H3; [|cbn; auto].
    cbn [andb snd afterRune]. split; [|cbn; lia].
    apply (bodyFrom_high c3); [apply isCont_high; exact H3|].
    apply (bodyFrom_high c2); [apply isCont_high; exact H2|].
    apply (bodyFrom_high c1); [|exact Hr].
    revert H1. destruct (byte c =? 240)%N; apply inRange_high; lia. }
  cbn. auto.
Qed.

Lemma unquote_high c r :
  (byte c =? 92)%N = false -> ((byte c =? 34) || (byte c <? 32))%N = false ->
  (byte c <? 128)%N = false ->
  unquote (String c r) =
  option_map (String.append (utf8_EncodeRune (fst (utf8_DecodeRune (String c r)))))
    (unquote (afterRune (snd (utf8_DecodeRune (String c r))) r)).
Proof.
  intros H1 H2 H3. cbn [unquote]. rewrite H1, H2, H3.
  destruct (utf8_DecodeRune (String c r)) as [rr size].
  cbn [fst snd]. unfold afterRune.
  destruct size as [|[|[|[|[|?]]]]]; try reflexivity;
    destruct r as [|? [|? [|? ?]]]; reflexivity.
Qed.

Lemma unquote_total_aux n :
  forall b, (String.length b < n)%nat -> bodyFrom InString b ->
            exists u, unquote b = Some u.
Proof.
  induction n as [|n IH]; intros b Hn Hb; [lia|].
  destruct b as [|c b]; [cbn; eauto|].
  pose proof Hb as Hb0.
  apply bodyFrom_cons in Hb as [H34 Hb].
  destruct (byte c =? 92)%N eqn:H92.
  - (* an escape *)
    destruct b as [|e b]; [destruct (bodyFrom_nil InStringEsc) as [N|N];
                           [contradiction|discriminate]|].
    apply bodyFrom_cons in Hb.
    cbn [unquote]. rewrite H92.
    destruct (isSimpleEscape e) eqn:Hse.
    + assert (exists u, unquote b = Some u) as Hu
          by (apply IH; [cbn [String.length] in Hn; lia|exact Hb]).
      unfold isSimpleEscape in Hse.
      repeat match goal with
             | |- context [if ?t then _ else _] =>
                 destruct t eqn:?; [apply option_map_Some; exact Hu|]
             end.
      exfalso.
      repeat match goal with
             | H : (_ || _)%bool = false |- _ => apply orb_false_elim in H as [? ?]
             end.
      repeat match goal with
             | H : (byte e =? _)%N = false |- _ => rewrite H in Hse
             end.
      discriminate.
    + destruct Hb as [Hu Hb].
      destruct (bodyFrom_u4 _ Hb) as (h1 & h2 & h3 & h4 & b' & -> & X1 & X2 & X3 & X4 & Hb').
      destruct (getu4_hex _ _ _ _ X1 X2 X3 X4) as (rr & Hrr).
      assert ((byte e =? 34) || (byte e =? 92) || (byte e =? 47) || (byte e =? 39)
              = false)%N as T1.
      { apply N.eqb_eq in Hu. rewrite Hu. reflexivity. }
      rewrite T1.
      apply N.eqb_eq in Hu.
      replace (byte e =? 98)%N with false by (rewrite Hu; reflexivity).
      replace (byte e =? 102)%N with false by (rewrite Hu; reflexivity).
      replace (byte e =? 110)%N with false by (rewrite Hu; reflexivity).
      replace (byte e =? 114)%N with false by (rewrite Hu; reflexivity).
      replace (byte e =? 116)%N with false by (rewrite Hu; reflexivity).
      replace (byte e =? 117)%N with true by (rewrite Hu; reflexivity).
      rewrite Hrr.
      assert (exists u, unquote b' = Some u) as Hu'
          by (apply IH; [cbn [String.length] in Hn; lia|exact Hb']).
      destruct (isSurrogate rr); [|apply option_map_Some; exact Hu'].
      destruct (utf16_DecodeRune rr _ =? RuneError)%N eqn:Hdec;
        [apply option_map_Some; exact Hu'|].
      (* a valid pair: the second escape is there *)
      destruct (getu4At b') as [rr1|] eqn:H2.
      * unfold getu4At in H2.
        destruct b' as [|k0 [|k1 [|k2 [|k3 [|k4 [|k5 b6]]]]]]; try discriminate.
        destruct ((byte k0 =? 92) && (byte k1 =? 117))%N eqn:Hk; [|discriminate].
        apply andb_prop in Hk as [Hk0 Hk1].
        apply bodyFrom_cons in Hb' as [_ Hb']. rewrite Hk0 in Hb'.
        apply bodyFrom_cons in Hb'.
        assert (isSimpleEscape k1 = false) as Hs1.
        { apply N.eqb_eq in Hk1. unfold isSimpleEscape. rewrite Hk1. reflexivity. }
        rewrite Hs1 in Hb'. destruct Hb' as [_ Hb'].
        destruct (bodyFrom_u4 _ Hb') as (g1 & g2 & g3 & g4 & b7 & [= -> -> -> -> ->] & _ & _ & _ & _ & Hb7).
        apply option_map_Some. apply IH; [cbn [String.length] in Hn; lia|exact Hb7].
      * exfalso. unfold utf16_DecodeRune in Hdec.
        replace ((56320 <=? 0) && (0 <? 57344))%N with false in Hdec by reflexivity.
        rewrite andb_false_r in Hdec. cbn in Hdec. discriminate.
  - destruct Hb as [H32 Hb].
    destruct (byte c <? 128)%N eqn:H128.
    + cbn [unquote]. rewrite H92, H34, H32. cbn [orb]. rewrite H128.
      apply option_map_Some. apply IH; [cbn [String.length] in Hn; lia|exact Hb].
    + rewrite unquote_high; [|exact H92|rewrite H34, H32; reflexivity|exact H128].
      apply option_map_Some.
      assert ((128 <=? byte c)%N = true) as Hhi.
      { apply N.leb_le. apply N.ltb_ge in H128. exact H128. }
      destruct (afterRune_body c b Hhi Hb0) as [Hbody Hlen].
      apply IH; [cbn [String.length] in Hn; lia|exact Hbody].
Qed.

Lemma unquote_total b : isStrBody b -> exists u, unquote b = Some u.
Proof. intros H. apply (unquote_total_aux (S (String.length b))); [lia|exact H]. Qed.

Lemma insertMembers_lookup ms :
  forall m0 m, insertMembers ms m0 = inr m ->
  forall key, m !! key = lastValue ms key (m0 !! key).
Proof.
  induction ms as [|[k v] ms IH]; intros m0 m; cbn [insertMembers lastValue].
  - intros [= <-] key. reflexivity.
  - destruct (unquote k) as [k'|]; [|discriminate].
    intros H key. rewrite (IH _ _ H key). f_equal.
    rewrite lookup_insert. destruct (String.eqb_spec k' key) as [->|Hne].
    + rewrite decide_True; reflexivity.
    + rewrite decide_False; [reflexivity|exact Hne].
Qed.

Lemma insertMembers_total d ms :
  Forall (memberOK d) ms ->
  forall m0, exists m, insertMembers ms m0 = inr m.
Proof.
  induction 1 as [|[k v] ms [Hk _] _ IH]; intros m0; cbn [insertMembers];
    [eauto|].
  cbn [fst] in Hk. destruct (unquote_total _ Hk) as (k' & ->). apply IH.
Qed.

Lemma lastValue_Some ms key v : exists v', lastValue ms key (Some v) = Some v'.
Proof.
  revert v. induction ms as [|[k w] ms IH]; intros v; cbn [lastValue]; [eauto|].
  destruct (unquote k) as [k'|]; [|apply IH].
  destruct (String.eqb k' key); apply IH.
Qed.

Lemma lastValue_None ms key :
  lastValue ms key None = None <-> hasKey ms key = false.
Proof.
  induction ms as [|[k v] ms IH]; cbn [lastValue hasKey]; [tauto|].
  destruct (unquote k) as [k'|]; [|exact IH].
  destruct (String.eqb k' key); cbn [orb]; [|exact IH].
  destruct (lastValue_Some ms key v) as (v' & ->). split; discriminate.
Qed.

Lemma parseDocument_nonblank data x :
  parseDocument data = Some x -> String.eqb data "" = false.
Proof. destruct data; [discriminate|reflexivity]. Qed.

(** The raw map of a line that is a JSON object. *)
Lemma json_Unmarshal_RawMap_object data ms raw0 :
  parseDocument data = Some (VObject ms, raw0) ->
  exists raw, json_Unmarshal_RawMap data = inr raw
              /\ forall key, raw !! key = lastValue ms key None.
Proof.
  intros H. unfold json_Unmarshal_RawMap. rewrite H.
  pose proof (Value_members _ _ _ (parseDocument_Value _ _ _ H)) as Hms.
  destruct (insertMembers_total _ _ Hms ∅) as (m & Hm).
  exists m. split; [exact Hm|]. intros key.
  rewrite (insertMembers_lookup _ _ _ Hm key). reflexivity.
Qed.

Lemma firstMissingKey_find (raw : gmap string string) ms keys :
  (forall key, raw !! key = lastValue ms key None) ->
  firstMissingKey raw keys =
  option_map (fmt_Errorf_s "missing required dump event field: ")
    (List.find (fun key => negb (hasKey ms key)) keys).
Proof.
  intros Hraw. induction keys as [|key keys IH]; [reflexivity|].
  cbn [firstMissingKey List.find]. rewrite Hraw.
  destruct (hasKey ms key) eqn:Hk; cbn [negb].
  - destruct (lastValue ms key None) eqn:Hl; [exact IH|].
    apply lastValue_None in Hl. congruence.
  - apply lastValue_None in Hk. rewrite Hk. reflexivity.
Qed.

(** *** What the typed decode keeps true *)

Lemma decodeMembers_preserves {T : Type}
    (setField : string -> string -> T -> result T)
    (Q : string * string -> Prop) (P : T -> Prop) ms :
  (forall k key v c c', Q (k, v) -> P c -> setField key v c = inr c' -> P c') ->
  Forall Q ms ->
  forall cur c', P cur -> decodeMembers setField ms cur = inr c' -> P c'.
Proof.
  intros Hstep Hms. induction Hms as [|[k v] ms Hq _ IH]; intros cur c' Hc;
    cbn [decodeMembers].
  - intros [= <-]. exact Hc.
  - destruct (unquote k) as [key|]; [|discriminate].
    intros H. apply bindR_inr in H as (c1 & H1 & H2).
    apply (IH c1); [|exact H2]. apply (Hstep k key v cur); assumption.
Qed.

Lemma Forall_True {A} (l : list A) : Forall (fun _ => True) l.
Proof. induction l; constructor; auto. Qed.

Lemma lastValue_In ms key acc v :
  lastValue ms key acc = Some v -> acc = Some v \/ exists k, In (k, v) ms.
Proof.
  revert acc. induction ms as [|[k w] ms IH]; intros acc; cbn [lastValue];
    [auto|].
  intros H. apply IH in H as [H|(k' & H)]; [|right; exists k'; right; exact H].
  destruct (unquote k) as [k'|]; [|auto].
  destruct (String.eqb k' key); [|auto].
  injection H as <-. right. exists k. left. reflexivity.
Qed.

Lemma memberValue_Value d ms key v :
  Forall (memberOK d) ms -> memberValue ms key = Some v ->
  exists sh, Value d v sh.
Proof.
  intros Hms H. apply lastValue_In in H as [H|(k & Hin)]; [discriminate|].
  rewrite Forall_forall in Hms. apply list_elem_of_In in Hin.
  apply (Hms _ Hin).
Qed.

Lemma Value_VNull d raw : Value d raw VNull -> raw = "null".
Proof. inversion 1. reflexivity. Qed.

Lemma Value_not_null d raw sh :
  Value d raw sh -> sh <> VNull -> String.eqb raw "null" = false.
Proof.
  intros H Hn. destruct (String.eqb_spec raw "null") as [->|]; [|reflexivity].
  exfalso. apply Hn. apply Value_shapeOf in H.
  vm_compute in H. congruence.
Qed.

Lemma rawAt_lookup (raw : gmap string string) ms key v :
  (forall key, raw !! key = lastValue ms key None) ->
  memberValue ms key = Some v -> rawAt raw key = v.
Proof. intros Hraw H. unfold rawAt. rewrite Hraw. unfold memberValue in H. rewrite H. reflexivity. Qed.

Lemma forallb_find_None {A} (p : A -> bool) l :
  forallb p l = true -> List.find (fun x => negb (p x)) l = None.
Proof.
  induction l as [|x l IH]; [reflexivity|]. cbn [forallb List.find].
  intros H. apply andb_prop in H as [Hx Hl]. rewrite Hx. cbn [negb]. auto.
Qed.

(** The presence rules are what [validateRequiredKeys] accepts. *)
Lemma validateRequiredKeys_presence (raw : gmap string string) d ms :
  Forall (memberOK d) ms ->
  (forall key, raw !! key = lastValue ms key None) ->
  presenceRules ms = true ->
  validateRequiredKeys raw = None.
Proof.
  intros Hms Hraw H. unfold presenceRules in H.
  apply andb_prop in H as [H Htr]. apply andb_prop in H as [H Hdd].
  apply andb_prop in H as [Hkeys Hrq].
  unfold validateRequiredKeys.
  rewrite (firstMissingKey_find raw ms _ Hraw), (forallb_find_None _ _ Hkeys).
  cbn [option_map].
  (* requestId *)
  unfold memberShape in Hrq.
  destruct (memberValue ms "requestId") as [rq|] eqn:Erq; [|discriminate].
  rewrite (rawAt_lookup raw ms _ _ Hraw Erq).
  destruct (memberValue_Value _ _ _ _ Hms Erq) as (shq & Vq).
  rewrite (Value_shapeOf _ _ _ Vq) in Hrq.
  assert (negb (String.eqb rq "null") && isErr (json_Unmarshal_string rq) = false)
    as ->.
  { destruct shq; try discriminate.
    - rewrite (Value_VNull _ _ Vq). reflexivity.
    - unfold json_Unmarshal_string, decodeString.
      rewrite (Value_parseDocument _ _ _ Vq), (Value_shapeOf _ _ _ Vq).
      inversion Vq; subst.
      destruct (unquote_total content) as (u & ->); [assumption|].
      apply andb_false_r. }
  (* isDd *)
  unfold memberShape in Hdd.
  destruct (memberValue ms "isDd") as [dd|] eqn:Edd; [|discriminate].
  rewrite (rawAt_lookup raw ms _ _ Hraw Edd).
  destruct (memberValue_Value _ _ _ _ Hms Edd) as (shd & Vd).
  rewrite (Value_shapeOf _ _ _ Vd) in Hdd.
  assert (isErr (json_Unmarshal_bool dd) = false) as ->.
  { destruct shd; try discriminate.
    unfold json_Unmarshal_bool, decodeBool.
    rewrite (Value_parseDocument _ _ _ Vd), (Value_shapeOf _ _ _ Vd).
    reflexivity. }
  (* trace *)
  unfold memberShape in Htr.
  destruct (memberValue ms "trace") as [tr|] eqn:Etr; [|discriminate].
  rewrite (rawAt_lookup raw ms _ _ Hraw Etr).
  destruct (memberValue_Value _ _ _ _ Hms Etr) as (sht & Vt).
  rewrite (Value_shapeOf _ _ _ Vt) in Htr.
  destruct sht; try discriminate.
  rewrite (Value_not_null _ _ _ Vt) by discriminate.
  unfold json_Unmarshal_RawMessages. rewrite (Value_parseDocument _ _ _ Vt).
  reflexivity.
Qed.

Lemma validateEvent_fieldRules event :
  fieldRules event = true -> payloadOK event -> validateEvent event = None.
Proof.
  unfold fieldRules. intros H Hp. apply andb_prop in H as [Hr Hs].
  rewrite (validateEvent_substructure _ Hr).
  destruct (substructureError event); [discriminate|].
  unfold reachesSubstructureCheck, passesEarlyChecks in Hr.
  unfold payloadOK in Hp.
  destruct (Payload event) as [p|]; cbn [bytesOf lenBytes] in *.
  - rewrite Hp. reflexivity.
  - cbn [Nat.eqb] in Hr. rewrite !orb_true_r in Hr. cbn [negb] in Hr.
    rewrite andb_false_r in Hr. cbn [andb] in Hr. discriminate.
Qed.

(** A line whose object meets the presence rules and that the typed
    decode accepts reaches [validateEvent]. *)
Lemma decodesTo_of_rules (line : string) (ms : list (string * string))
    (raw0 : string) (event : Event) :
  parseDocument (strings_TrimSpace line) = Some (VObject ms, raw0) ->
  presenceRules ms = true ->
  json_Unmarshal_Event (strings_TrimSpace line) = inr event ->
  decodesTo line event.
Proof.
  intros Hp Hpres Hev.
  destruct (json_Unmarshal_RawMap_object _ _ _ Hp) as (raw & Hraw & Hlook).
  pose proof (Value_members _ _ _ (parseDocument_Value _ _ _ Hp)) as Hms.
  exists raw. split; [apply (parseDocument_nonblank _ _ Hp)|].
  split; [exact Hraw|]. split; [|exact Hev].
  apply (validateRequiredKeys_presence raw _ ms Hms Hlook Hpres).
Qed.

(** The three premises of [decodesTo_of_rules], by evaluation of the
    scanner and of the typed decode on a given line. *)
Ltac decodesTo_by_rules :=
  eapply decodesTo_of_rules;
  [ vm_compute; reflexivity | vm_compute; reflexivity | vm_compute; reflexivity ].

(** The presence rules on the object, a typed decode that succeeds and
    the field rules on its result are all that the decoder asks for. *)
Lemma DecodeNDJSONLine_accepts (line : string)
    (ms : list (string * string)) (raw0 : string) (event : Event) :
  parseDocument (strings_TrimSpace line) = Some (VObject ms, raw0) ->
  presenceRules ms = true ->
  json_Unmarshal_Event (strings_TrimSpace line) = inr event ->
  fieldRules event = true ->
  DecodeNDJSONLine line = (Some event, None).
Proof.
  intros Hp Hpres Hev Hrules.
  rewrite (DecodeNDJSONLine_decodesTo _ _
             (decodesTo_of_rules _ _ _ _ Hp Hpres Hev)).
  unfold outcome.
  rewrite (validateEvent_fieldRules _ Hrules
             (json_Unmarshal_Event_payloadOK _ _ Hev)).
  reflexivity.
Qed.

(** *** UTF-8: encoding what was decoded *)

Lemma chr_byte c : chr (byte c) = c.
Proof. apply ascii_N_embedding. Qed.

Lemma byte_lt_256 c : (byte c < 256)%N.
Proof. apply N_ascii_bounded. Qed.

Lemma inRange_bounds lo hi c :
  inRange lo hi c = true -> (lo <= byte c <= hi)%N.
Proof.
  unfold inRange. intros H. apply andb_prop in H as [H1 H2].
  apply N.leb_le in H1, H2. lia.
Qed.

Lemma isCont_bounds c : isCont c = true -> (128 <= byte c <= 191)%N.
Proof. apply (inRange_bounds 128 191). Qed.

Lemma chr_eq c n : byte c = n -> chr n = c.
Proof. intros <-. apply chr_byte. Qed.

Lemma div_by a b q r : (r < b)%N -> a = (q * b + r)%N -> (a / b)%N = q.
Proof. intros Hr ->. symmetry. apply (N.div_unique _ b q r); lia. Qed.

Lemma mod_by a b q r : (r < b)%N -> a = (q * b + r)%N -> (a mod b)%N = r.
Proof. intros Hr ->. symmetry. apply (N.mod_unique _ b q r); lia. Qed.

Lemma utf8_DecodeRune_high c r :
  (byte c <? 128)%N = false -> decoded c r (utf8_DecodeRune (String c r)).
Proof.
  intros Hc. unfold utf8_DecodeRune. rewrite Hc.
  destruct (inRange 194 223 c) eqn:R2.
  { destruct r as [|c1 r2]; [constructor|].
    destruct (isCont c1) eqn:H1; [|constructor].
    apply inRange_bounds in R2. pose proof (isCont_bounds _ H1) as B1.
    set (x := (byte c - 192)%N). set (y := (byte c1 - 128)%N).
    assert (Hrr : ((x * 64 + y) / 64 = x /\ (x * 64 + y) mod 64 = y)%N).
    { split; [apply (div_by _ 64 x y)|apply (mod_by _ 64 x y)]; subst x y; lia. }
    destruct Hrr as [Hq Hm].
    apply (dec_2 c _ c1 r2); try reflexivity; try assumption.
    - unfold utf8_EncodeRune, isSurrogate, MaxRune.
      replace (1114111 <? x * 64 + y)%N with false
        by (symmetry; apply N.ltb_ge; subst x y; lia).
      replace (55296 <=? x * 64 + y)%N with false
        by (symmetry; apply N.leb_gt; subst x y; lia).
      cbn [andb orb].
      replace (x * 64 + y <? 128)%N with false
        by (symmetry; apply N.ltb_ge; subst x y; lia).
      replace (x * 64 + y <? 2048)%N with true
        by (symmetry; apply N.ltb_lt; subst x y; lia).
      rewrite Hq, Hm. f_equal; [|f_equal]; apply chr_eq; subst x y; lia.
    - intros x0. cbn [utf8_DecodeRune]. rewrite Hc.
      assert (inRange 194 223 c = true) as ->
          by (unfold inRange; apply andb_true_intro; split; apply N.leb_le; lia).
      rewrite H1. reflexivity.
    - subst x y. lia. }
  destruct (inRange 224 239 c) eqn:R3.
  { destruct r as [|c1 [|c2 r3]]; [constructor|constructor|].
    match goal with |- context [inRange ?lo ?hi c1] =>
      destruct (inRange lo hi c1) eqn:H1 end; [|constructor].
    destruct (isCont c2) eqn:H2; [|constructor]. cbn [andb].
    apply inRange_bounds in R3. pose proof (isCont_bounds _ H2) as B2.
    assert (B1 : (128 <= byte c1 <= 191
                  /\ (byte c = 224 -> 160 <= byte c1)
                  /\ (byte c = 237 -> byte c1 <= 159))%N).
    { apply inRange_bounds in H1.
      destruct (N.eqb_spec (byte c) 224), (N.eqb_spec (byte c) 237); lia. }
    set (x := (byte c - 224)%N). set (y := (byte c1 - 128)%N).
    set (z := (byte c2 - 128)%N).
    assert (Hrr : ((x * 4096 + y * 64 + z) / 4096 = x
                   /\ (x * 4096 + y * 64 + z) / 64 = x * 64 + y
                   /\ (x * 64 + y) mod 64 = y
                   /\ (x * 4096 + y * 64 + z) mod 64 = z)%N).
    { split; [apply (div_by _ 4096 x (y * 64 + z))|split;
              [apply (div_by _ 64 (x * 64 + y) z)|split;
               [apply (mod_by _ 64 x y)|apply (mod_by _ 64 (x * 64 + y) z)]]];
        subst x y z; lia. }
    destruct Hrr as (Hq1 & Hq2 & Hm1 & Hm2).
    assert (Hsur : isSurrogate (x * 4096 + y * 64 + z) = false).
    { unfold isSurrogate. apply andb_false_iff.
      destruct (N.le_gt_cases (byte c) 237%N) as [L|G].
      - destruct (N.eq_dec (byte c) 237%N) as [E|NE].
        + left. apply N.leb_gt. subst x y z. lia.
        + left. apply N.leb_gt. subst x y z. lia.
      - right. apply N.ltb_ge. subst x y z. lia. }
    apply (dec_3 c _ c1 c2 r3); try reflexivity; try assumption.
    - apply N.leb_le. lia.
    - unfold utf8_EncodeRune. rewrite Hsur. unfold MaxRune.
      replace (1114111 <? x * 4096 + y * 64 + z)%N with false
        by (symmetry; apply N.ltb_ge; subst x y z; lia).
      cbn [orb].
      replace (x * 4096 + y * 64 + z <? 128)%N with false
        by (symmetry; apply N.ltb_ge; subst x y z; lia).
      replace (x * 4096 + y * 64 + z <? 2048)%N with false
        by (symmetry; apply N.ltb_ge; subst x y z; lia).
      replace (x * 4096 + y * 64 + z <? 65536)%N with true
        by (symmetry; apply N.ltb_lt; subst x y z; lia).
      rewrite Hq1, Hq2, Hm1, Hm2.
      f_equal; [|f_equal; [|f_equal]]; apply chr_eq; subst x y z; lia.
    - intros x0. cbn [utf8_DecodeRune]. rewrite Hc, R2.
      assert (inRange 224 239 c = true) as ->
          by (unfold inRange; apply andb_true_intro; split; apply N.leb_le; lia).
      rewrite H1, H2. reflexivity.
    - subst x y z. lia. }
  destruct (inRange 240 244 c) eqn:R4.
  { destruct r as [|c1 [|c2 [|c3 r4]]]; [constructor|constructor|constructor|].
    match goal with |- context [inRange ?lo ?hi c1] =>
      destruct (inRange lo hi c1) eqn:H1 end; [|constructor].
    destruct (isCont c2) eqn:H2; [|constructor].
    destruct (isCont c3) eqn:H3; [|constructor]. cbn [andb].
    apply inRange_bounds in R4. pose proof (isCont_bounds _ H2) as B2.
    pose proof (isCont_bounds _ H3) as B3.
    assert (B1 : (128 <= byte c1 <= 191
                  /\ (byte c = 240 -> 144 <= byte c1)
                  /\ (byte c = 244 -> byte c1 <= 143))%N).
    { apply inRange_bounds in H1.
      destruct (N.eqb_spec (byte c) 240), (N.eqb_spec (byte c) 244); lia. }
    set (x := (byte c - 240)%N). set (y := (byte c1 - 128)%N).
    set (z := (byte c2 - 128)%N). set (w := (byte c3 - 128)%N).
    set (rr := (x * 262144 + y * 4096 + z * 64 + w)%N).
    assert (Hrr : (rr / 262144 = x
                   /\ rr / 4096 = x * 64 + y
                   /\ (x * 64 + y) mod 64 = y
                   /\ rr / 64 = (x * 64 + y) * 64 + z
                   /\ ((x * 64 + y) * 64 + z) mod 64 = z
                   /\ rr mod 64 = w)%N).
    { repeat split.
      - apply (div_by _ 262144 x (y * 4096 + z * 64 + w)); subst rr x y z w; lia.
      - apply (div_by _ 4096 (x * 64 + y) (z * 64 + w)); subst rr x y z w; lia.
      - apply (mod_by _ 64 x y); subst x y; lia.
      - apply (div_by _ 64 ((x * 64 + y) * 64 + z) w); subst rr x y z w; lia.
      - apply (mod_by _ 64 (x * 64 + y) z); subst x y z; lia.
      - apply (mod_by _ 64 ((x * 64 + y) * 64 + z) w); subst rr x y z w; lia. }
    destruct Hrr as (Hq1 & Hq2 & Hm1 & Hq3 & Hm2 & Hm3).
    assert (Hbound : (65536 <= rr <= 1114111)%N).
    { destruct (N.eq_dec (byte c) 240%N), (N.eq_dec (byte c) 244%N);
        subst rr x y z w; lia. }
    apply (dec_4 c _ c1 c2 c3 r4); try reflexivity; try assumption.
    - apply N.leb_le. lia.
    - unfold utf8_EncodeRune, isSurrogate, MaxRune. fold rr.
      replace (1114111 <? rr)%N with false by (symmetry; apply N.ltb_ge; lia).
      replace (rr <? 57344)%N with false by (symmetry; apply N.ltb_ge; lia).
      rewrite andb_false_r. cbn [orb].
      replace (rr <? 128)%N with false by (symmetry; apply N.ltb_ge; lia).
      replace (rr <? 2048)%N with false by (symmetry; apply N.ltb_ge; lia).
      replace (rr <? 65536)%N with false by (symmetry; apply N.ltb_ge; lia).
      rewrite Hq1, Hq2, Hq3, Hm1, Hm2, Hm3.
      f_equal; [|f_equal; [|f_equal; [|f_equal]]]; apply chr_eq;
        subst x y z w; lia.
    - intros x0. cbn [utf8_DecodeRune]. rewrite Hc, R2, R3.
      assert (inRange 240 244 c = true) as ->
          by (unfold inRange; apply andb_true_intro; split; apply N.leb_le; lia).
      rewrite H1, H2, H3. reflexivity. }
  constructor.
Qed.

(** *** String literals that [json.Marshal] writes *)

Lemma bodyFrom_plain c b :
  (byte c =? 34)%N = false -> (byte c =? 92)%N = false ->
  (byte c <? 32)%N = false ->
  bodyFrom InString b -> bodyFrom InString (String c b).
Proof.
  unfold bodyFrom. intros H1 H2 H3 H. rewrite append_cons.
  cbn [scanStringBody]. rewrite H1, H2, H3, H. reflexivity.
Qed.

Lemma bodyFrom_high_intro c b :
  (128 <=? byte c)%N = true ->
  bodyFrom InString b -> bodyFrom InString (String c b).
Proof.
  intros Hc. apply N.leb_le in Hc.
  apply bodyFrom_plain; [apply N.eqb_neq|apply N.eqb_neq|apply N.ltb_ge]; lia.
Qed.

Lemma bodyFrom_escape e b :
  isSimpleEscape e = true ->
  bodyFrom InString b -> bodyFrom InString (String (chr 92) (String e b)).
Proof.
  unfold bodyFrom. intros He H. rewrite !append_cons.
  cbn [scanStringBody]. eval_bytes. rewrite He, H. reflexivity.
Qed.

Lemma bodyFrom_u4_intro h1 h2 h3 h4 b :
  isHex h1 = true -> isHex h2 = true -> isHex h3 = true -> isHex h4 = true ->
  bodyFrom InString b ->
  bodyFrom InString
    (String (chr 92) (String "u" (String h1 (String h2 (String h3 (String h4 b)))))).
Proof.
  unfold bodyFrom. intros H1 H2 H3 H4 H. rewrite !append_cons.
  cbn [scanStringBody]. eval_bytes.
  replace (isSimpleEscape "u") with false by reflexivity. eval_bytes.
  rewrite H1, H2, H3, H4, H. reflexivity.
Qed.

(** A property of the sixteen hexadecimal digit values holds as soon as
    it evaluates to true on each of them. *)
Lemma nibble_cases (P : N -> bool) :
  forallb P (map N.of_nat (seq 0 16)) = true ->
  forall n, (n < 16)%N -> P n = true.
Proof.
  intros Hall n Hn. rewrite forallb_forall in Hall. apply Hall.
  apply in_map_iff. exists (N.to_nat n).
  split; [apply N2Nat.id|]. apply in_seq. lia.
Qed.

Lemma hexDigit_isHex n : (n < 16)%N -> isHex (hexDigit n) = true.
Proof. apply (nibble_cases (fun k => isHex (hexDigit k))). reflexivity. Qed.

Lemma hexDigit_hexVal n : (n < 16)%N -> hexVal (hexDigit n) = Some n.
Proof.
  intros Hn.
  pose proof (nibble_cases
                (fun k => match hexVal (hexDigit k) with
                          | Some m => (m =? k)%N
                          | None => false
                          end) eq_refl n Hn) as Hk.
  cbv beta in Hk. destruct (hexVal (hexDigit n)) as [m|]; [|discriminate].
  apply N.eqb_eq in Hk. congruence.
Qed.

Lemma bodyFrom_escapeByte c b :
  (byte c <? 128)%N = true ->
  bodyFrom InString b -> bodyFrom InString (escapeByte c +:+ b).
Proof.
  intros Hc Hb. unfold escapeByte. apply N.ltb_lt in Hc.
  rewrite append_cons.
  destruct ((byte c =? 92) || (byte c =? 34))%N eqn:E1.
  { apply bodyFrom_escape; [|exact Hb]. unfold isSimpleEscape.
    apply orb_prop in E1 as [E|E]; apply N.eqb_eq in E; rewrite E; reflexivity. }
  destruct (byte c =? 8)%N; [apply bodyFrom_escape; [reflexivity|exact Hb]|].
  destruct (byte c =? 12)%N; [apply bodyFrom_escape; [reflexivity|exact Hb]|].
  destruct (byte c =? 10)%N; [apply bodyFrom_escape; [reflexivity|exact Hb]|].
  destruct (byte c =? 13)%N; [apply bodyFrom_escape; [reflexivity|exact Hb]|].
  destruct (byte c =? 9)%N; [apply bodyFrom_escape; [reflexivity|exact Hb]|].
  norm_app.
  apply bodyFrom_u4_intro; try reflexivity; [| |exact Hb];
    apply hexDigit_isHex.
  - apply N.Div0.div_lt_upper_bound. lia.
  - apply N.mod_lt. lia.
Qed.

(** [quoteBody] on a byte of 128 or more, by the outcome of decoding. *)
Lemma quoteBody_high c r :
  (byte c <? 128)%N = false ->
  quoteBody (String c r) =
  let '(rr, size) := utf8_DecodeRune (String c r) in
  if ((rr =? RuneError)%N && (size =? 1)%nat) then
    String (chr 92) ("ufffd" +:+ quoteBody r)
  else if ((rr =? 8232) || (rr =? 8233))%N then
    String (chr 92) ("u202" +:+ String (hexDigit (rr mod 16))
      match r with
      | String _ (String _ r3) => quoteBody r3
      | _ => quoteBody r
      end)
  else
    match size, r with
    | 2%nat, String c1 r2 => String c (String c1 (quoteBody r2))
    | 3%nat, String c1 (String c2 r3) =>
        String c (String c1 (String c2 (quoteBody r3)))
    | 4%nat, String c1 (String c2 (String c3 r4)) =>
        String c (String c1 (String c2 (String c3 (quoteBody r4))))
    | _, _ => String c (quoteBody r)
    end.
Proof. intros Hc. cbn [quoteBody]. rewrite Hc. reflexivity. Qed.

Lemma quoteBody_body_aux n :
  forall s, (String.length s < n)%nat -> bodyFrom InString (quoteBody s).
Proof.
  induction n as [|n IH]; intros s Hn; [lia|].
  destruct s as [|c r]; [reflexivity|]. cbn [String.length] in Hn.
  destruct (byte c <? 128)%N eqn:Hc.
  - cbn [quoteBody]. rewrite Hc. destruct (htmlSafe c) eqn:Hs.
    + unfold htmlSafe in Hs. repeat (apply andb_prop in Hs as [Hs ?]).
      apply bodyFrom_plain; [apply negb_true_iff; assumption
                            |apply negb_true_iff; assumption| |apply IH; lia].
      apply N.ltb_ge. apply N.leb_le in Hs. exact Hs.
    + apply bodyFrom_escapeByte; [exact Hc|apply IH; lia].
  - rewrite (quoteBody_high _ _ Hc).
    assert (Hhi : (128 <=? byte c)%N = true)
      by (apply N.leb_le; apply N.ltb_ge in Hc; exact Hc).
    pose proof (utf8_DecodeRune_high c r Hc) as D.
    remember (utf8_DecodeRune (String c r)) as p eqn:Ep.
    destruct D as [|c1 r2 rr -> H1 _ _ Hb|c1 c2 r3 rr -> H1 H2 _ _ Hb _
                  |c1 c2 c3 r4 rr -> H1 H2 H3 _ _ Hb].
    + replace ((RuneError =? RuneError)%N && (1 =? 1)%nat) with true by reflexivity.
      norm_app. apply bodyFrom_u4_intro; try reflexivity. apply IH; lia.
    + rewrite andb_false_r.
      replace ((rr =? 8232) || (rr =? 8233))%N with false
        by (symmetry; apply orb_false_intro; apply N.eqb_neq; lia).
      apply bodyFrom_high_intro; [exact Hhi|].
      apply bodyFrom_high_intro; [apply isCont_high; exact H1|].
      apply IH. cbn [String.length] in Hn. lia.
    + rewrite andb_false_r. cbn [String.length] in Hn.
      destruct ((rr =? 8232) || (rr =? 8233))%N eqn:E.
      * norm_app. apply bodyFrom_u4_intro; try reflexivity; [|apply IH; lia].
        apply hexDigit_isHex. apply N.mod_lt. lia.
      * apply bodyFrom_high_intro; [exact Hhi|].
        apply bodyFrom_high_intro; [exact H1|].
        apply bodyFrom_high_intro; [apply isCont_high; exact H2|].
        apply IH. lia.
    + rewrite andb_false_r. cbn [String.length] in Hn. unfold MaxRune in Hb.
      replace ((rr =? 8232) || (rr =? 8233))%N with false
        by (symmetry; apply orb_false_intro; apply N.eqb_neq; lia).
      apply bodyFrom_high_intro; [exact Hhi|].
      apply bodyFrom_high_intro; [exact H1|].
      apply bodyFrom_high_intro; [apply isCont_high; exact H2|].
      apply bodyFrom_high_intro; [apply isCont_high; exact H3|].
      apply IH. lia.
Qed.

(** Every literal that the encoder writes is one the scanner accepts. *)
Lemma quoteBody_isStrBody s : isStrBody (quoteBody s).
Proof. apply (quoteBody_body_aux (S (String.length s))). lia. Qed.

Lemma unquote_plain c b :
  (byte c =? 92)%N = false -> (byte c =? 34)%N = false ->
  (byte c <? 32)%N = false -> (byte c <? 128)%N = true ->
  unquote (String c b) = option_map (String c) (unquote b).
Proof.
  intros H1 H2 H3 H4. cbn [unquote]. rewrite H1, H2, H3, H4. reflexivity.
Qed.

Lemma unquote_u4_eq h1 h2 h3 h4 b :
  unquote (String (chr 92) (String "u" (String h1 (String h2 (String h3
             (String h4 b))))))
  = match getu4 h1 h2 h3 h4 with
    | None => None
    | Some rr =>
        if isSurrogate rr then
          let rr1 := match getu4At b with Some x => x | None => 0%N end in
          let dec := utf16_DecodeRune rr rr1 in
          if (dec =? RuneError)%N then
            option_map (String.append (utf8_EncodeRune RuneError)) (unquote b)
          else
            match b with
            | String _ (String _ (String _ (String _ (String _ (String _ r3))))) =>
                option_map (String.append (utf8_EncodeRune dec)) (unquote r3)
            | _ => None
            end
        else option_map (String.append (utf8_EncodeRune rr)) (unquote b)
    end.
Proof. reflexivity. Qed.

Lemma unquote_u4 h1 h2 h3 h4 rr b :
  getu4 h1 h2 h3 h4 = Some rr -> isSurrogate rr = false ->
  unquote (String (chr 92) (String "u" (String h1 (String h2 (String h3
             (String h4 b))))))
  = option_map (String.append (utf8_EncodeRune rr)) (unquote b).
Proof. intros Hg Hs. rewrite unquote_u4_eq, Hg, Hs. reflexivity. Qed.

Lemma unquote_escape2_eq e b :
  unquote (String (chr 92) (String e b))
  = let be := byte e in
    if ((be =? 34) || (be =? 92) || (be =? 47) || (be =? 39))%N then
      option_map (String e) (unquote b)
    else if (be =? 98)%N then option_map (String (chr 8)) (unquote b)
    else if (be =? 102)%N then option_map (String (chr 12)) (unquote b)
    else if (be =? 110)%N then option_map (String (chr 10)) (unquote b)
    else if (be =? 114)%N then option_map (String (chr 13)) (unquote b)
    else if (be =? 116)%N then option_map (String (chr 9)) (unquote b)
    else unquote (String (chr 92) (String e b)).
Proof.
  cbv zeta. repeat match goal with
                   | |- context [if ?t then _ else _] => destruct t eqn:?
                   end; try reflexivity.
  all: cbn [unquote]; eval_bytes;
    repeat match goal with H : _ = _ |- _ => rewrite H end; reflexivity.
Qed.

Lemma unquote_escapeByte c b :
  (byte c <? 128)%N = true -> htmlSafe c = false ->
  unquote (escapeByte c +:+ b) = option_map (String c) (unquote b).
Proof.
  intros Hc Hs. unfold escapeByte. rewrite append_cons. apply N.ltb_lt in Hc.
  destruct ((byte c =? 92) || (byte c =? 34))%N eqn:E1.
  { norm_app. rewrite unquote_escape2_eq. cbv zeta.
    apply orb_prop in E1 as [E|E]; apply N.eqb_eq in E; rewrite E; reflexivity. }
  destruct (byte c =? 8)%N eqn:E2;
    [know_byte E2; norm_app; rewrite unquote_escape2_eq; reflexivity|].
  destruct (byte c =? 12)%N eqn:E3;
    [know_byte E3; norm_app; rewrite unquote_escape2_eq; reflexivity|].
  destruct (byte c =? 10)%N eqn:E4;
    [know_byte E4; norm_app; rewrite unquote_escape2_eq; reflexivity|].
  destruct (byte c =? 13)%N eqn:E5;
    [know_byte E5; norm_app; rewrite unquote_escape2_eq; reflexivity|].
  destruct (byte c =? 9)%N eqn:E6;
    [know_byte E6; norm_app; rewrite unquote_escape2_eq; reflexivity|].
  norm_app.
  assert (Hq : (byte c / 16 < 16)%N) by (apply N.Div0.div_lt_upper_bound; lia).
  assert (Hm : (byte c mod 16 < 16)%N) by (apply N.mod_lt; lia).
  rewrite (unquote_u4 _ _ _ _ (byte c)).
  - unfold utf8_EncodeRune, isSurrogate, MaxRune.
    replace (1114111 <? byte c)%N with false by (symmetry; apply N.ltb_ge; lia).
    replace (55296 <=? byte c)%N with false by (symmetry; apply N.leb_gt; lia).
    cbn [andb orb].
    replace (byte c <? 128)%N with true by (symmetry; apply N.ltb_lt; lia).
    rewrite chr_byte. reflexivity.
  - unfold getu4. rewrite (hexDigit_hexVal _ Hq), (hexDigit_hexVal _ Hm).
    replace (hexVal "0") with (Some 0%N) by reflexivity.
    f_equal. rewrite (N.div_mod (byte c) 16) at 3 by lia. lia.
  - unfold isSurrogate.
    replace (55296 <=? byte c)%N with false by (symmetry; apply N.leb_gt; lia).
    reflexivity.
Qed.

Lemma option_map_append_Some (p : string) o s :
  o = Some s -> option_map (String.append p) o = Some (p +:+ s).
Proof. intros ->. reflexivity. Qed.

Lemma unquote_quoteBody_aux n :
  forall s, (String.length s < n)%nat -> utf8_ValidString s = true ->
            unquote (quoteBody s) = Some s.
Proof.
  induction n as [|n IH]; intros s Hn Hv; [lia|].
  destruct s as [|c r]; [reflexivity|]. cbn [String.length] in Hn.
  cbn [utf8_ValidString] in Hv.
  destruct (byte c <? 128)%N eqn:Hc.
  - cbn [quoteBody]. rewrite Hc. destruct (htmlSafe c) eqn:Hs.
    + unfold htmlSafe in Hs. repeat (apply andb_prop in Hs as [Hs ?]).
      rewrite unquote_plain;
        [|apply negb_true_iff; assumption|apply negb_true_iff; assumption
         |apply N.ltb_ge; apply N.leb_le in Hs; exact Hs|exact Hc].
      rewrite IH; [reflexivity|lia|exact Hv].
    + rewrite (unquote_escapeByte _ _ Hc Hs).
      rewrite IH; [reflexivity|lia|exact Hv].
  - rewrite (quoteBody_high _ _ Hc).
    assert (Hhi : (128 <= byte c)%N) by (apply N.ltb_ge in Hc; exact Hc).
    assert (T92 : (byte c =? 92)%N = false) by (apply N.eqb_neq; lia).
    assert (T34 : ((byte c =? 34) || (byte c <? 32))%N = false).
    { apply orb_false_intro; [apply N.eqb_neq|apply N.ltb_ge]; lia. }
    pose proof (utf8_DecodeRune_high c r Hc) as D.
    remember (utf8_DecodeRune (String c r)) as p eqn:Ep.
    destruct D as [|c1 r2 rr -> H1 He Hd Hb|c1 c2 r3 rr -> H1 H2 He Hd Hb Hsur
                  |c1 c2 c3 r4 rr -> H1 H2 H3 He Hd Hb];
      cbn [snd] in Hv; cbn [String.length] in Hn.
    + destruct r as [|? [|? [|? ?]]]; discriminate.
    + rewrite andb_false_r.
      replace ((rr =? 8232) || (rr =? 8233))%N with false
        by (symmetry; apply orb_false_intro; apply N.eqb_neq; lia).
      rewrite (unquote_high _ _ T92 T34 Hc), Hd. cbn [fst snd afterRune].
      rewrite He. norm_app.
      apply (option_map_append_Some (String c (String c1 ""))).
      apply IH; [lia|exact Hv].
    + rewrite andb_false_r.
      destruct ((rr =? 8232) || (rr =? 8233))%N eqn:E.
      * norm_app.
        assert (Hg : getu4 "2" "0" "2" (hexDigit (rr mod 16)) = Some rr).
        { apply orb_prop in E as [E|E]; apply N.eqb_eq in E; subst rr;
            reflexivity. }
        rewrite (unquote_u4 _ _ _ _ rr _ Hg Hsur), He.
        apply (option_map_append_Some (String c (String c1 (String c2 "")))).
        apply IH; [lia|exact Hv].
      * rewrite (unquote_high _ _ T92 T34 Hc), Hd. cbn [fst snd afterRune].
        rewrite He.
        apply (option_map_append_Some (String c (String c1 (String c2 "")))).
        apply IH; [lia|exact Hv].
    + rewrite andb_false_r. unfold MaxRune in Hb.
      replace ((rr =? 8232) || (rr =? 8233))%N with false
        by (symmetry; apply orb_false_intro; apply N.eqb_neq; lia).
      rewrite (unquote_high _ _ T92 T34 Hc), Hd. cbn [fst snd afterRune].
      rewrite He.
      apply (option_map_append_Some
               (String c (String c1 (String c2 (String c3 ""))))).
      apply IH; [lia|exact Hv].
Qed.

(** Decoding the literal of a valid UTF-8 string gives the string back. *)
Lemma unquote_quoteBody s :
  utf8_ValidString s = true -> unquote (quoteBody s) = Some s.
Proof. apply (unquote_quoteBody_aux (S (String.length s))). lia. Qed.

(** *** Integers that [json.Marshal] writes *)

Lemma string_of_uint_digits d :
  allSat isDigit (NilEmpty.string_of_uint d) = true.
Proof. induction d; cbn [NilEmpty.string_of_uint allSat]; auto. Qed.

Lemma Pos_to_uint_leads p : leadsNonZero (Pos.to_uint p).
Proof.
  pose proof (DecimalPos.Unsigned.to_of (Pos.to_uint p)) as H.
  rewrite DecimalPos.Unsigned.of_to in H. cbn [N.to_uint] in H.
  pose proof (DecimalPos.Unsigned.to_uint_nonzero p) as Hz.
  revert H Hz. generalize (Pos.to_uint p) as d. intros d H Hz.
  unfold Decimal.unorm in H.
  destruct (Decimal.nzhead d) eqn:E; try (rewrite H; exact I).
  - contradiction.
  - exfalso. apply (DecimalFacts.nzhead_nonzero _ _ E).
Qed.

Lemma string_of_uint_leads d :
  leadsNonZero d ->
  exists c ds, NilEmpty.string_of_uint d = String c ds
               /\ isDigit19 c = true /\ allSat isDigit ds = true
               /\ NilZero.string_of_uint d = String c ds.
Proof.
  destruct d; cbn [leadsNonZero]; try contradiction; intros _;
    eexists _, _; (split; [reflexivity|]); (split; [reflexivity|]);
    (split; [apply string_of_uint_digits|reflexivity]).
Qed.

Lemma isDigit19_isDigit c : isDigit19 c = true -> isDigit c = true.
Proof.
  unfold isDigit19, isDigit. intros H. apply andb_prop in H as [H1 H2].
  rewrite H2, andb_true_r. apply N.leb_le in H1. apply N.leb_le. lia.
Qed.

Lemma isDigit19_tests c :
  isDigit19 c = true ->
  (byte c =? 45)%N = false /\ (byte c =? 48)%N = false
  /\ (byte c =? 43)%N = false.
Proof.
  unfold isDigit19. intros H. apply andb_prop in H as [H1 H2].
  apply N.leb_le in H1, H2. repeat split; apply N.eqb_neq; lia.
Qed.

Lemma scanNumber_digits (neg : bool) c ds :
  isDigit19 c = true -> allSat isDigit ds = true ->
  let s := (if neg then String "-" (String c ds) else String c ds) in
  scanNumber s = Some (s, "").
Proof.
  intros Hc Hd. destruct (isDigit19_tests _ Hc) as (T45 & T48 & _).
  pose proof (spanDigits_complete ds "" Hd eq_refl) as Hs.
  rewrite append_nil_r in Hs.
  destruct neg; cbv zeta; unfold scanNumber.
  - eval_bytes. cbn [scanInt]. rewrite T48, Hc, Hs. cbn [scanFrac scanExp].
    norm_app. rewrite append_nil_r. reflexivity.
  - rewrite T45. cbn [scanInt]. rewrite T48, Hc, Hs. cbn [scanFrac scanExp].
    norm_app. rewrite append_nil_r. reflexivity.
Qed.

Lemma strconv_FormatInt_cases z :
  strconv_FormatInt z = "0"
  \/ exists (neg : bool) c ds,
       isDigit19 c = true /\ allSat isDigit ds = true
       /\ strconv_FormatInt z
          = (if neg then String "-" (String c ds) else String c ds).
Proof.
  unfold strconv_FormatInt. destruct z as [|p|p]; [left; reflexivity| |]; right.
  - destruct (string_of_uint_leads _ (Pos_to_uint_leads p))
      as (c & ds & _ & Hc & Hd & E).
    exists false, c, ds. cbn [Z.to_int NilZero.string_of_int]. auto.
  - destruct (string_of_uint_leads _ (Pos_to_uint_leads p))
      as (c & ds & _ & Hc & Hd & E).
    exists true, c, ds. cbn [Z.to_int NilZero.string_of_int]. rewrite E. auto.
Qed.

Lemma strconv_FormatInt_isNumber z : isNumber (strconv_FormatInt z).
Proof.
  destruct (strconv_FormatInt_cases z) as [->|(neg & c & ds & Hc & Hd & ->)];
    [reflexivity|].
  apply (scanNumber_digits neg c ds Hc Hd).
Qed.

Lemma Z_to_int_not_nil z :
  Z.to_int z <> Decimal.Pos Decimal.Nil /\ Z.to_int z <> Decimal.Neg Decimal.Nil.
Proof.
  destruct z as [|p|p]; cbn [Z.to_int]; split; try discriminate;
    intros [= H]; apply (DecimalPos.Unsigned.to_uint_nonnil p H).
Qed.

Lemma strconv_ParseInt_FormatInt z :
  inInt64 z = true -> strconv_ParseInt (strconv_FormatInt z) = Some z.
Proof.
  intros Hz.
  assert (Hint : NilZero.int_of_string (strconv_FormatInt z)
                 = Some (Z.to_int z)).
  { destruct (Z_to_int_not_nil z) as [N1 N2]. apply NilZero.isi; assumption. }
  unfold strconv_ParseInt.
  destruct (strconv_FormatInt_cases z) as [H|(neg & c & ds & Hc & _ & H)];
    rewrite H in *.
  - eval_bytes. rewrite Hint, DecimalZ.of_to, Hz. reflexivity.
  - destruct (isDigit19_tests _ Hc) as (_ & _ & T43).
    destruct neg.
    + eval_bytes. rewrite Hint, DecimalZ.of_to, Hz. reflexivity.
    + rewrite T43, Hint, DecimalZ.of_to, Hz. cbn [andb].
      destruct ds; reflexivity.
Qed.

Lemma Value_encodeString d s : Value d (encodeString s) (VString (quoteBody s)).
Proof. apply V_string. apply quoteBody_isStrBody. Qed.

Lemma Value_FormatInt d z : Value d (strconv_FormatInt z) VNumber.
Proof. apply V_number. apply strconv_FormatInt_isNumber. Qed.

Lemma Value_encodeBool d b : Value d (encodeBool b) (VBool b).
Proof. destruct b; constructor. Qed.

Lemma Value_encodeStringPtr d p : isValue d (encodeStringPtr p).
Proof.
  destruct p as [s|]; eexists; [apply Value_encodeString|apply V_null].
Qed.

Lemma Elems_joinComma d vs :
  vs <> [] -> Forall (isValue d) vs -> Elems d (joinComma vs +:+ "]") vs.
Proof.
  intros Hne H. induction H as [|v vs (sh & Hv) Hvs IH]; [contradiction|].
  destruct vs as [|v' vs].
  - pose proof (E_last d v sh "" Hv eq_refl) as D. cbn [joinComma].
    exact_text D.
  - assert (v' :: vs <> []) as Hne' by discriminate.
    pose proof (E_cons d v sh "" "" _ _ Hv eq_refl eq_refl (IH Hne')) as D.
    cbn [joinComma] in *. exact_text D.
Qed.

Lemma Value_encodeArray d vs :
  (d + 1 <= maxNestingDepth)%N -> Forall (isValue (d + 1)) vs ->
  Value d (encodeArray vs) (VArray vs).
Proof.
  intros Hd H. unfold encodeArray. destruct vs as [|v vs].
  - pose proof (V_array_nil d "" Hd eq_refl) as D. cbn [joinComma]. exact_text D.
  - assert (v :: vs <> []) as Hne by discriminate.
    pose proof (V_array d "" _ _ Hd eq_refl (Elems_joinComma _ _ Hne H)) as D.
    exact_text D.
Qed.

Lemma Members_joinComma d kvs :
  kvs <> [] -> Forall (fun kv => isValue d (snd kv)) kvs ->
  Members d (joinComma (map encodeMember kvs) +:+ "}") (map quoteMember kvs).
Proof.
  intros Hne H. induction H as [|[k v] kvs (sh & Hv) Hkvs IH]; [contradiction|].
  cbn [snd] in Hv. destruct kvs as [|kv' kvs].
  - pose proof (M_last d (quoteBody k) "" "" v sh "" (quoteBody_isStrBody k)
                  eq_refl eq_refl Hv eq_refl) as D.
    cbn [map joinComma]. unfold encodeMember, encodeString, quoteMember.
    cbn [fst snd]. exact_text D.
  - assert (kv' :: kvs <> []) as Hne' by discriminate.
    pose proof (M_cons d (quoteBody k) "" "" v sh "" "" _ _
                  (quoteBody_isStrBody k) eq_refl eq_refl Hv eq_refl eq_refl
                  (IH Hne')) as D.
    cbn [map joinComma] in *. unfold encodeMember at 1, encodeString.
    unfold quoteMember at 1. cbn [fst snd]. exact_text D.
Qed.

Lemma Value_encodeObject d kvs :
  (d + 1 <= maxNestingDepth)%N ->
  Forall (fun kv => isValue (d + 1) (snd kv)) kvs ->
  Value d (encodeObject kvs) (VObject (map quoteMember kvs)).
Proof.
  intros Hd H. unfold encodeObject. destruct kvs as [|kv kvs].
  - pose proof (V_object_nil d "" Hd eq_refl) as D. cbn [map joinComma].
    exact_text D.
  - assert (kv :: kvs <> []) as Hne by discriminate.
    pose proof (V_object d "" _ _ Hd eq_refl (Members_joinComma _ _ Hne H)) as D.
    exact_text D.
Qed.

(** *** Decoding what was encoded *)

Lemma decodeString_encodeString s cur :
  utf8_ValidString s = true -> decodeString (encodeString s) cur = inr s.
Proof.
  intros Hs. unfold decodeString.
  rewrite (Value_shapeOf _ _ _ (Value_encodeString 0 s)), (unquote_quoteBody _ Hs).
  reflexivity.
Qed.

Lemma decodeInt_FormatInt z cur :
  inInt64 z = true -> decodeInt (strconv_FormatInt z) cur = inr z.
Proof.
  intros Hz. unfold decodeInt.
  rewrite (Value_shapeOf _ _ _ (Value_FormatInt 0 z)),
    (strconv_ParseInt_FormatInt _ Hz).
  reflexivity.
Qed.

Lemma decodeBool_encodeBool b cur : decodeBool (encodeBool b) cur = inr b.
Proof.
  unfold decodeBool. rewrite (Value_shapeOf _ _ _ (Value_encodeBool 0 b)).
  reflexivity.
Qed.

Lemma decodePtr_value {A} (zero : A) dec raw cur d sh a :
  Value d raw sh -> sh <> VNull ->
  dec raw (match cur with Some x => x | None => zero end) = inr a ->
  decodePtr zero dec raw cur = inr (Some a).
Proof.
  intros Hv Hn Hd. unfold decodePtr. rewrite (Value_shapeOf _ _ _ Hv).
  destruct sh; try contradiction; rewrite Hd; reflexivity.
Qed.

Lemma decodePtr_null {A} (zero : A) dec cur :
  decodePtr zero dec "null" cur = inr None.
Proof. reflexivity. Qed.

Lemma decodeStruct_encodeObject {T} (setField : string -> string -> T -> result T)
    d kvs cur :
  Value d (encodeObject kvs) (VObject (map quoteMember kvs)) ->
  decodeStruct setField (encodeObject kvs) cur
  = decodeMembers setField (map quoteMember kvs) cur.
Proof.
  intros Hv. unfold decodeStruct. rewrite (Value_shapeOf _ _ _ Hv). reflexivity.
Qed.

Lemma decodeSlice_encodeArray {A} (zero : A) dec d vs :
  Value d (encodeArray vs) (VArray vs) ->
  decodeSlice zero dec (encodeArray vs) (None, [])
  = bindR (decodeElems zero dec vs []) (fun l => inr (Some l, [])).
Proof.
  intros Hv. unfold decodeSlice. rewrite (Value_shapeOf _ _ _ Hv).
  destruct vs as [|v vs]; reflexivity.
Qed.

Lemma decodeMembers_app {T} (setField : string -> string -> T -> result T)
    ms1 ms2 cur :
  decodeMembers setField (ms1 ++ ms2) cur
  = bindR (decodeMembers setField ms1 cur) (decodeMembers setField ms2).
Proof.
  revert cur. induction ms1 as [|[k v] ms1 IH]; intros cur; [reflexivity|].
  cbn [app decodeMembers]. destruct (unquote k); [|reflexivity].
  destruct (setField s v cur); cbn [bindR]; [reflexivity|apply IH].
Qed.

Lemma decodeMembers_one {T} (setField : string -> string -> T -> result T)
    name v cur :
  utf8_ValidString name = true ->
  decodeMembers setField [quoteMember (name, v)] cur = setField name v cur.
Proof.
  intros Hn. unfold quoteMember. cbn [fst snd decodeMembers].
  rewrite (unquote_quoteBody _ Hn). destruct (setField name v cur); reflexivity.
Qed.

Lemma decodeMembers_cons {T} (setField : string -> string -> T -> result T)
    name v ms cur :
  utf8_ValidString name = true ->
  decodeMembers setField (quoteMember (name, v) :: ms) cur
  = bindR (setField name v cur) (decodeMembers setField ms).
Proof.
  intros Hn. unfold quoteMember. cbn [fst snd decodeMembers].
  rewrite (unquote_quoteBody _ Hn). reflexivity.
Qed.

Lemma decodeMembers_nil {T} (setField : string -> string -> T -> result T) cur :
  decodeMembers setField [] cur = inr cur.
Proof. reflexivity. Qed.

Lemma omitIf_values d (empty : bool) kv :
  isValue d (snd kv) -> Forall (fun kv => isValue d (snd kv)) (omitIf empty kv).
Proof. intros H. destruct empty; repeat constructor. exact H. Qed.

Lemma isValue_encodeString d s : isValue d (encodeString s).
Proof. eexists. apply Value_encodeString. Qed.

Lemma isValue_FormatInt d z : isValue d (strconv_FormatInt z).
Proof. eexists. apply Value_FormatInt. Qed.

Lemma isValue_encodeBool d b : isValue d (encodeBool b).
Proof. eexists. apply Value_encodeBool. Qed.

Ltac member_values :=
  repeat (apply Forall_app; split);
  repeat match goal with
         | |- Forall _ (match ?o with Some _ => _ | None => _ end) => destruct o
         | |- Forall _ (match ?l with [] => _ | _ :: _ => _ end) => destruct l
         | |- Forall _ (omitIf _ _) => apply omitIf_values
         | |- Forall _ [] => constructor
         | |- Forall _ (_ :: _) => constructor
         end;
  cbn [snd];
  try apply isValue_encodeString; try apply isValue_FormatInt;
  try apply isValue_encodeBool; try apply Value_encodeStringPtr.

Lemma membersHTTPMeta_values d h :
  Forall (fun kv => isValue d (snd kv)) (membersHTTPMeta h).
Proof. unfold membersHTTPMeta. member_values. Qed.

Lemma depth_ok d : (d < 100)%N -> (d + 1 <= maxNestingDepth)%N.
Proof. unfold maxNestingDepth. lia. Qed.

Lemma Value_encodeHTTPMeta d h :
  (d < 100)%N ->
  Value d (encodeHTTPMeta h) (VObject (map quoteMember (membersHTTPMeta h))).
Proof.
  intros Hd. apply Value_encodeObject; [apply depth_ok; exact Hd|].
  apply membersHTTPMeta_values.
Qed.

Lemma encodeStrings_values d l :
  Forall (isValue d) (map encodeString l).
Proof. induction l; constructor; [apply isValue_encodeString|assumption]. Qed.

Lemma membersCommandMeta_values d c :
  (d < 100)%N -> Forall (fun kv => isValue d (snd kv)) (membersCommandMeta c).
Proof.
  intros Hd. unfold membersCommandMeta. member_values.
  eexists. apply Value_encodeArray; [apply depth_ok; exact Hd|].
  apply encodeStrings_values.
Qed.

Lemma Value_encodeCommandMeta d c :
  (d < 99)%N ->
  Value d (encodeCommandMeta c)
    (VObject (map quoteMember (membersCommandMeta c))).
Proof.
  intros Hd. apply Value_encodeObject; [apply depth_ok; lia|].
  apply membersCommandMeta_values. lia.
Qed.

Lemma membersTraceFrame_values d f :
  Forall (fun kv => isValue d (snd kv)) (membersTraceFrame f).
Proof. unfold membersTraceFrame. member_values. Qed.

Lemma Value_encodeTraceFrame d f :
  (d < 100)%N ->
  Value d (encodeTraceFrame f) (VObject (map quoteMember (membersTraceFrame f))).
Proof.
  intros Hd. apply Value_encodeObject; [apply depth_ok; exact Hd|].
  apply membersTraceFrame_values.
Qed.

Lemma Value_encodeHostMeta d h :
  (d < 100)%N ->
  Value d (encodeHostMeta h) (VObject (map quoteMember (membersHostMeta h))).
Proof.
  intros Hd. apply Value_encodeObject; [apply depth_ok; exact Hd|].
  unfold membersHostMeta. member_values.
Qed.

(** One member of an encoded object, stored by the setter of a struct. *)
Ltac eval_field :=
  match goal with
  | |- context [findField ?names ?key] =>
      let v := eval vm_compute in (findField names key) in
      change (findField names key) with v
  end;
  cbv beta iota zeta.

Ltac decode_value :=
  first [ rewrite decodeString_encodeString by assumption
        | rewrite decodeInt_FormatInt by assumption
        | rewrite decodeBool_encodeBool ];
  cbn [bindR].

Ltac split_keeps H :=
  repeat match type of H with
         | (_ && _)%bool = true =>
             let H1 := fresh "K" in
             apply andb_prop in H as [H H1]
         end.

Lemma decode_encodeHTTPMeta h :
  keepsHTTPMeta h = true ->
  decodeStruct setHTTPMetaField (encodeHTTPMeta h) zeroHTTPMeta = inr h.
Proof.
  intros K. unfold encodeHTTPMeta.
  rewrite (decodeStruct_encodeObject _ 0 _ _ (Value_encodeHTTPMeta 0 h eq_refl)).
  destruct h as [me sc ho pa qu st ci ua].
  unfold keepsHTTPMeta in K.
  cbn [HTTPMeta_Method HTTPMeta_Scheme HTTPMeta_Host HTTPMeta_Path
       HTTPMeta_Query HTTPMeta_StatusCode HTTPMeta_ClientIP
       HTTPMeta_UserAgent] in K.
  split_keeps K. unfold membersHTTPMeta, zeroHTTPMeta.
  cbn [HTTPMeta_Method HTTPMeta_Scheme HTTPMeta_Host HTTPMeta_Path
       HTTPMeta_Query HTTPMeta_StatusCode HTTPMeta_ClientIP
       HTTPMeta_UserAgent].
  destruct (String.eqb_spec qu "") as [->|Hqu];
    destruct st as [z|];
    destruct (String.eqb_spec ci "") as [->|Hci];
    destruct (String.eqb_spec ua "") as [->|Hua];
    cbn [omitIf app map];
    repeat (rewrite decodeMembers_cons by reflexivity;
            unfold setHTTPMetaField at 1; eval_field;
            first [ decode_value
                  | rewrite (decodePtr_value 0%Z decodeInt _ None 0 VNumber z
                               (Value_FormatInt 0 z) ltac:(discriminate)
                               (decodeInt_FormatInt z _ ltac:(assumption)));
                    cbn [bindR] ]);
    reflexivity.
Qed.

Lemma decodeElems_strings l :
  forallb utf8_ValidString l = true ->
  decodeElems "" decodeString (map encodeString l) [] = inr l.
Proof.
  induction l as [|s l IH]; [reflexivity|]. cbn [forallb map decodeElems hd tl].
  intros H. apply andb_prop in H as [Hs Hl].
  rewrite (decodeString_encodeString _ _ Hs). cbn [bindR].
  rewrite (IH Hl). reflexivity.
Qed.

Lemma decode_encodeCommandMeta c :
  keepsCommandMeta c = true ->
  decodeStruct setCommandMetaField (encodeCommandMeta c) (zeroCommandMeta, [])
  = inr (c, []).
Proof.
  intros K. unfold encodeCommandMeta.
  rewrite (decodeStruct_encodeObject _ 0 _ _ (Value_encodeCommandMeta 0 c eq_refl)).
  destruct c as [na ar cw]. unfold keepsCommandMeta in K.
  cbn [CommandMeta_Name CommandMeta_Args CommandMeta_Cwd] in K.
  split_keeps K. unfold membersCommandMeta, zeroCommandMeta.
  cbn [CommandMeta_Name CommandMeta_Args CommandMeta_Cwd].
  destruct ar as [[|a l]|]; [discriminate| |];
    destruct (String.eqb_spec cw "") as [->|Hcw];
    cbn [omitIf app map];
    repeat (rewrite decodeMembers_cons by reflexivity;
            unfold setCommandMetaField at 1; eval_field;
            first [ decode_value
                  | change (encodeString a :: map encodeString l)
                      with (map encodeString (a :: l));
                    rewrite (decodeSlice_encodeArray "" decodeString 1 _
                               (Value_encodeArray 1 _ (depth_ok 1 eq_refl)
                                  (encodeStrings_values 2 (a :: l))));
                    rewrite (decodeElems_strings (a :: l)) by assumption;
                    cbn [bindR fst snd] ]);
    reflexivity.
Qed.

Lemma decode_encodeTraceFrame f :
  keepsTraceFrame f = true ->
  decodeStruct setTraceFrameField (encodeTraceFrame f) zeroTraceFrame = inr f.
Proof.
  intros K. unfold encodeTraceFrame.
  rewrite (decodeStruct_encodeObject _ 0 _ _ (Value_encodeTraceFrame 0 f eq_refl)).
  destruct f as [fi li fu]. unfold keepsTraceFrame, keepsInt in K.
  cbn [TraceFrame_File TraceFrame_Line TraceFrame_Func] in K.
  split_keeps K. unfold membersTraceFrame, zeroTraceFrame.
  cbn [TraceFrame_File TraceFrame_Line TraceFrame_Func].
  destruct (String.eqb_spec fi "") as [->|Hfi];
    destruct (Z.eqb_spec li 0) as [->|Hli];
    destruct (String.eqb_spec fu "") as [->|Hfu];
    cbn [omitIf app map];
    repeat (rewrite decodeMembers_cons by reflexivity;
            unfold setTraceFrameField at 1; eval_field; decode_value);
    reflexivity.
Qed.

Lemma decode_encodeHostMeta h :
  keepsHostMeta h = true ->
  decodeStruct setHostMetaField (encodeHostMeta h) zeroHostMeta = inr h.
Proof.
  intros K. unfold encodeHostMeta.
  rewrite (decodeStruct_encodeObject _ 0 _ _ (Value_encodeHostMeta 0 h eq_refl)).
  destruct h as [hn pid]. unfold keepsHostMeta, keepsInt in K.
  cbn [HostMeta_Hostname HostMeta_PID] in K.
  split_keeps K. unfold membersHostMeta, zeroHostMeta.
  cbn [HostMeta_Hostname HostMeta_PID map].
  repeat (rewrite decodeMembers_cons by reflexivity;
          unfold setHostMetaField at 1; eval_field; decode_value).
  reflexivity.
Qed.

Lemma encodeTraceFrames_values d fs :
  (d < 100)%N -> Forall (isValue d) (map encodeTraceFrame fs).
Proof.
  intros Hd. induction fs; constructor; [|assumption].
  eexists. apply Value_encodeTraceFrame. exact Hd.
Qed.

Lemma decodeElems_frames_encoded fs :
  forallb keepsTraceFrame fs = true ->
  decodeElems zeroTraceFrame (decodeStruct setTraceFrameField)
    (map encodeTraceFrame fs) [] = inr fs.
Proof.
  induction fs as [|f fs IH]; [reflexivity|]. cbn [forallb map decodeElems hd tl].
  intros H. apply andb_prop in H as [Hf Hfs].
  rewrite (decode_encodeTraceFrame _ Hf). cbn [bindR].
  rewrite (IH Hfs). reflexivity.
Qed.

(** *** [strings.TrimSpace] on an encoded object *)

Lemma revApp_append a b acc : revApp (a +:+ b) acc = revApp b (revApp a acc).
Proof.
  revert acc. induction a as [|c a IH]; intros acc; [reflexivity|].
  rewrite append_cons. cbn [revApp]. apply IH.
Qed.

Lemma revApp_revApp a b c : revApp (revApp a b) c = revApp b (a +:+ c).
Proof.
  revert b c. induction a as [|x a IH]; intros b c; [reflexivity|].
  cbn [revApp]. rewrite IH. cbn [revApp]. rewrite append_cons. reflexivity.
Qed.

Lemma revStr_revStr s : revStr (revStr s) = s.
Proof.
  unfold revStr. rewrite revApp_revApp. cbn [revApp]. apply append_nil_r.
Qed.

Lemma strings_TrimSpace_encodeObject kvs :
  strings_TrimSpace (encodeObject kvs) = encodeObject kvs.
Proof.
  unfold strings_TrimSpace, encodeObject.
  set (body := joinComma (map encodeMember kvs)).
  assert (trimLeftSpace ("{" +:+ body +:+ "}") = "{" +:+ body +:+ "}") as ->
      by reflexivity.
  assert (revStr ("{" +:+ body +:+ "}") = String "}" (revStr ("{" +:+ body)))
    as E.
  { unfold revStr. rewrite <- append_assoc, revApp_append. reflexivity. }
  rewrite E.
  assert (trimLeftSpaceRev (String "}" (revStr ("{" +:+ body)))
          = String "}" (revStr ("{" +:+ body))) as -> by reflexivity.
  rewrite <- E. apply revStr_revStr.
Qed.

Lemma compactRaw_spec p :
  compactRaw p = true ->
  (exists sh, Value 1 p sh) /\ compactBytes false false p = p.
Proof.
  unfold compactRaw.
  destruct (scanValue _ 1 p) as [[[sh raw] r]|] eqn:E; [|discriminate].
  destruct r; [|discriminate]. intros H. apply String.eqb_eq in H.
  split; [|exact H]. exists sh.
  destruct (proj1 (scan_sound _) _ _ _ _ _ E) as [Hs V].
  rewrite append_nil_r in Hs. subst raw. exact V.
Qed.

Lemma membersEvent_values e p :
  isValue 1 p ->
  Forall (fun kv => isValue 1 (snd kv)) (membersEvent e p).
Proof.
  intros Hp. unfold membersEvent. member_values; try exact Hp.
  - eexists. apply Value_encodeHTTPMeta. reflexivity.
  - eexists. apply Value_encodeCommandMeta. reflexivity.
  - unfold encodeTrace. destruct (Trace e) as [fs|]; [|eexists; apply V_null].
    eexists. apply Value_encodeArray; [apply depth_ok; reflexivity|].
    apply encodeTraceFrames_values. reflexivity.
  - eexists. apply Value_encodeHostMeta. reflexivity.
Qed.

Lemma Value_encodeEvent e p :
  isValue 1 p ->
  Value 0 (encodeObject (membersEvent e p))
    (VObject (map quoteMember (membersEvent e p))).
Proof.
  intros Hp. apply Value_encodeObject; [apply depth_ok; reflexivity|].
  apply membersEvent_values. exact Hp.
Qed.

Lemma json_Marshal_Event_compact e p :
  Payload e = Some p -> compactRaw p = true ->
  json_Marshal_Event e = inr (encodeObject (membersEvent e p)).
Proof.
  intros Hp Hc. destruct (compactRaw_spec _ Hc) as [(sh & V) Hcp].
  unfold json_Marshal_Event, encodeRawMessage, json_compact.
  rewrite Hp, (Value_json_Valid _ _ _ V), Hcp. reflexivity.
Qed.

Lemma presenceRules_encoded e p :
  isValue 1 p -> (exists fs, Trace e = Some fs) ->
  presenceRules (map quoteMember (membersEvent e p)) = true.
Proof.
  intros Hp (fs & Ht).
  destruct e as [sv id ts st pr sa rq ht cm dd pf pl tr ho].
  cbn [Trace] in Ht. subst tr. unfold presenceRules, memberShape.
  assert (Hrq : shapeOf (encodeStringPtr rq) = Some VNull
                \/ exists c, shapeOf (encodeStringPtr rq) = Some (VString c)).
  { destruct rq as [s|]; [right|left; reflexivity].
    eexists. apply (Value_shapeOf 0). apply Value_encodeString. }
  assert (Hdd : shapeOf (encodeBool dd) = Some (VBool dd))
    by (apply (Value_shapeOf 0); apply Value_encodeBool).
  assert (Htr : shapeOf (encodeArray (map encodeTraceFrame fs))
                = Some (VArray (map encodeTraceFrame fs))).
  { apply (Value_shapeOf 0). apply Value_encodeArray;
      [apply depth_ok; reflexivity|].
    apply encodeTraceFrames_values. reflexivity. }
  destruct ht as [h|], cm as [c|];
    (replace (forallb _ requiredEventKeys) with true by reflexivity);
    (match goal with
     | |- context [memberValue ?ms "requestId"] =>
         replace (memberValue ms "requestId") with (Some (encodeStringPtr rq))
           by reflexivity;
         replace (memberValue ms "isDd") with (Some (encodeBool dd))
           by reflexivity;
         replace (memberValue ms "trace")
           with (Some (encodeArray (map encodeTraceFrame fs))) by reflexivity
     end);
    rewrite Hdd, Htr; destruct Hrq as [-> |(c0 & ->)]; reflexivity.
Qed.

Lemma decodePtr_encodeStringPtr rq :
  keepsOption utf8_ValidString rq = true ->
  decodePtr "" decodeString (encodeStringPtr rq) None = inr rq.
Proof.
  destruct rq as [s|]; cbn [keepsOption encodeStringPtr]; [|reflexivity].
  intros Hs.
  apply (decodePtr_value "" decodeString _ None 0 _ s (Value_encodeString 0 s));
    [discriminate|].
  apply decodeString_encodeString. exact Hs.
Qed.

Lemma decodePtr_encodeHTTPMeta h :
  keepsHTTPMeta h = true ->
  decodePtr zeroHTTPMeta (decodeStruct setHTTPMetaField) (encodeHTTPMeta h) None
  = inr (Some h).
Proof.
  intros K.
  apply (decodePtr_value _ _ _ None 0 _ h (Value_encodeHTTPMeta 0 h eq_refl));
    [discriminate|].
  apply decode_encodeHTTPMeta. exact K.
Qed.

Lemma decodePtr_encodeCommandMeta c :
  keepsCommandMeta c = true ->
  decodePtr (zeroCommandMeta, []) (decodeStruct setCommandMetaField)
    (encodeCommandMeta c) None
  = inr (Some (c, [])).
Proof.
  intros K.
  apply (decodePtr_value _ _ _ None 0 _ (c, [])
           (Value_encodeCommandMeta 0 c eq_refl));
    [discriminate|].
  apply decode_encodeCommandMeta. exact K.
Qed.

Lemma decodeSlice_encodeTrace fs :
  forallb keepsTraceFrame fs = true ->
  decodeSlice zeroTraceFrame (decodeStruct setTraceFrameField)
    (encodeTrace (Some fs)) (None, [])
  = inr (Some fs, []).
Proof.
  intros K. unfold encodeTrace.
  rewrite (decodeSlice_encodeArray _ _ 0 _
             (Value_encodeArray 0 _ (depth_ok 0 eq_refl)
                (encodeTraceFrames_values 1 fs eq_refl))).
  rewrite (decodeElems_frames_encoded _ K). reflexivity.
Qed.

(** The typed decode of an encoded event gives the event back. *)
Lemma json_Unmarshal_Event_encoded e p :
  keepsEvent e = true -> Payload e = Some p ->
  json_Unmarshal_Event (encodeObject (membersEvent e p)) = inr e.
Proof.
  intros K Hp. unfold keepsEvent in K. rewrite Hp in K.
  destruct (compactRaw_spec p) as [Vp _].
  { split_keeps K. assumption. }
  pose proof (Value_encodeEvent e p Vp) as V.
  unfold json_Unmarshal_Event.
  rewrite (Value_parseDocument _ _ _ V).
  rewrite (decodeStruct_encodeObject _ 0 _ _ V).
  destruct e as [sv id ts st pr sa rq ht cm dd pf pl tr ho].
  cbn [SchemaVersion ID Timestamp SourceType ProjectRoot PHPSAPI RequestID
       HTTP Command IsDD PayloadFormat Payload Trace Host] in *.
  subst pl. destruct tr as [fs|]; [|split_keeps K; discriminate].
  unfold keepsInt in K. split_keeps K.
  unfold membersEvent, zeroEventMem, zeroEvent.
  cbn [SchemaVersion ID Timestamp SourceType ProjectRoot PHPSAPI RequestID
       HTTP Command IsDD PayloadFormat Payload Trace Host].
  destruct ht as [h|], cm as [c|]; cbn [keepsOption] in *;
    cbn [app map];
    repeat (rewrite decodeMembers_cons by reflexivity;
            unfold setEventField at 1; eval_field; cbn [option_map];
            first [ decode_value
                  | rewrite decodePtr_encodeStringPtr by assumption
                  | rewrite decodePtr_encodeHTTPMeta by assumption
                  | rewrite decodePtr_encodeCommandMeta by assumption
                  | rewrite decodeSlice_encodeTrace by assumption
                  | rewrite decode_encodeHostMeta by assumption
                  | idtac ];
            cbn [bindR option_map fst snd]);
    reflexivity.
Qed.

Lemma firstMissingKey_expected (raw : gmap string string) keys err :
  firstMissingKey raw keys = Some err ->
  exists key, In key keys
    /\ err = errors_New ("missing required dump event field: " +:+ key).
Proof.
  induction keys as [|key keys IH]; cbn [firstMissingKey]; [discriminate|].
  destruct (raw !! key).
  - intros H. destruct (IH H) as (k & Hk & ->). exists k. split; [right|]; auto.
  - intros [= <-]. exists key. split; [left|]; reflexivity.
Qed.

Ltac expected_message :=
  right; right; right; right; eexists; split; [|reflexivity];
  unfold validationMessages; cbn [In]; tauto.

Lemma validateRequiredKeys_expected raw err :
  validateRequiredKeys raw = Some err -> expectedError err.
Proof.
  unfold validateRequiredKeys.
  destruct (firstMissingKey raw requiredEventKeys) as [e|] eqn:Hk.
  { intros [= <-]. apply firstMissingKey_expected in Hk.
    right. right. right. left. exact Hk. }
  repeat match goal with
         | |- context [if ?b then _ else _] => destruct b
         end; intros [= <-]; expected_message.
Qed.

Lemma validateEvent_expected e err :
  payloadOK e -> validateEvent e = Some err -> expectedError err.
Proof.
  intros Hp Hv.
  assert (err <> errors_New "payload must be valid JSON") as Hne.
  { intros ->. exact (validateEvent_payload_valid _ Hp Hv). }
  revert Hv Hne. unfold validateEvent.
  split_branches; intros [= <-] Hne;
    try (right; right; left; reflexivity);
    try expected_message.
  all: exfalso; apply Hne; reflexivity.
Qed.

Lemma validateEvent_None_fieldRules e :
  validateEvent e = None ->
  fieldRules e = true /\ lenBytes (Payload e) <> 0%nat
  /\ json_Valid (bytesOf (Payload e)) = true.
Proof.
  unfold validateEvent, fieldRules, reachesSubstructureCheck,
    passesEarlyChecks, timestampCanonical, sourceTypeKnown, substructureError.
  destruct (SchemaVersion e =? SchemaVersion_const)%Z; [|discriminate].
  cbn [negb andb].
  destruct (String.eqb (ID e) ""); [discriminate|].
  destruct (String.eqb (Timestamp e) ""); [discriminate|].
  destruct (String.eqb (SourceType e) ""); [discriminate|].
  destruct (String.eqb (ProjectRoot e) ""); [discriminate|].
  destruct (String.eqb (PHPSAPI e) ""); [discriminate|].
  destruct (String.eqb (PayloadFormat e) ""); [discriminate|].
  destruct (Nat.eqb_spec (lenBytes (Payload e)) 0); [discriminate|].
  cbn [orb negb andb].
  destruct (String.eqb (HostMeta_Hostname (Host e)) ""); [discriminate|].
  destruct (HostMeta_PID (Host e) <=? 0)%Z; [discriminate|].
  cbn [orb negb andb].
  destruct (time_Parse_RFC3339Nano (Timestamp e)) as [t|]; [|discriminate].
  destruct (String.eqb (time_Format_UTC_RFC3339Nano t) (Timestamp e));
    [|discriminate].
  cbn [negb andb].
  destruct (String.eqb (SourceType e) "http" || String.eqb (SourceType e) "cli"
            || String.eqb (SourceType e) "worker"
            || String.eqb (SourceType e) "cron"); [|discriminate].
  cbn [negb andb].
  destruct (String.eqb (PayloadFormat e) "json"); [|discriminate].
  cbn [negb andb].
  destruct (String.eqb (SourceType e) "http").
  - destruct (HTTP e) as [h|]; [|discriminate].
    destruct (_ || _); [discriminate|].
    destruct (json_Valid (bytesOf (Payload e))); [|discriminate]. auto.
  - destruct (Command e) as [c|]; [|discriminate].
    destruct (String.eqb (CommandMeta_Name c) ""); [discriminate|].
    destruct (json_Valid (bytesOf (Payload e))); [|discriminate]. auto.
Qed.

Lemma hasKey_memberValue ms key :
  hasKey ms key = true -> exists v, memberValue ms key = Some v.
Proof.
  intros H. unfold memberValue.
  destruct (lastValue ms key None) as [v|] eqn:E; [eauto|].
  apply lastValue_None in E. congruence.
Qed.

Lemma shape_eq_null (sh : shape) : sh = VNull \/ sh <> VNull.
Proof. destruct sh; auto; right; discriminate. Qed.

Lemma find_absent_None ms key :
  List.find (fun key => negb (hasKey ms key)) requiredEventKeys = None ->
  In key requiredEventKeys -> hasKey ms key = true.
Proof.
  intros Hf Hin. pose proof (find_none _ _ Hf key Hin) as H.
  cbv beta in H. apply negb_false_iff in H. exact H.
Qed.

(** [validateRequiredKeys] on the raw map of an object is
    [presenceError] on its members. *)
Lemma validateRequiredKeys_presenceError (raw : gmap string string) d ms :
  Forall (memberOK d) ms ->
  (forall key, raw !! key = lastValue ms key None) ->
  validateRequiredKeys raw = presenceError ms.
Proof.
  intros Hms Hraw. unfold validateRequiredKeys, presenceError, firstAbsentKey.
  rewrite (firstMissingKey_find raw ms _ Hraw).
  destruct (List.find _ requiredEventKeys) as [key|] eqn:Hf; [reflexivity|].
  cbn [option_map].
  destruct (hasKey_memberValue ms "requestId") as (rq & Erq).
  { apply (find_absent_None _ _ Hf). cbn. tauto. }
  destruct (hasKey_memberValue ms "isDd") as (dd & Edd).
  { apply (find_absent_None _ _ Hf). cbn. tauto. }
  destruct (hasKey_memberValue ms "trace") as (tr & Etr).
  { apply (find_absent_None _ _ Hf). cbn. tauto. }
  unfold memberShape. rewrite Erq, Edd, Etr.
  rewrite (rawAt_lookup raw ms _ _ Hraw Erq), (rawAt_lookup raw ms _ _ Hraw Edd),
    (rawAt_lookup raw ms _ _ Hraw Etr).
  destruct (memberValue_Value _ _ _ _ Hms Erq) as (shq & Vq).
  destruct (memberValue_Value _ _ _ _ Hms Edd) as (shd & Vd).
  destruct (memberValue_Value _ _ _ _ Hms Etr) as (sht & Vt).
  rewrite (Value_shapeOf _ _ _ Vq), (Value_shapeOf _ _ _ Vd),
    (Value_shapeOf _ _ _ Vt).
  assert (negb (String.eqb rq "null") && isErr (json_Unmarshal_string rq)
          = negb (isNullOrString (Some shq))) as ->.
  { destruct (shape_eq_null shq) as [-> | Hn].
    - rewrite (Value_VNull _ _ Vq). reflexivity.
    - rewrite (Value_not_null _ _ _ Vq Hn). cbn [negb andb].
      unfold json_Unmarshal_string, decodeString.
      rewrite (Value_parseDocument _ _ _ Vq), (Value_shapeOf _ _ _ Vq).
      destruct shq; try reflexivity.
      inversion Vq; subst.
      destruct (unquote_total content) as (u & ->); [assumption|]. reflexivity. }
  assert (isErr (json_Unmarshal_bool dd) = negb (isNullOrBoolean (Some shd)))
    as ->.
  { unfold json_Unmarshal_bool, decodeBool.
    rewrite (Value_parseDocument _ _ _ Vd), (Value_shapeOf _ _ _ Vd).
    destruct shd; reflexivity. }
  destruct (negb (isNullOrString (Some shq))); [reflexivity|].
  destruct (negb (isNullOrBoolean (Some shd))); [reflexivity|].
  destruct (shape_eq_null sht) as [-> | Hn].
  - rewrite (Value_VNull _ _ Vt). reflexivity.
  - rewrite (Value_not_null _ _ _ Vt Hn).
    unfold json_Unmarshal_RawMessages. rewrite (Value_parseDocument _ _ _ Vt).
    destruct sht; try reflexivity. contradiction.
Qed.

(** The decoder on a line that is a JSON object, stage by stage. *)
Lemma DecodeNDJSONLine_object line ms raw0 :
  parseDocument (strings_TrimSpace line) = Some (VObject ms, raw0) ->
  DecodeNDJSONLine line =
  match presenceError ms with
  | Some err => (None, Some err)
  | None =>
      match json_Unmarshal_Event (strings_TrimSpace line) with
      | inl err => (None, Some err)
      | inr event => outcome event
      end
  end.
Proof.
  intros Hp. unfold DecodeNDJSONLine.
  rewrite (parseDocument_nonblank _ _ Hp).
  destruct (json_Unmarshal_RawMap_object _ _ _ Hp) as (raw & -> & Hraw).
  rewrite (validateRequiredKeys_presenceError raw _ ms
             (Value_members _ _ _ (parseDocument_Value _ _ _ Hp)) Hraw).
  reflexivity.
Qed.

Lemma validateEvent_messages e msg :
  validateEvent e = Some (errors_New msg) -> In msg eventMessages.
Proof.
  unfold validateEvent, eventMessages.
  split_branches; intros [= <-]; cbn [In]; tauto.
Qed.

(** The later stages give none of the errors of [validateRequiredKeys]. *)
Lemma later_stages_messages data msg :
  ~ In msg eventMessages ->
  match json_Unmarshal_Event data with
  | inl err => (None, Some err)
  | inr event => outcome event
  end <> (None, Some (errors_New msg)).
Proof.
  intros Hn.
  pose proof (json_Unmarshal_Event_errs data) as He.
  destruct (json_Unmarshal_Event data) as [err|event].
  - destruct He as [-> | ->]; discriminate.
  - unfold outcome. destruct (validateEvent event) as [err|] eqn:Hv;
      [|discriminate].
    intros [= ->]. apply Hn. exact (validateEvent_messages _ _ Hv).
Qed.

Ltac not_event_message :=
  unfold eventMessages; cbn [In]; intros H;
  repeat (destruct H as [H|H]; [discriminate H|]); exact H.

Lemma typeErr_bind {A B} (r : result A) (k : A -> result B) :
  typeErr r -> (forall a, typeErr (k a)) -> typeErr (bindR r k).
Proof. destruct r; cbn; auto. Qed.

Lemma typeErr_inr {A} (a : A) : typeErr (inr a : result A).
Proof. exact I. Qed.

Lemma decodeString_onValues : onValues decodeString.
Proof.
  intros d raw sh cur V. unfold decodeString. rewrite (Value_shapeOf _ _ _ V).
  destruct sh; cbn; auto.
  inversion V; subst.
  destruct (unquote_total content) as (u & ->); [assumption|exact I].
Qed.

Lemma decodeInt_onValues : onValues decodeInt.
Proof.
  intros d raw sh cur V. unfold decodeInt. rewrite (Value_shapeOf _ _ _ V).
  destruct sh; cbn; auto. destruct (strconv_ParseInt raw); cbn; auto.
Qed.

Lemma decodeBool_onValues : onValues decodeBool.
Proof.
  intros d raw sh cur V. unfold decodeBool. rewrite (Value_shapeOf _ _ _ V).
  destruct sh; cbn; auto.
Qed.

Lemma decodePtr_onValues {A} (zero : A) dec d raw sh cur :
  onValues dec -> Value d raw sh -> typeErr (decodePtr zero dec raw cur).
Proof.
  intros H V. unfold decodePtr. rewrite (Value_shapeOf _ _ _ V).
  destruct sh; try apply typeErr_inr;
    (apply typeErr_bind; [eapply H; exact V|intros; apply typeErr_inr]).
Qed.

Lemma decodeElems_onValues {A} (zero : A) dec d es cells :
  onValues dec -> Forall (fun v => exists sh, Value d v sh) es ->
  typeErr (decodeElems zero dec es cells).
Proof.
  intros H Hes. revert cells.
  induction Hes as [|e es (sh & V) _ IH]; intros cells; cbn [decodeElems];
    [exact I|].
  apply typeErr_bind; [eapply H; exact V|intros a].
  apply typeErr_bind; [apply IH|intros; apply typeErr_inr].
Qed.

Lemma decodeSlice_onValues {A} (zero : A) (dec : string -> A -> result A) :
  onValues dec -> onValues (decodeSlice zero dec).
Proof.
  intros H d raw sh cur V. unfold decodeSlice. rewrite (Value_shapeOf _ _ _ V).
  destruct sh as [| | | |[|e es]|]; cbn [typeErr]; auto.
  apply typeErr_bind; [|intros; apply typeErr_inr].
  apply (decodeElems_onValues _ _ (d + 1)); [exact H|].
  exact (Value_elems _ _ _ V).
Qed.

Lemma decodeMembers_onValues {T}
    (setField : string -> string -> T -> result T) d ms cur :
  onMembers setField -> Forall (memberOK d) ms ->
  typeErr (decodeMembers setField ms cur).
Proof.
  intros H Hms. revert cur.
  induction Hms as [|[k v] ms [Hk (sh & V)] _ IH]; intros cur;
    cbn [decodeMembers]; [exact I|].
  cbn [fst snd] in *.
  destruct (unquote_total k Hk) as (key & ->).
  apply typeErr_bind; [eapply H; exact V|intros; apply IH].
Qed.

Lemma decodeStruct_onValues {T}
    (setField : string -> string -> T -> result T) :
  onMembers setField -> onValues (decodeStruct setField).
Proof.
  intros H d raw sh cur V. unfold decodeStruct. rewrite (Value_shapeOf _ _ _ V).
  destruct sh; cbn; auto.
  apply (decodeMembers_onValues _ (d + 1)); [exact H|].
  exact (Value_members _ _ _ V).
Qed.

Ltac field_typeErr V :=
  repeat match goal with
         | |- typeErr (match ?o with Some _ => _ | None => _ end) => destruct o
         | |- typeErr (match ?n with O => _ | S _ => _ end) => destruct n
         end;
  try apply typeErr_inr;
  (apply typeErr_bind; [|intros; apply typeErr_inr]);
  first [ apply (decodeString_onValues _ _ _ _ V)
        | apply (decodeInt_onValues _ _ _ _ V)
        | apply (decodeBool_onValues _ _ _ _ V)
        | idtac ].

Lemma setHTTPMetaField_onMembers : onMembers setHTTPMetaField.
Proof.
  intros d key v sh c V. destruct c. unfold setHTTPMetaField. field_typeErr V.
  exact (decodePtr_onValues _ _ _ _ _ _ decodeInt_onValues V).
Qed.

Lemma setCommandMetaField_onMembers : onMembers setCommandMetaField.
Proof.
  intros d key v sh c V. destruct c as [[na ar cw] rest].
  unfold setCommandMetaField. field_typeErr V.
  exact (decodeSlice_onValues _ _ decodeString_onValues _ _ _ _ V).
Qed.

Lemma setTraceFrameField_onMembers : onMembers setTraceFrameField.
Proof.
  intros d key v sh c V. destruct c. unfold setTraceFrameField.
  field_typeErr V.
Qed.

Lemma setHostMetaField_onMembers : onMembers setHostMetaField.
Proof.
  intros d key v sh c V. destruct c. unfold setHostMetaField. field_typeErr V.
Qed.

Lemma setEventField_onMembers : onMembers setEventField.
Proof.
  intros d key v sh c V.
  destruct c as [[[sv id ts st pr sa rq ht cm dd pf pl tr ho] trs] ars].
  unfold setEventField. field_typeErr V.
  - exact (decodePtr_onValues _ _ _ _ _ _ decodeString_onValues V).
  - exact (decodePtr_onValues _ _ _ _ _ _
             (decodeStruct_onValues _ setHTTPMetaField_onMembers) V).
  - exact (decodePtr_onValues _ _ _ _ _ _
             (decodeStruct_onValues _ setCommandMetaField_onMembers) V).
  - exact (decodeSlice_onValues _ _
             (decodeStruct_onValues _ setTraceFrameField_onMembers) _ _ _ _ V).
  - exact (decodeStruct_onValues _ setHostMetaField_onMembers _ _ _ _ V).
Qed.

(** Once the input is valid JSON, the typed decode has no syntax error
    left to find. *)
Lemma json_Unmarshal_Event_typeErr data :
  json_Valid data = true -> typeErr (json_Unmarshal_Event data).
Proof.
  unfold json_Valid, json_Unmarshal_Event.
  destruct (parseDocument data) as [[sh raw]|] eqn:Hp; [|discriminate].
  intros _. apply typeErr_bind; [|intros; apply typeErr_inr].
  exact (decodeStruct_onValues _ setEventField_onMembers _ _ _ _
           (parseDocument_Value _ _ _ Hp)).
Qed.

Lemma json_Unmarshal_RawMap_typeErr data :
  json_Valid data = true -> typeErr (json_Unmarshal_RawMap data).
Proof.
  unfold json_Valid, json_Unmarshal_RawMap.
  destruct (parseDocument data) as [[sh raw]|] eqn:Hp; [|discriminate].
  intros _. destruct sh; cbn; auto.
  pose proof (Value_members _ _ _ (parseDocument_Value _ _ _ Hp)) as Hms.
  destruct (insertMembers_total _ _ Hms ∅) as (m & ->). exact I.
Qed.

Lemma validateRequiredKeys_not_json raw :
  validateRequiredKeys raw <> Some json_SyntaxError.
Proof.
  unfold validateRequiredKeys.
  destruct (firstMissingKey raw requiredEventKeys) as [e|] eqn:Hk.
  { apply firstMissingKey_expected in Hk as (k & _ & ->). discriminate. }
  repeat match goal with
         | |- context [if ?b then _ else _] => destruct b
         end; discriminate.
Qed.

Lemma validateEvent_not_json e : validateEvent e <> Some json_SyntaxError.
Proof.
  unfold validateEvent. split_branches; discriminate.
Qed.

Lemma asciiSpace_low c : asciiSpace c = true -> (byte c <? 128)%N = true.
Proof.
  unfold asciiSpace. intros H. apply N.ltb_lt.
  apply orb_prop in H as [H|H].
  - apply andb_prop in H as [_ H]. apply N.leb_le in H. lia.
  - apply N.eqb_eq in H. lia.
Qed.

Lemma asciiSpace_IsSpace c :
  asciiSpace c = true -> unicode_IsSpace (byte c) = true.
Proof.
  unfold asciiSpace, unicode_IsSpace. intros H.
  apply orb_prop in H as [H|H]; rewrite H; [reflexivity|].
  rewrite orb_true_r. reflexivity.
Qed.

Lemma asciiSpace_not_cont c : asciiSpace c = true -> isCont c = false.
Proof.
  intros H. apply asciiSpace_low in H. apply N.ltb_lt in H.
  unfold isCont. destruct (N.leb_spec 128 (byte c)); [lia|reflexivity].
Qed.

Lemma inRange_not_cont lo hi c :
  (128 <= lo)%N -> (hi <= 191)%N -> isCont c = false -> inRange lo hi c = false.
Proof.
  unfold isCont, inRange. intros Hlo Hhi H.
  destruct (N.leb_spec lo (byte c)), (N.leb_spec (byte c) hi); try reflexivity.
  destruct (N.leb_spec 128 (byte c)), (N.leb_spec (byte c) 191);
    try discriminate; lia.
Qed.

(** A rune is decoded from the bytes of its encoding: text that is
    appended changes nothing, unless it starts with a continuation byte
    and so could complete a truncated encoding. *)
Lemma utf8_DecodeRune_append c r suf :
  headSat isCont suf = false ->
  utf8_DecodeRune (String c r +:+ suf) = utf8_DecodeRune (String c r).
Proof.
  intros Hs. rewrite append_cons. unfold utf8_DecodeRune.
  destruct (byte c <? 128)%N; [reflexivity|].
  destruct (inRange 194 223 c).
  { destruct r as [|c1 r]; rewrite ?append_cons, ?append_nil_l; [|reflexivity].
    destruct suf as [|a suf]; [reflexivity|]. cbn [headSat] in Hs.
    rewrite Hs. reflexivity. }
  destruct (inRange 224 239 c).
  { set (lo := if (byte c =? 224)%N then 160%N else 128%N).
    set (hi := if (byte c =? 237)%N then 159%N else 191%N).
    assert (128 <= lo)%N as Hlo by (subst lo; destruct (byte c =? 224)%N; lia).
    assert (hi <= 191)%N as Hhi by (subst hi; destruct (byte c =? 237)%N; lia).
    destruct r as [|c1 [|c2 r]]; rewrite ?append_cons, ?append_nil_l;
      [| |reflexivity].
    - destruct suf as [|a [|b suf]]; try reflexivity. cbn [headSat] in Hs.
      rewrite (inRange_not_cont _ _ _ Hlo Hhi Hs). reflexivity.
    - destruct suf as [|a suf]; [reflexivity|]. cbn [headSat] in Hs.
      rewrite Hs, andb_false_r. reflexivity. }
  destruct (inRange 240 244 c); [|reflexivity].
  set (lo := if (byte c =? 240)%N then 144%N else 128%N).
  set (hi := if (byte c =? 244)%N then 143%N else 191%N).
  assert (128 <= lo)%N as Hlo by (subst lo; destruct (byte c =? 240)%N; lia).
  assert (hi <= 191)%N as Hhi by (subst hi; destruct (byte c =? 244)%N; lia).
  destruct r as [|c1 [|c2 [|c3 r]]]; rewrite ?append_cons, ?append_nil_l;
    [| | |reflexivity].
  - destruct suf as [|a [|b [|b' suf]]]; try reflexivity. cbn [headSat] in Hs.
    rewrite (inRange_not_cont _ _ _ Hlo Hhi Hs). reflexivity.
  - destruct suf as [|a [|b suf]]; try reflexivity. cbn [headSat] in Hs.
    rewrite Hs, andb_false_r. reflexivity.
  - destruct suf as [|a suf]; [reflexivity|]. cbn [headSat] in Hs.
    rewrite Hs, andb_false_r. reflexivity.
Qed.

Lemma trimLeftSpace_eq c r :
  trimLeftSpace (String c r) =
  (let '(rr, size) := utf8_DecodeRune (String c r) in
   if unicode_IsSpace rr then
     match size, r with
     | 2%nat, String _ r2 => trimLeftSpace r2
     | 3%nat, String _ (String _ r3) => trimLeftSpace r3
     | 4%nat, String _ (String _ (String _ r4)) => trimLeftSpace r4
     | _, _ => trimLeftSpace r
     end
   else String c r).
Proof. reflexivity. Qed.

Lemma trimLeftSpaceRev_eq c r :
  trimLeftSpaceRev (String c r) =
  (let '(rr, size) := utf8_DecodeLastRune (String c r) in
   if unicode_IsSpace rr then
     match size, r with
     | 2%nat, String _ r2 => trimLeftSpaceRev r2
     | 3%nat, String _ (String _ r3) => trimLeftSpaceRev r3
     | 4%nat, String _ (String _ (String _ r4)) => trimLeftSpaceRev r4
     | _, _ => trimLeftSpaceRev r
     end
   else String c r).
Proof. reflexivity. Qed.

Lemma utf8_DecodeRune_low c r :
  (byte c <? 128)%N = true -> utf8_DecodeRune (String c r) = (byte c, 1%nat).
Proof. intros H. unfold utf8_DecodeRune. rewrite H. reflexivity. Qed.

Lemma utf8_DecodeLastRune_low c r :
  (byte c <? 128)%N = true ->
  utf8_DecodeLastRune (String c r) = (byte c, 1%nat).
Proof. intros H. unfold utf8_DecodeLastRune. rewrite H. reflexivity. Qed.

(** Leading ASCII white space is trimmed. *)
Lemma trimLeftSpace_padding pre s :
  allSat asciiSpace pre = true -> trimLeftSpace (pre +:+ s) = trimLeftSpace s.
Proof.
  induction pre as [|c pre IH]; cbn [allSat]; intros H.
  - rewrite append_nil_l. reflexivity.
  - apply andb_prop in H as [Hc H]. rewrite append_cons, trimLeftSpace_eq.
    rewrite (utf8_DecodeRune_low _ _ (asciiSpace_low _ Hc)).
    rewrite (asciiSpace_IsSpace _ Hc). exact (IH H).
Qed.

Lemma trimLeftSpaceRev_padding w s :
  allSat asciiSpace w = true ->
  trimLeftSpaceRev (w +:+ s) = trimLeftSpaceRev s.
Proof.
  induction w as [|c w IH]; cbn [allSat]; intros H.
  - rewrite append_nil_l. reflexivity.
  - apply andb_prop in H as [Hc H]. rewrite append_cons, trimLeftSpaceRev_eq.
    rewrite (utf8_DecodeLastRune_low _ _ (asciiSpace_low _ Hc)).
    rewrite (asciiSpace_IsSpace _ Hc). exact (IH H).
Qed.

Lemma allSat_append p a b :
  allSat p (a +:+ b) = allSat p a && allSat p b.
Proof.
  induction a as [|c a IH]; [rewrite append_nil_l; reflexivity|].
  rewrite append_cons. cbn [allSat]. rewrite IH, andb_assoc. reflexivity.
Qed.

Lemma allSat_revApp p a acc :
  allSat p (revApp a acc) = allSat p a && allSat p acc.
Proof.
  revert acc. induction a as [|c a IH]; intros acc; cbn [revApp allSat];
    [reflexivity|].
  rewrite IH. cbn [allSat]. destruct (p c), (allSat p a); reflexivity.
Qed.

Lemma trimLeftSpace_all_space suf :
  allSat asciiSpace suf = true -> trimLeftSpace suf = "".
Proof.
  intros H. rewrite <- (append_nil_r suf).
  rewrite (trimLeftSpace_padding _ _ H). reflexivity.
Qed.

Lemma allSat_tail p c s : allSat p (String c s) = true -> allSat p s = true.
Proof. cbn [allSat]. intros H. apply andb_prop in H as [_ H]. exact H. Qed.

(** Trailing ASCII white space stays behind what [trimLeftSpace]
    keeps. *)
Lemma trimLeftSpace_suffix suf :
  allSat asciiSpace suf = true ->
  forall n s, (String.length s <= n)%nat ->
  trimLeftSpace (s +:+ suf) =
  match trimLeftSpace s with
  | "" => ""
  | u => u +:+ suf
  end.
Proof.
  intros Hsuf.
  assert (headSat isCont suf = false) as Hhead.
  { destruct suf as [|a suf]; [reflexivity|]. cbn [headSat allSat] in *.
    apply andb_prop in Hsuf as [Ha _]. exact (asciiSpace_not_cont _ Ha). }
  induction n as [|n IH]; intros s Hlen.
  { destruct s; [|cbn in Hlen; lia]. rewrite append_nil_l.
    exact (trimLeftSpace_all_space _ Hsuf). }
  destruct s as [|c r].
  { rewrite append_nil_l. exact (trimLeftSpace_all_space _ Hsuf). }
  cbn [String.length] in Hlen.
  pose proof (utf8_DecodeRune_append c r suf Hhead) as Hdec.
  rewrite append_cons in Hdec |- *.
  rewrite !trimLeftSpace_eq, Hdec.
  destruct (byte c <? 128)%N eqn:Hc.
  { rewrite (utf8_DecodeRune_low _ _ Hc).
    destruct (unicode_IsSpace (byte c)); [|rewrite append_cons; reflexivity].
    apply IH. lia. }
  pose proof (utf8_DecodeRune_high c r Hc) as Hd.
  destruct (utf8_DecodeRune (String c r)) as [rr size].
  destruct (unicode_IsSpace rr); [|rewrite append_cons; reflexivity].
  inversion Hd; subst; rewrite ?append_cons.
  - apply IH. lia.
  - apply IH. cbn [String.length] in Hlen. lia.
  - apply IH. cbn [String.length] in Hlen. lia.
  - apply IH. cbn [String.length] in Hlen. lia.
Qed.

Lemma revApp_acc a acc : revApp a acc = revStr a +:+ acc.
Proof.
  unfold revStr. revert acc.
  induction a as [|c a IH]; intros acc; cbn [revApp];
    [rewrite append_nil_l; reflexivity|].
  rewrite (IH (String c acc)), (IH (String c "")), append_assoc, append_cons,
    append_nil_l.
  reflexivity.
Qed.

Lemma revStr_append a b : revStr (a +:+ b) = revStr b +:+ revStr a.
Proof. unfold revStr at 1. rewrite revApp_append. apply revApp_acc. Qed.

Lemma allSat_revStr p s : allSat p s = true -> allSat p (revStr s) = true.
Proof.
  intros H. unfold revStr. rewrite allSat_revApp, H. reflexivity.
Qed.

(** Padding a text with ASCII white space does not change what
    [strings.TrimSpace] keeps of it. *)
Lemma strings_TrimSpace_padding pre s suf :
  allSat asciiSpace pre = true -> allSat asciiSpace suf = true ->
  strings_TrimSpace (pre +:+ s +:+ suf) = strings_TrimSpace s.
Proof.
  intros Hpre Hsuf. unfold strings_TrimSpace.
  rewrite (trimLeftSpace_padding _ _ Hpre).
  rewrite (trimLeftSpace_suffix _ Hsuf _ s (le_n _)).
  destruct (trimLeftSpace s) as [|c u]; [reflexivity|].
  rewrite revStr_append, (trimLeftSpaceRev_padding _ _ (allSat_revStr _ _ Hsuf)).
  reflexivity.
Qed.

Lemma setEventField_other key v e :
  findField Event_names key = None -> setEventField key v e = inr e.
Proof.
  intros H. destruct e as [[[] ?] ?]. unfold setEventField. rewrite H.
  reflexivity.
Qed.

Lemma decodeMembers_named ms cur :
  decodeMembers setEventField ms cur
  = decodeMembers setEventField (List.filter namesEventField ms) cur.
Proof.
  revert cur. induction ms as [|[k v] ms IH]; intros cur; [reflexivity|].
  cbn [List.filter]. unfold namesEventField at 1. cbn [fst].
  destruct (unquote k) as [key|] eqn:Hk.
  - destruct (findField Event_names key) eqn:Hf.
    + cbn [decodeMembers]. rewrite Hk.
      destruct (setEventField key v cur); cbn [bindR]; [reflexivity|apply IH].
    + cbn [decodeMembers]. rewrite Hk, (setEventField_other _ _ _ Hf).
      cbn [bindR]. apply IH.
  - cbn [decodeMembers]. rewrite Hk. reflexivity.
Qed.

Lemma lastValue_named ms key acc :
  findField Event_names key <> None ->
  lastValue ms key acc = lastValue (List.filter namesEventField ms) key acc.
Proof.
  intros Hkey. revert acc.
  induction ms as [|[k v] ms IH]; intros acc; [reflexivity|].
  cbn [List.filter]. unfold namesEventField at 1. cbn [fst].
  destruct (unquote k) as [k'|] eqn:Hk.
  - destruct (findField Event_names k') eqn:Hf.
    + cbn [lastValue]. rewrite Hk. apply IH.
    + cbn [lastValue]. rewrite Hk.
      destruct (String.eqb_spec k' key) as [->|_]; [contradiction|]. apply IH.
  - cbn [lastValue]. rewrite Hk. apply IH.
Qed.

Lemma hasKey_named ms key :
  findField Event_names key <> None ->
  hasKey ms key = hasKey (List.filter namesEventField ms) key.
Proof.
  intros Hkey.
  destruct (hasKey ms key) eqn:H1,
    (hasKey (List.filter namesEventField ms) key) eqn:H2; try reflexivity.
  - apply lastValue_None in H2. rewrite <- (lastValue_named _ _ _ Hkey) in H2.
    apply lastValue_None in H2. congruence.
  - apply lastValue_None in H1. rewrite (lastValue_named _ _ _ Hkey) in H1.
    apply lastValue_None in H1. congruence.
Qed.

Lemma requiredEventKeys_named key :
  In key requiredEventKeys -> findField Event_names key <> None.
Proof.
  unfold requiredEventKeys. cbn [In]. intros H.
  repeat (destruct H as [<-|H]; [discriminate|]). contradiction.
Qed.

Lemma find_ext_in {A} (f g : A -> bool) l :
  (forall x, In x l -> f x = g x) -> List.find f l = List.find g l.
Proof.
  induction l as [|a l IH]; intros H; [reflexivity|]. cbn [List.find].
  rewrite <- (H a) by (left; reflexivity).
  destruct (f a); [reflexivity|]. apply IH. intros x Hx. apply H. right. exact Hx.
Qed.

Lemma presenceError_named ms :
  presenceError ms = presenceError (List.filter namesEventField ms).
Proof.
  unfold presenceError, firstAbsentKey, memberShape, memberValue.
  rewrite (find_ext_in _
             (fun key => negb (hasKey (List.filter namesEventField ms) key))).
  2: { intros key Hin. f_equal.
       apply hasKey_named, requiredEventKeys_named, Hin. }
  rewrite <- !lastValue_named by discriminate. reflexivity.
Qed.

Lemma json_Unmarshal_Event_members data ms raw :
  parseDocument data = Some (VObject ms, raw) ->
  json_Unmarshal_Event data
  = bindR (decodeMembers setEventField ms zeroEventMem)
      (fun m => inr (eventOf m)).
Proof.
  intros Hp. unfold json_Unmarshal_Event, decodeStruct. rewrite Hp.
  rewrite (Value_shapeOf _ _ _ (parseDocument_Value _ _ _ Hp)). reflexivity.
Qed.

(** The UTC rendering of an instant ends with the zone designator. *)
Lemma time_Format_UTC_RFC3339Nano_Z t :
  exists pre, time_Format_UTC_RFC3339Nano t = pre +:+ "Z".
Proof.
  unfold time_Format_UTC_RFC3339Nano.
  destruct (civilFromDays (unixSec t / 86400)) as [[y m] d].
  eexists. rewrite <- !append_assoc. reflexivity.
Qed.

Lemma validateEvent_None_timestamp e :
  validateEvent e = None ->
  exists t, time_Parse_RFC3339Nano (Timestamp e) = Some t
            /\ time_Format_UTC_RFC3339Nano t = Timestamp e.
Proof.
  intros H. apply validateEvent_None_fieldRules in H as (H & _).
  unfold fieldRules, reachesSubstructureCheck, timestampCanonical in H.
  apply andb_prop in H as [H _]. apply andb_prop in H as [H _].
  apply andb_prop in H as [H _]. apply andb_prop in H as [_ H].
  destruct (time_Parse_RFC3339Nano (Timestamp e)) as [t|]; [|discriminate].
  exists t. split; [reflexivity|]. apply String.eqb_eq. exact H.
Qed.

(** *** Decimal digits: [strconv.FormatInt] and the value of a digit
    string *)

Lemma isDigit_cases c :
  isDigit c = true ->
  exists u, forall s, String c (NilEmpty.string_of_uint s)
                      = NilEmpty.string_of_uint (u s).
Proof.
  destruct c as [[] [] [] [] [] [] [] []]; try discriminate; intros _;
    first [ exists Decimal.D0; reflexivity | exists Decimal.D1; reflexivity
          | exists Decimal.D2; reflexivity | exists Decimal.D3; reflexivity
          | exists Decimal.D4; reflexivity | exists Decimal.D5; reflexivity
          | exists Decimal.D6; reflexivity | exists Decimal.D7; reflexivity
          | exists Decimal.D8; reflexivity | exists Decimal.D9; reflexivity ].
Qed.

Lemma digits_uint ds :
  allSat isDigit ds = true -> exists u, NilEmpty.string_of_uint u = ds.
Proof.
  induction ds as [|c ds IH]; cbn [allSat]; intros H.
  - exists Decimal.Nil. reflexivity.
  - apply andb_prop in H as [Hc H]. destruct (IH H) as (u & <-).
    destruct (isDigit_cases c Hc) as (k & Hk). exists (k u).
    symmetry. apply Hk.
Qed.

Lemma digitsVal_acc u acc :
  digitsVal (Z.pos acc) (NilEmpty.string_of_uint u)
  = Z.pos (Pos.of_uint_acc u acc).
Proof.
  revert acc. induction u as [|u IH|u IH|u IH|u IH|u IH|u IH|u IH|u IH|u IH|u IH];
    intros acc; cbn [NilEmpty.string_of_uint digitsVal Pos.of_uint_acc];
    [reflexivity|..]; rewrite <- IH; f_equal;
    change (digitVal "0") with 0%Z; change (digitVal "1") with 1%Z;
    change (digitVal "2") with 2%Z; change (digitVal "3") with 3%Z;
    change (digitVal "4") with 4%Z; change (digitVal "5") with 5%Z;
    change (digitVal "6") with 6%Z; change (digitVal "7") with 7%Z;
    change (digitVal "8") with 8%Z; change (digitVal "9") with 9%Z; lia.
Qed.

Lemma digitsVal_uint u :
  digitsVal 0%Z (NilEmpty.string_of_uint u) = Z.of_uint u.
Proof.
  unfold Z.of_uint.
  induction u as [|u IH|u IH|u IH|u IH|u IH|u IH|u IH|u IH|u IH|u IH];
    cbn [NilEmpty.string_of_uint digitsVal Pos.of_uint]; [reflexivity|exact IH|..];
    cbn [Z.of_N]; rewrite <- digitsVal_acc; reflexivity.
Qed.

Lemma strconv_FormatInt_of_uint u :
  strconv_FormatInt (Z.of_uint u) = NilZero.string_of_uint (Decimal.unorm u).
Proof.
  unfold strconv_FormatInt.
  change (Z.of_uint u) with (Z.of_int (Decimal.Pos u)).
  rewrite DecimalZ.to_of. reflexivity.
Qed.

Lemma length_zeros n : String.length (zeros n) = n.
Proof. induction n as [|n IH]; cbn [zeros String.length]; congruence. Qed.

Lemma zeroPad_fits w s t :
  zeroPad w s = t -> String.length t = w -> (String.length s <= w)%nat.
Proof.
  unfold zeroPad. intros <-. rewrite length_append, length_zeros. lia.
Qed.

Lemma zeroPad_S w s :
  (String.length s <= w)%nat -> zeroPad (S w) s = String "0" (zeroPad w s).
Proof.
  intros H. unfold zeroPad.
  replace (S w - String.length s)%nat with (S (w - String.length s)) by lia.
  cbn [zeros]. rewrite append_cons. reflexivity.
Qed.

Lemma zeroPad_full s : zeroPad (String.length s) s = s.
Proof.
  unfold zeroPad. rewrite Nat.sub_diag. cbn [zeros]. apply append_nil_l.
Qed.

(** Leading zeros that [strconv.FormatInt] drops come back with the
    padding. *)
Lemma zeroPad_unorm u :
  u <> Decimal.Nil ->
  zeroPad (String.length (NilEmpty.string_of_uint u))
    (NilZero.string_of_uint (Decimal.unorm u))
  = NilEmpty.string_of_uint u.
Proof.
  induction u as [|u IH|u IH|u IH|u IH|u IH|u IH|u IH|u IH|u IH|u IH];
    intros Hn; [contradiction|..];
    try (change (NilZero.string_of_uint (Decimal.unorm ?x))
           with (NilEmpty.string_of_uint x); apply zeroPad_full).
  change (Decimal.unorm (Decimal.D0 u)) with (Decimal.unorm u).
  cbn [NilEmpty.string_of_uint String.length].
  destruct u as [|u'|u'|u'|u'|u'|u'|u'|u'|u'|u']; [reflexivity|..];
    (rewrite zeroPad_S; [f_equal; apply IH; discriminate|];
     eapply zeroPad_fits; [apply IH; discriminate|reflexivity]).
Qed.

Lemma zeroPad_FormatInt ds :
  allSat isDigit ds = true -> ds <> "" ->
  zeroPad (String.length ds) (strconv_FormatInt (digitsVal 0%Z ds)) = ds.
Proof.
  intros Hd Hn. destruct (digits_uint ds Hd) as (u & <-).
  rewrite digitsVal_uint, strconv_FormatInt_of_uint.
  apply zeroPad_unorm. intros ->. apply Hn. reflexivity.
Qed.

Lemma digitsVal_nonneg ds :
  allSat isDigit ds = true -> (0 <= digitsVal 0%Z ds)%Z.
Proof.
  intros Hd. destruct (digits_uint ds Hd) as (u & <-).
  rewrite digitsVal_uint. unfold Z.of_uint. lia.
Qed.

(** [appendInt] writes a digit string back from its value and its
    length. *)
Lemma appendInt_digits ds :
  allSat isDigit ds = true -> ds <> "" ->
  appendInt (digitsVal 0%Z ds) (String.length ds) = ds.
Proof.
  intros Hd Hn. unfold appendInt.
  pose proof (digitsVal_nonneg ds Hd) as H0.
  destruct (Z.ltb_spec (digitsVal 0%Z ds) 0); [lia|].
  apply zeroPad_FormatInt; assumption.
Qed.

Local Open Scope Z_scope.

(** *** The calendar *)

(** The year of the era from the day of the era, for the days of a year
    that starts in March: 365 of them, 366 when the civil year that
    follows is a leap year. *)
Lemma yearOfEra_days yoe doy :
  0 <= yoe < 400 -> 0 <= doy <= 365 ->
  (doy = 365 ->
   (yoe + 1) mod 4 = 0
   /\ ((yoe + 1) mod 100 <> 0 \/ (yoe + 1) mod 400 = 0)) ->
  let doe := yoe * 365 + yoe / 4 - yoe / 100 + doy in
  (doe - doe / 1460 + doe / 36524 - doe / 146096) / 365 = yoe
  /\ 0 <= doe < 146097.
Proof.
  intros Hy Hd Hl doe. subst doe. Z.div_mod_to_equations. lia.
Qed.

(** The month and the day from the day of such a year. *)
Lemma monthOfYear_days mp d :
  0 <= mp <= 11 -> 1 <= d <= 31 ->
  (mp = 1 \/ mp = 3 \/ mp = 6 \/ mp = 8 -> d <= 30) ->
  (mp = 11 -> d <= 29) ->
  let doy := (153 * mp + 2) / 5 + d - 1 in
  (5 * doy + 2) / 153 = mp /\ 0 <= doy <= 365 /\ (doy = 365 -> mp = 11 /\ d = 29).
Proof.
  intros Hm Hd H30 H29 doy. subst doy.
  assert (mp = 0 \/ mp = 1 \/ mp = 2 \/ mp = 3 \/ mp = 4 \/ mp = 5 \/ mp = 6
          \/ mp = 7 \/ mp = 8 \/ mp = 9 \/ mp = 10 \/ mp = 11) as Hc by lia.
  repeat (destruct Hc as [->|Hc]); try subst mp;
    cbn; Z.div_mod_to_equations; lia.
Qed.

(** Every valid date converts to days and back. *)
Lemma civil_round_trip y m d :
  1 <= m <= 12 -> 1 <= d <= daysIn m y ->
  civilFromDays (daysFromCivil y m d) = (y, m, d).
Proof.
  intros Hm Hd. unfold daysFromCivil, civilFromDays. cbv zeta.
  set (y' := if m <=? 2 then y - 1 else y).
  set (mp := if 2 <? m then m - 3 else m + 9).
  set (era := y' / 400). set (yoe := y' - era * 400).
  set (doy := (153 * mp + 2) / 5 + d - 1).
  set (doe := yoe * 365 + yoe / 4 - yoe / 100 + doy).
  assert (0 <= yoe < 400) as Hyoe
    by (subst yoe era; Z.div_mod_to_equations; lia).
  assert (0 <= mp <= 11 /\ m = (if mp <? 10 then mp + 3 else mp - 9)
          /\ ((m <=? 2) = negb (mp <? 10))) as (Hmp & Hmm & Hle).
  { subst mp. destruct (Z.ltb_spec 2 m).
    - destruct (Z.ltb_spec (m - 3) 10); destruct (Z.leb_spec m 2);
        cbn [negb]; repeat split; lia.
    - destruct (Z.ltb_spec (m + 9) 10); destruct (Z.leb_spec m 2);
        cbn [negb]; repeat split; lia. }
  assert (1 <= d <= 31 /\ (mp = 1 \/ mp = 3 \/ mp = 6 \/ mp = 8 -> d <= 30)
          /\ (mp = 11 -> d <= 29 /\ (d = 29 -> isLeap y = true)))
    as (Hd31 & Hd30 & Hd29).
  { unfold daysIn in Hd. subst mp.
    destruct (Z.eqb_spec m 2) as [E2|E2].
    - destruct (isLeap y); destruct (Z.ltb_spec 2 m); repeat split; try lia;
        intros; try reflexivity; lia.
    - destruct (Z.eqb_spec m 4), (Z.eqb_spec m 6), (Z.eqb_spec m 9),
        (Z.eqb_spec m 11); cbn [orb] in Hd;
        destruct (Z.ltb_spec 2 m); repeat split; try lia. }
  destruct (monthOfYear_days mp d Hmp Hd31 Hd30 ltac:(intros E; apply Hd29, E))
    as (Hmp' & Hdoy & Hdoy365). fold doy in Hmp', Hdoy, Hdoy365.
  assert (doy = 365 ->
          (yoe + 1) mod 4 = 0
          /\ ((yoe + 1) mod 100 <> 0 \/ (yoe + 1) mod 400 = 0)) as Hleap.
  { intros E. destruct (Hdoy365 E) as [E11 E29].
    destruct (Hd29 E11) as [_ Hl]. specialize (Hl E29).
    unfold isLeap in Hl. apply andb_prop in Hl as [H4 H100].
    apply Z.eqb_eq in H4.
    assert (m = 2) as E2 by (rewrite Hmm, E11; reflexivity).
    assert (y' = y - 1) as Ey by (subst y'; rewrite E2; reflexivity).
    assert (yoe + 1 = y - era * 400) as Eyoe by (subst yoe; lia).
    rewrite Eyoe.
    apply orb_prop in H100. split.
    - revert H4. clear. Z.div_mod_to_equations. lia.
    - destruct H100 as [H|H].
      + left. apply negb_true_iff, Z.eqb_neq in H. revert H. clear.
        Z.div_mod_to_equations. lia.
      + right. apply Z.eqb_eq in H. revert H. clear.
        Z.div_mod_to_equations. lia. }
  destruct (yearOfEra_days yoe doy Hyoe Hdoy Hleap) as [Hy Hdoe].
  fold doe in Hy, Hdoe.
  replace (era * 146097 + doe - 719468 + 719468) with (doe + era * 146097)
    by ring.
  rewrite Z.div_add by lia. rewrite (Z.div_small doe) by lia.
  replace (doe + era * 146097 - (0 + era) * 146097) with doe by ring.
  rewrite Hy.
  replace (doe - (365 * yoe + yoe / 4 - yoe / 100)) with doy
    by (subst doe; ring).
  rewrite Hmp', <- Hmm.
  replace (doy - (153 * mp + 2) / 5 + 1) with d by (subst doy; ring).
  do 2 f_equal.
  subst yoe y'. destruct (m <=? 2); ring.
Qed.

Local Close Scope Z_scope.

Local Open Scope Z_scope.

(** The UTC rendering of the instant of a valid date and time of day. *)
Lemma time_Format_fields y m d hh mi ss nsec :
  1 <= m <= 12 -> 1 <= d <= daysIn m y ->
  0 <= hh < 24 -> 0 <= mi < 60 -> 0 <= ss < 60 ->
  time_Format_UTC_RFC3339Nano
    (mkTime (daysFromCivil y m d * 86400 + hh * 3600 + mi * 60 + ss - 0) nsec)
  = appendInt y 4 +:+ "-" +:+ appendInt m 2 +:+ "-" +:+ appendInt d 2 +:+ "T"
    +:+ appendInt hh 2 +:+ ":" +:+ appendInt mi 2 +:+ ":" +:+ appendInt ss 2
    +:+ formatNano nsec +:+ "Z".
Proof.
  intros Hm Hd Hh Hmi Hs. unfold time_Format_UTC_RFC3339Nano.
  cbn [unixSec nanosec].
  set (days := daysFromCivil y m d).
  set (tod := hh * 3600 + mi * 60 + ss).
  replace (days * 86400 + hh * 3600 + mi * 60 + ss - 0)
    with (tod + days * 86400) by (subst tod; ring).
  assert (0 <= tod < 86400) as Ht by (subst tod; lia).
  rewrite Z.div_add, Z.mod_add by lia.
  rewrite (Z.div_small tod), (Z.mod_small tod) by lia.
  replace (0 + days) with days by ring.
  subst days. rewrite (civil_round_trip y m d Hm Hd).
  replace (tod / 3600) with hh
    by (subst tod; Z.div_mod_to_equations; lia).
  replace ((tod / 60) mod 60) with mi
    by (subst tod; Z.div_mod_to_equations; lia).
  replace (tod mod 60) with ss
    by (subst tod; Z.div_mod_to_equations; lia).
  reflexivity.
Qed.

Local Close Scope Z_scope.

Local Open Scope Z_scope.

(** *** What the steps of [time.Parse] read is what [appendInt]
    writes *)

Lemma parseYear_text s y r :
  parseYear s = Some (y, r) -> s = appendInt y 4 +:+ r.
Proof.
  unfold parseYear.
  destruct s as [|a [|b [|c [|d s]]]]; try discriminate.
  destruct (isDigit a) eqn:Ha; [|discriminate].
  destruct (isDigit b) eqn:Hb; [|discriminate].
  destruct (isDigit c) eqn:Hc; [|discriminate].
  destruct (isDigit d) eqn:Hd; [|discriminate].
  cbn [andb]. intros [= <- <-].
  assert (allSat isDigit (String a (String b (String c (str1 d)))) = true)
    as Hds by (cbn [allSat str1]; rewrite Ha, Hb, Hc, Hd; reflexivity).
  pose proof (appendInt_digits _ Hds ltac:(discriminate)) as E.
  cbn [digitsVal String.length str1] in E. rewrite E. reflexivity.
Qed.

Lemma digitVal_range c : isDigit c = true -> 0 <= digitVal c <= 9.
Proof.
  unfold isDigit, digitVal. intros H. apply andb_prop in H as [H1 H2].
  apply N.leb_le in H1, H2. lia.
Qed.

Lemma getnum_fixed_text s n r :
  getnum s true = Some (n, r) ->
  s = appendInt n 2 +:+ r /\ 0 <= n <= 99.
Proof.
  unfold getnum. destruct s as [|a [|b s]]; try discriminate.
  - destruct (isDigit a); discriminate.
  - destruct (isDigit a) eqn:Ha; [|discriminate].
    destruct (isDigit b) eqn:Hb; [|discriminate].
    intros [= <- <-].
    pose proof (digitVal_range a Ha). pose proof (digitVal_range b Hb).
    split; [|lia].
    replace (digitVal a * 10 + digitVal b)
      with (digitsVal 0 (String a (str1 b)))
      by (cbn [digitsVal str1]; ring).
    change 2%nat with (String.length (String a (str1 b))).
    rewrite appendInt_digits; [reflexivity| |discriminate].
    cbn [allSat str1]. rewrite Ha, Hb. reflexivity.
Qed.

Lemma getnum_fixed_lenient s x :
  getnum s true = Some x -> getnum s false = Some x.
Proof.
  unfold getnum. destruct s as [|a [|b s]]; try discriminate.
  - destruct (isDigit a); discriminate.
  - destruct (isDigit a); [|discriminate]. destruct (isDigit b); auto.
    discriminate.
Qed.

(** The hour of the layout is [15]: one digit is read as well as two. *)
Lemma getnum_lenient_cases s n r :
  getnum s false = Some (n, r) ->
  getnum s true = Some (n, r)
  \/ exists h, s = String h r /\ isDigit h = true /\ n = digitVal h
               /\ headSat isDigit r = false.
Proof.
  unfold getnum. destruct s as [|a [|b s]]; try discriminate.
  - destruct (isDigit a) eqn:Ha; [|discriminate]. intros [= <- <-].
    right. exists a. auto.
  - destruct (isDigit a) eqn:Ha; [|discriminate].
    destruct (isDigit b) eqn:Hb; [left; assumption|].
    intros [= <- <-]. right. exists a. cbn [headSat]. auto.
Qed.

Lemma appendInt_one_digit h :
  isDigit h = true -> appendInt (digitVal h) 2 = String "0" (str1 h).
Proof.
  intros Hh.
  replace (digitVal h) with (digitsVal 0 (String "0" (str1 h)))
    by (cbn [digitsVal str1]; change (digitVal "0") with 0; ring).
  change 2%nat with (String.length (String "0" (str1 h))).
  apply appendInt_digits; [|discriminate].
  cbn [allSat str1]. rewrite Hh. reflexivity.
Qed.

Lemma skipByte_text b s r : skipByte b s = Some r -> s = String (chr b) r.
Proof.
  unfold skipByte. destruct s as [|c s]; [discriminate|].
  destruct (N.eqb_spec (byte c) b) as [<-|]; [|discriminate].
  intros [= <-]. rewrite chr_byte. reflexivity.
Qed.

Local Close Scope Z_scope.

Local Open Scope Z_scope.

(** *** The fraction of a second *)

Lemma scale10_pow k z : scale10 k z = z * 10 ^ Z.of_nat k.
Proof.
  revert z. induction k as [|k IH]; intros z; cbn [scale10].
  - change (Z.of_nat 0) with 0. rewrite Z.pow_0_r. ring.
  - rewrite IH, Nat2Z.inj_succ, Z.pow_succ_r by lia. ring.
Qed.

Lemma digitsVal_app acc a b :
  digitsVal acc (a +:+ b) = digitsVal (digitsVal acc a) b.
Proof.
  revert acc. induction a as [|c a IH]; intros acc;
    [rewrite append_nil_l; reflexivity|].
  rewrite append_cons. cbn [digitsVal]. apply IH.
Qed.

Lemma digitsVal_zeros acc j : digitsVal acc (zeros j) = acc * 10 ^ Z.of_nat j.
Proof.
  revert acc. induction j as [|j IH]; intros acc; cbn [zeros digitsVal].
  - change (Z.of_nat 0) with 0. rewrite Z.pow_0_r. ring.
  - rewrite IH, Nat2Z.inj_succ, Z.pow_succ_r by lia.
    change (digitVal "0") with 0. ring.
Qed.

Lemma stripZeros_zeros s : exists j, s = stripZeros s +:+ zeros j.
Proof.
  induction s as [|c s (j & IH)]; [exists 0%nat; reflexivity|].
  cbn [stripZeros]. destruct (stripZeros s) as [|c' s'] eqn:E.
  - rewrite append_nil_l in IH.
    destruct (N.eqb_spec (byte c) 48) as [Hc|Hc].
    + exists (S j). rewrite append_nil_l. cbn [zeros]. rewrite <- IH.
      f_equal. rewrite <- (chr_byte c), Hc. reflexivity.
    + exists j. unfold str1. rewrite append_cons, append_nil_l, <- IH.
      reflexivity.
  - exists j. rewrite append_cons, <- IH. reflexivity.
Qed.

Lemma stripZeros_ends s : stripZeros s <> "" -> endsNonZero (stripZeros s) = true.
Proof.
  induction s as [|c s IH]; [intros H; contradiction|].
  cbn [stripZeros]. destruct (stripZeros s) as [|c' s'] eqn:E.
  - destruct (N.eqb_spec (byte c) 48) as [Hc|Hc]; [intros H; contradiction|].
    intros _. cbn [endsNonZero str1]. apply negb_true_iff, N.eqb_neq, Hc.
  - intros _. cbn [endsNonZero]. apply IH. discriminate.
Qed.

Lemma endsNonZero_strip s : endsNonZero s = true -> stripZeros s = s.
Proof.
  induction s as [|c s IH]; [discriminate|].
  cbn [endsNonZero stripZeros]. destruct s as [|c' s'].
  - cbn [stripZeros]. intros H. apply negb_true_iff in H. rewrite H.
    reflexivity.
  - intros H. rewrite (IH H). reflexivity.
Qed.

Lemma digitVal_nonzero c :
  isDigit c = true -> (byte c =? 48)%N = false -> 1 <= digitVal c <= 9.
Proof.
  unfold isDigit, digitVal. intros H Hn. apply andb_prop in H as [H1 H2].
  apply N.leb_le in H1, H2. apply N.eqb_neq in Hn. lia.
Qed.

Lemma digitsVal_ends s :
  allSat isDigit s = true -> endsNonZero s = true ->
  forall acc, digitsVal acc s mod 10 <> 0.
Proof.
  induction s as [|c s IH]; [discriminate|].
  cbn [allSat endsNonZero digitsVal]. intros Hd He acc.
  apply andb_prop in Hd as [Hc Hd].
  destruct s as [|c' s'].
  - cbn [digitsVal]. apply negb_true_iff in He.
    pose proof (digitVal_nonzero c Hc He). Z.div_mod_to_equations. lia.
  - apply (IH Hd He).
Qed.

Lemma trimZeros_pow D k :
  D mod 10 <> 0 ->
  forall f w, (k <= f)%nat ->
  trimZeros f (D * 10 ^ Z.of_nat k) w = (D, (w - k)%nat).
Proof.
  intros HD. induction k as [|k IH]; intros f w Hk.
  - change (Z.of_nat 0) with 0. rewrite Z.pow_0_r, Z.mul_1_r, Nat.sub_0_r.
    destruct f as [|f]; cbn [trimZeros]; [reflexivity|].
    destruct (Z.eqb_spec (D mod 10) 0); [contradiction|reflexivity].
  - destruct f as [|f]; [lia|]. cbn [trimZeros].
    rewrite Nat2Z.inj_succ, Z.pow_succ_r by lia.
    replace (D * (10 * 10 ^ Z.of_nat k)) with ((D * 10 ^ Z.of_nat k) * 10)
      by ring.
    rewrite Z.mod_mul, Z.div_mul by lia. cbn [Z.eqb].
    rewrite IH by lia. f_equal. lia.
Qed.

Lemma length_takeStr n s :
  String.length (takeStr n s) = Nat.min n (String.length s).
Proof.
  revert s. induction n as [|n IH]; intros [|c s]; cbn [takeStr String.length];
    try reflexivity. rewrite IH. reflexivity.
Qed.

Lemma takeStr_all n s : (String.length s <= n)%nat -> takeStr n s = s.
Proof.
  revert s. induction n as [|n IH]; intros [|c s]; cbn [takeStr String.length];
    try reflexivity; try lia.
  intros H. rewrite IH by lia. reflexivity.
Qed.

Lemma allSat_takeStr p n s : allSat p s = true -> allSat p (takeStr n s) = true.
Proof.
  revert s. induction n as [|n IH]; intros [|c s]; cbn [takeStr allSat];
    try reflexivity.
  intros H. apply andb_prop in H as [-> H]. exact (IH _ H).
Qed.

(** The fraction that [formatNano] writes for the nanoseconds of a digit
    string: its first nine digits without their trailing zeros. *)
Lemma formatNano_nanosOf ds :
  allSat isDigit ds = true ->
  formatNano (nanosOf ds)
  = match stripZeros (takeStr 9 ds) with
    | "" => ""
    | s => String "." s
    end.
Proof.
  intros Hds. unfold nanosOf.
  pose proof (allSat_takeStr _ 9 _ Hds) as Hd9.
  pose proof (length_takeStr 9 ds) as Hl9.
  set (s9 := takeStr 9 ds) in *.
  destruct (stripZeros_zeros s9) as (j & Hj).
  assert (allSat isDigit (stripZeros s9) = true) as Hdc.
  { rewrite Hj, allSat_append in Hd9. apply andb_prop in Hd9 as [H _].
    exact H. }
  assert (String.length s9 = String.length (stripZeros s9) + j)%nat as Hlen.
  { rewrite Hj at 1. rewrite length_append, length_zeros. reflexivity. }
  rewrite scale10_pow.
  replace (digitsVal 0 s9) with (digitsVal 0 (stripZeros s9 +:+ zeros j))
    by (rewrite <- Hj; reflexivity).
  rewrite digitsVal_app, digitsVal_zeros.
  set (D := digitsVal 0 (stripZeros s9)).
  rewrite <- Z.mul_assoc, <- Z.pow_add_r by lia.
  replace (Z.of_nat j + Z.of_nat (9 - String.length s9))
    with (Z.of_nat (9 - String.length (stripZeros s9))) by lia.
  destruct (stripZeros s9) as [|c s'] eqn:Es.
  { subst D. cbn [digitsVal]. rewrite Z.mul_0_l. reflexivity. }
  assert (D mod 10 <> 0) as HD.
  { subst D. apply digitsVal_ends; [exact Hdc|].
    rewrite <- Es. apply stripZeros_ends. rewrite Es. discriminate. }
  unfold formatNano.
  assert (0 < 10 ^ Z.of_nat (9 - String.length (String c s'))) as Hpow
    by (apply Z.pow_pos_nonneg; lia).
  destruct (Z.eqb_spec (D * 10 ^ Z.of_nat (9 - String.length (String c s'))) 0)
    as [E0|_].
  { exfalso. apply HD. apply Z.mul_eq_0 in E0 as [->|E0]; [reflexivity|lia]. }
  rewrite (trimZeros_pow D _ HD) by lia.
  replace (9 - (9 - String.length (String c s')))%nat
    with (String.length (String c s')) by lia.
  subst D. rewrite zeroPad_FormatInt; [reflexivity|exact Hdc|discriminate].
Qed.

Lemma stripZeros_length s : (String.length (stripZeros s) <= String.length s)%nat.
Proof.
  destruct (stripZeros_zeros s) as (j & Hj). rewrite Hj at 2.
  rewrite length_append. lia.
Qed.

(** The fraction is written back as it was read exactly when it has at
    most nine digits and does not end with a zero. *)
Lemma formatNano_same ds :
  allSat isDigit ds = true ->
  (formatNano (nanosOf ds) = String "." ds
   <-> (String.length ds <= 9)%nat /\ endsNonZero ds = true).
Proof.
  intros Hds. rewrite (formatNano_nanosOf ds Hds). split.
  - destruct (stripZeros (takeStr 9 ds)) as [|c s'] eqn:Es; [discriminate|].
    intros [= E]. pose proof (stripZeros_length (takeStr 9 ds)) as Hl.
    rewrite Es, E, length_takeStr in Hl.
    assert (String.length ds <= 9)%nat as Hl9 by lia.
    split; [exact Hl9|]. rewrite (takeStr_all 9 ds Hl9) in Es.
    rewrite <- E, <- Es. apply stripZeros_ends. rewrite Es. discriminate.
  - intros [Hl He]. rewrite (takeStr_all 9 ds Hl), (endsNonZero_strip ds He).
    destruct ds; [discriminate|reflexivity].
Qed.

Lemma parseFrac_fraction p ds r :
  commaOrPeriod p = true -> allSat isDigit ds = true -> ds <> "" ->
  headSat isDigit r = false ->
  parseFrac (String p (ds +:+ r)) = (nanosOf ds, r).
Proof.
  intros Hp Hds Hn Hr. destruct ds as [|d0 ds]; [contradiction|].
  rewrite append_cons. unfold parseFrac. rewrite Hp.
  cbn [allSat] in Hds. apply andb_prop in Hds as [Hd0 Hds].
  rewrite Hd0. cbn [andb].
  assert (allSat isDigit (String d0 ds) = true) as Hall
    by (cbn [allSat]; rewrite Hd0, Hds; reflexivity).
  pose proof (spanDigits_complete (String d0 ds) r Hall Hr) as E.
  rewrite append_cons in E. rewrite E. reflexivity.
Qed.

Lemma parseFrac_cases s nsec r :
  parseFrac s = (nsec, r) ->
  (nsec = 0 /\ r = s)
  \/ exists p ds,
       s = String p (ds +:+ r) /\ commaOrPeriod p = true
       /\ allSat isDigit ds = true /\ ds <> ""
       /\ headSat isDigit r = false /\ nsec = nanosOf ds.
Proof.
  unfold parseFrac. destruct s as [|p [|d0 s]]; try (intros [= <- <-]; auto).
  destruct (commaOrPeriod p && isDigit d0) eqn:E; [|intros [= <- <-]; auto].
  apply andb_prop in E as [Hp Hd0].
  destruct (spanDigits (String d0 s)) as [ds r'] eqn:Hs.
  intros [= <- <-]. right.
  destruct (spanDigits_sound _ _ _ Hs) as (Htext & Hds & Hr).
  exists p, ds. rewrite Htext. repeat split; auto.
  intros ->. rewrite append_nil_l in Htext. subst r'.
  cbn [headSat] in Hr. congruence.
Qed.

Lemma append_inv_tail (a b c : string) : a +:+ c = b +:+ c -> a = b.
Proof.
  intros H. apply (f_equal revStr) in H. rewrite !revStr_append in H.
  apply append_inv_head in H. apply (f_equal revStr) in H.
  rewrite !revStr_revStr in H. exact H.
Qed.

(** The tail of a canonical timestamp is read by [parseFrac] and
    [parseZone], and written back by [formatNano]. *)
Lemma canonicalTail_parse v :
  canonicalTail v = true ->
  exists nsec, parseFrac v = (nsec, "Z") /\ formatNano nsec +:+ "Z" = v.
Proof.
  unfold canonicalTail. destruct (String.eqb_spec v "Z") as [->|Hne].
  { intros _. exists 0. split; reflexivity. }
  destruct v as [|p r]; [discriminate|].
  destruct (spanDigits r) as [ds r'] eqn:Hs. intros H.
  apply andb_prop in H as [H Hz]. apply andb_prop in H as [H He].
  apply andb_prop in H as [Hp Hl]. apply String.eqb_eq in Hz. subst r'.
  apply N.eqb_eq in Hp. apply Nat.leb_le in Hl.
  destruct (spanDigits_sound _ _ _ Hs) as (-> & Hds & _).
  assert (p = "."%char) as -> by (rewrite <- (chr_byte p), Hp; reflexivity).
  exists (nanosOf ds). split.
  - apply parseFrac_fraction; try assumption; try reflexivity.
    intros ->. discriminate.
  - destruct (formatNano_same ds Hds) as [_ ->]; [|auto].
    rewrite append_cons. reflexivity.
Qed.

Lemma canonicalTail_format w nsec :
  parseFrac w = (nsec, "Z") -> formatNano nsec +:+ "Z" = w ->
  canonicalTail w = true.
Proof.
  intros Hp Hf. apply parseFrac_cases in Hp as [[_ <-]|Hp]; [reflexivity|].
  destruct Hp as (p & ds & -> & Hsep & Hds & Hn & _ & ->).
  rewrite (formatNano_nanosOf ds Hds) in Hf.
  destruct (stripZeros (takeStr 9 ds)) as [|c s'] eqn:Es.
  { rewrite append_nil_l in Hf. injection Hf as _ Hf.
    destruct ds; [contradiction|]. rewrite append_cons in Hf. discriminate. }
  rewrite append_cons in Hf. injection Hf as <- Hf.
  apply append_inv_tail in Hf.
  assert (formatNano (nanosOf ds) = String "." ds) as Hsame
    by (rewrite (formatNano_nanosOf ds Hds), Es, Hf; reflexivity).
  apply (formatNano_same ds Hds) in Hsame as [Hl He].
  unfold canonicalTail.
  destruct (String.eqb_spec (String "." (ds +:+ "Z")) "Z") as [E|_];
    [reflexivity|].
  rewrite (spanDigits_complete ds "Z" Hds eq_refl), He.
  apply Nat.leb_le in Hl. rewrite Hl. reflexivity.
Qed.

Local Close Scope Z_scope.

Local Open Scope Z_scope.

(** *** Accepted timestamps *)

Lemma endsWith_refl s : endsWith s s.
Proof. exists "". rewrite append_nil_l. reflexivity. Qed.

Lemma endsWith_trans a b c : endsWith a b -> endsWith b c -> endsWith a c.
Proof.
  intros (x & ->) (y & ->). exists (x +:+ y). rewrite append_assoc.
  reflexivity.
Qed.

Lemma endsWith_cons c s : endsWith (String c s) s.
Proof. exists (str1 c). unfold str1. rewrite append_cons, append_nil_l. reflexivity. Qed.

Lemma parseYear_endsWith s y r : parseYear s = Some (y, r) -> endsWith s r.
Proof. intros H. exists (appendInt y 4). exact (parseYear_text _ _ _ H). Qed.

Lemma skipByte_endsWith b s r : skipByte b s = Some r -> endsWith s r.
Proof. intros H. rewrite (skipByte_text _ _ _ H). apply endsWith_cons. Qed.

Lemma getnum_endsWith s f n r : getnum s f = Some (n, r) -> endsWith s r.
Proof.
  destruct f.
  - intros H. exists (appendInt n 2). exact (proj1 (getnum_fixed_text _ _ _ H)).
  - intros H. apply getnum_lenient_cases in H as [H|(h & -> & _)].
    + exists (appendInt n 2). exact (proj1 (getnum_fixed_text _ _ _ H)).
    + apply endsWith_cons.
Qed.

Lemma parseFrac_endsWith s nsec r : parseFrac s = (nsec, r) -> endsWith s r.
Proof.
  intros H. apply parseFrac_cases in H as [[_ ->]|(p & ds & -> & _)].
  - apply endsWith_refl.
  - exists (String p ds). rewrite append_cons. reflexivity.
Qed.

(** The zone of the layout is [Z07:00]: the letter, or an offset, which
    ends with a digit. *)
Lemma parseZone_cases v off :
  parseZone v = Some (off, "") ->
  (v = "Z" /\ off = 0)
  \/ exists x d, v = x +:+ str1 d /\ isDigit d = true.
Proof.
  unfold parseZone. destruct v as [|z r]; [discriminate|].
  destruct (N.eqb_spec (byte z) 90) as [Hz|_].
  { intros [= <- ->]. left. split; [|reflexivity].
    rewrite <- (chr_byte z), Hz. reflexivity. }
  destruct r as [|h1 [|h2 [|co [|m1 [|m2 r]]]]]; try discriminate.
  destruct (byte co =? 58)%N; [|discriminate].
  destruct (getnum (String h1 (str1 h2)) true) as [[hr ?]|]; [|discriminate].
  destruct (getnum (String m1 (str1 m2)) true) as [[mm ?]|] eqn:Em;
    [|discriminate].
  assert (isDigit m2 = true) as Hm2.
  { unfold getnum, str1 in Em. destruct (isDigit m1); [|discriminate].
    destruct (isDigit m2); [reflexivity|discriminate]. }
  destruct ((24 <? hr) || (60 <? mm)); [discriminate|].
  intros H. right.
  exists (String z (String h1 (String h2 (String co (str1 m1))))), m2.
  split; [|exact Hm2].
  assert (r = "") as ->.
  { destruct (byte z =? 43)%N; [injection H as _ H; exact H|].
    destruct (byte z =? 45)%N; [injection H as _ H; exact H|discriminate]. }
  reflexivity.
Qed.

Lemma append_last_inv a b (c d : ascii) :
  a +:+ str1 c = b +:+ str1 d -> c = d.
Proof.
  intros H. apply (f_equal revStr) in H. rewrite !revStr_append in H.
  unfold str1 in H. cbn in H. rewrite !append_cons, !append_nil_l in H.
  congruence.
Qed.

Ltac next_step E :=
  rewrite E; cbv beta iota.

Ltac in_range :=
  repeat match goal with
         | H : (_ <=? _) = true |- _ => apply Z.leb_le in H
         | H : (_ <=? _) = false |- _ => apply Z.leb_gt in H
         | H : (_ <? _) = true |- _ => apply Z.ltb_lt in H
         | H : (_ <? _) = false |- _ => apply Z.ltb_ge in H
         | H : (_ || _) = false |- _ => apply orb_false_elim in H as [? ?]
         | H : (_ && _) = true |- _ => apply andb_prop in H as [? ?]
         end.

(** A timestamp of the strict form is parsed, and the UTC rendering of
    its instant is the timestamp itself. *)
Lemma canonicalTimestamp_accepted ts :
  canonicalTimestamp ts = true -> timestampCanonical ts = true.
Proof.
  unfold canonicalTimestamp, canonicalFields.
  destruct (parseYear ts) as [[year v1]|] eqn:E1; [|discriminate].
  destruct (skipByte 45 v1) as [v2|] eqn:E2; [|discriminate].
  destruct (getnum v2 true) as [[month v3]|] eqn:E3; [|discriminate].
  destruct (skipByte 45 v3) as [v4|] eqn:E4; [|discriminate].
  destruct (getnum v4 true) as [[day v5]|] eqn:E5; [|discriminate].
  destruct (skipByte 84 v5) as [v6|] eqn:E6; [|discriminate].
  destruct (getnum v6 true) as [[hour v7]|] eqn:E7; [|discriminate].
  destruct (skipByte 58 v7) as [v8|] eqn:E8; [|discriminate].
  destruct (getnum v8 true) as [[min v9]|] eqn:E9; [|discriminate].
  destruct (skipByte 58 v9) as [v10|] eqn:E10; [|discriminate].
  destruct (getnum v10 true) as [[sec v11]|] eqn:E11; [|discriminate].
  intros H. in_range.
  destruct (canonicalTail_parse v11 ltac:(assumption)) as (nsec & Hfrac & Htext).
  destruct (getnum_fixed_text _ _ _ E3) as [T3 R3].
  destruct (getnum_fixed_text _ _ _ E5) as [T5 R5].
  destruct (getnum_fixed_text _ _ _ E7) as [T7 R7].
  destruct (getnum_fixed_text _ _ _ E9) as [T9 R9].
  destruct (getnum_fixed_text _ _ _ E11) as [T11 R11].
  unfold timestampCanonical, time_Parse_RFC3339Nano.
  next_step E1. next_step E2. next_step E3.
  destruct (Z.leb_spec month 0); [lia|]. destruct (Z.ltb_spec 12 month); [lia|].
  cbn [orb]. next_step E4. next_step E5. next_step E6.
  next_step (getnum_fixed_lenient _ _ E7).
  destruct (Z.leb_spec 24 hour); [lia|]. next_step E8. next_step E9.
  destruct (Z.leb_spec 60 min); [lia|]. next_step E10. next_step E11.
  destruct (Z.leb_spec 60 sec); [lia|]. next_step Hfrac.
  change (parseZone "Z") with (Some (0, "")). cbv beta iota.
  destruct (Z.ltb_spec day 1); [lia|].
  destruct (Z.ltb_spec (daysIn month year) day); [lia|]. cbn [orb].
  apply String.eqb_eq.
  rewrite time_Format_fields by lia.
  rewrite (parseYear_text _ _ _ E1), (skipByte_text _ _ _ E2), T3,
    (skipByte_text _ _ _ E4), T5, (skipByte_text _ _ _ E6), T7,
    (skipByte_text _ _ _ E8), T9, (skipByte_text _ _ _ E10), T11, <- Htext.
  reflexivity.
Qed.

Local Close Scope Z_scope.

Local Open Scope Z_scope.

Lemma isDigit_Z : isDigit "Z" = false.
Proof. reflexivity. Qed.

Lemma getnum_nonneg s f n r : getnum s f = Some (n, r) -> 0 <= n.
Proof.
  destruct f; intros H.
  - apply getnum_fixed_text in H. lia.
  - apply getnum_lenient_cases in H as [H|(h & _ & Hh & -> & _)].
    + apply getnum_fixed_text in H. lia.
    + apply digitVal_range in Hh. lia.
Qed.

(** A timestamp that is parsed, and that is the UTC rendering of its own
    instant, has the strict form. *)
Lemma canonicalTimestamp_of_accepted ts :
  timestampCanonical ts = true -> canonicalTimestamp ts = true.
Proof.
  unfold timestampCanonical.
  destruct (time_Parse_RFC3339Nano ts) as [t|] eqn:Hparse; [|discriminate].
  intros Hf. apply String.eqb_eq in Hf.
  revert Hparse. unfold time_Parse_RFC3339Nano.
  destruct (parseYear ts) as [[year v1]|] eqn:E1; [|discriminate].
  cbv beta iota.
  destruct (skipByte 45 v1) as [v2|] eqn:E2; [|discriminate].
  destruct (getnum v2 true) as [[month v3]|] eqn:E3; [|discriminate].
  cbv beta iota.
  destruct ((month <=? 0) || (12 <? month)) eqn:Rm; [discriminate|].
  destruct (skipByte 45 v3) as [v4|] eqn:E4; [|discriminate].
  destruct (getnum v4 true) as [[day v5]|] eqn:E5; [|discriminate].
  cbv beta iota.
  destruct (skipByte 84 v5) as [v6|] eqn:E6; [|discriminate].
  destruct (getnum v6 false) as [[hour v7]|] eqn:E7; [|discriminate].
  cbv beta iota.
  destruct (24 <=? hour) eqn:Rh; [discriminate|].
  destruct (skipByte 58 v7) as [v8|] eqn:E8; [|discriminate].
  destruct (getnum v8 true) as [[min v9]|] eqn:E9; [|discriminate].
  cbv beta iota.
  destruct (60 <=? min) eqn:Rmi; [discriminate|].
  destruct (skipByte 58 v9) as [v10|] eqn:E10; [|discriminate].
  destruct (getnum v10 true) as [[sec v11]|] eqn:E11; [|discriminate].
  cbv beta iota.
  destruct (60 <=? sec) eqn:Rs; [discriminate|].
  destruct (parseFrac v11) as [nsec v12] eqn:Ef.
  destruct (parseZone v12) as [[offset v13]|] eqn:Ez; [|discriminate].
  cbv beta iota.
  destruct v13 as [|? ?]; [|discriminate].
  destruct ((day <? 1) || (daysIn month year <? day)) eqn:Rd; [discriminate|].
  intros [= <-].
  destruct (getnum_fixed_text _ _ _ E3) as [T3 R3].
  destruct (getnum_fixed_text _ _ _ E5) as [T5 R5].
  destruct (getnum_fixed_text _ _ _ E9) as [T9 R9].
  destruct (getnum_fixed_text _ _ _ E11) as [T11 R11].
  pose proof (getnum_nonneg _ _ _ _ E7) as R7'.
  in_range.
  destruct (parseZone_cases _ _ Ez) as [[-> ->]|(x & d & Hv & Hd)].
  2: { (* an offset: the rendering ends with Z, the timestamp with a digit *)
    exfalso.
    assert (endsWith ts v12) as (b & Hts).
    { eapply endsWith_trans; [exact (parseYear_endsWith _ _ _ E1)|].
      eapply endsWith_trans; [exact (skipByte_endsWith _ _ _ E2)|].
      eapply endsWith_trans; [exact (getnum_endsWith _ _ _ _ E3)|].
      eapply endsWith_trans; [exact (skipByte_endsWith _ _ _ E4)|].
      eapply endsWith_trans; [exact (getnum_endsWith _ _ _ _ E5)|].
      eapply endsWith_trans; [exact (skipByte_endsWith _ _ _ E6)|].
      eapply endsWith_trans; [exact (getnum_endsWith _ _ _ _ E7)|].
      eapply endsWith_trans; [exact (skipByte_endsWith _ _ _ E8)|].
      eapply endsWith_trans; [exact (getnum_endsWith _ _ _ _ E9)|].
      eapply endsWith_trans; [exact (skipByte_endsWith _ _ _ E10)|].
      eapply endsWith_trans; [exact (getnum_endsWith _ _ _ _ E11)|].
      exact (parseFrac_endsWith _ _ _ Ef). }
    destruct (time_Format_UTC_RFC3339Nano_Z
                (mkTime (daysFromCivil year month day * 86400 + hour * 3600
                         + min * 60 + sec - offset) nsec)) as (pre & Hpre).
    rewrite Hpre, Hts, Hv, <- append_assoc in Hf.
    apply (append_last_inv pre (b +:+ x) "Z" d) in Hf.
    subst d. discriminate Hd. }
  rewrite time_Format_fields in Hf.
  2-6: try lia.
  rewrite (parseYear_text _ _ _ E1), (skipByte_text _ _ _ E2), T3,
    (skipByte_text _ _ _ E4), T5, (skipByte_text _ _ _ E6) in Hf.
  apply append_inv_head in Hf. norm_app in Hf.
  change (chr 45) with "-"%char in Hf. change (chr 84) with "T"%char in Hf.
  injection Hf as Hf. apply append_inv_head in Hf.
  injection Hf as Hf. apply append_inv_head in Hf.
  injection Hf as Hf.
  apply getnum_lenient_cases in E7 as [E7|(h & -> & Hh & -> & _)].
  2: { (* an hour of one digit is rendered with two *)
    exfalso. rewrite (appendInt_one_digit h Hh) in Hf.
    rewrite (skipByte_text _ _ _ E8) in Hf. norm_app in Hf.
    change (chr 58) with ":"%char in Hf.
    injection Hf as Hf1 Hf2 _. subst h. discriminate Hf2. }
  destruct (getnum_fixed_text _ _ _ E7) as [T7 R7].
  rewrite T7, (skipByte_text _ _ _ E8), T9, (skipByte_text _ _ _ E10), T11
    in Hf.
  apply append_inv_head in Hf. norm_app in Hf.
  change (chr 58) with ":"%char in Hf.
  injection Hf as Hf. apply append_inv_head in Hf.
  injection Hf as Hf. apply append_inv_head in Hf.
  unfold canonicalTimestamp, canonicalFields.
  next_step E1. next_step E2. next_step E3. next_step E4. next_step E5.
  next_step E6. next_step E7. next_step E8. next_step E9. next_step E10.
  next_step E11.
  rewrite (canonicalTail_format v11 nsec Ef Hf).
  repeat match goal with
         | |- context [(?a <=? ?b)] =>
             destruct (Z.leb_spec a b); [|lia]
         end.
  reflexivity.
Qed.

(** The timestamp check of [validateEvent] accepts the strict form and
    nothing else. *)
Lemma timestampCanonical_canonicalTimestamp ts :
  timestampCanonical ts = canonicalTimestamp ts.
Proof.
  destruct (timestampCanonical ts) eqn:H1, (canonicalTimestamp ts) eqn:H2;
    try reflexivity.
  - rewrite (canonicalTimestamp_of_accepted ts H1) in H2. discriminate.
  - rewrite (canonicalTimestamp_accepted ts H2) in H1. discriminate.
Qed.

Local Close Scope Z_scope.

(** For an event that reaches the timestamp check, the two timestamp
    errors are the answer exactly when the check fails. *)
Lemma timestamp_errors line event :
  decodesTo line event -> passesEarlyChecks event = true ->
  (DecodeNDJSONLine line
   = (None, Some (errors_New "timestamp must be RFC3339Nano"))
   \/ DecodeNDJSONLine line
      = (None, Some (errors_New "timestamp must be UTC (Z)")))
  <-> timestampCanonical (Timestamp event) = false.
Proof.
  intros Hd He. rewrite (DecodeNDJSONLine_decodesTo _ _ Hd).
  unfold outcome. rewrite (validateEvent_early _ He).
  unfold timestampCanonical.
  destruct (time_Parse_RFC3339Nano (Timestamp event)) as [t|];
    [|split; auto].
  destruct (String.eqb (time_Format_UTC_RFC3339Nano t) (Timestamp event));
    cbn [negb]; [|split; auto].
  split; [|discriminate]. intros [H|H]; exfalso; revert H;
    unfold substructureError; split_branches; discriminate.
Qed.

Lemma Value_nonempty d raw sh : Value d raw sh -> raw <> "".
Proof.
  intros V ->. apply Value_parseDocument, parseDocument_nonblank in V.
  discriminate V.
Qed.

Lemma setEventField_payload key v e e' :
  v <> "" -> lenBytes (Payload (eventOf e)) <> 0%nat \/ key = "payload" ->
  setEventField key v e = inr e' -> lenBytes (Payload (eventOf e')) <> 0%nat.
Proof.
  intros Hv Hk.
  destruct e as [[[sv id ts st pr sa rq ht cm dd pf pl tr ho] trs] ars].
  unfold eventOf in *. cbn [Payload fst] in Hk.
  assert (lenBytes (Some v) <> 0%nat) as Hlen.
  { destruct v; [contradiction|cbn; lia]. }
  destruct Hk as [Hk| ->].
  - unfold setEventField. event_field_cases;
      try (intros H; apply bindR_inr in H as (x & _ & [= <-]); exact Hk);
      try (intros [= <-]; exact Hk).
    intros [= <-]. exact Hlen.
  - unfold setEventField.
    change (findField Event_names "payload") with (Some 11%nat).
    intros [= <-]. exact Hlen.
Qed.

Lemma decodeMembers_payload d ms :
  Forall (memberOK d) ms ->
  forall e e',
    lenBytes (Payload (eventOf e)) <> 0%nat \/ hasKey ms "payload" = true ->
    decodeMembers setEventField ms e = inr e' ->
    lenBytes (Payload (eventOf e')) <> 0%nat.
Proof.
  induction 1 as [|[k v] ms [_ (sh & V)] _ IH]; intros e e' Hk;
    cbn [decodeMembers].
  - intros [= <-]. destruct Hk as [Hk|Hk]; [exact Hk|discriminate Hk].
  - cbn [hasKey] in Hk. cbn [snd] in V.
    destruct (unquote k) as [key|]; [|discriminate].
    intros H. apply bindR_inr in H as (e1 & H1 & H2).
    apply (IH e1 e'); [|exact H2].
    destruct Hk as [Hk|Hk].
    + left. exact (setEventField_payload _ _ _ _ (Value_nonempty _ _ _ V)
                     (or_introl Hk) H1).
    + apply orb_prop in Hk as [Hk|Hk]; [|right; exact Hk].
      left. apply String.eqb_eq in Hk.
      exact (setEventField_payload _ _ _ _ (Value_nonempty _ _ _ V)
               (or_intror Hk) H1).
Qed.

(** A line that reaches [validateEvent] is an object that passed
    [validateRequiredKeys], decoded member by member. *)
Lemma decodesTo_object line e :
  decodesTo line e ->
  exists ms raw0,
    parseDocument (strings_TrimSpace line) = Some (VObject ms, raw0)
    /\ presenceError ms = None
    /\ exists m, decodeMembers setEventField ms zeroEventMem = inr m
                 /\ eventOf m = e.
Proof.
  intros (raw & _ & Hraw & Hkeys & Hev).
  unfold json_Unmarshal_RawMap in Hraw.
  destruct (parseDocument (strings_TrimSpace line)) as [[sh raw0]|] eqn:Hp;
    [|discriminate].
  destruct sh as [| | | | |ms]; try discriminate.
  { injection Hraw as <-. discriminate Hkeys. }
  exists ms, raw0. split; [reflexivity|].
  destruct (json_Unmarshal_RawMap_object _ _ _ Hp) as (raw' & Hraw' & Hlook).
  unfold json_Unmarshal_RawMap in Hraw'. rewrite Hp in Hraw'.
  assert (raw' = raw) as -> by congruence.
  rewrite <- (validateRequiredKeys_presenceError raw _ ms
                (Value_members _ _ _ (parseDocument_Value _ _ _ Hp)) Hlook).
  split; [exact Hkeys|].
  rewrite (json_Unmarshal_Event_members _ _ _ Hp) in Hev.
  apply bindR_inr in Hev as (m & Hm & [= <-]). exists m. auto.
Qed.

Lemma presenceError_hasKey ms key :
  presenceError ms = None -> In key requiredEventKeys -> hasKey ms key = true.
Proof.
  unfold presenceError, firstAbsentKey. intros H Hin.
  destruct (List.find _ requiredEventKeys) eqn:Hf; [discriminate|].
  exact (find_absent_None _ _ Hf Hin).
Qed.

(** *** [unquote] gives valid UTF-8 *)

Lemma byte_chr n : (n < 256)%N -> byte (chr n) = n.
Proof. apply N_ascii_embedding. Qed.

Lemma inRange_intro lo hi c : (lo <= byte c <= hi)%N -> inRange lo hi c = true.
Proof.
  intros H. unfold inRange. apply andb_true_intro.
  split; apply N.leb_le; lia.
Qed.

Lemma inRange_below lo hi c : (hi < byte c)%N -> inRange lo hi c = false.
Proof.
  intros H. unfold inRange. apply andb_false_iff. right. apply N.leb_gt. lia.
Qed.

Lemma utf8_ValidString_low c r :
  (byte c < 128)%N -> utf8_ValidString (String c r) = utf8_ValidString r.
Proof.
  intros H. cbn [utf8_ValidString]. apply N.ltb_lt in H. rewrite H.
  reflexivity.
Qed.

Lemma utf8_ValidString_2 c0 c1 r :
  (194 <= byte c0 <= 223)%N -> (128 <= byte c1 <= 191)%N ->
  utf8_ValidString (String c0 (String c1 r)) = utf8_ValidString r.
Proof.
  intros H0 H1. cbn [utf8_ValidString]. unfold utf8_DecodeRune.
  replace (byte c0 <? 128)%N with false by (symmetry; apply N.ltb_ge; lia).
  rewrite (inRange_intro 194 223 c0 H0).
  replace (isCont c1) with true by (symmetry; apply inRange_intro; lia).
  reflexivity.
Qed.

Lemma utf8_ValidString_3 c0 c1 c2 r :
  (224 <= byte c0 <= 239)%N -> (128 <= byte c1 <= 191)%N ->
  (byte c0 = 224 -> 160 <= byte c1)%N -> (byte c0 = 237 -> byte c1 <= 159)%N ->
  (128 <= byte c2 <= 191)%N ->
  utf8_ValidString (String c0 (String c1 (String c2 r))) = utf8_ValidString r.
Proof.
  intros H0 H1 Hlo Hhi H2. cbn [utf8_ValidString]. unfold utf8_DecodeRune.
  replace (byte c0 <? 128)%N with false by (symmetry; apply N.ltb_ge; lia).
  rewrite (inRange_below 194 223 c0) by lia.
  rewrite (inRange_intro 224 239 c0 H0).
  replace (isCont c2) with true by (symmetry; apply inRange_intro; lia).
  rewrite inRange_intro; [reflexivity|].
  destruct (N.eqb_spec (byte c0) 224), (N.eqb_spec (byte c0) 237); lia.
Qed.

Lemma utf8_ValidString_4 c0 c1 c2 c3 r :
  (240 <= byte c0 <= 244)%N -> (128 <= byte c1 <= 191)%N ->
  (byte c0 = 240 -> 144 <= byte c1)%N -> (byte c0 = 244 -> byte c1 <= 143)%N ->
  (128 <= byte c2 <= 191)%N -> (128 <= byte c3 <= 191)%N ->
  utf8_ValidString (String c0 (String c1 (String c2 (String c3 r))))
  = utf8_ValidString r.
Proof.
  intros H0 H1 Hlo Hhi H2 H3. cbn [utf8_ValidString]. unfold utf8_DecodeRune.
  replace (byte c0 <? 128)%N with false by (symmetry; apply N.ltb_ge; lia).
  rewrite (inRange_below 194 223 c0) by lia.
  rewrite (inRange_below 224 239 c0) by lia.
  rewrite (inRange_intro 240 244 c0 H0).
  replace (isCont c2) with true by (symmetry; apply inRange_intro; lia).
  replace (isCont c3) with true by (symmetry; apply inRange_intro; lia).
  rewrite inRange_intro; [reflexivity|].
  destruct (N.eqb_spec (byte c0) 240), (N.eqb_spec (byte c0) 244); lia.
Qed.

Ltac N_div_lia := zify; Z.to_euclidean_division_equations; lia.

(** What [utf8.EncodeRune] writes is valid UTF-8, whatever the rune. *)
Lemma utf8_ValidString_encoded x r :
  utf8_ValidString (utf8_EncodeRune x +:+ r) = utf8_ValidString r.
Proof.
  unfold utf8_EncodeRune.
  set (y := if (MaxRune <? x)%N || isSurrogate x then RuneError else x).
  assert (y <= 1114111 /\ ~ (55296 <= y < 57344))%N as [Hmax Hsur].
  { subst y. unfold MaxRune, isSurrogate, RuneError.
    destruct (N.ltb_spec 1114111 x); cbn [orb]; [lia|].
    destruct (N.leb_spec 55296 x), (N.ltb_spec x 57344); cbn [andb]; lia. }
  clearbody y. unfold str1.
  destruct (N.ltb_spec y 128).
  { rewrite append_cons, append_nil_l. apply utf8_ValidString_low.
    rewrite byte_chr; lia. }
  destruct (N.ltb_spec y 2048).
  { rewrite !append_cons, append_nil_l.
    apply utf8_ValidString_2; rewrite ?byte_chr by N_div_lia; N_div_lia. }
  destruct (N.ltb_spec y 65536).
  { rewrite !append_cons, append_nil_l.
    apply utf8_ValidString_3; rewrite ?byte_chr by N_div_lia; N_div_lia. }
  rewrite !append_cons, append_nil_l.
  apply utf8_ValidString_4; rewrite ?byte_chr by N_div_lia; N_div_lia.
Qed.

Lemma afterRune_length size r :
  (String.length (afterRune size r) <= String.length r)%nat.
Proof.
  destruct size as [|[|[|[|[|size]]]]]; destruct r as [|a [|b [|c r]]];
    cbn [afterRune String.length]; lia.
Qed.

Lemma unquote_u_short r1 :
  (String.length r1 < 4)%nat ->
  unquote (String (chr 92) (String "u" r1)) = None.
Proof.
  destruct r1 as [|h1 [|h2 [|h3 [|h4 r]]]]; try reflexivity.
  cbn [String.length]. lia.
Qed.

Lemma unquote_other_escape e r1 :
  ((byte e =? 34) || (byte e =? 92) || (byte e =? 47) || (byte e =? 39))%N
  = false ->
  (byte e =? 98)%N = false -> (byte e =? 102)%N = false ->
  (byte e =? 110)%N = false -> (byte e =? 114)%N = false ->
  (byte e =? 116)%N = false -> (byte e =? 117)%N = false ->
  unquote (String (chr 92) (String e r1)) = None.
Proof.
  intros H1 H2 H3 H4 H5 H6 H7. cbn [unquote]. eval_bytes.
  rewrite H1, H2, H3, H4, H5, H6, H7. reflexivity.
Qed.

Lemma option_map_Some_inv {A B} (f : A -> B) o b :
  option_map f o = Some b -> exists a, o = Some a /\ b = f a.
Proof. destruct o as [a|]; [|discriminate]. intros [= <-]. eauto. Qed.

(** The text of a string literal, unquoted, is valid UTF-8: bytes that
    are not are replaced by the encoding of U+FFFD, and so are the
    escapes of lone surrogates. *)
Lemma unquote_valid_aux n :
  forall s u, (String.length s < n)%nat -> unquote s = Some u ->
              utf8_ValidString u = true.
Proof.
  induction n as [|n IH]; intros s u Hn Hu; [lia|].
  destruct s as [|c r]; [injection Hu as <-; reflexivity|].
  cbn [String.length] in Hn.
  destruct (N.eqb_spec (byte c) 92) as [Hc|Hc].
  { apply chr_eq in Hc. subst c.
    destruct r as [|e r1]; [discriminate Hu|]. cbn [String.length] in Hn.
    rewrite unquote_escape2_eq in Hu. cbv zeta in Hu.
    destruct ((byte e =? 34) || (byte e =? 92) || (byte e =? 47)
              || (byte e =? 39))%N eqn:T1.
    { apply option_map_Some_inv in Hu as (u' & Hu' & ->).
      rewrite utf8_ValidString_low; [apply (IH r1); [lia|exact Hu']|].
      repeat (apply orb_prop in T1 as [T1|T1]); apply N.eqb_eq in T1; lia. }
    destruct (byte e =? 98)%N eqn:T2.
    { apply option_map_Some_inv in Hu as (u' & Hu' & ->).
      rewrite utf8_ValidString_low; [apply (IH r1); [lia|exact Hu']|].
      rewrite byte_chr; lia. }
    destruct (byte e =? 102)%N eqn:T3.
    { apply option_map_Some_inv in Hu as (u' & Hu' & ->).
      rewrite utf8_ValidString_low; [apply (IH r1); [lia|exact Hu']|].
      rewrite byte_chr; lia. }
    destruct (byte e =? 110)%N eqn:T4.
    { apply option_map_Some_inv in Hu as (u' & Hu' & ->).
      rewrite utf8_ValidString_low; [apply (IH r1); [lia|exact Hu']|].
      rewrite byte_chr; lia. }
    destruct (byte e =? 114)%N eqn:T5.
    { apply option_map_Some_inv in Hu as (u' & Hu' & ->).
      rewrite utf8_ValidString_low; [apply (IH r1); [lia|exact Hu']|].
      rewrite byte_chr; lia. }
    destruct (byte e =? 116)%N eqn:T6.
    { apply option_map_Some_inv in Hu as (u' & Hu' & ->).
      rewrite utf8_ValidString_low; [apply (IH r1); [lia|exact Hu']|].
      rewrite byte_chr; lia. }
    destruct (byte e =? 117)%N eqn:T7.
    2: { rewrite unquote_other_escape in Hu by assumption. discriminate. }
    apply N.eqb_eq, chr_eq in T7. subst e.
    change (chr 117) with "u"%char in Hu.
    destruct r1 as [|h1 [|h2 [|h3 [|h4 b]]]];
      try (rewrite unquote_u_short in Hu by (cbn; lia); discriminate).
    cbn [String.length] in Hn.
    rewrite unquote_u4_eq in Hu.
    destruct (getu4 h1 h2 h3 h4) as [rr|]; [|discriminate].
    destruct (isSurrogate rr).
    - cbv zeta in Hu.
      destruct (utf16_DecodeRune rr _ =? RuneError)%N.
      + apply option_map_Some_inv in Hu as (u' & Hu' & ->).
        change (String.append ?a ?b) with (a +:+ b).
        rewrite utf8_ValidString_encoded. apply (IH b); [lia|exact Hu'].
      + destruct b as [|? [|? [|? [|? [|? [|? r3]]]]]]; try discriminate.
        cbn [String.length] in Hn.
        apply option_map_Some_inv in Hu as (u' & Hu' & ->).
        change (String.append ?a ?b) with (a +:+ b).
        rewrite utf8_ValidString_encoded. apply (IH r3); [lia|exact Hu'].
    - apply option_map_Some_inv in Hu as (u' & Hu' & ->).
      change (String.append ?a ?b) with (a +:+ b).
      rewrite utf8_ValidString_encoded. apply (IH b); [lia|exact Hu']. }
  apply N.eqb_neq in Hc.
  destruct ((byte c =? 34) || (byte c <? 32))%N eqn:T34.
  { exfalso. revert Hu. cbn [unquote]. cbv zeta. rewrite Hc, T34.
    discriminate. }
  destruct (byte c <? 128)%N eqn:T128.
  - apply orb_false_elim in T34 as [T34 T32].
    rewrite (unquote_plain _ _ Hc T34 T32 T128) in Hu.
    apply option_map_Some_inv in Hu as (u' & Hu' & ->).
    rewrite utf8_ValidString_low by (apply N.ltb_lt; exact T128).
    apply (IH r); [lia|exact Hu'].
  - rewrite (unquote_high _ _ Hc T34 T128) in Hu.
    apply option_map_Some_inv in Hu as (u' & Hu' & ->).
    change (String.append ?a ?b) with (a +:+ b).
    rewrite utf8_ValidString_encoded.
    apply (IH (afterRune (snd (utf8_DecodeRune (String c r))) r));
      [|exact Hu'].
    pose proof (afterRune_length (snd (utf8_DecodeRune (String c r))) r). lia.
Qed.

Lemma unquote_valid s u : unquote s = Some u -> utf8_ValidString u = true.
Proof. apply (unquote_valid_aux (S (String.length s))). lia. Qed.

(** *** The strings of a decoded event *)

Lemma decodeString_valid raw cur x :
  utf8_ValidString cur = true -> decodeString raw cur = inr x ->
  utf8_ValidString x = true.
Proof.
  intros Hc. unfold decodeString.
  destruct (shapeOf raw) as [[]|]; try discriminate.
  - intros [= <-]. exact Hc.
  - destruct (unquote content) as [s|] eqn:Hu; [|discriminate].
    intros [= <-]. exact (unquote_valid _ _ Hu).
Qed.

Lemma decodePtr_holds {A} (P : A -> bool) (zero : A) dec raw cur x :
  P zero = true ->
  (forall r c y, P c = true -> dec r c = inr y -> P y = true) ->
  keepsOption P cur = true -> decodePtr zero dec raw cur = inr x ->
  keepsOption P x = true.
Proof.
  intros Hz Hdec Hc. unfold decodePtr.
  assert (P (match cur with Some a => a | None => zero end) = true) as Ha
    by (destruct cur; assumption).
  destruct (shapeOf raw) as [[]|]; try (intros [= <-]; reflexivity);
    intros H; apply bindR_inr in H as (a & H & [= <-]);
    exact (Hdec _ _ _ Ha H).
Qed.

Lemma forallb_drop {A} (P : A -> bool) n l :
  forallb P l = true -> forallb P (drop n l) = true.
Proof.
  revert l. induction n as [|n IH]; intros [|a l]; cbn [drop forallb]; auto.
  intros H. apply andb_prop in H as [_ H]. exact (IH _ H).
Qed.

Lemma decodeElems_holds {A} (P : A -> bool) (zero : A) dec es cells l :
  P zero = true ->
  (forall r c y, P c = true -> dec r c = inr y -> P y = true) ->
  forallb P cells = true ->
  decodeElems zero dec es cells = inr l -> forallb P l = true.
Proof.
  intros Hz Hdec. revert cells l.
  induction es as [|e es IH]; intros cells l Hc; cbn [decodeElems].
  - intros [= <-]. reflexivity.
  - intros H. apply bindR_inr in H as (a & Ha & H).
    apply bindR_inr in H as (l' & Hl & [= <-]). cbn [forallb].
    assert (P (hd zero cells) = true /\ forallb P (tl cells) = true)
      as [Hh Ht].
    { destruct cells as [|c cells]; [auto|].
      cbn [forallb] in Hc. apply andb_prop in Hc. exact Hc. }
    rewrite (Hdec _ _ _ Hh Ha), (IH _ _ Ht Hl). reflexivity.
Qed.

Lemma decodeSlice_holds {A} (P : A -> bool) (zero : A) dec raw cur x :
  P zero = true ->
  (forall r c y, P c = true -> dec r c = inr y -> P y = true) ->
  cellsHold P cur = true ->
  decodeSlice zero dec raw cur = inr x -> cellsHold P x = true.
Proof.
  intros Hz Hdec Hc. unfold decodeSlice.
  assert (forallb P (match fst cur with Some l => l | None => [] end
                     ++ snd cur) = true) as Hcells.
  { unfold cellsHold in Hc. apply andb_prop in Hc as [H1 H2].
    rewrite forallb_app, H2, andb_true_r.
    destruct (fst cur); [exact H1|reflexivity]. }
  destruct (shapeOf raw) as [[| | | |[|e es]|]|]; try discriminate.
  - intros [= <-]. reflexivity.
  - intros [= <-]. reflexivity.
  - intros H. apply bindR_inr in H as (l & Hl & [= <-]).
    unfold cellsHold. cbn [fst snd].
    rewrite (decodeElems_holds P zero dec _ _ _ Hz Hdec Hcells Hl).
    apply forallb_drop. exact Hcells.
Qed.

Lemma decodeStruct_holds {T} (P : T -> bool)
    (setField : string -> string -> T -> result T) raw cur x :
  (forall key v c y, P c = true -> setField key v c = inr y -> P y = true) ->
  P cur = true -> decodeStruct setField raw cur = inr x -> P x = true.
Proof.
  intros Hset Hc. unfold decodeStruct.
  destruct (shapeOf raw) as [[]|]; try discriminate.
  - intros [= <-]. exact Hc.
  - apply (decodeMembers_preserves setField (fun _ => True)
             (fun c => P c = true) members); [|apply Forall_True|exact Hc].
    intros k key v c c' _. apply Hset.
Qed.

Ltac valid_field :=
  intros H; apply bindR_inr in H as (x & Hx & [= <-]);
  cbn [HTTPMeta_Method HTTPMeta_Scheme HTTPMeta_Host HTTPMeta_Path
       HTTPMeta_Query HTTPMeta_ClientIP HTTPMeta_UserAgent
       CommandMeta_Name CommandMeta_Args CommandMeta_Cwd
       TraceFrame_File TraceFrame_Func HostMeta_Hostname
       ID Timestamp SourceType ProjectRoot PHPSAPI RequestID HTTP Command
       PayloadFormat Trace Host];
  try (apply decodeString_valid in Hx; [|assumption]);
  repeat (apply andb_true_intro; split); try assumption.

Ltac split_valid H :=
  repeat match type of H with
         | (_ && _) = true => let H' := fresh "K" in apply andb_prop in H as [H H']
         end.

Lemma setHTTPMetaField_valid key v h h' :
  utf8HTTPMeta h = true -> setHTTPMetaField key v h = inr h' ->
  utf8HTTPMeta h' = true.
Proof.
  destruct h as [me sc ho pa qu st ci ua]. unfold utf8HTTPMeta.
  cbn [HTTPMeta_Method HTTPMeta_Scheme HTTPMeta_Host HTTPMeta_Path
       HTTPMeta_Query HTTPMeta_ClientIP HTTPMeta_UserAgent].
  intros K. split_valid K. unfold setHTTPMetaField.
  destruct (findField HTTPMeta_names key) as [[|[|[|[|[|[|[|[|?]]]]]]]]|];
    try (intros [= <-]; cbn; repeat (apply andb_true_intro; split);
         assumption);
    valid_field.
Qed.

Lemma setCommandMetaField_valid key v c c' :
  utf8CommandMetaMem c = true -> setCommandMetaField key v c = inr c' ->
  utf8CommandMetaMem c' = true.
Proof.
  destruct c as [[na ar cw] rest]. unfold utf8CommandMetaMem, utf8CommandMeta.
  cbn [CommandMeta_Name CommandMeta_Args CommandMeta_Cwd fst snd].
  intros K. split_valid K. unfold setCommandMetaField.
  destruct (findField CommandMeta_names key) as [[|[|[|?]]]|];
    try (intros [= <-]; cbn [CommandMeta_Name CommandMeta_Args CommandMeta_Cwd
                             fst snd];
         repeat (apply andb_true_intro; split); assumption);
    intros H; apply bindR_inr in H as (x & Hx & [= <-]);
    cbn [CommandMeta_Name CommandMeta_Args CommandMeta_Cwd fst snd];
    try (apply decodeString_valid in Hx; [|assumption];
         repeat (apply andb_true_intro; split); assumption).
  apply (decodeSlice_holds utf8_ValidString "" decodeString v (ar, rest) x
           eq_refl) in Hx.
  - unfold cellsHold in Hx. apply andb_prop in Hx as [Hx1 Hx2].
    unfold utf8Strings. destruct (fst x);
      repeat (apply andb_true_intro; split); assumption.
  - intros r c y. apply decodeString_valid.
  - unfold cellsHold. cbn [fst snd]. apply andb_true_intro. split; assumption.
Qed.

Lemma setTraceFrameField_valid key v f f' :
  utf8TraceFrame f = true -> setTraceFrameField key v f = inr f' ->
  utf8TraceFrame f' = true.
Proof.
  destruct f as [fi li fu]. unfold utf8TraceFrame.
  cbn [TraceFrame_File TraceFrame_Func].
  intros K. split_valid K. unfold setTraceFrameField.
  destruct (findField TraceFrame_names key) as [[|[|[|?]]]|];
    try (intros [= <-]; cbn; repeat (apply andb_true_intro; split);
         assumption);
    valid_field.
Qed.

Lemma setHostMetaField_valid key v h h' :
  utf8HostMeta h = true -> setHostMetaField key v h = inr h' ->
  utf8HostMeta h' = true.
Proof.
  destruct h as [hn pid]. unfold utf8HostMeta. cbn [HostMeta_Hostname].
  intros K. unfold setHostMetaField.
  destruct (findField HostMeta_names key) as [[|[|?]]|];
    try (intros [= <-]; exact K);
    intros H; apply bindR_inr in H as (x & Hx & [= <-]);
    cbn [HostMeta_Hostname]; [|exact K].
  exact (decodeString_valid _ _ _ K Hx).
Qed.

Ltac conj_true :=
  solve [repeat first [assumption | reflexivity | apply andb_true_intro; split]].

Ltac event_valid :=
  unfold utf8EventMem, utf8Event, eventOf;
  cbn [ID Timestamp SourceType ProjectRoot PHPSAPI RequestID HTTP Command
       PayloadFormat Trace Host fst snd].

Lemma setEventField_valid key v e e' :
  utf8EventMem e = true -> setEventField key v e = inr e' ->
  utf8EventMem e' = true.
Proof.
  destruct e as [[[sv id ts st pr sa rq ht cm dd pf pl tr ho] trs] ars].
  event_valid. intros K. split_valid K. unfold setEventField.
  event_field_cases;
    try (intros [= <-]; event_valid; conj_true);
    intros H; apply bindR_inr in H as (x & Hx & [= <-]); event_valid;
    try (apply decodeString_valid in Hx; [|assumption];
         conj_true);
    try (conj_true).
  - apply (decodePtr_holds utf8_ValidString "" decodeString v rq x eq_refl)
      in Hx; [|intros r c y; apply decodeString_valid|assumption].
    conj_true.
  - apply (decodePtr_holds utf8HTTPMeta zeroHTTPMeta
             (decodeStruct setHTTPMetaField) v ht x eq_refl) in Hx;
      [| |assumption].
    + conj_true.
    + intros r c y. apply decodeStruct_holds. apply setHTTPMetaField_valid.
  - apply (decodePtr_holds utf8CommandMetaMem (zeroCommandMeta, [])
             (decodeStruct setCommandMetaField) v _ x eq_refl) in Hx.
    + destruct x as [[c rest]|]; cbn [keepsOption option_map fst snd] in *.
      * unfold utf8CommandMetaMem in Hx. cbn [fst snd] in Hx.
        apply andb_prop in Hx as [Hx1 Hx2].
        conj_true.
      * conj_true.
    + intros r c y. apply decodeStruct_holds. apply setCommandMetaField_valid.
    + destruct cm as [c|]; cbn [keepsOption option_map] in *; [|reflexivity].
      unfold utf8CommandMetaMem. cbn [fst snd].
      apply andb_true_intro. split; assumption.
  - apply (decodeSlice_holds utf8TraceFrame zeroTraceFrame
             (decodeStruct setTraceFrameField) v (tr, trs) x eq_refl) in Hx.
    + unfold cellsHold in Hx. apply andb_prop in Hx as [Hx1 Hx2].
      unfold utf8Trace.
      conj_true.
    + intros r c y. apply decodeStruct_holds. apply setTraceFrameField_valid.
    + unfold cellsHold. cbn [fst snd]. apply andb_true_intro.
      split; assumption.
  - apply (decodeStruct_holds utf8HostMeta setHostMetaField v ho x) in Hx;
      [|apply setHostMetaField_valid|assumption].
    conj_true.
Qed.

Lemma json_Unmarshal_Event_valid data e :
  json_Unmarshal_Event data = inr e -> utf8Event e = true.
Proof.
  unfold json_Unmarshal_Event.
  destruct (parseDocument data) as [[sh raw]|]; [|discriminate].
  intros H. apply bindR_inr in H as (m & Hm & [= <-]).
  apply (decodeStruct_holds utf8EventMem setEventField raw zeroEventMem m)
    in Hm; [|apply setEventField_valid|reflexivity].
  unfold utf8EventMem in Hm. apply andb_prop in Hm as [Hm _].
  apply andb_prop in Hm as [Hm _]. exact Hm.
Qed.

Lemma decodesTo_payload line e :
  decodesTo line e -> (lenBytes (Payload e) =? 0)%nat = false.
Proof.
  intros Hd. destruct (decodesTo_object _ _ Hd) as (ms & raw0 & Hp & Hpres & Hdec).
  apply Nat.eqb_neq.
  destruct Hdec as (m & Hdec & <-).
  apply (decodeMembers_payload _ _
           (Value_members _ _ _ (parseDocument_Value _ _ _ Hp)) zeroEventMem m);
    [|exact Hdec].
  right. apply (presenceError_hasKey ms "payload" Hpres). cbn. tauto.
Qed.

Lemma distinctNats_NoDup l : distinctNats l = true -> List.NoDup l.
Proof.
  induction l as [|i l IH]; intros H; [constructor|].
  cbn [distinctNats] in H. apply andb_prop in H as [Hi Hl].
  constructor; [|exact (IH Hl)].
  intros Hin. apply negb_true_iff in Hi.
  assert (existsb (Nat.eqb i) l = true) as E; [|congruence].
  apply existsb_exists. exists i. split; [exact Hin|apply Nat.eqb_refl].
Qed.

Lemma givenFields_fieldsGiven ms : givenFields ms = fieldsGiven Event_names ms.
Proof.
  induction ms as [|[k v] ms IH]; [reflexivity|].
  cbn [givenFields fieldsGiven]. rewrite IH. reflexivity.
Qed.

Lemma fieldsGiven_Permutation names ms1 ms2 :
  Permutation ms1 ms2 ->
  Permutation (fieldsGiven names ms1) (fieldsGiven names ms2).
Proof.
  induction 1 as [|[k v] l l' _ IH|[k1 v1] [k2 v2] l|l l' l'' _ IH1 _ IH2].
  - constructor.
  - cbn [fieldsGiven]. destruct (unquote k) as [key|]; [|exact IH].
    destruct (findField names key); [constructor|]; exact IH.
  - cbn [fieldsGiven].
    destruct (unquote k1) as [key1|], (unquote k2) as [key2|];
      try reflexivity;
      try destruct (findField names key1);
      try destruct (findField names key2);
      try reflexivity.
    apply perm_swap.
  - exact (Permutation_trans IH1 IH2).
Qed.

Lemma fieldsGiven_tail names kv ms :
  List.NoDup (fieldsGiven names (kv :: ms)) -> List.NoDup (fieldsGiven names ms).
Proof.
  destruct kv as [k v]. cbn [fieldsGiven].
  destruct (unquote k) as [key|]; [|tauto].
  destruct (findField names key); [|tauto].
  intros H. inversion H. assumption.
Qed.

(** Two members that select the same field cannot both stand in an
    object whose fields are given once. *)
Lemma fieldsGiven_head names k1 v1 k2 v2 ms key1 key2 i :
  List.NoDup (fieldsGiven names ((k1, v1) :: (k2, v2) :: ms)) ->
  unquote k1 = Some key1 -> unquote k2 = Some key2 ->
  findField names key1 = Some i ->
  findField names key2 <> Some i.
Proof.
  intros H E1 E2 F1 F2. cbn [fieldsGiven] in H.
  rewrite E1, E2, F1, F2 in H. inversion H as [|? ? Hn _]. apply Hn. left.
  reflexivity.
Qed.

Ltac swap_fields H1 H2 :=
  cbn [bindR typeErr] in *;
  repeat (match goal with
          | E : ?r = _ |- context [bindR ?r _] => rewrite E
          | |- context [bindR ?r _] =>
              lazymatch r with
              | bindR _ _ => fail
              | inl _ => fail
              | inr _ => fail
              | _ => let E := fresh "E" in
                     destruct r eqn:E;
                     try rewrite E in H1; try rewrite E in H2
              end
          end; cbn [bindR typeErr] in * );
  subst; try reflexivity.

(** The cases of two keys over the [n] fields of a struct. *)
Tactic Notation "swap_cases" integer(n) ident(i1) ident(i2) hyp(H1) hyp(H2)
    hyp(Hne) :=
  do n (destruct i1 as [|i1];
        [ do n (destruct i2 as [|i2];
                [ try (exfalso; exact (Hne _ eq_refl eq_refl));
                  swap_fields H1 H2 | ]);
          swap_fields H1 H2 | ]);
  do n (destruct i2 as [|i2]; [ swap_fields H1 H2 | ]);
  swap_fields H1 H2.

Tactic Notation "swap_one" integer(n) ident(i) hyp(H1) hyp(H2) :=
  do n (destruct i as [|i]; [ swap_fields H1 H2 | ]); swap_fields H1 H2.

(** Each decoder reads its own field only, and on values all of them
    fail alike. *)
Lemma setEventField_swap : swaps Event_names setEventField.
Proof.
  intros B key1 key2 v1 v2 e K H1 H2 Hne.
  destruct e as [[[sv id ts st pr sa rq ht cm dd pf pl tr ho] trs] ars].
  specialize (H1 (mkEvent sv id ts st pr sa rq ht cm dd pf pl tr ho, trs, ars)).
  specialize (H2 (mkEvent sv id ts st pr sa rq ht cm dd pf pl tr ho, trs, ars)).
  unfold setEventField in *.
  destruct (findField Event_names key1) as [i1|],
    (findField Event_names key2) as [i2|].
  - swap_cases 14 i1 i2 H1 H2 Hne.
  - swap_one 14 i1 H1 H2.
  - swap_one 14 i2 H1 H2.
  - reflexivity.
Qed.

Lemma setHTTPMetaField_swap : swaps HTTPMeta_names setHTTPMetaField.
Proof.
  intros B key1 key2 v1 v2 h K H1 H2 Hne.
  destruct h as [me sc ho pa qu st ci ua].
  specialize (H1 (mkHTTPMeta me sc ho pa qu st ci ua)).
  specialize (H2 (mkHTTPMeta me sc ho pa qu st ci ua)).
  unfold setHTTPMetaField in *.
  destruct (findField HTTPMeta_names key1) as [i1|],
    (findField HTTPMeta_names key2) as [i2|].
  - swap_cases 8 i1 i2 H1 H2 Hne.
  - swap_one 8 i1 H1 H2.
  - swap_one 8 i2 H1 H2.
  - reflexivity.
Qed.

Lemma setCommandMetaField_swap : swaps CommandMeta_names setCommandMetaField.
Proof.
  intros B key1 key2 v1 v2 c K H1 H2 Hne.
  destruct c as [[na ar cw] rest].
  specialize (H1 (mkCommandMeta na ar cw, rest)).
  specialize (H2 (mkCommandMeta na ar cw, rest)).
  unfold setCommandMetaField in *.
  destruct (findField CommandMeta_names key1) as [i1|],
    (findField CommandMeta_names key2) as [i2|].
  - swap_cases 3 i1 i2 H1 H2 Hne.
  - swap_one 3 i1 H1 H2.
  - swap_one 3 i2 H1 H2.
  - reflexivity.
Qed.

Lemma setHostMetaField_swap : swaps HostMeta_names setHostMetaField.
Proof.
  intros B key1 key2 v1 v2 h K H1 H2 Hne.
  destruct h as [hn pid].
  specialize (H1 (mkHostMeta hn pid)). specialize (H2 (mkHostMeta hn pid)).
  unfold setHostMetaField in *.
  destruct (findField HostMeta_names key1) as [i1|],
    (findField HostMeta_names key2) as [i2|].
  - swap_cases 2 i1 i2 H1 H2 Hne.
  - swap_one 2 i1 H1 H2.
  - swap_one 2 i2 H1 H2.
  - reflexivity.
Qed.

(** The typed decode of an object whose members select each field at
    most once does not depend on the order of the members. *)
Lemma decodeMembers_Permutation {T : Type} (names : list string)
    (setField : string -> string -> T -> result T) d ms1 ms2 :
  onMembers setField -> swaps names setField ->
  Permutation ms1 ms2 -> Forall (memberOK d) ms1 ->
  List.NoDup (fieldsGiven names ms1) ->
  forall cur, decodeMembers setField ms1 cur = decodeMembers setField ms2 cur.
Proof.
  intros Hon Hsw.
  induction 1 as [|[k v] l l' Hp IH|[k1 v1] [k2 v2] l|l l' l'' Hp1 IH1 Hp2 IH2];
    intros Hok Hnd cur.
  - reflexivity.
  - cbn [decodeMembers]. destruct (unquote k) as [key|]; [|reflexivity].
    destruct (setField key v cur) as [err|cur']; [reflexivity|].
    cbn [bindR]. apply IH.
    + inversion Hok. assumption.
    + exact (fieldsGiven_tail _ _ _ Hnd).
  - inversion Hok as [|? ? [B1 (sh1 & V1)] Hok']; subst.
    inversion Hok' as [|? ? [B2 (sh2 & V2)] _]; subst. cbn [fst snd] in *.
    destruct (unquote_total _ B1) as (key1 & E1).
    destruct (unquote_total _ B2) as (key2 & E2).
    cbn [decodeMembers]. rewrite E1, E2.
    apply Hsw.
    + intros c. exact (Hon d _ _ _ c V1).
    + intros c. exact (Hon d _ _ _ c V2).
    + intros i F1. exact (fieldsGiven_head _ _ _ _ _ _ _ _ _ Hnd E1 E2 F1).
  - rewrite (IH1 Hok Hnd). apply IH2.
    + exact (Permutation_Forall Hp1 Hok).
    + exact (Permutation.Permutation_NoDup
               (fieldsGiven_Permutation _ _ _ Hp1) Hnd).
Qed.

Lemma lastValue_Permutation names ms1 ms2 key :
  Permutation ms1 ms2 -> List.NoDup (fieldsGiven names ms1) ->
  findField names key <> None ->
  forall acc, lastValue ms1 key acc = lastValue ms2 key acc.
Proof.
  intros Hp Hnd Hkey.
  induction Hp as [|[k v] l l' Hp IH|[k1 v1] [k2 v2] l|l l' l'' Hp1 IH1 Hp2 IH2];
    intros acc.
  - reflexivity.
  - cbn [lastValue]. apply IH. exact (fieldsGiven_tail _ _ _ Hnd).
  - cbn [lastValue]. f_equal.
    destruct (unquote k1) as [key1|] eqn:E1; [|reflexivity].
    destruct (unquote k2) as [key2|] eqn:E2; [|reflexivity].
    destruct (String.eqb_spec key1 key) as [->|N1]; [|reflexivity].
    destruct (String.eqb_spec key2 key) as [->|N2]; [|reflexivity].
    destruct (findField names key) as [i|] eqn:F; [|contradiction].
    exfalso. exact (fieldsGiven_head _ _ _ _ _ _ _ _ _ Hnd E2 E1 F F).
  - rewrite (IH1 Hnd). apply IH2.
    exact (Permutation.Permutation_NoDup
             (fieldsGiven_Permutation _ _ _ Hp1) Hnd).
Qed.

Lemma hasKey_Permutation ms1 ms2 key :
  Permutation ms1 ms2 -> List.NoDup (fieldsGiven Event_names ms1) ->
  findField Event_names key <> None ->
  hasKey ms1 key = hasKey ms2 key.
Proof.
  intros Hp Hnd Hkey.
  pose proof (lastValue_Permutation _ _ _ _ Hp Hnd Hkey None) as E.
  destruct (hasKey ms1 key) eqn:H1, (hasKey ms2 key) eqn:H2; try reflexivity.
  - apply lastValue_None in H2. rewrite <- E in H2.
    apply lastValue_None in H2. congruence.
  - apply lastValue_None in H1. rewrite E in H1.
    apply lastValue_None in H1. congruence.
Qed.

Lemma presenceError_Permutation ms1 ms2 :
  Permutation ms1 ms2 -> List.NoDup (fieldsGiven Event_names ms1) ->
  presenceError ms1 = presenceError ms2.
Proof.
  intros Hp Hnd.
  unfold presenceError, firstAbsentKey, memberShape, memberValue.
  rewrite (find_ext_in _ (fun key => negb (hasKey ms2 key))).
  2: { intros key Hin. f_equal.
       apply (hasKey_Permutation _ _ _ Hp Hnd), requiredEventKeys_named, Hin. }
  rewrite !(lastValue_Permutation Event_names ms1 ms2 _ Hp Hnd) by discriminate.
  reflexivity.
Qed.

(** *** The grammar of RFC 3339 and [time.Parse] *)

Lemma rfc3339Offset_plain v :
  rfc3339Offset true v = true -> rfc3339Offset false v = true.
Proof.
  unfold rfc3339Offset. destruct v as [|z [|h1 v]]; try discriminate.
  - cbn [negb andb]. rewrite orb_false_r. intros ->. reflexivity.
  - auto.
Qed.

Lemma rfc3339Tail_plain v :
  rfc3339Tail true v = true -> rfc3339Tail false v = true.
Proof.
  unfold rfc3339Tail. destruct v as [|p r]; [discriminate|].
  destruct (byte p =? 46)%N; [|apply rfc3339Offset_plain].
  destruct (spanDigits r) as [ds r']. intros H.
  apply andb_prop in H as [H1 H2].
  rewrite H1, (rfc3339Offset_plain _ H2). reflexivity.
Qed.

Lemma skipT_skipByte v r : skipByte 84 v = Some r -> skipT true v = Some r.
Proof.
  unfold skipByte, skipT. destruct v as [|c v]; [discriminate|].
  destruct (byte c =? 84)%N; [auto|discriminate].
Qed.

Lemma skipByte_skipT v r : skipT true v = Some r -> skipByte 84 v = Some r.
Proof.
  unfold skipByte, skipT. destruct v as [|c v]; [discriminate|].
  cbn [negb andb]. rewrite orb_false_r. auto.
Qed.

Lemma skipT_plain v r : skipT true v = Some r -> skipT false v = Some r.
Proof.
  unfold skipT. destruct v as [|c v]; [discriminate|]. cbn [negb andb].
  rewrite orb_false_r. destruct (byte c =? 84)%N; [auto|discriminate].
Qed.

(** A plain date-time is a date-time. *)
Lemma rfc3339Form_plain ts : rfc3339Form true ts = true -> rfc3339 ts = true.
Proof.
  unfold rfc3339, rfc3339Form, rfc3339Fields.
  destruct (parseYear ts) as [[year v0]|]; [|discriminate].
  destruct (skipByte 45 v0) as [v1|]; [|discriminate].
  destruct (getnum v1 true) as [[month v2]|]; [|discriminate].
  destruct (skipByte 45 v2) as [v3|]; [|discriminate].
  destruct (getnum v3 true) as [[day v4]|]; [|discriminate].
  destruct (skipT true v4) as [v5|] eqn:ET; [|discriminate].
  rewrite (skipT_plain _ _ ET).
  destruct (getnum v5 true) as [[hour v6]|]; [|discriminate].
  destruct (skipByte 58 v6) as [v7|]; [|discriminate].
  destruct (getnum v7 true) as [[min v8]|]; [|discriminate].
  destruct (skipByte 58 v8) as [v9|]; [|discriminate].
  destruct (getnum v9 true) as [[sec v10]|]; [|discriminate].
  intros H. apply andb_prop in H as [H Ht]. apply andb_prop in H as [H Hs].
  rewrite H, (rfc3339Tail_plain _ Ht), andb_true_r. cbn [andb].
  apply Z.leb_le. apply Z.leb_le in Hs. lia.
Qed.

Lemma endsNonZero_nonempty ds : endsNonZero ds = true -> ds <> "".
Proof. destruct ds; [discriminate|discriminate]. Qed.

Lemma canonicalTail_rfc3339Tail v :
  canonicalTail v = true -> rfc3339Tail true v = true.
Proof.
  unfold canonicalTail, rfc3339Tail.
  destruct (String.eqb_spec v "Z") as [->|_]; [reflexivity|].
  destruct v as [|p r]; [discriminate|].
  destruct (spanDigits r) as [ds r']. intros K.
  apply andb_prop in K as [K Hz]. apply andb_prop in K as [K He].
  apply andb_prop in K as [Hp _]. rewrite Hp.
  apply String.eqb_eq in Hz. subst r'.
  apply endsNonZero_nonempty in He. destruct ds; [contradiction|reflexivity].
Qed.

(** The strict form that the decoder accepts is a plain date-time. *)
Lemma canonicalTimestamp_rfc3339Form ts :
  canonicalTimestamp ts = true -> rfc3339Form true ts = true.
Proof.
  unfold canonicalTimestamp, canonicalFields, rfc3339Form, rfc3339Fields.
  destruct (parseYear ts) as [[year v0]|]; [|discriminate].
  destruct (skipByte 45 v0) as [v1|]; [|discriminate].
  destruct (getnum v1 true) as [[month v2]|]; [|discriminate].
  destruct (skipByte 45 v2) as [v3|]; [|discriminate].
  destruct (getnum v3 true) as [[day v4]|]; [|discriminate].
  destruct (skipByte 84 v4) as [v5|] eqn:ET; [|discriminate].
  rewrite (skipT_skipByte _ _ ET).
  destruct (getnum v5 true) as [[hour v6]|]; [|discriminate].
  destruct (skipByte 58 v6) as [v7|]; [|discriminate].
  destruct (getnum v7 true) as [[min v8]|]; [|discriminate].
  destruct (skipByte 58 v8) as [v9|]; [|discriminate].
  destruct (getnum v9 true) as [[sec v10]|]; [|discriminate].
  intros H. apply andb_prop in H as [H Ht].
  rewrite H. apply canonicalTail_rfc3339Tail. exact Ht.
Qed.


Lemma parseZone_plain v :
  rfc3339Offset true v = true -> exists off, parseZone v = Some (off, "").
Proof.
  unfold rfc3339Offset, parseZone.
  destruct v as [|z [|h1 [|h2 [|co [|m1 [|m2 [|x v]]]]]]]; try discriminate.
  - cbn [negb andb]. rewrite orb_false_r. intros ->. eauto.
  - intros H. apply andb_prop in H as [H Hn]. apply andb_prop in H as [Hs Hc].
    rewrite Hc.
    destruct (getnum (String h1 (str1 h2)) true) as [[hr ?]|]; [|discriminate].
    destruct (getnum (String m1 (str1 m2)) true) as [[mm ?]|]; [|discriminate].
    apply andb_prop in Hn as [Hh Hm]. apply Z.leb_le in Hh, Hm.
    destruct (Z.ltb_spec 24 hr); [lia|]. destruct (Z.ltb_spec 60 mm); [lia|].
    cbn [orb].
    assert ((byte z =? 90)%N = false) as ->.
    { apply orb_prop in Hs as [Hs|Hs]; apply N.eqb_eq in Hs; rewrite Hs;
        reflexivity. }
    apply orb_prop in Hs as [Hs|Hs].
    + rewrite Hs. eauto.
    + apply N.eqb_eq in Hs. rewrite Hs. cbn. eauto.
Qed.

Lemma parseFrac_offset v :
  rfc3339Offset true v = true -> parseFrac v = (0%Z, v).
Proof.
  unfold rfc3339Offset, parseFrac.
  destruct v as [|z [|h1 v]]; try reflexivity.
  destruct v as [|h2 [|co [|m1 [|m2 [|x v]]]]]; try discriminate.
  intros H. apply andb_prop in H as [H _]. apply andb_prop in H as [Hs _].
  assert (commaOrPeriod z = false) as ->; [|reflexivity].
  unfold commaOrPeriod.
  apply orb_prop in Hs as [Hs|Hs]; apply N.eqb_eq in Hs; rewrite Hs;
    reflexivity.
Qed.

(** What [time.Parse] does after the seconds, on the rest of a plain
    date-time. *)
Lemma parseTail_plain v :
  rfc3339Tail true v = true ->
  exists nsec off v', parseFrac v = (nsec, v') /\ parseZone v' = Some (off, "").
Proof.
  unfold rfc3339Tail. destruct v as [|p r]; [discriminate|].
  destruct (byte p =? 46)%N eqn:Hp.
  - destruct (spanDigits r) as [ds r'] eqn:Hs. intros H.
    apply andb_prop in H as [Hl Ho].
    apply spanDigits_sound in Hs as (-> & Hd & Hh).
    destruct (parseZone_plain _ Ho) as (off & Hz).
    exists (nanosOf ds), off, r'. split; [|exact Hz].
    apply parseFrac_fraction; try assumption.
    + unfold commaOrPeriod. rewrite Hp. reflexivity.
    + intros ->. discriminate Hl.
  - intros Ho. destruct (parseZone_plain _ Ho) as (off & Hz).
    exists 0%Z, off, (String p r). split; [|exact Hz].
    apply parseFrac_offset. exact Ho.
Qed.

Local Open Scope Z_scope.

(** [time.Parse] takes every plain date-time of RFC 3339. *)
Lemma time_Parse_rfc3339 ts :
  rfc3339Form true ts = true -> time_Parse_RFC3339Nano ts <> None.
Proof.
  unfold rfc3339Form, rfc3339Fields, time_Parse_RFC3339Nano.
  destruct (parseYear ts) as [[year v0]|]; [|discriminate].
  destruct (skipByte 45 v0) as [v1|]; [|discriminate].
  destruct (getnum v1 true) as [[month v2]|]; [|discriminate].
  destruct (skipByte 45 v2) as [v3|]; [|discriminate].
  destruct (getnum v3 true) as [[day v4]|]; [|discriminate].
  destruct (skipT true v4) as [v5|] eqn:ET; [|discriminate].
  rewrite (skipByte_skipT _ _ ET).
  destruct (getnum v5 true) as [[hour v6]|] eqn:Eh; [|discriminate].
  rewrite (getnum_fixed_lenient _ _ Eh).
  destruct (skipByte 58 v6) as [v7|]; [|discriminate].
  destruct (getnum v7 true) as [[min v8]|]; [|discriminate].
  destruct (skipByte 58 v8) as [v9|]; [|discriminate].
  destruct (getnum v9 true) as [[sec v10]|]; [|discriminate].
  intros H. apply andb_prop in H as [H Ht]. apply andb_prop in H as [H Hsec].
  apply andb_prop in H as [H Hmin]. apply andb_prop in H as [H Hhour].
  apply andb_prop in H as [H Hday2]. apply andb_prop in H as [H Hday1].
  apply andb_prop in H as [Hm1 Hm2].
  apply Z.leb_le in Hsec, Hmin, Hhour, Hday2, Hday1, Hm1, Hm2.
  destruct (Z.leb_spec month 0); [lia|]. destruct (Z.ltb_spec 12 month); [lia|].
  cbn [orb]. destruct (Z.leb_spec 24 hour); [lia|].
  destruct (Z.leb_spec 60 min); [lia|]. destruct (Z.leb_spec 60 sec); [lia|].
  destruct (parseTail_plain _ Ht) as (nsec & off & v' & -> & ->).
  destruct (Z.ltb_spec day 1); [lia|].
  destruct (Z.ltb_spec (daysIn month year) day); [lia|]. discriminate.
Qed.

Local Close Scope Z_scope.

(** *** The trace of a decoded event *)

Lemma strconv_ParseInt_integerValue raw z :
  shapeOf raw = Some VNumber -> strconv_ParseInt raw = Some z ->
  integerValue raw = Some z.
Proof.
  intros Hs. unfold integerValue. rewrite Hs.
  pose proof (shapeOf_Value _ _ Hs) as V. inversion V as [| | |? ? Hn| | | | |]; subst.
  apply isNumber_head in Hn. unfold strconv_ParseInt.
  destruct raw as [|c r]; [discriminate|]. cbn [headSat] in Hn.
  assert ((byte c =? 43)%N = false) as ->.
  { unfold numHead, isDigit in Hn. apply N.eqb_neq.
    apply orb_prop in Hn as [H|H]; [apply N.eqb_eq in H; lia|].
    apply andb_prop in H as [H1 H2]. apply N.leb_le in H1, H2. lia. }
  destruct (NilZero.int_of_string (String c r)) as [d|]; [|discriminate].
  cbn [option_map andb].
  destruct r; destruct (inInt64 (Z.of_int d)); congruence.
Qed.

Lemma setTraceFrameField_Line key v f f' :
  setTraceFrameField key v f = inr f' ->
  TraceFrame_Line f'
  = match findField TraceFrame_names key with
    | Some 1%nat =>
        match integerValue v with Some z => z | None => TraceFrame_Line f end
    | _ => TraceFrame_Line f
    end.
Proof.
  destruct f as [fi li fu]. unfold setTraceFrameField. cbn [TraceFrame_Line].
  destruct (findField TraceFrame_names key) as [[|[|[|?]]]|];
    try (intros [= <-]; reflexivity);
    intros H; apply bindR_inr in H as (x & Hx & [= <-]); cbn [TraceFrame_Line];
    try reflexivity.
  unfold decodeInt in Hx. destruct (shapeOf v) as [sh|] eqn:Hs; [|discriminate].
  destruct sh; try discriminate.
  - injection Hx as <-. unfold integerValue. rewrite Hs. reflexivity.
  - destruct (strconv_ParseInt v) as [z|] eqn:Hz; [|discriminate].
    injection Hx as <-. rewrite (strconv_ParseInt_integerValue _ _ Hs Hz).
    reflexivity.
Qed.

Lemma decodeMembers_Line ms f f' :
  decodeMembers setTraceFrameField ms f = inr f' ->
  TraceFrame_Line f' = lineOfMembers ms (TraceFrame_Line f).
Proof.
  revert f. induction ms as [|[k v] ms IH]; intros f; cbn [decodeMembers lineOfMembers].
  - intros [= <-]. reflexivity.
  - destruct (unquote k) as [key|]; [|discriminate].
    intros H. apply bindR_inr in H as (f1 & H1 & H2).
    rewrite (IH _ H2), (setTraceFrameField_Line _ _ _ _ H1). reflexivity.
Qed.

Lemma decodeTraceFrame_Line raw f :
  decodeStruct setTraceFrameField raw zeroTraceFrame = inr f ->
  TraceFrame_Line f = lineWritten raw.
Proof.
  unfold decodeStruct, lineWritten.
  destruct (shapeOf raw) as [[]|]; try discriminate.
  - intros [= <-]. reflexivity.
  - apply decodeMembers_Line.
Qed.

Lemma decodeElems_Line es fs :
  decodeElems zeroTraceFrame (decodeStruct setTraceFrameField) es [] = inr fs ->
  map TraceFrame_Line fs = map lineWritten es.
Proof.
  revert fs. induction es as [|e es IH]; intros fs; cbn [decodeElems hd tl].
  - intros [= <-]. reflexivity.
  - intros H. apply bindR_inr in H as (f & Hf & H).
    apply bindR_inr in H as (l & Hl & [= <-]). cbn [map].
    rewrite (decodeTraceFrame_Line _ _ Hf), (IH _ Hl). reflexivity.
Qed.

(** One member stored: the trace and the rest of its backing array
    change only when the key selects [trace]. *)
Lemma setEventField_trace key v m m' :
  setEventField key v m = inr m' ->
  match findField Event_names key with
  | Some 12%nat =>
      decodeSlice zeroTraceFrame (decodeStruct setTraceFrameField) v
        (Trace (eventOf m), snd (fst m))
      = inr (Trace (eventOf m'), snd (fst m'))
  | _ => Trace (eventOf m') = Trace (eventOf m) /\ snd (fst m') = snd (fst m)
  end.
Proof.
  destruct m as [[[sv id ts st pr sa rq ht cm dd pf pl tr ho] trs] ars].
  unfold setEventField, eventOf. cbn [Trace fst snd].
  event_field_cases;
    try (intros [= <-]; split; reflexivity);
    intros H; apply bindR_inr in H as (x & Hx & [= <-]); cbn [Trace fst snd];
    try (split; reflexivity).
  rewrite Hx. destruct x. reflexivity.
Qed.

Lemma decodeMembers_trace ms : forall m m',
  decodeMembers setEventField ms m = inr m' ->
  match fieldValues Event_names 12 ms with
  | [] => Trace (eventOf m') = Trace (eventOf m) /\ snd (fst m') = snd (fst m)
  | [v] =>
      exists x,
        decodeSlice zeroTraceFrame (decodeStruct setTraceFrameField) v
          (Trace (eventOf m), snd (fst m)) = inr x
        /\ Trace (eventOf m') = fst x
  | _ => True
  end.
Proof.
  induction ms as [|[k v] ms IH]; intros m m'; cbn [decodeMembers fieldValues].
  - intros [= <-]. split; reflexivity.
  - destruct (unquote k) as [key|]; [|discriminate].
    intros H. apply bindR_inr in H as (m1 & H1 & H2).
    apply setEventField_trace in H1. specialize (IH _ _ H2).
    destruct (findField Event_names key) as [j|].
    + destruct (Nat.eqb_spec j 12) as [->|Hj].
      * destruct (fieldValues Event_names 12 ms) as [|w ws]; [|exact I].
        destruct IH as [IH1 IH2]. eexists. split; [exact H1|].
        rewrite IH1. reflexivity.
      * assert (Trace (eventOf m1) = Trace (eventOf m)
                /\ snd (fst m1) = snd (fst m)) as [E1 E2].
        { do 13 (destruct j as [|j]; [try exact H1; contradiction|]).
          exact H1. }
        rewrite E1, E2 in IH. exact IH.
    + destruct H1 as [E1 E2]. rewrite E1, E2 in IH. exact IH.
Qed.

Lemma lastValue_fieldValues names key i ms : forall acc v,
  findField names key = Some i -> lastValue ms key acc = Some v ->
  acc = Some v \/ In v (fieldValues names i ms).
Proof.
  induction ms as [|[k w] ms IH]; intros acc v Hf; cbn [lastValue fieldValues].
  - auto.
  - intros H. apply (IH _ _ Hf) in H. revert H.
    destruct (unquote k) as [k'|]; [|auto].
    destruct (String.eqb_spec k' key) as [E|Hk].
    + rewrite E, Hf, Nat.eqb_refl. intros [[= <-]|H]; right;
        [left; reflexivity|right; exact H].
    + intros H. destruct (findField names k') as [j|]; [|exact H].
      destruct (Nat.eqb j i); [|exact H].
      destruct H as [H|H]; [left; exact H|right; right; exact H].
Qed.

Lemma presenceError_trace ms :
  presenceError ms = None -> isArray (memberShape ms "trace") = true.
Proof.
  unfold presenceError. destruct (firstAbsentKey ms); [discriminate|].
  destruct (negb (isNullOrString _)); [discriminate|].
  destruct (negb (isNullOrBoolean _)); [discriminate|].
  destruct (isArray (memberShape ms "trace")); [reflexivity|discriminate].
Qed.

(** *** Lines that the typed decode accepts *)

Lemma decodeString_fits : decodes fitsString decodeString.
Proof.
  intros raw cur. unfold fitsString, decodeString.
  destruct (shapeOf raw) as [sh|] eqn:Hs; [|discriminate].
  destruct sh; try discriminate; intros _; [eauto|].
  apply shapeOf_Value in Hs. inversion Hs; subst.
  destruct (unquote_total content) as (u & ->); [assumption|eauto].
Qed.

Lemma decodeInt_fits : decodes fitsInt decodeInt.
Proof.
  intros raw cur. unfold fitsInt, decodeInt.
  destruct (shapeOf raw) as [[]|]; try discriminate; [eauto|].
  destruct (strconv_ParseInt raw); [eauto|discriminate].
Qed.

Lemma decodeBool_fits : decodes fitsBool decodeBool.
Proof.
  intros raw cur. unfold fitsBool, decodeBool.
  destruct (shapeOf raw) as [[]|]; try discriminate; eauto.
Qed.

Lemma decodePtr_fits {A} (zero : A) fits dec :
  decodes fits dec ->
  forall raw cur, fits raw = true ->
                  exists x, decodePtr zero dec raw cur = inr x.
Proof.
  intros H raw cur Hf. unfold decodePtr.
  destruct (H raw (match cur with Some a => a | None => zero end) Hf)
    as (a & ->).
  destruct (shapeOf raw) as [[]|]; cbn [bindR]; eauto.
Qed.

Lemma decodeElems_fits {A} (zero : A) fits dec es :
  decodes fits dec -> forallb fits es = true ->
  forall cells, exists l, decodeElems zero dec es cells = inr l.
Proof.
  intros H. induction es as [|e es IH]; intros Hes cells; cbn [decodeElems].
  - eauto.
  - cbn [forallb] in Hes. apply andb_prop in Hes as [He Hes].
    destruct (H e (hd zero cells) He) as (a & ->).
    destruct (IH Hes (tl cells)) as (l & ->). cbn [bindR]. eauto.
Qed.

Lemma decodeSlice_fits {A} (zero : A) fits dec :
  decodes fits dec -> decodes (fitsSlice fits) (decodeSlice zero dec).
Proof.
  intros H raw cur. unfold fitsSlice, decodeSlice.
  destruct (shapeOf raw) as [[| | | |[|e es]|]|]; try discriminate; eauto.
  intros Hes.
  destruct (decodeElems_fits zero fits dec (e :: es) H Hes
              (match fst cur with Some l => l | None => [] end ++ snd cur))
    as (l & ->).
  cbn [bindR]. eauto.
Qed.

Lemma decodeMembers_fits {T} names fits
    (setField : string -> string -> T -> result T) ms :
  (forall key v cur,
     match findField names key with
     | Some i => fits i v = true
     | None => True
     end -> exists r, setField key v cur = inr r) ->
  (forall kv, In kv ms -> unquote (fst kv) <> None) ->
  fitsMembers names fits ms = true ->
  forall cur, exists r, decodeMembers setField ms cur = inr r.
Proof.
  intros Hset. induction ms as [|[k v] ms IH]; intros Hk Hms cur;
    cbn [decodeMembers].
  - eauto.
  - unfold fitsMembers in Hms. cbn [forallb fst snd] in Hms.
    apply andb_prop in Hms as [Hkv Hms].
    destruct (unquote k) as [key|] eqn:Eq.
    2: { exfalso. apply (Hk (k, v)); [left; reflexivity|exact Eq]. }
    destruct (Hset key v cur) as (r & ->).
    { destruct (findField names key); [exact Hkv|exact I]. }
    cbn [bindR]. apply IH; [|exact Hms].
    intros kv Hin. apply Hk. right. exact Hin.
Qed.

Lemma decodeStruct_fits {T} names fits
    (setField : string -> string -> T -> result T) :
  (forall key v cur,
     match findField names key with
     | Some i => fits i v = true
     | None => True
     end -> exists r, setField key v cur = inr r) ->
  decodes (fitsStruct names fits) (decodeStruct setField).
Proof.
  intros Hset raw cur. unfold fitsStruct, decodeStruct.
  destruct (shapeOf raw) as [sh|] eqn:Hs; [|discriminate].
  destruct sh; try discriminate; [eauto|].
  intros Hms. apply (decodeMembers_fits names fits); try assumption.
  apply shapeOf_Value, Value_members in Hs. rewrite Forall_forall in Hs.
  intros kv Hin. apply list_elem_of_In in Hin.
  destruct (Hs kv Hin) as [Hb _].
  destruct (unquote_total _ Hb) as (u & ->). discriminate.
Qed.

Ltac fits_step Hf :=
  match goal with
  | |- context [bindR (decodeString ?v ?c) _] =>
      destruct (decodeString_fits v c Hf) as (? & ->)
  | |- context [bindR (decodeInt ?v ?c) _] =>
      destruct (decodeInt_fits v c Hf) as (? & ->)
  | |- context [bindR (decodeBool ?v ?c) _] =>
      destruct (decodeBool_fits v c Hf) as (? & ->)
  | |- context [bindR (decodePtr ?z decodeInt ?v ?c) _] =>
      destruct (decodePtr_fits z fitsInt decodeInt decodeInt_fits v c Hf)
        as (? & ->)
  | |- context [bindR (decodePtr ?z decodeString ?v ?c) _] =>
      destruct (decodePtr_fits z fitsString decodeString decodeString_fits
                  v c Hf) as (? & ->)
  | |- context [bindR (decodeSlice ?z decodeString ?v ?c) _] =>
      destruct (decodeSlice_fits z fitsString decodeString decodeString_fits
                  v c Hf) as (? & ->)
  end;
  cbn [bindR]; eauto.

Lemma setHTTPMetaField_fits key v cur :
  match findField HTTPMeta_names key with
  | Some i => fitsHTTPMeta i v = true
  | None => True
  end -> exists r, setHTTPMetaField key v cur = inr r.
Proof.
  destruct cur as [me sc ho pa qu st ci ua].
  unfold setHTTPMetaField, fitsHTTPMeta.
  destruct (findField HTTPMeta_names key) as [i|]; [|eauto].
  do 8 (destruct i as [|i]; [intros Hf; fits_step Hf|]). eauto.
Qed.

Lemma setCommandMetaField_fits key v cur :
  match findField CommandMeta_names key with
  | Some i => fitsCommandMeta i v = true
  | None => True
  end -> exists r, setCommandMetaField key v cur = inr r.
Proof.
  destruct cur as [[na ar cw] rest].
  unfold setCommandMetaField, fitsCommandMeta.
  destruct (findField CommandMeta_names key) as [i|]; [|eauto].
  do 3 (destruct i as [|i]; [intros Hf; fits_step Hf|]). eauto.
Qed.

Lemma setTraceFrameField_fits key v cur :
  match findField TraceFrame_names key with
  | Some i => fitsTraceFrame i v = true
  | None => True
  end -> exists r, setTraceFrameField key v cur = inr r.
Proof.
  destruct cur as [fi li fu]. unfold setTraceFrameField, fitsTraceFrame.
  destruct (findField TraceFrame_names key) as [i|]; [|eauto].
  do 3 (destruct i as [|i]; [intros Hf; fits_step Hf|]). eauto.
Qed.

Lemma setHostMetaField_fits key v cur :
  match findField HostMeta_names key with
  | Some i => fitsHostMeta i v = true
  | None => True
  end -> exists r, setHostMetaField key v cur = inr r.
Proof.
  destruct cur as [hn pid]. unfold setHostMetaField, fitsHostMeta.
  destruct (findField HostMeta_names key) as [i|]; [|eauto].
  do 2 (destruct i as [|i]; [intros Hf; fits_step Hf|]). eauto.
Qed.

Lemma setEventField_fits key v cur :
  match findField Event_names key with
  | Some i => fitsEvent i v = true
  | None => True
  end -> exists r, setEventField key v cur = inr r.
Proof.
  destruct cur as [[[sv id ts st pr sa rq ht cm dd pf pl tr ho] trs] ars].
  unfold setEventField, fitsEvent.
  destruct (findField Event_names key) as [i|]; [|eauto].
  do 14 (destruct i as [|i];
         [intros Hf;
          first
            [ fits_step Hf
            | match goal with
              | |- context [bindR (decodePtr zeroHTTPMeta _ ?v ?c) _] =>
                  destruct (decodePtr_fits zeroHTTPMeta _ _
                              (decodeStruct_fits _ _ _ setHTTPMetaField_fits)
                              v c Hf) as (? & ->)
              | |- context [bindR (decodePtr (zeroCommandMeta, []) _ ?v ?c) _] =>
                  destruct (decodePtr_fits (zeroCommandMeta, []) _ _
                              (decodeStruct_fits _ _ _
                                 setCommandMetaField_fits) v c Hf) as (? & ->)
              | |- context [bindR (decodeSlice zeroTraceFrame _ ?v ?c) _] =>
                  destruct (decodeSlice_fits zeroTraceFrame _ _
                              (decodeStruct_fits _ _ _
                                 setTraceFrameField_fits) v c Hf) as (? & ->)
              | |- context [bindR (decodeStruct setHostMetaField ?v ?c) _] =>
                  destruct (decodeStruct_fits _ _ _ setHostMetaField_fits
                              v c Hf) as (? & ->)
              end; cbn [bindR]; eauto
            | eauto ]|]).
  eauto.
Qed.

(** A typed line is accepted by the typed decode. *)
Lemma json_Unmarshal_Event_fits data :
  typedLine data = true -> exists e, json_Unmarshal_Event data = inr e.
Proof.
  unfold typedLine, json_Unmarshal_Event.
  destruct (parseDocument data) as [[sh raw]|] eqn:Hp; [|discriminate].
  destruct sh as [| | | | |ms]; try discriminate. intros Hf.
  pose proof (parseDocument_Value _ _ _ Hp) as V.
  destruct (decodeStruct_fits Event_names fitsEvent setEventField
              setEventField_fits raw zeroEventMem) as (m & ->).
  { unfold fitsStruct. rewrite (Value_shapeOf _ _ _ V). exact Hf. }
  cbn [bindR]. eauto.
Qed.

(** *** The member that gives a field *)

Lemma fieldValues_no_key names key i ms acc :
  findField names key = Some i -> fieldValues names i ms = [] ->
  lastValue ms key acc = acc.
Proof.
  intros Hf. revert acc.
  induction ms as [|[k w] ms IH]; intros acc; cbn [fieldValues lastValue];
    [reflexivity|].
  destruct (unquote k) as [k'|]; [|apply IH].
  destruct (String.eqb_spec k' key) as [->|_].
  - rewrite Hf, Nat.eqb_refl. discriminate.
  - destruct (findField names k') as [j|]; [|apply IH].
    destruct (Nat.eqb j i); [discriminate|apply IH].
Qed.

(** A member stored before others that select other fields could as
    well be stored after them. *)
Lemma decodeMembers_move {T B : Type} names
    (setField : string -> string -> T -> result T) d key v sh i ms :
  onMembers setField -> swaps names setField ->
  Value d v sh -> findField names key = Some i ->
  Forall (memberOK d) ms -> fieldValues names i ms = [] ->
  forall cur (K : T -> result B),
    bindR (setField key v cur) (fun a => bindR (decodeMembers setField ms a) K)
    = bindR (decodeMembers setField ms cur)
        (fun a => bindR (setField key v a) K).
Proof.
  intros Hon Hsw V Hf Hms. induction Hms as [|[k w] ms [Hk (shw & Vw)] _ IH];
    intros Hno cur K; cbn [decodeMembers fieldValues] in *.
  - cbn [bindR]. destruct (setField key v cur); reflexivity.
  - cbn [fst snd] in *. destruct (unquote_total _ Hk) as (key' & E).
    rewrite E in *.
    assert (forall j, findField names key = Some j ->
                      findField names key' <> Some j) as Hne.
    { intros j Hj Hj'. rewrite Hf in Hj. injection Hj as <-.
      rewrite Hj', Nat.eqb_refl in Hno. discriminate. }
    assert (fieldValues names i ms = []) as Hno'.
    { destruct (findField names key') as [j|]; [|exact Hno].
      destruct (Nat.eqb j i); [discriminate|exact Hno]. }
    transitivity
      (bindR (setField key v cur)
         (fun a => bindR (setField key' w a)
                     (fun b => bindR (decodeMembers setField ms b) K))).
    { destruct (setField key v cur) as [?|a]; [reflexivity|]. cbn [bindR].
      destruct (setField key' w a); reflexivity. }
    rewrite (Hsw B key key' v w cur _
               (fun c => Hon d key v sh c V) (fun c => Hon d key' w shw c Vw)
               Hne).
    destruct (setField key' w cur) as [?|a]; [reflexivity|]. cbn [bindR].
    apply IH. exact Hno'.
Qed.

(** When one member only selects a field, what the typed decode leaves
    is what storing that member last leaves. *)
Lemma decodeMembers_last {T : Type} names
    (setField : string -> string -> T -> result T) d key i v ms :
  onMembers setField -> swaps names setField ->
  findField names key = Some i -> Forall (memberOK d) ms ->
  forall w cur r,
    fieldValues names i ms = [w] -> lastValue ms key None = Some v ->
    decodeMembers setField ms cur = inr r ->
    exists c, setField key v c = inr r.
Proof.
  intros Hon Hsw Hf Hms.
  induction Hms as [|[k u] ms [Hk (shu & Vu)] Hms IH]; intros w cur r;
    cbn [decodeMembers fieldValues lastValue]; [discriminate|].
  cbn [fst snd] in *. destruct (unquote_total _ Hk) as (key' & E). rewrite E.
  destruct (findField names key') as [j|] eqn:Hj.
  - destruct (Nat.eqb_spec j i) as [->|Hji].
    + intros [= <- Hno]. destruct (String.eqb_spec key' key) as [->|Hkk].
      * rewrite (fieldValues_no_key _ _ _ _ _ Hf Hno). intros [= <-] Hdec.
        pose proof (decodeMembers_move names setField d key u shu i ms
                      Hon Hsw Vu Hf Hms Hno cur (fun a => inr a)) as Hmv.
        assert (bindR (decodeMembers setField ms cur) (setField key u) = inr r)
          as Hr.
        { transitivity
            (bindR (decodeMembers setField ms cur)
               (fun a => bindR (setField key u a) (fun a => inr a))).
          - destruct (decodeMembers setField ms cur); [reflexivity|].
            cbn [bindR]. destruct (setField key u t); reflexivity.
          - rewrite <- Hmv, <- Hdec.
            destruct (setField key u cur) as [?|a]; [reflexivity|].
            cbn [bindR]. destruct (decodeMembers setField ms a); reflexivity. }
        apply bindR_inr in Hr as (c & _ & Hc). eauto.
      * rewrite (fieldValues_no_key _ _ _ _ _ Hf Hno). discriminate.
    + intros Hw. destruct (String.eqb_spec key' key) as [->|_];
        [congruence|].
      intros Hl Hdec. apply bindR_inr in Hdec as (c1 & _ & Hdec).
      exact (IH _ _ _ Hw Hl Hdec).
  - intros Hw. destruct (String.eqb_spec key' key) as [->|_]; [congruence|].
    intros Hl Hdec. apply bindR_inr in Hdec as (c1 & _ & Hdec).
    exact (IH _ _ _ Hw Hl Hdec).
Qed.

(** *** What the member of a field leaves in the struct *)

Lemma decodeString_stringValue raw cur x s :
  stringValue raw = Some s -> decodeString raw cur = inr x -> x = s.
Proof.
  unfold stringValue, decodeString.
  destruct (shapeOf raw) as [[]|]; try discriminate.
  intros ->. congruence.
Qed.

Lemma decodeInt_integerValue raw cur x z :
  integerValue raw = Some z -> decodeInt raw cur = inr x -> x = z.
Proof.
  intros Hz. unfold decodeInt.
  destruct (shapeOf raw) as [sh|] eqn:Hs; [|discriminate].
  destruct sh; try discriminate.
  - unfold integerValue in Hz. rewrite Hs in Hz. discriminate.
  - destruct (strconv_ParseInt raw) as [y|] eqn:Hy; [|discriminate].
    intros [= <-]. rewrite (strconv_ParseInt_integerValue _ _ Hs Hy) in Hz.
    congruence.
Qed.

Lemma namedOnce_values names name ms :
  namedOnce names name ms = true ->
  exists i w, findField names name = Some i /\ fieldValues names i ms = [w].
Proof.
  unfold namedOnce, valuesNamed.
  destruct (findField names name) as [i|]; [|discriminate].
  destruct (fieldValues names i ms) as [|w [|]] eqn:E; try discriminate.
  intros _. exists i, w. split; [reflexivity|exact E].
Qed.

(** The member of a field that one member only gives is stored last, as
    far as the result goes. *)
Lemma decodeMembers_once {T : Type} names
    (setField : string -> string -> T -> result T) d name v ms cur r :
  onMembers setField -> swaps names setField -> Forall (memberOK d) ms ->
  namedOnce names name ms = true -> memberValue ms name = Some v ->
  decodeMembers setField ms cur = inr r ->
  exists c, setField name v c = inr r.
Proof.
  intros Hon Hsw Hms Hn Hv Hdec.
  destruct (namedOnce_values _ _ _ Hn) as (i & w & Hf & Hw).
  exact (decodeMembers_last names setField d name i v ms Hon Hsw Hf Hms
           w cur r Hw Hv Hdec).
Qed.

Lemma setHostMetaField_hostname raw c r :
  setHostMetaField "hostname" raw c = inr r ->
  decodeString raw (HostMeta_Hostname c) = inr (HostMeta_Hostname r).
Proof.
  destruct c as [hn pid]. unfold setHostMetaField.
  change (findField HostMeta_names "hostname") with (Some 0%nat).
  cbv beta iota. intros H. apply bindR_inr in H as (x & Hx & [= <-]).
  exact Hx.
Qed.

Lemma setHostMetaField_pid raw c r :
  setHostMetaField "pid" raw c = inr r ->
  decodeInt raw (HostMeta_PID c) = inr (HostMeta_PID r).
Proof.
  destruct c as [hn pid]. unfold setHostMetaField.
  change (findField HostMeta_names "pid") with (Some 1%nat).
  cbv beta iota. intros H. apply bindR_inr in H as (x & Hx & [= <-]).
  exact Hx.
Qed.

Lemma setCommandMetaField_name raw c r :
  setCommandMetaField "name" raw c = inr r ->
  decodeString raw (CommandMeta_Name (fst c)) = inr (CommandMeta_Name (fst r)).
Proof.
  destruct c as [[na ar cw] rest]. unfold setCommandMetaField.
  change (findField CommandMeta_names "name") with (Some 0%nat).
  cbv beta iota. intros H. apply bindR_inr in H as (x & Hx & [= <-]).
  exact Hx.
Qed.

Lemma setHTTPMetaField_required name raw c r :
  In name ["method"; "scheme"; "host"; "path"] ->
  setHTTPMetaField name raw c = inr r ->
  exists x,
    (forall s, stringValue raw = Some s -> x = s)
    /\ match name with
       | "method" => HTTPMeta_Method r = x
       | "scheme" => HTTPMeta_Scheme r = x
       | "host" => HTTPMeta_Host r = x
       | _ => HTTPMeta_Path r = x
       end.
Proof.
  destruct c as [me sc ho pa qu st ci ua]. cbn [In].
  intros [<-|[<-|[<-|[<-|[]]]]]; unfold setHTTPMetaField;
    match goal with
    | |- context [findField HTTPMeta_names ?k] =>
        let n := eval vm_compute in (findField HTTPMeta_names k) in
        change (findField HTTPMeta_names k) with n
    end;
    cbv beta iota; intros H; apply bindR_inr in H as (x & Hx & [= <-]);
    exists x; (split; [|reflexivity]);
    intros s Hs; exact (decodeString_stringValue _ _ _ _ Hs Hx).
Qed.

(** The fields of the event that a member given once leaves. *)
Lemma setEventField_scalar name raw c m :
  setEventField name raw c = inr m ->
  match name with
  | "schemaVersion" =>
      decodeInt raw (SchemaVersion (eventOf c)) = inr (SchemaVersion (eventOf m))
  | "id" => decodeString raw (ID (eventOf c)) = inr (ID (eventOf m))
  | "timestamp" =>
      decodeString raw (Timestamp (eventOf c)) = inr (Timestamp (eventOf m))
  | "sourceType" =>
      decodeString raw (SourceType (eventOf c)) = inr (SourceType (eventOf m))
  | "projectRoot" =>
      decodeString raw (ProjectRoot (eventOf c)) = inr (ProjectRoot (eventOf m))
  | "phpSapi" =>
      decodeString raw (PHPSAPI (eventOf c)) = inr (PHPSAPI (eventOf m))
  | "payloadFormat" =>
      decodeString raw (PayloadFormat (eventOf c))
      = inr (PayloadFormat (eventOf m))
  | "host" =>
      decodeStruct setHostMetaField raw (Host (eventOf c))
      = inr (Host (eventOf m))
  | "http" =>
      decodePtr zeroHTTPMeta (decodeStruct setHTTPMetaField) raw
        (HTTP (eventOf c)) = inr (HTTP (eventOf m))
  | "command" =>
      exists x,
        decodePtr (zeroCommandMeta, []) (decodeStruct setCommandMetaField) raw
          (option_map (fun k => (k, snd c)) (Command (eventOf c))) = inr x
        /\ Command (eventOf m) = option_map fst x
  | _ => True
  end.
Proof.
  destruct c as [[[sv id ts st pr sa rq ht cm dd pf pl tr ho] trs] ars].
  unfold eventOf.
  cbn [SchemaVersion ID Timestamp SourceType ProjectRoot PHPSAPI PayloadFormat
       Host HTTP Command fst snd].
  intros H.
  repeat match goal with
         | |- match ?s with "" => _ | String _ _ => _ end => destruct s
         | |- match ?a with Ascii _ _ _ _ _ _ _ _ => _ end => destruct a
         | |- (if ?b then _ else _) => destruct b
         | |- True => exact I
         end.
  all: revert H; unfold setEventField;
    match goal with
    | |- context [findField Event_names ?k] =>
        let n := eval vm_compute in (findField Event_names k) in
        change (findField Event_names k) with n
    end;
    cbv beta iota; intros H; apply bindR_inr in H as (x & Hx & [= <-]);
    cbn [SchemaVersion ID Timestamp SourceType ProjectRoot PHPSAPI
         PayloadFormat Host HTTP Command fst snd];
    first [ exact Hx | exists x; split; [exact Hx|reflexivity] ].
Qed.

(** *** A well-formed line decodes *)

Lemma memberString_stored d ms cur m name s :
  Forall (memberOK d) ms ->
  decodeMembers setEventField ms cur = inr m ->
  namedOnce Event_names name ms = true -> memberString ms name = Some s ->
  exists raw c, stringValue raw = Some s /\ setEventField name raw c = inr m.
Proof.
  intros Hms Hdec Hn. unfold memberString.
  destruct (memberValue ms name) as [raw|] eqn:Hv; [|discriminate].
  intros Hs.
  destruct (decodeMembers_once Event_names setEventField d name raw ms cur m
              setEventField_onMembers setEventField_swap Hms Hn Hv Hdec)
    as (c & Hc).
  eauto.
Qed.

Lemma memberValue_fieldValues names name i ms v w :
  findField names name = Some i -> memberValue ms name = Some v ->
  fieldValues names i ms = [w] -> w = v.
Proof.
  intros Hf Hv Hw.
  destruct (lastValue_fieldValues names name i ms None v Hf Hv) as [|Hin];
    [discriminate|].
  rewrite Hw in Hin. destruct Hin as [->|[]]. reflexivity.
Qed.

Ltac string_field Hms Hdec Hn Hs E :=
  let raw := fresh "raw" in
  let c := fresh "c" in
  let Hr := fresh "Hr" in
  destruct (memberString_stored _ _ _ _ _ _ Hms Hdec Hn Hs)
    as (raw & c & Hr & E);
  apply setEventField_scalar in E; cbv beta iota in E;
  apply (decodeString_stringValue _ _ _ _ Hr) in E;
  clear Hr.

(** The values of the one member that gives a field of the line. *)
Lemma namedOnce_valuesNamed name ms v :
  namedOnce Event_names name ms = true -> memberValue ms name = Some v ->
  valuesNamed Event_names name ms = [v].
Proof.
  intros Hn Hv. destruct (namedOnce_values _ _ _ Hn) as (i & w & Hf & Hw).
  unfold valuesNamed. rewrite Hf.
  rewrite (memberValue_fieldValues _ _ _ _ _ _ Hf Hv Hw) in Hw. exact Hw.
Qed.

Lemma memberNonEmpty_string ms name :
  memberNonEmpty ms name = true ->
  exists s, memberString ms name = Some s /\ String.eqb s "" = false.
Proof.
  unfold memberNonEmpty. destruct (memberString ms name) as [s|];
    [|discriminate].
  intros H. exists s. split; [reflexivity|]. apply negb_true_iff. exact H.
Qed.

Lemma timestampCanonical_nonempty ts :
  timestampCanonical ts = true -> String.eqb ts "" = false.
Proof. destruct ts; [discriminate|reflexivity]. Qed.

Lemma objectValue_shapeOf raw ms :
  objectValue raw = Some ms -> shapeOf raw = Some (VObject ms).
Proof.
  unfold objectValue. destruct (shapeOf raw) as [[]|]; try discriminate.
  congruence.
Qed.

(** The nested rules: the members of an object of the line, stored into
    a struct. *)
Lemma nested_string {T} names (setField : string -> string -> T -> result T)
    d ms cur r name s :
  onMembers setField -> swaps names setField -> Forall (memberOK d) ms ->
  decodeMembers setField ms cur = inr r ->
  namedOnce names name ms = true -> memberString ms name = Some s ->
  exists raw c, stringValue raw = Some s /\ setField name raw c = inr r.
Proof.
  intros Hon Hsw Hms Hdec Hn. unfold memberString.
  destruct (memberValue ms name) as [raw|] eqn:Hv; [|discriminate].
  intros Hs.
  destruct (decodeMembers_once names setField d name raw ms cur r
              Hon Hsw Hms Hn Hv Hdec) as (c & Hc).
  eauto.
Qed.

Lemma host_rule_stored ho0 raw h :
  decodeStruct setHostMetaField raw ho0 = inr h ->
  namedOnceIn HostMeta_names ["hostname"; "pid"] raw = true ->
  forall hs,
    objectValue raw = Some hs ->
    memberNonEmpty hs "hostname" = true ->
    (forall p z, memberValue hs "pid" = Some p -> integerValue p = Some z ->
                 HostMeta_PID h = z)
    /\ String.eqb (HostMeta_Hostname h) "" = false.
Proof.
  intros Hdec Hon hs Ho Hn. apply objectValue_shapeOf in Ho.
  unfold decodeStruct in Hdec. unfold namedOnceIn in Hon.
  rewrite Ho in Hdec, Hon. cbn [forallb] in Hon.
  apply andb_prop in Hon as [H1 H2]. apply andb_prop in H2 as [H2 _].
  pose proof (Value_members _ _ _ (shapeOf_Value _ _ Ho)) as Hms.
  split.
  - intros p z Hp Hz.
    destruct (decodeMembers_once HostMeta_names setHostMetaField _ "pid" p hs
                ho0 h setHostMetaField_onMembers setHostMetaField_swap
                Hms H2 Hp Hdec) as (c & Hc).
    apply setHostMetaField_pid in Hc.
    exact (decodeInt_integerValue _ _ _ _ Hz Hc).
  - destruct (memberNonEmpty_string _ _ Hn) as (s & Hs & Hne).
    destruct (nested_string HostMeta_names setHostMetaField _ hs ho0 h
                "hostname" s setHostMetaField_onMembers setHostMetaField_swap
                Hms Hdec H1 Hs) as (rawh & c & Hr & Hc).
    apply setHostMetaField_hostname in Hc.
    rewrite (decodeString_stringValue _ _ _ _ Hr Hc). exact Hne.
Qed.

Lemma http_rule_stored ht0 raw x :
  decodePtr zeroHTTPMeta (decodeStruct setHTTPMetaField) raw ht0 = inr x ->
  namedOnceIn HTTPMeta_names ["method"; "scheme"; "host"; "path"] raw = true ->
  forall hs,
    objectValue raw = Some hs ->
    memberNonEmpty hs "method" && memberNonEmpty hs "scheme"
    && memberNonEmpty hs "host" && memberNonEmpty hs "path" = true ->
    exists h, x = Some h
      /\ String.eqb (HTTPMeta_Method h) "" || String.eqb (HTTPMeta_Scheme h) ""
         || String.eqb (HTTPMeta_Host h) "" || String.eqb (HTTPMeta_Path h) ""
         = false.
Proof.
  intros Hdec Hon hs Ho Hn. apply objectValue_shapeOf in Ho.
  unfold decodePtr, decodeStruct in Hdec. unfold namedOnceIn in Hon.
  rewrite Ho in Hdec, Hon. apply bindR_inr in Hdec as (h & Hdec & [= <-]).
  exists h. split; [reflexivity|].
  cbn [forallb] in Hon.
  apply andb_prop in Hon as [O1 Hon]. apply andb_prop in Hon as [O2 Hon].
  apply andb_prop in Hon as [O3 Hon]. apply andb_prop in Hon as [O4 _].
  apply andb_prop in Hn as [Hn N4]. apply andb_prop in Hn as [Hn N3].
  apply andb_prop in Hn as [N1 N2].
  pose proof (Value_members _ _ _ (shapeOf_Value _ _ Ho)) as Hms.
  assert (forall name,
            In name ["method"; "scheme"; "host"; "path"] ->
            namedOnce HTTPMeta_names name hs = true ->
            memberNonEmpty hs name = true ->
            exists y, String.eqb y "" = false
              /\ match name with
                 | "method" => HTTPMeta_Method h = y
                 | "scheme" => HTTPMeta_Scheme h = y
                 | "host" => HTTPMeta_Host h = y
                 | _ => HTTPMeta_Path h = y
                 end) as Hall.
  { intros name Hin Hone Hne.
    destruct (memberNonEmpty_string _ _ Hne) as (s & Hs & Hsne).
    destruct (nested_string HTTPMeta_names setHTTPMetaField _ hs _ h name s
                setHTTPMetaField_onMembers setHTTPMetaField_swap
                Hms Hdec Hone Hs) as (rawh & c & Hr & Hc).
    destruct (setHTTPMetaField_required _ _ _ _ Hin Hc) as (y & Hy & Hf).
    exists y. rewrite (Hy _ Hr). split; [exact Hsne|].
    rewrite <- (Hy _ Hr). exact Hf. }
  destruct (Hall "method" ltac:(cbn; tauto) O1 N1) as (y1 & E1 & ->).
  destruct (Hall "scheme" ltac:(cbn; tauto) O2 N2) as (y2 & E2 & ->).
  destruct (Hall "host" ltac:(cbn; tauto) O3 N3) as (y3 & E3 & ->).
  destruct (Hall "path" ltac:(cbn; tauto) O4 N4) as (y4 & E4 & ->).
  rewrite E1, E2, E3, E4. reflexivity.
Qed.

Lemma command_rule_stored cm0 raw x :
  decodePtr (zeroCommandMeta, []) (decodeStruct setCommandMetaField) raw cm0
  = inr x ->
  namedOnceIn CommandMeta_names ["name"] raw = true ->
  forall cs,
    objectValue raw = Some cs -> memberNonEmpty cs "name" = true ->
    exists c, option_map fst x = Some c
              /\ String.eqb (CommandMeta_Name c) "" = false.
Proof.
  intros Hdec Hon cs Ho Hn. apply objectValue_shapeOf in Ho.
  unfold decodePtr, decodeStruct in Hdec. unfold namedOnceIn in Hon.
  rewrite Ho in Hdec, Hon. apply bindR_inr in Hdec as (c & Hdec & [= <-]).
  exists (fst c). split; [reflexivity|].
  cbn [forallb] in Hon. apply andb_prop in Hon as [O1 _].
  pose proof (Value_members _ _ _ (shapeOf_Value _ _ Ho)) as Hms.
  destruct (memberNonEmpty_string _ _ Hn) as (s & Hs & Hne).
  destruct (nested_string CommandMeta_names setCommandMetaField _ cs _ c
              "name" s setCommandMetaField_onMembers setCommandMetaField_swap
              Hms Hdec O1 Hs) as (rawn & c0 & Hr & Hc).
  apply setCommandMetaField_name in Hc.
  rewrite (decodeString_stringValue _ _ _ _ Hr Hc). exact Hne.
Qed.

(** * The claims *)

(** C1, as the code has it: a line that, once trimmed, is one JSON
    object that meets every field rule of the data model is decoded to
    an event, with no error, when in addition every member that selects
    a field, at any depth, holds a value that the field can store
    ([null], or a value of the field's type; an integer within the
    64-bit range), and when each field that a rule reads is given by one
    member only. *)
Theorem C1_well_formed_line_decodes (line : string) :
  wellFormedLine (strings_TrimSpace line) = true ->
  typedLine (strings_TrimSpace line) = true ->
  ruledOnce (strings_TrimSpace line) = true ->
  exists event, DecodeNDJSONLine line = (Some event, None).
Proof.
  intros Hwf Hty Hon.
  destruct (json_Unmarshal_Event_fits _ Hty) as (e & Hev).
  unfold wellFormedLine in Hwf. unfold ruledOnce in Hon.
  destruct (parseDocument (strings_TrimSpace line)) as [[sh raw0]|] eqn:Hp;
    [|discriminate].
  destruct sh as [| | | | |ms]; try discriminate.
  apply andb_prop in Hwf as [Hwf Rhost]. apply andb_prop in Hwf as [Hwf Rpl].
  apply andb_prop in Hwf as [Hwf Rpf]. apply andb_prop in Hwf as [Hwf Rsub].
  apply andb_prop in Hwf as [Hwf Rts]. apply andb_prop in Hwf as [Hwf Rsa].
  apply andb_prop in Hwf as [Hwf Rpr]. apply andb_prop in Hwf as [Hwf Rid].
  apply andb_prop in Hwf as [Hpres Rsv].
  exists e. apply (DecodeNDJSONLine_accepts line ms raw0 e Hp Hpres Hev).
  pose proof (decodesTo_payload _ _ (decodesTo_of_rules _ _ _ _ Hp Hpres Hev))
    as Hpayload.
  pose proof (Value_members _ _ _ (parseDocument_Value _ _ _ Hp)) as Hms.
  rewrite (json_Unmarshal_Event_members _ _ _ Hp) in Hev.
  apply bindR_inr in Hev as (m & Hm & [= <-]).
  apply andb_prop in Hon as [Hon Osub]. apply andb_prop in Hon as [Hon Ohost].
  cbn [forallb] in Hon.
  apply andb_prop in Hon as [Osv Hon]. apply andb_prop in Hon as [Oid Hon].
  apply andb_prop in Hon as [Ots Hon]. apply andb_prop in Hon as [Ost Hon].
  apply andb_prop in Hon as [Opr Hon]. apply andb_prop in Hon as [Osa Hon].
  apply andb_prop in Hon as [Opf Hon]. apply andb_prop in Hon as [Oho _].
  (* the scalar fields *)
  destruct (memberNonEmpty_string _ _ Rid) as (sid & Hid & Nid).
  string_field Hms Hm Oid Hid Eid.
  destruct (memberNonEmpty_string _ _ Rpr) as (spr & Hpr & Npr).
  string_field Hms Hm Opr Hpr Epr.
  destruct (memberNonEmpty_string _ _ Rsa) as (ssa & Hsa & Nsa).
  string_field Hms Hm Osa Hsa Esa.
  destruct (memberString ms "timestamp") as [ts|] eqn:Hts; [|discriminate].
  string_field Hms Hm Ots Hts Ets.
  destruct (memberString ms "payloadFormat") as [pf|] eqn:Hpf; [|discriminate].
  string_field Hms Hm Opf Hpf Epf. apply String.eqb_eq in Rpf. subst pf.
  unfold subObjectRule in Rsub.
  destruct (memberString ms "sourceType") as [st|] eqn:Hst; [|discriminate].
  string_field Hms Hm Ost Hst Est.
  (* the version *)
  destruct (memberValue ms "schemaVersion") as [rsv|] eqn:Hsv; [|discriminate].
  destruct (integerValue rsv) as [z|] eqn:Hz; [|discriminate].
  apply Z.eqb_eq in Rsv. subst z.
  destruct (decodeMembers_once Event_names setEventField _ "schemaVersion"
              rsv ms _ m setEventField_onMembers setEventField_swap
              Hms Osv Hsv Hm) as (cv & Esv).
  apply setEventField_scalar in Esv. cbv beta iota in Esv.
  apply (decodeInt_integerValue _ _ _ _ Hz) in Esv.
  (* the host *)
  unfold hostRule in Rhost.
  destruct (memberValue ms "host") as [rh|] eqn:Hh; [|discriminate].
  destruct (objectValue rh) as [hs|] eqn:Hhs; [|discriminate].
  apply andb_prop in Rhost as [Rhn Rpid].
  destruct (memberValue hs "pid") as [p|] eqn:Hpid; [|discriminate].
  destruct (integerValue p) as [zp|] eqn:Hzp; [|discriminate].
  destruct (decodeMembers_once Event_names setEventField _ "host"
              rh ms _ m setEventField_onMembers setEventField_swap
              Hms Oho Hh Hm) as (ch & Eho).
  apply setEventField_scalar in Eho. cbv beta iota in Eho.
  rewrite (namedOnce_valuesNamed "host" ms rh Oho Hh) in Ohost.
  cbn [forallb] in Ohost. apply andb_prop in Ohost as [Ohost _].
  destruct (host_rule_stored _ _ _ Eho Ohost hs Hhs Rhn) as [Epid Ehn].
  specialize (Epid p zp Hpid Hzp). apply Z.ltb_lt in Rpid.
  (* the rules up to the sub-objects *)
  unfold fieldRules, reachesSubstructureCheck, passesEarlyChecks,
    substructureError, sourceTypeKnown.
  rewrite Esv, Eid, Ets, Est, Epr, Esa, Epf, Epid, Ehn, Hpayload, Rts,
    Nid, Npr, Nsa, (timestampCanonical_nonempty _ Rts), Z.eqb_refl.
  destruct (Z.leb_spec zp 0) as [Hle|_]; [lia|].
  destruct (String.eqb_spec st "http") as [->|Hnh].
  - (* http *)
    apply andb_prop in Osub as [Oht Osub].
    destruct (memberValue ms "http") as [rt|] eqn:Hht; [|discriminate].
    destruct (objectValue rt) as [hs'|] eqn:Hhs'; [|discriminate].
    destruct (decodeMembers_once Event_names setEventField _ "http"
                rt ms _ m setEventField_onMembers setEventField_swap
                Hms Oht Hht Hm) as (ct & Eht).
    apply setEventField_scalar in Eht. cbv beta iota in Eht.
    rewrite (namedOnce_valuesNamed "http" ms rt Oht Hht) in Osub.
    cbn [forallb] in Osub. apply andb_prop in Osub as [Osub _].
    destruct (http_rule_stored _ _ _ Eht Osub hs' Hhs' Rsub) as (h & -> & ->).
    reflexivity.
  - (* command *)
    destruct ((st =? "cli") || (st =? "worker") || (st =? "cron")) eqn:Hk;
      [|discriminate].
    apply andb_prop in Osub as [Ocm Osub].
    destruct (memberValue ms "command") as [rc|] eqn:Hcm; [|discriminate].
    destruct (objectValue rc) as [cs|] eqn:Hcs; [|discriminate].
    destruct (decodeMembers_once Event_names setEventField _ "command"
                rc ms _ m setEventField_onMembers setEventField_swap
                Hms Ocm Hcm Hm) as (cc & Ecm).
    apply setEventField_scalar in Ecm. cbv beta iota in Ecm.
    destruct Ecm as (x & Ex & ->).
    rewrite (namedOnce_valuesNamed "command" ms rc Ocm Hcm) in Osub.
    cbn [forallb] in Osub. apply andb_prop in Osub as [Osub _].
    destruct (command_rule_stored _ _ _ Ex Osub cs Hcs Rsub) as (cmd & -> & ->).
    assert ((st =? "") = false) as ->.
    { destruct st; [discriminate Hk|reflexivity]. }
    cbn [orb]. rewrite Hk. reflexivity.
Qed.

Lemma C1_well_formed_line_decodes_witness :
  exists event, DecodeNDJSONLine line_http = (Some event, None).
Proof.
  apply (C1_well_formed_line_decodes line_http); vm_compute; reflexivity.
Defined.

(** C1 as stated fails: these three lines meet every rule of the claim,
    and the decoder refuses them.  The pid of the first is an integer
    above zero, outside the range of [int]; the trace of the second is a
    JSON array, its element is no frame; the third has a non-empty [id]
    and a second member [ID], which [json.Unmarshal] stores into the
    same field after it. *)
Lemma C1_rules_do_not_suffice_counterexample :
  (wellFormedLine (strings_TrimSpace line_pid_2_63) = true
   /\ DecodeNDJSONLine line_pid_2_63 = (None, Some json_UnmarshalTypeError))
  /\ (wellFormedLine (strings_TrimSpace line_trace_of_numbers) = true
      /\ DecodeNDJSONLine line_trace_of_numbers
         = (None, Some json_UnmarshalTypeError))
  /\ (wellFormedLine (strings_TrimSpace line_id_twice) = true
      /\ DecodeNDJSONLine line_id_twice
         = (None, Some (errors_New "missing required dump event fields"))).
Proof. repeat split; vm_compute; reflexivity. Qed.

(** C2, as the code has it: in an event that is returned the source type
    is one of the four, the [http] sub-object is there when the source
    type is http and the [command] sub-object is there when it is cli,
    worker or cron.  The sub-object of the other kind is not looked
    at. *)
Theorem C2_matching_subobject_populated (line : string) (e : Event) :
  DecodeNDJSONLine line = (Some e, None) ->
  (SourceType e = "http" \/ isCommandSource (SourceType e))
  /\ (SourceType e = "http" -> HTTP e <> None)
  /\ (isCommandSource (SourceType e) -> Command e <> None).
Proof.
  intros H. apply DecodeNDJSONLine_Some in H as [_ Hv].
  apply validateEvent_None_substructure in Hv as [Hk Hsub].
  apply substructureError_None in Hsub as [H1 H2].
  split; [apply sourceTypeKnown_cases; exact Hk|]. split.
  - intros Hs. destruct (H1 Hs) as (h & -> & _). discriminate.
  - intros Hs. destruct H2 as (c & -> & _); [|discriminate].
    intros E. apply isCommandSource_not_http in Hs. rewrite E in Hs.
    discriminate.
Qed.

Lemma C2_matching_subobject_populated_witness :
  (SourceType event_cli = "http" \/ isCommandSource (SourceType event_cli))
  /\ (SourceType event_cli = "http" -> HTTP event_cli <> None)
  /\ (isCommandSource (SourceType event_cli) -> Command event_cli <> None).
Proof.
  apply (C2_matching_subobject_populated line_cli event_cli).
  vm_compute. reflexivity.
Defined.

(** C2 as stated fails: the decoder returns this cli event with both
    sub-objects populated. *)
Lemma C2_both_subobjects_counterexample :
  DecodeNDJSONLine line_cli_and_http = (Some event_cli_and_http, None)
  /\ SourceType event_cli_and_http = "cli"
  /\ HTTP event_cli_and_http <> None
  /\ Command event_cli_and_http <> None.
Proof.
  split; [vm_compute; reflexivity|].
  split; [reflexivity|]. split; discriminate.
Qed.

(** C3: when the trimmed line is a JSON object that lacks a required
    key, the decoder answers with one error, "missing required dump
    event field: " followed by the first key of [requiredEventKeys] that
    the object lacks. *)
Theorem C3_first_missing_key (line : string) (ms : list (string * string))
    (raw0 key : string) :
  parseDocument (strings_TrimSpace line) = Some (VObject ms, raw0) ->
  firstAbsentKey ms = Some key ->
  DecodeNDJSONLine line
  = (None, Some (errors_New ("missing required dump event field: " +:+ key))).
Proof.
  intros Hp Hk. unfold DecodeNDJSONLine.
  rewrite (parseDocument_nonblank _ _ Hp).
  destruct (json_Unmarshal_RawMap_object _ _ _ Hp) as (raw & -> & Hraw).
  unfold validateRequiredKeys.
  rewrite (firstMissingKey_find raw ms _ Hraw).
  unfold firstAbsentKey in Hk. rewrite Hk. reflexivity.
Qed.

Lemma C3_first_missing_key_witness :
  DecodeNDJSONLine line_without_id_payload
  = (None, Some (errors_New "missing required dump event field: id")).
Proof.
  eapply (C3_first_missing_key line_without_id_payload).
  - vm_compute. reflexivity.
  - vm_compute. reflexivity.
Defined.

(** C4, as the code has it: for an event that reaches the timestamp
    check, the decoder fails with the RFC3339Nano message exactly when
    [time.Parse] with the layout [RFC3339Nano] rejects the timestamp,
    and with the UTC message exactly when the timestamp parses and its
    UTC rendering differs from it.  [time.Parse] is not the grammar of
    RFC 3339: it takes every date-time of the grammar that is written
    with capital [T] and [Z] and without a leap second, so the first
    error is never given for one of those; a timestamp outside the
    grammar always fails, with one error or the other.  An event that is
    returned has a timestamp equal to its own UTC rendering. *)
Theorem C4_timestamp_check (line : string) (event : Event) :
  decodesTo line event ->
  passesEarlyChecks event = true ->
  (DecodeNDJSONLine line
     = (None, Some (errors_New "timestamp must be RFC3339Nano"))
   <-> time_Parse_RFC3339Nano (Timestamp event) = None)
  /\ (DecodeNDJSONLine line
        = (None, Some (errors_New "timestamp must be UTC (Z)"))
      <-> exists t, time_Parse_RFC3339Nano (Timestamp event) = Some t
                    /\ time_Format_UTC_RFC3339Nano t <> Timestamp event)
  /\ (rfc3339Form true (Timestamp event) = true ->
        DecodeNDJSONLine line
        <> (None, Some (errors_New "timestamp must be RFC3339Nano")))
  /\ (rfc3339 (Timestamp event) = false ->
        DecodeNDJSONLine line
        = (None, Some (errors_New "timestamp must be RFC3339Nano"))
        \/ DecodeNDJSONLine line
           = (None, Some (errors_New "timestamp must be UTC (Z)")))
  /\ (forall e, DecodeNDJSONLine line = (Some e, None) ->
        exists t, time_Parse_RFC3339Nano (Timestamp e) = Some t
                  /\ time_Format_UTC_RFC3339Nano t = Timestamp e).
Proof.
  intros Hd He.
  pose proof (timestamp_errors line event Hd He) as Herr.
  assert (Hparse :
    DecodeNDJSONLine line
    = (None, Some (errors_New "timestamp must be RFC3339Nano"))
    <-> time_Parse_RFC3339Nano (Timestamp event) = None).
  { rewrite (DecodeNDJSONLine_decodesTo _ _ Hd).
    unfold outcome. rewrite (validateEvent_early _ He).
    destruct (time_Parse_RFC3339Nano (Timestamp event)) as [t|];
      [|split; reflexivity].
    split; [|discriminate].
    destruct (negb _); [discriminate|].
    unfold substructureError. split_branches; intros H; discriminate H. }
  split; [exact Hparse|]. split; [|split; [|split]].
  - rewrite (DecodeNDJSONLine_decodesTo _ _ Hd).
    unfold outcome. rewrite (validateEvent_early _ He).
    destruct (time_Parse_RFC3339Nano (Timestamp event)) as [t|].
    + destruct (String.eqb_spec (time_Format_UTC_RFC3339Nano t)
                  (Timestamp event)) as [Hf|Hf]; cbn [negb].
      * split.
        -- unfold substructureError. split_branches; intros H; discriminate H.
        -- intros (t' & [= <-] & Hne). contradiction.
      * split; [|reflexivity]. intros _. exists t. auto.
    + split; [discriminate|]. intros (t & [=] & _).
  - intros Hplain H. apply Hparse in H.
    exact (time_Parse_rfc3339 _ Hplain H).
  - intros Hno. apply Herr.
    destruct (timestampCanonical (Timestamp event)) eqn:Hc; [|reflexivity].
    apply canonicalTimestamp_of_accepted, canonicalTimestamp_rfc3339Form,
      rfc3339Form_plain in Hc.
    congruence.
  - intros e H. apply DecodeNDJSONLine_Some in H as [_ Hv].
    exact (validateEvent_None_timestamp _ Hv).
Qed.

Lemma C4_timestamp_check_witness :
  DecodeNDJSONLine line_offset
  = (None, Some (errors_New "timestamp must be UTC (Z)")).
Proof.
  apply (C4_timestamp_check line_offset event_offset).
  - decodesTo_by_rules.
  - vm_compute. reflexivity.
  - exists (mkTime 1772277631 331000000). split.
    + vm_compute. reflexivity.
    + vm_compute. discriminate.
Defined.

(** C4 as stated fails in both directions.  The first timestamp is no
    date-time of RFC 3339 (its hour has one digit), [time.Parse] takes
    it, and the error is the UTC one, not the RFC3339Nano one.  The
    second is a date-time of RFC 3339 (a leap second), [time.Parse]
    rejects it, and the error is the RFC3339Nano one. *)
Lemma C4_not_the_grammar_counterexample :
  (rfc3339 "2026-02-28T1:20:31Z" = false
   /\ DecodeNDJSONLine line_short_hour
      = (None, Some (errors_New "timestamp must be UTC (Z)")))
  /\ (rfc3339 "2016-12-31T23:59:60Z" = true
      /\ DecodeNDJSONLine line_leap_second
         = (None, Some (errors_New "timestamp must be RFC3339Nano"))).
Proof. repeat split; vm_compute; reflexivity. Qed.

(** C5: when the line has passed the presence checks and the typed
    decode, a schema version other than 1 gives the sentinel
    [ErrUnsupportedSchemaVersion], whatever the other fields hold; the
    sentinel is no [errors.New] value, whatever its message. *)
Theorem C5_unsupported_version_first (line : string) (event : Event) :
  decodesTo line event ->
  SchemaVersion event <> SchemaVersion_const ->
  DecodeNDJSONLine line = (None, Some ErrUnsupportedSchemaVersion)
  /\ forall msg, ErrUnsupportedSchemaVersion <> errors_New msg.
Proof.
  intros Hd Hv. split; [|discriminate].
  rewrite (DecodeNDJSONLine_decodesTo _ _ Hd).
  unfold outcome, validateEvent.
  destruct (Z.eqb_spec (SchemaVersion event) SchemaVersion_const) as [E|E];
    [contradiction|reflexivity].
Qed.

Lemma C5_unsupported_version_first_witness :
  DecodeNDJSONLine line_version2 = (None, Some ErrUnsupportedSchemaVersion)
  /\ forall msg, ErrUnsupportedSchemaVersion <> errors_New msg.
Proof.
  apply (C5_unsupported_version_first line_version2 event_version2).
  - decodesTo_by_rules.
  - vm_compute. discriminate.
Defined.

(** C6: for an event that reaches the check on the sub-objects: with
    source type http, a missing [http] gives the "required" error and an
    [http] with an empty method, scheme, host or path gives the "missing
    required fields" error; with source type cli, worker or cron, a
    missing [command] gives its "required" error and an empty name its
    "name" error; an event that is returned has the sub-object of its
    source type, with those members non-empty. *)
Theorem C6_conditional_substructure (line : string) (event : Event) :
  decodesTo line event ->
  reachesSubstructureCheck event = true ->
  (SourceType event = "http" ->
     (HTTP event = None ->
        DecodeNDJSONLine line
        = (None, Some (errors_New
                         "http metadata is required when sourceType is http")))
     /\ (forall h, HTTP event = Some h -> ~ httpComplete h ->
           DecodeNDJSONLine line
           = (None, Some (errors_New
                            "http metadata is missing required fields"))))
  /\ (isCommandSource (SourceType event) ->
        (Command event = None ->
           DecodeNDJSONLine line
           = (None, Some (errors_New
                "command metadata is required when sourceType is cli, worker, or cron")))
        /\ (forall c, Command event = Some c -> CommandMeta_Name c = "" ->
              DecodeNDJSONLine line
              = (None, Some (errors_New
                   "command metadata is missing required field: name"))))
  /\ (DecodeNDJSONLine line = (Some event, None) ->
        (SourceType event = "http" ->
           exists h, HTTP event = Some h /\ httpComplete h)
        /\ (isCommandSource (SourceType event) ->
              exists c, Command event = Some c /\ CommandMeta_Name c <> "")).
Proof.
  intros Hd Hr.
  rewrite (DecodeNDJSONLine_decodesTo _ _ Hd).
  unfold outcome. rewrite (validateEvent_substructure _ Hr).
  split; [|split].
  - intros Hs. unfold substructureError. rewrite Hs. cbn [String.eqb Ascii.eqb Bool.eqb].
    split.
    + intros ->. reflexivity.
    + intros h -> Hn.
      destruct (String.eqb_spec (HTTPMeta_Method h) ""); [reflexivity|].
      destruct (String.eqb_spec (HTTPMeta_Scheme h) ""); [reflexivity|].
      destruct (String.eqb_spec (HTTPMeta_Host h) ""); [reflexivity|].
      destruct (String.eqb_spec (HTTPMeta_Path h) ""); [reflexivity|].
      exfalso. apply Hn. unfold httpComplete. auto.
  - intros Hs. unfold substructureError.
    rewrite (isCommandSource_not_http _ Hs). split.
    + intros ->. reflexivity.
    + intros c -> ->. reflexivity.
  - destruct (substructureError event) eqn:Hsub; [discriminate|].
    intros _. apply substructureError_None in Hsub as [H1 H2].
    split; [exact H1|]. intros Hs. apply H2. intros E.
    apply isCommandSource_not_http in Hs. rewrite E in Hs. discriminate.
Qed.

Lemma C6_conditional_substructure_witness :
  DecodeNDJSONLine line_http_without_meta
  = (None, Some (errors_New
                   "http metadata is required when sourceType is http")).
Proof.
  apply (C6_conditional_substructure line_http_without_meta
           event_http_without_meta).
  - decodesTo_by_rules.
  - vm_compute. reflexivity.
  - reflexivity.
  - reflexivity.
Defined.

(** C7: a line that is empty once its leading and trailing white space
    is trimmed gives neither an event nor an error. *)
Theorem C7_blank_line_skipped (line : string) :
  strings_TrimSpace line = "" ->
  DecodeNDJSONLine line = (None, None).
Proof.
  intros H. unfold DecodeNDJSONLine. rewrite H. reflexivity.
Qed.

Lemma C7_blank_line_skipped_witness :
  strings_TrimSpace "   " = "" /\ DecodeNDJSONLine "   " = (None, None).
Proof.
  split; [reflexivity | apply (C7_blank_line_skipped "   "); reflexivity].
Defined.

(** C8, as the code has it: when one member of the line gives the trace,
    the event that is returned has one frame for each element of that
    array, in order, and the line of a frame is the integer that the
    element writes for it, whatever its sign: the one of its last [line]
    member that holds a number, and zero when it has none.  The decoder
    never looks at the sign. *)
Theorem C8_trace_lines_as_written (line : string)
    (ms : list (string * string)) (raw0 v : string) (e : Event) :
  parseDocument (strings_TrimSpace line) = Some (VObject ms, raw0) ->
  valuesNamed Event_names "trace" ms = [v] ->
  DecodeNDJSONLine line = (Some e, None) ->
  exists es,
    shapeOf v = Some (VArray es)
    /\ option_map (map TraceFrame_Line) (Trace e) = Some (map lineWritten es).
Proof.
  intros Hp Hv H. change (fieldValues Event_names 12 ms = [v]) in Hv.
  apply DecodeNDJSONLine_Some in H as [Hd _].
  destruct (decodesTo_object _ _ Hd) as (ms' & raw0' & Hp' & Hpres & m & Hm & <-).
  rewrite Hp in Hp'. injection Hp' as <- <-.
  pose proof (presenceError_trace _ Hpres) as Harr. unfold memberShape in Harr.
  destruct (memberValue ms "trace") as [vt|] eqn:Evt; [|discriminate].
  destruct (lastValue_fieldValues Event_names "trace" 12 ms None vt eq_refl Evt)
    as [|Hin]; [discriminate|].
  rewrite Hv in Hin. destruct Hin as [<-|[]].
  destruct (shapeOf v) as [[| | | |es|]|] eqn:Hs; try discriminate.
  exists es. split; [reflexivity|].
  pose proof (decodeMembers_trace _ _ _ Hm) as Ht. rewrite Hv in Ht.
  destruct Ht as (x & Hx & ->).
  unfold decodeSlice in Hx. rewrite Hs in Hx. cbn [eventOf zeroEventMem fst snd Trace zeroEvent app] in Hx.
  destruct es as [|e0 es]; [injection Hx as <-; reflexivity|].
  apply bindR_inr in Hx as (l & Hl & [= <-]). cbn [fst option_map].
  rewrite (decodeElems_Line _ _ Hl). reflexivity.
Qed.

Lemma C8_trace_lines_as_written_witness :
  exists es,
    shapeOf (jsonText "[{'file':'a.php','line':-3}]") = Some (VArray es)
    /\ option_map (map TraceFrame_Line) (Trace event_negative_trace)
       = Some (map lineWritten es).
Proof.
  eapply (C8_trace_lines_as_written line_negative_trace);
    [ vm_compute; reflexivity | vm_compute; reflexivity
    | vm_compute; reflexivity ].
Defined.

(** C8 as stated fails: the decoder returns this event, whose trace
    frame carries the line -3. *)
Lemma C8_negative_line_counterexample :
  DecodeNDJSONLine line_negative_trace = (Some event_negative_trace, None)
  /\ Trace event_negative_trace = Some [mkTraceFrame "a.php" (-3) ""]
  /\ ~ (0 < TraceFrame_Line (mkTraceFrame "a.php" (-3) ""))%Z.
Proof.
  split; [vm_compute; reflexivity|]. split; [reflexivity|].
  cbn. lia.
Qed.

(** C9, as the code has it: an event that meets the field rules, whose
    strings are valid UTF-8, whose integers are in the range of [int],
    whose [args] slice is nil or not empty, whose trace is not nil and
    whose payload is one JSON value in the compact, HTML-escaped form
    that [json.Marshal] writes (at most 9999 levels deep) is serialized
    to a line that decodes, with no error, to the same event. *)
Theorem C9_marshal_decode_round_trip (e : Event) :
  fieldRules e = true -> keepsEvent e = true ->
  exists line,
    json_Marshal_Event e = inr line
    /\ DecodeNDJSONLine line = (Some e, None).
Proof.
  intros Hrules K.
  assert (exists p fs, Payload e = Some p /\ compactRaw p = true
                       /\ Trace e = Some fs) as (p & fs & Hp & Hc & Ht).
  { unfold keepsEvent in K. split_keeps K.
    destruct (Payload e) as [p|]; [|discriminate].
    destruct (Trace e) as [fs|]; [|discriminate]. eauto. }
  destruct (compactRaw_spec _ Hc) as [Vp _].
  exists (encodeObject (membersEvent e p)).
  split; [apply json_Marshal_Event_compact; assumption|].
  apply (DecodeNDJSONLine_accepts _ (map quoteMember (membersEvent e p))
           (encodeObject (membersEvent e p))).
  - rewrite strings_TrimSpace_encodeObject.
    apply (Value_parseDocument 0). apply Value_encodeEvent. exact Vp.
  - apply presenceRules_encoded; [exact Vp|eauto].
  - rewrite strings_TrimSpace_encodeObject.
    apply json_Unmarshal_Event_encoded; assumption.
  - exact Hrules.
Qed.

Lemma C9_marshal_decode_round_trip_witness :
  fieldRules event_round_trip = true /\ keepsEvent event_round_trip = true
  /\ exists line,
       json_Marshal_Event event_round_trip = inr line
       /\ DecodeNDJSONLine line = (Some event_round_trip, None).
Proof.
  split; [vm_compute; reflexivity|]. split; [vm_compute; reflexivity|].
  apply (C9_marshal_decode_round_trip event_round_trip);
    vm_compute; reflexivity.
Defined.

(** C9 as stated fails: this event is built from valid field values (its
    payload is valid JSON), its line decodes without error, and the
    event that comes back has another payload, [json.Marshal] having
    compacted it. *)
Lemma C9_payload_compacted_counterexample :
  validateEvent event_spaced_payload = None
  /\ Trace event_spaced_payload = Some []
  /\ exists line,
       json_Marshal_Event event_spaced_payload = inr line
       /\ DecodeNDJSONLine line = (Some event_compacted_payload, None)
       /\ event_compacted_payload <> event_spaced_payload.
Proof.
  split; [vm_compute; reflexivity|]. split; [reflexivity|]. eexists.
  split; [vm_compute; reflexivity|].
  split; [vm_compute; reflexivity|]. discriminate.
Qed.

(** C10: the decoder never answers "payload must be valid JSON": the
    payload bytes that [json.Valid] is asked about were delimited by the
    scanner when it accepted the line, so they are a value of the
    grammar. *)
Theorem C10_payload_error_unreachable (line : string) :
  snd (DecodeNDJSONLine line)
  <> Some (errors_New "payload must be valid JSON").
Proof.
  unfold DecodeNDJSONLine.
  destruct (String.eqb (strings_TrimSpace line) ""); [discriminate|].
  destruct (json_Unmarshal_RawMap _) as [err|raw] eqn:Hraw.
  { pose proof (json_Unmarshal_RawMap_errs (strings_TrimSpace line)) as He.
    rewrite Hraw in He. cbn [snd]. destruct He as [-> | ->]; discriminate. }
  destruct (validateRequiredKeys raw) as [err|] eqn:Hkeys.
  { cbn [snd]. intros [= ->].
    apply (validateRequiredKeys_messages _ _ Hkeys). reflexivity. }
  destruct (json_Unmarshal_Event _) as [err|event] eqn:Hev.
  { pose proof (json_Unmarshal_Event_errs (strings_TrimSpace line)) as He.
    rewrite Hev in He. cbn [snd]. destruct He as [-> | ->]; discriminate. }
  pose proof (validateEvent_payload_valid _ (json_Unmarshal_Event_payloadOK _ _ Hev))
    as Hv.
  destruct (validateEvent event) as [err|]; cbn [snd]; [|discriminate].
  intros [= ->]. apply Hv. reflexivity.
Qed.

(** * Further properties *)

(** X1: the decoder answers with nothing at all exactly for the lines
    that are blank once trimmed, and it never answers with both an event
    and an error. *)
Theorem X1_outcomes (line : string) :
  (DecodeNDJSONLine line = (None, None) <-> strings_TrimSpace line = "")
  /\ (forall e err, DecodeNDJSONLine line <> (Some e, Some err)).
Proof.
  unfold DecodeNDJSONLine.
  destruct (String.eqb_spec (strings_TrimSpace line) "") as [E|E].
  { split; [tauto|discriminate]. }
  destruct (json_Unmarshal_RawMap _) as [?|raw];
    [split; [split; [discriminate|contradiction]|discriminate]|].
  destruct (validateRequiredKeys raw);
    [split; [split; [discriminate|contradiction]|discriminate]|].
  destruct (json_Unmarshal_Event _) as [?|event];
    [split; [split; [discriminate|contradiction]|discriminate]|].
  destruct (validateEvent event);
    split; try discriminate; split; try discriminate; contradiction.
Qed.

(** X2: every error of the decoder is a syntax or type error of
    encoding/json, the sentinel [ErrUnsupportedSchemaVersion], the
    "missing required dump event field" error for one of the twelve
    required keys, or an [errors.New] value with one of thirteen fixed
    messages. *)
Theorem X2_error_catalogue (line : string) (err : error) :
  snd (DecodeNDJSONLine line) = Some err -> expectedError err.
Proof.
  unfold DecodeNDJSONLine.
  destruct (String.eqb (strings_TrimSpace line) ""); [discriminate|].
  destruct (json_Unmarshal_RawMap _) as [e|raw] eqn:Hraw.
  { pose proof (json_Unmarshal_RawMap_errs (strings_TrimSpace line)) as He.
    rewrite Hraw in He. cbn [snd]. intros [= <-]. unfold expectedError.
    destruct He as [-> | ->]; tauto. }
  destruct (validateRequiredKeys raw) as [e|] eqn:Hkeys.
  { cbn [snd]. intros [= <-]. exact (validateRequiredKeys_expected _ _ Hkeys). }
  destruct (json_Unmarshal_Event _) as [e|event] eqn:Hev.
  { pose proof (json_Unmarshal_Event_errs (strings_TrimSpace line)) as He.
    rewrite Hev in He. cbn [snd]. intros [= <-]. unfold expectedError.
    destruct He as [-> | ->]; tauto. }
  destruct (validateEvent event) as [e|] eqn:Hv; cbn [snd]; [|discriminate].
  intros [= <-].
  exact (validateEvent_expected _ _ (json_Unmarshal_Event_payloadOK _ _ Hev) Hv).
Qed.

Lemma X2_error_catalogue_witness :
  snd (DecodeNDJSONLine line_offset)
  = Some (errors_New "timestamp must be UTC (Z)")
  /\ expectedError (errors_New "timestamp must be UTC (Z)").
Proof.
  split; [vm_compute; reflexivity|].
  apply (X2_error_catalogue line_offset). vm_compute. reflexivity.
Defined.

(** X3: an event that the decoder returns meets every field rule that
    [validateEvent] checks, and its payload is a non-empty text that is
    valid JSON. *)
Theorem X3_returned_event_is_valid (line : string) (e : Event) :
  DecodeNDJSONLine line = (Some e, None) ->
  fieldRules e = true
  /\ exists p, Payload e = Some p /\ p <> "" /\ json_Valid p = true.
Proof.
  intros H. apply DecodeNDJSONLine_Some in H as [_ Hv].
  apply validateEvent_None_fieldRules in Hv as (Hr & Hlen & Hvalid).
  split; [exact Hr|].
  destruct (Payload e) as [p|]; cbn [lenBytes bytesOf] in *; [|congruence].
  exists p. split; [reflexivity|]. split; [|exact Hvalid].
  intros ->. apply Hlen. reflexivity.
Qed.

Lemma X3_returned_event_is_valid_witness :
  fieldRules event_cli = true
  /\ exists p, Payload event_cli = Some p /\ p <> "" /\ json_Valid p = true.
Proof.
  apply (X3_returned_event_is_valid line_cli event_cli).
  vm_compute. reflexivity.
Defined.

(** X4: a trimmed line that is valid JSON without being an object never
    gives an event: [null] leaves the raw map empty, so the first
    required key is reported missing; a string, a number, a boolean and
    an array are type errors of encoding/json. *)
Theorem X4_top_level_not_an_object (line raw0 : string) (sh : shape) :
  parseDocument (strings_TrimSpace line) = Some (sh, raw0) ->
  (forall ms, sh <> VObject ms) ->
  DecodeNDJSONLine line
  = (None,
     Some (match sh with
           | VNull =>
               errors_New "missing required dump event field: schemaVersion"
           | _ => json_UnmarshalTypeError
           end)).
Proof.
  intros Hp Hsh. unfold DecodeNDJSONLine.
  rewrite (parseDocument_nonblank _ _ Hp).
  unfold json_Unmarshal_RawMap. rewrite Hp.
  destruct sh; try reflexivity.
  exfalso. eapply Hsh. reflexivity.
Qed.

Lemma X4_top_level_not_an_object_witness :
  DecodeNDJSONLine " [1, 2] " = (None, Some json_UnmarshalTypeError).
Proof.
  apply (X4_top_level_not_an_object " [1, 2] " "[1, 2]" (VArray ["1"; "2"])).
  - vm_compute. reflexivity.
  - discriminate.
Defined.

(** X5: the two dump methods of the application agree on the schema
    version, whatever the state of the application: an event that
    [App.DecodeDumpEventNDJSONLine] returns carries the version that
    [App.SupportedDumpEventSchemaVersion] reports, and a line whose
    typed decode gives another version is refused with
    [ErrUnsupportedSchemaVersion]. *)
Theorem X5_app_decodes_supported_version {Context : Type}
    (a : App Context) (line : string) (e : Event) :
  (DecodeDumpEventNDJSONLine a line = (Some e, None) ->
   SchemaVersion e = SupportedDumpEventSchemaVersion a)
  /\ (decodesTo line e ->
      SchemaVersion e <> SupportedDumpEventSchemaVersion a ->
      DecodeDumpEventNDJSONLine a line
      = (None, Some ErrUnsupportedSchemaVersion)).
Proof.
  unfold DecodeDumpEventNDJSONLine, SupportedDumpEventSchemaVersion. split.
  - intros H. apply DecodeNDJSONLine_Some in H as [_ Hv].
    unfold validateEvent in Hv.
    destruct (Z.eqb_spec (SchemaVersion e) SchemaVersion_const) as [E|E];
      [exact E|discriminate].
  - intros Hd Hv. rewrite (DecodeNDJSONLine_decodesTo _ _ Hd).
    unfold outcome, validateEvent.
    destruct (Z.eqb_spec (SchemaVersion e) SchemaVersion_const) as [E|E];
      [contradiction|reflexivity].
Qed.

Lemma X5_app_decodes_supported_version_witness :
  SchemaVersion event_cli = SupportedDumpEventSchemaVersion (startup NewApp tt)
  /\ DecodeDumpEventNDJSONLine (startup NewApp tt) line_version2
     = (None, Some ErrUnsupportedSchemaVersion).
Proof.
  split.
  - apply (X5_app_decodes_supported_version (startup NewApp tt) line_cli
             event_cli).
    vm_compute. reflexivity.
  - apply (X5_app_decodes_supported_version (startup NewApp tt) line_version2
             event_version2).
    + decodesTo_by_rules.
    + vm_compute. discriminate.
Defined.

(** X6: for a line that is a JSON object, the error "requestId must be
    null or string" is the answer exactly when the object has the twelve
    required keys and its [requestId] is neither [null] nor a string;
    nothing else of the line is looked at before. *)
Theorem X6_requestId_type (line : string) (ms : list (string * string))
    (raw0 : string) :
  parseDocument (strings_TrimSpace line) = Some (VObject ms, raw0) ->
  (DecodeNDJSONLine line
   = (None, Some (errors_New "requestId must be null or string"))
   <-> firstAbsentKey ms = None
       /\ isNullOrString (memberShape ms "requestId") = false).
Proof.
  intros Hp. rewrite (DecodeNDJSONLine_object _ _ _ Hp).
  unfold presenceError.
  destruct (firstAbsentKey ms) as [key|].
  { split; [|intros [[=] _]]. rewrite append_cons. discriminate. }
  destruct (isNullOrString (memberShape ms "requestId")); cbn [negb].
  2: { split; auto. }
  split; [|intros [_ [=]]]. intros H. exfalso. revert H.
  destruct (negb (isNullOrBoolean _)); [discriminate|].
  destruct (negb (isArray _)); [discriminate|].
  apply later_stages_messages. not_event_message.
Qed.

Lemma X6_requestId_type_witness :
  DecodeNDJSONLine (line_coarse_types "123" "'no'" "{}")
  = (None, Some (errors_New "requestId must be null or string")).
Proof.
  eapply (X6_requestId_type (line_coarse_types "123" "'no'" "{}"));
    [vm_compute; reflexivity|].
  split; vm_compute; reflexivity.
Defined.

(** X7: for a line that is a JSON object, the error "isDd must be a
    boolean" is the answer exactly when the object has the twelve
    required keys, its [requestId] is [null] or a string and its [isDd]
    is neither a boolean nor [null]: a [null] for [isDd] passes this
    check. *)
Theorem X7_isDd_type (line : string) (ms : list (string * string))
    (raw0 : string) :
  parseDocument (strings_TrimSpace line) = Some (VObject ms, raw0) ->
  (DecodeNDJSONLine line = (None, Some (errors_New "isDd must be a boolean"))
   <-> firstAbsentKey ms = None
       /\ isNullOrString (memberShape ms "requestId") = true
       /\ isNullOrBoolean (memberShape ms "isDd") = false).
Proof.
  intros Hp. rewrite (DecodeNDJSONLine_object _ _ _ Hp).
  unfold presenceError.
  destruct (firstAbsentKey ms) as [key|].
  { split; [|intros [[=] _]]. rewrite append_cons. discriminate. }
  destruct (isNullOrString (memberShape ms "requestId")); cbn [negb].
  2: { split; [discriminate|intros (_ & [=] & _)]. }
  destruct (isNullOrBoolean (memberShape ms "isDd")); cbn [negb].
  2: { split; auto. }
  split; [|intros (_ & _ & [=])]. intros H. exfalso. revert H.
  destruct (negb (isArray _)); [discriminate|].
  apply later_stages_messages. not_event_message.
Qed.

Lemma X7_isDd_type_witness :
  DecodeNDJSONLine (line_coarse_types "null" "'no'" "{}")
  = (None, Some (errors_New "isDd must be a boolean")).
Proof.
  eapply (X7_isDd_type (line_coarse_types "null" "'no'" "{}"));
    [vm_compute; reflexivity|].
  repeat split; vm_compute; reflexivity.
Defined.

(** X8: for a line that is a JSON object, the error "trace must be an
    array" is the answer exactly when the object has the twelve required
    keys, [requestId] and [isDd] pass their checks and [trace] is not an
    array, [null] included; this comes before the typed decode and the
    check of the schema version. *)
Theorem X8_trace_type (line : string) (ms : list (string * string))
    (raw0 : string) :
  parseDocument (strings_TrimSpace line) = Some (VObject ms, raw0) ->
  (DecodeNDJSONLine line = (None, Some (errors_New "trace must be an array"))
   <-> firstAbsentKey ms = None
       /\ isNullOrString (memberShape ms "requestId") = true
       /\ isNullOrBoolean (memberShape ms "isDd") = true
       /\ isArray (memberShape ms "trace") = false).
Proof.
  intros Hp. rewrite (DecodeNDJSONLine_object _ _ _ Hp).
  unfold presenceError.
  destruct (firstAbsentKey ms) as [key|].
  { split; [|intros [[=] _]]. rewrite append_cons. discriminate. }
  destruct (isNullOrString (memberShape ms "requestId")); cbn [negb].
  2: { split; [discriminate|intros (_ & [=] & _)]. }
  destruct (isNullOrBoolean (memberShape ms "isDd")); cbn [negb].
  2: { split; [discriminate|intros (_ & _ & [=] & _)]. }
  destruct (isArray (memberShape ms "trace")); cbn [negb].
  2: { split; auto. }
  split; [|intros (_ & _ & _ & [=])]. intros H. exfalso. revert H.
  apply later_stages_messages. not_event_message.
Qed.

Lemma X8_trace_type_witness :
  DecodeNDJSONLine (line_coarse_types "null" "null" "null")
  = (None, Some (errors_New "trace must be an array")).
Proof.
  eapply (X8_trace_type (line_coarse_types "null" "null" "null"));
    [vm_compute; reflexivity|].
  repeat split; vm_compute; reflexivity.
Defined.

(** X9: the decoder answers with the syntax error of encoding/json
    exactly for the lines that are not blank and not valid JSON; a line
    that is valid JSON never gives it, whatever its members hold. *)
Theorem X9_syntax_error_iff_invalid (line : string) :
  snd (DecodeNDJSONLine line) = Some json_SyntaxError
  <-> strings_TrimSpace line <> ""
      /\ json_Valid (strings_TrimSpace line) = false.
Proof.
  unfold DecodeNDJSONLine.
  destruct (String.eqb_spec (strings_TrimSpace line) "") as [E|E].
  { split; [discriminate|intros [H _]; contradiction]. }
  destruct (json_Valid (strings_TrimSpace line)) eqn:Hvalid.
  - split; [|intros [_ [=]]]. intros H. exfalso. revert H.
    pose proof (json_Unmarshal_RawMap_typeErr _ Hvalid) as Hm.
    pose proof (json_Unmarshal_Event_typeErr _ Hvalid) as He.
    destruct (json_Unmarshal_RawMap _) as [err|raw];
      [cbn in Hm; subst err; discriminate|].
    destruct (validateRequiredKeys raw) as [err|] eqn:Hk.
    { cbn [snd]. intros [= ->]. exact (validateRequiredKeys_not_json _ Hk). }
    destruct (json_Unmarshal_Event _) as [err|event];
      [cbn in He; subst err; discriminate|].
    destruct (validateEvent event) as [err|] eqn:Hv; [|discriminate].
    cbn [snd]. intros [= ->]. exact (validateEvent_not_json _ Hv).
  - split; [auto|]. intros _.
    unfold json_Valid in Hvalid. unfold json_Unmarshal_RawMap.
    destruct (parseDocument (strings_TrimSpace line)); [discriminate|].
    reflexivity.
Qed.

(** X10: ASCII white space before and after a line (the line feed, or
    carriage return and line feed, that ends it in a stream) changes
    nothing of the outcome of the decoder. *)
Theorem X10_padding_is_ignored (pre line suf : string) :
  allSat asciiSpace pre = true -> allSat asciiSpace suf = true ->
  DecodeNDJSONLine (pre +:+ line +:+ suf) = DecodeNDJSONLine line.
Proof.
  intros Hpre Hsuf. unfold DecodeNDJSONLine.
  rewrite (strings_TrimSpace_padding _ _ _ Hpre Hsuf). reflexivity.
Qed.

Lemma X10_padding_is_ignored_witness :
  DecodeNDJSONLine ("  " +:+ line_cli +:+ CRLF) = DecodeNDJSONLine line_cli.
Proof.
  apply (X10_padding_is_ignored "  " line_cli CRLF); reflexivity.
Defined.

(** X11: of a line that is a JSON object, the decoder uses the members
    whose key names a field of [Event] (exactly or by case folding), in
    their order, and nothing else: two such lines that agree on these
    members have the same outcome, wherever their other members stand
    and whatever these hold (an error of encoding/json counts by its
    kind). *)
Theorem X11_other_members_ignored (line1 line2 : string)
    (ms1 ms2 : list (string * string)) (raw1 raw2 : string) :
  parseDocument (strings_TrimSpace line1) = Some (VObject ms1, raw1) ->
  parseDocument (strings_TrimSpace line2) = Some (VObject ms2, raw2) ->
  List.filter namesEventField ms1 = List.filter namesEventField ms2 ->
  DecodeNDJSONLine line1 = DecodeNDJSONLine line2.
Proof.
  intros H1 H2 Hms.
  rewrite (DecodeNDJSONLine_object _ _ _ H1), (DecodeNDJSONLine_object _ _ _ H2).
  rewrite (presenceError_named ms1), (presenceError_named ms2), Hms.
  rewrite (json_Unmarshal_Event_members _ _ _ H1),
    (json_Unmarshal_Event_members _ _ _ H2).
  rewrite (decodeMembers_named ms1), (decodeMembers_named ms2), Hms.
  reflexivity.
Qed.

Lemma X11_other_members_ignored_witness :
  DecodeNDJSONLine line_cli_extended = DecodeNDJSONLine line_cli.
Proof.
  eapply (X11_other_members_ignored line_cli_extended line_cli);
    [ vm_compute; reflexivity | vm_compute; reflexivity
    | vm_compute; reflexivity ].
Defined.

(** X12: the timestamp of an event that the decoder returns ends with
    the zone designator [Z]; a timestamp written with a numeric offset,
    [+00:00] included, is never accepted. *)
Theorem X12_timestamp_ends_with_Z (line : string) (e : Event) :
  DecodeNDJSONLine line = (Some e, None) ->
  exists pre, Timestamp e = pre +:+ "Z".
Proof.
  intros H. apply DecodeNDJSONLine_Some in H as [_ Hv].
  apply validateEvent_None_timestamp in Hv as (t & _ & Hf).
  rewrite <- Hf. apply time_Format_UTC_RFC3339Nano_Z.
Qed.

Lemma X12_timestamp_ends_with_Z_witness :
  exists pre, Timestamp event_cli = pre +:+ "Z".
Proof.
  apply (X12_timestamp_ends_with_Z line_cli event_cli).
  vm_compute. reflexivity.
Defined.

(** X13: the timestamp of an event that the decoder returns has the
    strict form: a year of four digits, month, day, hour, minute and
    second of two digits each, a valid date and a time of day below
    24:00:00, then [Z] or a period, one to nine digits of which the last
    is not [0], and [Z]. *)
Theorem X13_returned_timestamp_is_strict (line : string) (e : Event) :
  DecodeNDJSONLine line = (Some e, None) ->
  canonicalTimestamp (Timestamp e) = true.
Proof.
  intros H. apply DecodeNDJSONLine_Some in H as [_ Hv].
  apply validateEvent_None_timestamp in Hv as (t & Hp & Hf).
  apply canonicalTimestamp_of_accepted. unfold timestampCanonical.
  rewrite Hp. apply String.eqb_eq. exact Hf.
Qed.

Lemma X13_returned_timestamp_is_strict_witness :
  canonicalTimestamp (Timestamp event_cli) = true.
Proof.
  apply (X13_returned_timestamp_is_strict line_cli event_cli).
  vm_compute. reflexivity.
Defined.

(** X14: for an event that reaches the timestamp check, the decoder
    answers with one of its two timestamp errors exactly when the
    timestamp does not have the strict form; a timestamp of that form
    always passes, and one with a fraction that ends in [0], an hour of
    one digit, a comma or an offset never does. *)
Theorem X14_timestamp_errors_iff_not_strict (line : string) (event : Event) :
  decodesTo line event -> passesEarlyChecks event = true ->
  (DecodeNDJSONLine line
   = (None, Some (errors_New "timestamp must be RFC3339Nano"))
   \/ DecodeNDJSONLine line
      = (None, Some (errors_New "timestamp must be UTC (Z)")))
  <-> canonicalTimestamp (Timestamp event) = false.
Proof.
  intros Hd He. rewrite <- timestampCanonical_canonicalTimestamp.
  exact (timestamp_errors line event Hd He).
Qed.

Lemma X14_timestamp_errors_iff_not_strict_witness :
  DecodeNDJSONLine line_fraction_zero
  = (None, Some (errors_New "timestamp must be RFC3339Nano"))
  \/ DecodeNDJSONLine line_fraction_zero
     = (None, Some (errors_New "timestamp must be UTC (Z)")).
Proof.
  apply (X14_timestamp_errors_iff_not_strict line_fraction_zero
           event_fraction_zero).
  - decodesTo_by_rules.
  - vm_compute. reflexivity.
  - vm_compute. reflexivity.
Defined.

(** X15: the event of a line that has passed [validateRequiredKeys] and
    the typed decode holds a payload that is not empty and is valid
    JSON: in [validateEvent] neither the test [len(event.Payload) == 0]
    nor the test of [json.Valid] can fail. *)
Theorem X15_payload_is_never_empty (line : string) (e : Event) :
  decodesTo line e ->
  exists p, Payload e = Some p /\ p <> "" /\ json_Valid p = true.
Proof.
  intros Hd. pose proof Hd as (raw & _ & _ & _ & Hev).
  apply json_Unmarshal_Event_payloadOK in Hev. unfold payloadOK in Hev.
  pose proof (decodesTo_payload _ _ Hd) as Hlen. apply Nat.eqb_neq in Hlen.
  destruct (Payload e) as [p|]; [|contradiction Hlen; reflexivity].
  exists p. split; [reflexivity|]. split; [|exact Hev].
  intros ->. apply Hlen. reflexivity.
Qed.

Lemma X15_payload_is_never_empty_witness :
  exists p, Payload event_version2 = Some p /\ p <> ""
            /\ json_Valid p = true.
Proof.
  apply (X15_payload_is_never_empty line_version2 event_version2).
  decodesTo_by_rules.
Defined.

(** X16: every string of an event that the decoder returns is valid
    UTF-8 (the id, the timestamp, the names, the request id, the strings
    of the sub-objects, of the arguments and of the trace frames),
    whatever bytes the line holds: the typed decode replaces what is not
    UTF-8 by U+FFFD.  The payload is kept as raw bytes and is not
    covered. *)
Theorem X16_returned_strings_are_utf8 (line : string) (e : Event) :
  DecodeNDJSONLine line = (Some e, None) -> utf8Event e = true.
Proof.
  intros H. apply DecodeNDJSONLine_Some in H as [(raw & _ & _ & _ & Hev) _].
  exact (json_Unmarshal_Event_valid _ _ Hev).
Qed.

Lemma X16_returned_strings_are_utf8_witness :
  utf8_ValidString line_invalid_utf8 = false
  /\ exists e, DecodeNDJSONLine line_invalid_utf8 = (Some e, None)
               /\ utf8Event e = true.
Proof.
  split; [vm_compute; reflexivity|]. eexists. split.
  - vm_compute. reflexivity.
  - eapply (X16_returned_strings_are_utf8 line_invalid_utf8).
    vm_compute. reflexivity.
Defined.

(** X17: for an event of schema version 1 that reaches [validateEvent],
    the error "missing required dump event fields" is the answer exactly
    when the id, the timestamp, the source type, the project root, the
    SAPI or the payload format is the empty string (the payload cannot
    be empty then), and the error "invalid host metadata" exactly when
    none of them is and the host name is empty or the pid is not above
    zero. *)
Theorem X17_empty_fields_then_host (line : string) (e : Event) :
  decodesTo line e -> SchemaVersion e = SchemaVersion_const ->
  (DecodeNDJSONLine line
   = (None, Some (errors_New "missing required dump event fields"))
   <-> someRequiredStringEmpty e = true)
  /\ (DecodeNDJSONLine line = (None, Some (errors_New "invalid host metadata"))
      <-> someRequiredStringEmpty e = false /\ hostInvalid e = true).
Proof.
  intros Hd Hv. rewrite (DecodeNDJSONLine_decodesTo _ _ Hd).
  unfold outcome, validateEvent, someRequiredStringEmpty, hostInvalid.
  rewrite Hv, Z.eqb_refl, (decodesTo_payload _ _ Hd), orb_false_r.
  cbn [negb].
  destruct (String.eqb (ID e) "" || String.eqb (Timestamp e) ""
            || String.eqb (SourceType e) "" || String.eqb (ProjectRoot e) ""
            || String.eqb (PHPSAPI e) "" || String.eqb (PayloadFormat e) "").
  { split; split; try tauto; try discriminate. intros [[=] _]. }
  destruct (String.eqb (HostMeta_Hostname (Host e)) ""
            || (HostMeta_PID (Host e) <=? 0)%Z).
  { split; split; try tauto; discriminate. }
  split; (split; [|try discriminate; intros [_ [=]]]);
    intros H; exfalso; revert H; split_branches; discriminate.
Qed.

Lemma X17_empty_fields_then_host_witness :
  DecodeNDJSONLine line_empty_root
  = (None, Some (errors_New "missing required dump event fields"))
  /\ DecodeNDJSONLine line_bad_host
     = (None, Some (errors_New "invalid host metadata")).
Proof.
  split.
  - apply (X17_empty_fields_then_host line_empty_root event_empty_root);
      [decodesTo_by_rules|reflexivity|reflexivity].
  - apply (X17_empty_fields_then_host line_bad_host event_bad_host);
      [decodesTo_by_rules|reflexivity|split; reflexivity].
Defined.

(** X18: for an event that has passed the timestamp check, the error
    "sourceType must be one of: http, cli, worker, cron" is the answer
    exactly when the source type is none of the four, whatever the
    payload format and the sub-objects are, and the error "payloadFormat
    must be json for schemaVersion 1" exactly when the source type is
    one of them and the payload format is not [json]. *)
Theorem X18_source_type_then_format (line : string) (e : Event) :
  decodesTo line e -> passesEarlyChecks e = true ->
  timestampCanonical (Timestamp e) = true ->
  (DecodeNDJSONLine line
   = (None, Some (errors_New
                    "sourceType must be one of: http, cli, worker, cron"))
   <-> sourceTypeKnown (SourceType e) = false)
  /\ (DecodeNDJSONLine line
      = (None, Some (errors_New
                       "payloadFormat must be json for schemaVersion 1"))
      <-> sourceTypeKnown (SourceType e) = true
          /\ PayloadFormat e <> "json").
Proof.
  intros Hd He Ht. rewrite (DecodeNDJSONLine_decodesTo _ _ Hd).
  unfold outcome. rewrite (validateEvent_early _ He).
  unfold timestampCanonical in Ht.
  destruct (time_Parse_RFC3339Nano (Timestamp e)) as [t|]; [|discriminate].
  rewrite Ht. cbn [negb].
  destruct (sourceTypeKnown (SourceType e)); cbn [negb].
  2: { split; split; try tauto; try discriminate. intros [[=] _]. }
  destruct (String.eqb_spec (PayloadFormat e) "json") as [Hf|Hf]; cbn [negb].
  2: { split; split; try tauto; discriminate. }
  split; (split; [|try discriminate; intros [_ Hn]; contradiction]);
    intros H; exfalso; revert H; unfold substructureError;
    split_branches; discriminate.
Qed.

Lemma X18_source_type_then_format_witness :
  DecodeNDJSONLine line_job_text
  = (None, Some (errors_New
                   "sourceType must be one of: http, cli, worker, cron")).
Proof.
  apply (X18_source_type_then_format line_job_text event_job_text);
    [decodesTo_by_rules|reflexivity|vm_compute; reflexivity|reflexivity].
Defined.

(** X19: the outcome of the decoder does not depend on the order of the
    members of the object, as long as no two members select the same
    field of [Event] (exactly or by case folding): two lines whose
    objects hold the same members in different orders give the same
    event or the same error (an error of encoding/json counts by its
    kind). *)
Theorem X19_member_order_is_irrelevant (line1 line2 : string)
    (ms1 ms2 : list (string * string)) (raw1 raw2 : string) :
  parseDocument (strings_TrimSpace line1) = Some (VObject ms1, raw1) ->
  parseDocument (strings_TrimSpace line2) = Some (VObject ms2, raw2) ->
  Permutation ms1 ms2 -> fieldsOnce ms1 = true ->
  DecodeNDJSONLine line1 = DecodeNDJSONLine line2.
Proof.
  intros H1 H2 Hp Hd. apply distinctNats_NoDup in Hd.
  rewrite givenFields_fieldsGiven in Hd.
  rewrite (DecodeNDJSONLine_object _ _ _ H1), (DecodeNDJSONLine_object _ _ _ H2).
  rewrite (presenceError_Permutation _ _ Hp Hd).
  rewrite (json_Unmarshal_Event_members _ _ _ H1),
    (json_Unmarshal_Event_members _ _ _ H2).
  rewrite (decodeMembers_Permutation Event_names setEventField _ _ _
             setEventField_onMembers setEventField_swap Hp
             (Value_members _ _ _ (parseDocument_Value _ _ _ H1)) Hd).
  reflexivity.
Qed.

Lemma X19_member_order_is_irrelevant_witness :
  DecodeNDJSONLine line_cli = DecodeNDJSONLine line_cli_reversed.
Proof.
  eapply (X19_member_order_is_irrelevant line_cli line_cli_reversed);
    [ vm_compute; reflexivity | vm_compute; reflexivity
    | match goal with |- Permutation ?a _ => exact (Permutation_rev a) end
    | vm_compute; reflexivity ].
Defined.
